(* ===== verification/_CoqProject ===== *)
-Q . S2P
Prelude.v
CInt.v
Machine.v
Logic.v
Loops.v
Mem.v
Flags.v
ModRM.v
OpsAlu.v
OpsMove.v
OpsGroup.v
OpsSimd.v
OpsFpu.v
Backend.v
Toy.v
MemSpec.v
Syscall.v
Dispatch.v
Loader.v
Main.v
Safety.v
Invariant.v
Exec.v
Decode.v
Alu.v
Branch.v
Isolation.v
Total.v
Strings.v
Files.v
Arena.v
Calls.v
Mappings.v
Arith.v
Stack.v
Shifts.v
Load.v
Start.v
Reject.v
Deviations.v
Boot.v
Run.v
Move.v
Simd.v
Fpu.v
Byte.v
