(* ===== verification/Prelude.v ===== *)
(** fake-kernel: a verification library for the i386 user-mode emulator.

    The program runs a static Linux/i386 executable: main.c sets up 512 MiB of guest memory,
    loads the ELF file, lays out a stack, a thread block, a heap and an mmap arena, and
    interprets instructions; INT 0x80 enters a small kernel that answers Linux system calls
    with host calls.  This file holds what the other files share: notations, tactics, hint
    databases, and lemmas on the bits of integers and on lists indexed by [Z].

    * The model

    The C program keeps its state in one [i386] structure and in file-level globals; the
    record [Machine.machine] gathers them, with the state of the host as a parameter.  A C
    function is a computation of the monad [Machine.M]: it returns ([Ret]), ends the process
    ([Exited]), meets undefined behaviour of C ([Undef], with its kind), or runs out of the
    model's fuel ([NoFuel], shown not to happen).  C integers are integers of [Z] in the
    range of their type, with every conversion written out (CInt).

      CInt       C integer types and conversions; little-endian bytes
      Machine    state and monad                      cpu/cpu.h, globals of all files
      Logic      [runs], [respects], well-formedness, the [run] and [respects] tactics
      Loops      reasoning about [c_loop] and [c_while]
      Mem        guest memory                         mem/mem.c
      Flags      EFLAGS helpers                       cpu/ops.c, 40-82
      ModRM      8-bit registers, ModR/M, SIB         cpu/ops.c, 84-193; cpu/cpu.h
      OpsAlu     integer arithmetic and logic         cpu/ops.c
      OpsMove    moves, stack, control transfer       cpu/ops.c
      OpsGroup   shifts, multiply, divide, 0xFF       cpu/ops.c
      OpsSimd    MMX, SSE, REP and REPNE              cpu/ops.c
      OpsFpu     x87                                  cpu/ops.c
      Backend    the system calls, POSIX variant      syscall/backend_win32.c, #else arms
      Syscall    system-call dispatch                 syscall/syscall.c
      Dispatch   opcode tables, prefixes, INT, loop   cpu/ops.c, cpu/cpu.c
      Loader     ELF loader and initial stack         loader/loader.c
      Main       boot sequence and [main]             main.c
      Toy        a concrete host and machines, for the witnesses

    A definition keeps the name of the C function or variable it translates.  An instruction
    handler is one definition of one of the Ops files; [Dispatch.opcode_table] holds the names
    of handlers where the C table holds function pointers.  [Backend.HostOS] (libc calls on
    the host's state) and [OpsFpu.FloatOps] (host double arithmetic and libm, on bit
    patterns) are type classes: the theorems hold for every instance.

    * What is shown

      Safety, Invariant   every operation preserves the well-formedness of the machine, in
                          every state reached from boot, also at exit
      Total               every instruction and system call terminates
      Isolation           only INT touches the kernel's tables and the host
      MemSpec             guest memory is a bounds-checked little-endian memory
      Exec, Decode        operand decoding inverts the architecture's encoding of every
                          operand; 8-bit registers alias the 32-bit ones
      Alu, Arith, Shifts  ADD, ADC, SUB, SBB, CMP, OR, AND, XOR, TEST, INC, DEC, the
                          immediate groups, shifts, rotations, MUL, IMUL, DIV and IDIV
                          against the architecture's result and flags
      Move                MOV, XCHG, LEA, CMOVcc, MOVZX and MOVSX, as whole turns of the loop
      Byte                the 8-bit ADD, ADC, CMP, AND, XOR, TEST and MOV
      Simd, Fpu           MMX byte lanes, 16-byte copies; the circular buffer of the x87
                          unit implements the architecture's register stack
      Branch              CMP followed by Jcc branches on the relation of the operands
      Stack               PUSH and POP, CALL and RET, the system-call trampoline
      Strings             REP STOSB, REP MOVSB, REPNE SCASB are memset, memcpy, memchr
      Files               write, read, open, close and writev against a table of descriptors,
                          errors and short counts of the host included
      Arena               brk, mmap2 on every path, set_thread_area and rt_sigaction
      Mappings            blocks of the mmap arena never overlap, along any run of [emulate]
      Calls               which registers a system call may change; calls without effect
      Load, Start, Reject the loader puts the image and the stack of the i386 ABI in memory,
                          and refuses bad files with the machine otherwise unchanged
      Boot                what [main] has set up when the processor starts
      Run                 a program that prints a message and exits, from [main] to the end
      Deviations          where the program departs from the architecture or its comments

    [Arith], [Shifts], [Byte] and [Stack] state what the handlers do also where that is not what the
    architecture does (a flag left alone, a zero divisor ignored); the comment of the theorem
    says so.

    * Fuel

    Three recursions are cut by fuel.  [c_loop] and [c_while] allow 2^33 turns, more than a
    32-bit counter can count; [Total] shows that the loops stay below (lemmas with a measure
    in [Loops]).  [execute_opcode] takes one unit for each prefix byte; [prefix_fuel], the size
    of guest memory plus two, suffices because prefixes end where memory ends.  [emulate] takes
    one unit for each instruction: a guest program may run forever, so its theorems quantify
    over the fuel ([Invariant.emulate_reaches]).

    * Not modelled

    The Win32 arms of the back end and of main.c's [progname] (code for another platform, on
    the Win32 API); what is printed on the host's standard output and error by way of
    diagnostics, [g_trace] and [usage]; failure of [calloc] in [init_mem]; the contents of
    [double] arithmetic and of the host's files (parameters).  The uninitialised bytes the C
    program never reads are given as zeros.  A host on which [long] has 64 bits is assumed in
    the loader. *)
From stdpp Require Export base tactics list gmap option.
From Stdlib Require Export ZArith Lia.

Declare Scope emu_scope.
Delimit Scope emu_scope with emu.
#[global] Open Scope Z_scope.

(** * Hint databases

    [zrange]  ranges of C integer expressions ([0 <= u32 x < 2^32], ...);
    [run]     equations [prim args s = Ret v s'] used by the symbolic executor;
    [resp]    closure of guest code under a step preorder (type preservation,
              isolation);
    [handlers] the instruction handlers and their local helpers, to unfold;
    [wf]      preservation of the machine invariant by state updates. *)
Create HintDb zrange discriminated.
Create HintDb run discriminated.
Create HintDb resp discriminated.
Create HintDb handlers discriminated.
Create HintDb wf discriminated.
#[export] Hint Constants Opaque : zrange.
#[export] Hint Constants Opaque : run.
#[export] Hint Constants Opaque : resp.

(** * Bits of integers *)

(** An integer is an [n]-bit word exactly when it has no bit at or above [n]. *)
Lemma word_bits n x : 0 <= n ->
  (0 <= x < 2 ^ n <-> 0 <= x /\ forall i, n <= i -> Z.testbit x i = false).
Proof.
  intros Hn. split.
  - intros [H0 H1]. split; [done|]. intros i Hi.
    destruct (decide (x = 0)) as [->|Hx]; [apply Z.testbit_0_l|].
    apply Z.bits_above_log2; [done|].
    apply Z.log2_lt_pow2; [lia|]. eapply Z.lt_le_trans; [done|].
    apply Z.pow_le_mono_r; lia.
  - intros [H0 Hb]. split; [done|].
    replace x with (x mod 2 ^ n); [apply Z.mod_pos_bound; lia|].
    apply Z.bits_inj'. intros i Hi. destruct (decide (i < n)).
    + by rewrite Z.mod_pow2_bits_low by lia.
    + rewrite Z.mod_pow2_bits_high by lia. symmetry. apply Hb. lia.
Qed.

Lemma testbit_word_high n x i : 0 <= n -> 0 <= x < 2 ^ n -> n <= i ->
  Z.testbit x i = false.
Proof. intros Hn Hx. by apply (word_bits n x). Qed.

Lemma land_word n x y : 0 <= n -> 0 <= x < 2 ^ n -> 0 <= Z.land x y < 2 ^ n.
Proof.
  intros Hn Hx. apply word_bits; [done|]. split; [apply Z.land_nonneg; lia|].
  intros i Hi. by rewrite Z.land_spec, (testbit_word_high n x).
Qed.

Lemma lor_word n x y : 0 <= n -> 0 <= x < 2 ^ n -> 0 <= y < 2 ^ n ->
  0 <= Z.lor x y < 2 ^ n.
Proof.
  intros Hn Hx Hy. apply word_bits; [done|]. split; [apply Z.lor_nonneg; lia|].
  intros i Hi. by rewrite Z.lor_spec, (testbit_word_high n x), (testbit_word_high n y).
Qed.

Lemma lxor_word n x y : 0 <= n -> 0 <= x < 2 ^ n -> 0 <= y < 2 ^ n ->
  0 <= Z.lxor x y < 2 ^ n.
Proof.
  intros Hn Hx Hy. apply word_bits; [done|]. split; [apply Z.lxor_nonneg; lia|].
  intros i Hi. by rewrite Z.lxor_spec, (testbit_word_high n x), (testbit_word_high n y).
Qed.

(** Testing one bit with a mask, the idiom [x & (1 << n)]. *)
Lemma land_pow2_testbit x n : 0 <= n ->
  Z.land x (2 ^ n) = if Z.testbit x n then 2 ^ n else 0.
Proof.
  intros Hn. apply Z.bits_inj'. intros i Hi.
  rewrite Z.land_spec, Z.pow2_bits_eqb by done.
  destruct (Z.eqb_spec n i) as [->|Hne].
  - destruct (Z.testbit x i); [by rewrite Z.pow2_bits_true|by rewrite Z.testbit_0_l].
  - rewrite andb_false_r. destruct (Z.testbit x n).
    + by rewrite Z.pow2_bits_false by lia.
    + by rewrite Z.testbit_0_l.
Qed.

(** The sign bit of an [n+1]-bit word as a comparison. *)
Lemma testbit_top n x : 0 <= n -> 0 <= x < 2 ^ (n + 1) ->
  Z.testbit x n = (2 ^ n <=? x).
Proof.
  intros Hn Hx. rewrite Z.pow_add_r, Z.pow_1_r in Hx by lia.
  assert (0 < 2 ^ n) by (apply Z.pow_pos_nonneg; lia).
  destruct (Z.leb_spec (2 ^ n) x).
  - apply Z.testbit_true; [done|].
    replace (x / 2 ^ n) with 1; [done|]. apply (Z.div_unique x _ 1 (x - 2 ^ n)); lia.
  - apply Z.testbit_false; [done|]. by rewrite Z.div_small by lia.
Qed.

Lemma testbit_b2z b : Z.testbit (Z.b2z b) 0 = b.
Proof. by destruct b. Qed.

Lemma b2z_neq0 b : negb (Z.b2z b =? 0) = b.
Proof. by destruct b. Qed.

(** The C idiom [(x >> n) & 1]. *)
Lemma shiftr_land1 x n : 0 <= n ->
  Z.land (Z.shiftr x n) 1 = Z.b2z (Z.testbit x n).
Proof.
  intros Hn. change 1 with (Z.ones 1). rewrite Z.land_ones by lia.
  rewrite Z.shiftr_div_pow2 by done. change (2 ^ 1) with 2.
  rewrite <- Z.bit0_mod, Z.div_pow2_bits by lia. done.
Qed.

(** * Lists indexed by a C integer *)

Section lists.
Context {A : Type} `{Inhabited A}.
Implicit Types (l : list A) (i j : Z).

(** Reading cell [i] of a list as a C array. *)
Definition zget (l : list A) (i : Z) : A := l !!! Z.to_nat i.
(** Writing cell [i]. *)
Definition zset (l : list A) (i : Z) (x : A) : list A := <[Z.to_nat i := x]> l.

Lemma zset_length l i x : length (zset l i x) = length l.
Proof. apply length_insert. Qed.

Lemma zget_zset_eq l i x : 0 <= i < Z.of_nat (length l) -> zget (zset l i x) i = x.
Proof. intros Hi. unfold zget, zset. apply list_lookup_total_insert_eq. lia. Qed.

Lemma zget_zset_ne l i j x : 0 <= i -> 0 <= j -> i <> j ->
  zget (zset l i x) j = zget l j.
Proof. intros. unfold zget, zset. apply list_lookup_total_insert_ne. lia. Qed.

Lemma zset_Forall (P : A -> Prop) l i x : Forall P l -> P x -> Forall P (zset l i x).
Proof. intros. unfold zset. by apply Forall_insert. Qed.

Lemma zget_Forall (P : A -> Prop) l i :
  Forall P l -> 0 <= i < Z.of_nat (length l) -> P (zget l i).
Proof.
  intros HP Hi. unfold zget. eapply Forall_lookup_1; [done|].
  apply list_lookup_lookup_total_lt. lia.
Qed.

Lemma zget_Forall_default (P : A -> Prop) l i :
  Forall P l -> P inhabitant -> P (zget l i).
Proof.
  intros HP Hd. unfold zget. destruct (decide (Z.to_nat i < length l)%nat).
  - eapply Forall_lookup_1; [done|]. by apply list_lookup_lookup_total_lt.
  - by rewrite list_lookup_total_alt, lookup_ge_None_2 by lia.
Qed.
End lists.

(** * Tactics *)

(** Case analysis on every [match]/[if] of the goal, keeping equations. *)
Ltac cases :=
  repeat match goal with
  | |- context [if ?b then _ else _] => destruct b eqn:?
  | |- context [match ?x with _ => _ end] => destruct x eqn:?
  end.

(** Turn boolean comparisons of [Z] in the context into propositions. *)
Ltac zbool :=
  repeat match goal with
  | H : (_ =? _) = true |- _ => apply Z.eqb_eq in H
  | H : (_ =? _) = false |- _ => apply Z.eqb_neq in H
  | H : (_ <? _) = true |- _ => apply Z.ltb_lt in H
  | H : (_ <? _) = false |- _ => apply Z.ltb_ge in H
  | H : (_ <=? _) = true |- _ => apply Z.leb_le in H
  | H : (_ <=? _) = false |- _ => apply Z.leb_gt in H
  end.

(** Case analysis on every comparison of the goal, leaving the boolean connectives to
    computation. *)
Ltac zcases :=
  repeat match goal with
  | |- context [?x <=? ?y] => destruct (Z.leb_spec x y)
  | |- context [?x <? ?y] => destruct (Z.ltb_spec x y)
  | |- context [?x =? ?y] => destruct (Z.eqb_spec x y)
  end; try reflexivity; try lia.

(** [lia] on boolean goals, with the lengths of cons lists and numerals normalised. *)
Ltac nat_nonneg :=
  repeat match goal with
  | _ : context [Z.of_nat ?n] |- _ =>
      lazymatch goal with
      | _ : 0 <= Z.of_nat n |- _ => fail
      | _ => pose proof (Nat2Z.is_nonneg n)
      end
  | |- context [Z.of_nat ?n] =>
      lazymatch goal with
      | _ : 0 <= Z.of_nat n |- _ => fail
      | _ => pose proof (Nat2Z.is_nonneg n)
      end
  end.
Ltac blia :=
  cbn [length] in *; rewrite ?Nat2Z.inj_succ, ?Nat2Z.inj_0 in *; unfold Z.succ in *;
  nat_nonneg; lia.

(** Decide a conditional of the goal whose test [lia] can settle. *)
Ltac bif :=
  match goal with
  | |- context [if ?b then _ else _] =>
      let E := fresh in
      first [assert (b = true) as E by blia | assert (b = false) as E by blia];
      rewrite E; clear E
  end.

(** Evaluate a given boolean test of the goal with [lia]. *)
Tactic Notation "btest" uconstr(b) :=
  let E := fresh in
  first [assert (b = true) as E by blia | assert (b = false) as E by blia];
  rewrite !E; clear E; cbn [andb orb negb].
