(* ===== verification/CInt.v ===== *)
(** C integer types.

    Values of the C types [uint8_t] ... [uint64_t] and [int8_t] ... [int64_t] are
    integers of [Z] in the range of the type.  [u8] ... [u64] are the conversions to the
    unsigned types (reduction modulo [2^w]); [s8] ... [s64] are the conversions to the
    signed types, which gcc, clang and MSVC define as reduction into the two's complement
    range.  Expressions on [uint8_t]/[uint16_t] operands are computed in [int] after the
    usual promotions, so the model writes the conversion of the assignment, e.g.
    [uint8_t result = a + b] is [u8 (a + b)]. *)
From S2P Require Import Prelude.

(** * Conversions *)

Definition u8 (z : Z) : Z := z mod 0x100.
Definition u16 (z : Z) : Z := z mod 0x10000.
Definition u32 (z : Z) : Z := z mod 0x100000000.
Definition u64 (z : Z) : Z := z mod 0x10000000000000000.

Definition s8 (z : Z) : Z := (z + 0x80) mod 0x100 - 0x80.
Definition s16 (z : Z) : Z := (z + 0x8000) mod 0x10000 - 0x8000.
Definition s32 (z : Z) : Z := (z + 0x80000000) mod 0x100000000 - 0x80000000.
Definition s64 (z : Z) : Z :=
  (z + 0x8000000000000000) mod 0x10000000000000000 - 0x8000000000000000.

Definition INT_MIN : Z := -0x80000000.
Definition INT_MAX : Z := 0x7FFFFFFF.

(** Predicates for the ranges of the types. *)
Definition is_u8 (z : Z) : Prop := 0 <= z < 0x100.
Definition is_u16 (z : Z) : Prop := 0 <= z < 0x10000.
Definition is_u32 (z : Z) : Prop := 0 <= z < 0x100000000.
Definition is_u64 (z : Z) : Prop := 0 <= z < 0x10000000000000000.
Definition is_int (z : Z) : Prop := INT_MIN <= z <= INT_MAX.

(** Whether a mathematical result fits [int]: signed overflow is undefined in C. *)
Definition fits_int (z : Z) : bool := (INT_MIN <=? z) && (z <=? INT_MAX).

(** [cint] unfolds the conversions and leaves linear arithmetic to [lia]. *)
Ltac cint_unfold :=
  unfold is_u8, is_u16, is_u32, is_u64, is_int, INT_MIN, INT_MAX,
    u8, u16, u32, u64, s8, s16, s32, s64 in *.
Ltac cint := cint_unfold; Z.div_mod_to_equations; lia.

(** * Ranges *)

Lemma u8_range z : is_u8 (u8 z).
Proof. apply Z.mod_pos_bound. lia. Qed.
Lemma u16_range z : is_u16 (u16 z).
Proof. apply Z.mod_pos_bound. lia. Qed.
Lemma u32_range z : is_u32 (u32 z).
Proof. apply Z.mod_pos_bound. lia. Qed.
Lemma u64_range z : is_u64 (u64 z).
Proof. apply Z.mod_pos_bound. lia. Qed.

Lemma u8_u32_range z : is_u32 (u8 z).
Proof. pose proof (u8_range z). unfold is_u8, is_u32 in *. lia. Qed.
Lemma u16_u32_range z : is_u32 (u16 z).
Proof. pose proof (u16_range z). unfold is_u16, is_u32 in *. lia. Qed.

Lemma s8_range z : - 0x80 <= s8 z < 0x80.
Proof. cint. Qed.
Lemma s16_range z : - 0x8000 <= s16 z < 0x8000.
Proof. cint. Qed.
Lemma s32_range z : - 0x80000000 <= s32 z < 0x80000000.
Proof. cint. Qed.

(** * Small values are fixed points *)

Lemma u8_small z : is_u8 z -> u8 z = z.
Proof. apply Z.mod_small. Qed.
Lemma u16_small z : is_u16 z -> u16 z = z.
Proof. apply Z.mod_small. Qed.
Lemma u32_small z : is_u32 z -> u32 z = z.
Proof. apply Z.mod_small. Qed.
Lemma u64_small z : is_u64 z -> u64 z = z.
Proof. apply Z.mod_small. Qed.

Lemma u32_idem z : u32 (u32 z) = u32 z.
Proof. apply u32_small, u32_range. Qed.
Lemma u8_idem z : u8 (u8 z) = u8 z.
Proof. apply u8_small, u8_range. Qed.
Lemma u32_u8 z : u32 (u8 z) = u8 z.
Proof. apply u32_small, u8_u32_range. Qed.
Lemma u64_idem z : u64 (u64 z) = u64 z.
Proof. unfold u64. apply Z.mod_mod. lia. Qed.
Lemma u8_u32 z : u8 (u32 z) = u8 z.
Proof. cint. Qed.

(** * Congruence: arithmetic may be reduced late *)

Lemma u32_add_l a b : u32 (u32 a + b) = u32 (a + b).
Proof. unfold u32. apply Zplus_mod_idemp_l. Qed.
Lemma u32_add_r a b : u32 (a + u32 b) = u32 (a + b).
Proof. unfold u32. apply Zplus_mod_idemp_r. Qed.
Lemma u32_sub_l a b : u32 (u32 a - b) = u32 (a - b).
Proof. unfold u32. apply Zminus_mod_idemp_l. Qed.
Lemma u32_sub_r a b : u32 (a - u32 b) = u32 (a - b).
Proof. unfold u32. apply Zminus_mod_idemp_r. Qed.
Lemma u32_mul_l a b : u32 (u32 a * b) = u32 (a * b).
Proof. unfold u32. apply Zmult_mod_idemp_l. Qed.

(** * Signed and unsigned views of one word *)

Lemma s32_spec x : is_u32 x -> s32 x = if x <? 0x80000000 then x else x - 0x100000000.
Proof. intros Hx. destruct (Z.ltb_spec x 0x80000000); cint. Qed.
Lemma s8_spec x : is_u8 x -> s8 x = if x <? 0x80 then x else x - 0x100.
Proof. intros Hx. destruct (Z.ltb_spec x 0x80); cint. Qed.
Lemma s16_spec x : is_u16 x -> s16 x = if x <? 0x8000 then x else x - 0x10000.
Proof. intros Hx. destruct (Z.ltb_spec x 0x8000); cint. Qed.

Lemma u32_s32 x : u32 (s32 x) = u32 x.
Proof. cint. Qed.
Lemma s32_u32 x : s32 (u32 x) = s32 x.
Proof. cint. Qed.
Lemma u8_s8 x : u8 (s8 x) = u8 x.
Proof. cint. Qed.
Lemma s32_small x : - 0x80000000 <= x < 0x80000000 -> s32 x = x.
Proof. intros. cint. Qed.

(** * Bits of converted values *)

Lemma testbit_u8 z i : 0 <= i -> Z.testbit (u8 z) i = (i <? 8) && Z.testbit z i.
Proof.
  intros Hi. unfold u8. change 0x100 with (2 ^ 8). destruct (Z.ltb_spec i 8).
  - by rewrite Z.mod_pow2_bits_low by lia.
  - by rewrite Z.mod_pow2_bits_high by lia.
Qed.

Lemma testbit_u16 z i : 0 <= i -> Z.testbit (u16 z) i = (i <? 16) && Z.testbit z i.
Proof.
  intros Hi. unfold u16. change 0x10000 with (2 ^ 16). destruct (Z.ltb_spec i 16).
  - by rewrite Z.mod_pow2_bits_low by lia.
  - by rewrite Z.mod_pow2_bits_high by lia.
Qed.

Lemma testbit_u32 z i : 0 <= i -> Z.testbit (u32 z) i = (i <? 32) && Z.testbit z i.
Proof.
  intros Hi. unfold u32. change 0x100000000 with (2 ^ 32). destruct (Z.ltb_spec i 32).
  - by rewrite Z.mod_pow2_bits_low by lia.
  - by rewrite Z.mod_pow2_bits_high by lia.
Qed.

Lemma testbit_u64 z i : 0 <= i -> Z.testbit (u64 z) i = (i <? 64) && Z.testbit z i.
Proof.
  intros Hi. unfold u64. change 0x10000000000000000 with (2 ^ 64).
  destruct (Z.ltb_spec i 64).
  - by rewrite Z.mod_pow2_bits_low by lia.
  - by rewrite Z.mod_pow2_bits_high by lia.
Qed.

Lemma is_u32_bits x : is_u32 x <-> 0 <= x /\ forall i, 32 <= i -> Z.testbit x i = false.
Proof. apply (word_bits 32 x). lia. Qed.
Lemma is_u8_bits x : is_u8 x <-> 0 <= x /\ forall i, 8 <= i -> Z.testbit x i = false.
Proof. apply (word_bits 8 x). lia. Qed.

Lemma land_u32 x y : is_u32 x -> is_u32 (Z.land x y).
Proof. apply (land_word 32). lia. Qed.
Lemma lor_u32 x y : is_u32 x -> is_u32 y -> is_u32 (Z.lor x y).
Proof. apply (lor_word 32). lia. Qed.
Lemma lxor_u32 x y : is_u32 x -> is_u32 y -> is_u32 (Z.lxor x y).
Proof. apply (lxor_word 32). lia. Qed.

(** Clearing the low bits, [x & ~mask]. *)
Lemma land_clear k x : 0 <= k -> is_u32 x ->
  Z.land x (u32 (Z.lnot (Z.ones k))) = x - x mod 2 ^ k.
Proof.
  intros Hk Hx. transitivity (Z.ldiff x (Z.ones k)).
  - apply Z.bits_inj'. intros i Hi. rewrite Z.land_spec, Z.ldiff_spec, testbit_u32 by done.
    rewrite Z.lnot_spec by done. destruct (Z.ltb_spec i 32); [done|]. cbn [andb].
    by rewrite (proj2 (proj1 (is_u32_bits x) Hx)) by lia.
  - rewrite Z.ldiff_ones_r, Z.shiftl_mul_pow2, Z.shiftr_div_pow2 by done.
    pose proof (Z.div_mod x (2 ^ k) ltac:(lia)). lia.
Qed.
Lemma land_u8 x y : is_u8 x -> is_u8 (Z.land x y).
Proof. apply (land_word 8). lia. Qed.
Lemma lor_u8 x y : is_u8 x -> is_u8 y -> is_u8 (Z.lor x y).
Proof. apply (lor_word 8). lia. Qed.
Lemma lxor_u8 x y : is_u8 x -> is_u8 y -> is_u8 (Z.lxor x y).
Proof. apply (lxor_word 8). lia. Qed.

#[export] Hint Resolve u8_range u16_range u32_range u64_range u8_u32_range u16_u32_range
  land_u32 lor_u32 lxor_u32 land_u8 lor_u8 lxor_u8 : zrange.

(** * Little-endian bytes *)

(** [le_bytes n v]: the [n] low bytes of [v], least significant first, the order in which
    the guest (and the loader) store multi-byte values. *)
Fixpoint le_bytes (n : nat) (v : Z) : list Z :=
  match n with
  | O => []
  | S n => u8 v :: le_bytes n (Z.shiftr v 8)
  end.

(** The value of a little-endian byte string. *)
Fixpoint le_value (bs : list Z) : Z :=
  match bs with
  | [] => 0
  | b :: bs => Z.lor b (Z.shiftl (le_value bs) 8)
  end.

Lemma le_bytes_length n v : length (le_bytes n v) = n.
Proof. revert v. induction n; intros v; simpl; [done|]. by rewrite IHn. Qed.

Lemma le_value_bytes n v : le_value (le_bytes n v) = v mod 2 ^ (8 * Z.of_nat n).
Proof.
  revert v. induction n as [|n IH]; intros v; cbn [le_bytes le_value].
  { by rewrite Z.mod_1_r. }
  rewrite IH. apply Z.bits_inj'. intros i Hi.
  rewrite Z.lor_spec, testbit_u8 by done. destruct (Z.ltb_spec i 8).
  - rewrite Z.shiftl_spec_low by lia.
    by rewrite orb_false_r, Z.mod_pow2_bits_low by lia.
  - rewrite Z.shiftl_spec by lia. cbn [andb orb].
    destruct (decide (i < 8 * Z.of_nat (S n))).
    + rewrite !Z.mod_pow2_bits_low by lia. rewrite Z.shiftr_spec by lia. f_equal. lia.
    + by rewrite !Z.mod_pow2_bits_high by lia.
Qed.

Lemma le_bytes_u8 n v : Forall is_u8 (le_bytes n v).
Proof.
  revert v. induction n; intros v; simpl; constructor; auto. apply u8_range.
Qed.

Lemma le_bytes_value bs : Forall is_u8 bs -> le_bytes (length bs) (le_value bs) = bs.
Proof.
  induction 1 as [|b bs Hb Hbs IH]; [done|]. cbn [le_bytes le_value length]. f_equal.
  - apply Z.bits_inj'. intros i Hi. rewrite testbit_u8, Z.lor_spec by done.
    destruct (Z.ltb_spec i 8); cbn [andb].
    + by rewrite Z.shiftl_spec_low, orb_false_r by lia.
    + symmetry. apply is_u8_bits; [done|lia].
  - rewrite Z.shiftr_lor, Z.shiftr_shiftl_l by lia.
    rewrite (Z.shiftr_div_pow2 b) by lia. unfold is_u8 in Hb.
    rewrite (Z.div_small b) by lia. by rewrite Z.lor_0_l, Z.shiftl_0_r.
Qed.
