(* ===== verification/Machine.v ===== *)
(** The emulator's state and the monad its C functions run in.

    The C program keeps its state in one [i386] structure passed by pointer (cpu.h) and in
    file-level globals of mem.c, ops.c and backend_win32.c.  Here they are the records
    [i386], [guest_mem], [ops_globals] and [kernel], gathered in [machine].  The field
    [host] is the state of everything outside the emulator (files, descriptors of the
    host); its type [H] is a parameter.

    A C function becomes a computation [M H A]: it returns ([Ret]), ends the process with
    [exit] ([Exited]), or reaches undefined behaviour ([Undef], with the kind of
    undefined behaviour).  [NoFuel] marks a recursion cut off by the model; the
    termination theorems show that it does not occur.

    Conventions on C's undefined behaviour: signed overflow, shifts by a negative count or
    by at least the width of the (promoted) operand, and accesses outside the allocated
    guest memory are [Undef].  A left shift of a signed value into or past the sign bit
    follows gcc's documented definition (two's complement, no undefined behaviour): the
    byte assembly of mem.c relies on it. *)
From S2P Require Import Prelude CInt.

(** * State *)

(** [i386] of cpu.h. *)
Record i386 := mk_i386 {
  regs : list Z;
  eip : Z;
  eflags : Z;
  halted : Z;
  cycles : Z
}.

Definition REG_EAX : Z := 0.
Definition REG_ECX : Z := 1.
Definition REG_EDX : Z := 2.
Definition REG_EBX : Z := 3.
Definition REG_ESP : Z := 4.
Definition REG_EBP : Z := 5.
Definition REG_ESI : Z := 6.
Definition REG_EDI : Z := 7.

(** Globals of mem.c.  [g_mem] maps the offsets below [g_size] that were written since
    [calloc] to their bytes; an offset absent from the map reads as zero. *)
Record guest_mem := mk_guest_mem {
  g_mem : gmap Z Z;
  g_size : Z;
  g_last_eip : Z
}.

(** [XMMReg] of ops.c. *)
Record XMMReg := mk_xmm { lo : Z; hi : Z }.
#[export] Instance XMMReg_inhabited : Inhabited XMMReg := populate (mk_xmm 0 0).

(** Globals of ops.c.  [fpu_stack] holds the eight doubles as 64-bit patterns. *)
Record ops_globals := mk_ops_globals {
  g_operand_size_16 : Z;
  g_gs_base : Z;
  g_seg_override : Z;
  fpu_stack : list Z;
  fpu_top : Z;
  mmx_regs : list Z;
  xmm_regs : list XMMReg
}.

(** [GuestFd] of backend_win32.c, in its POSIX variant. *)
Record GuestFd := mk_fd { used : Z; host_fd : Z }.
#[export] Instance GuestFd_inhabited : Inhabited GuestFd := populate (mk_fd 0 0).

(** Globals of backend_win32.c.  A [LinuxSigaction] is only ever copied as raw bytes, so
    [g_sigactions] holds the 20 bytes of each of the 64 entries. *)
Record kernel := mk_kernel {
  fd_table : list GuestFd;
  g_mmap_base : Z;
  g_mmap_ptr : Z;
  g_brk : Z;
  g_sigactions : list (list Z)
}.

Record machine (H : Type) := mk_machine {
  cpu : i386;
  mem : guest_mem;
  og : ops_globals;
  kern : kernel;
  host : H
}.
Arguments mk_machine {H}.
Arguments cpu {H}.
Arguments mem {H}.
Arguments og {H}.
Arguments kern {H}.
Arguments host {H}.

(** * Field updates *)

Definition upd_regs (f : list Z -> list Z) (c : i386) : i386 :=
  mk_i386 (f (regs c)) (eip c) (eflags c) (halted c) (cycles c).
Definition upd_eip (f : Z -> Z) (c : i386) : i386 :=
  mk_i386 (regs c) (f (eip c)) (eflags c) (halted c) (cycles c).
Definition upd_eflags (f : Z -> Z) (c : i386) : i386 :=
  mk_i386 (regs c) (eip c) (f (eflags c)) (halted c) (cycles c).
Definition upd_halted (f : Z -> Z) (c : i386) : i386 :=
  mk_i386 (regs c) (eip c) (eflags c) (f (halted c)) (cycles c).
Definition upd_cycles (f : Z -> Z) (c : i386) : i386 :=
  mk_i386 (regs c) (eip c) (eflags c) (halted c) (f (cycles c)).

Definition upd_operand_size_16 (v : Z) (o : ops_globals) : ops_globals :=
  mk_ops_globals v (g_gs_base o) (g_seg_override o) (fpu_stack o) (fpu_top o)
    (mmx_regs o) (xmm_regs o).
Definition upd_gs_base (v : Z) (o : ops_globals) : ops_globals :=
  mk_ops_globals (g_operand_size_16 o) v (g_seg_override o) (fpu_stack o) (fpu_top o)
    (mmx_regs o) (xmm_regs o).
Definition upd_seg_override (v : Z) (o : ops_globals) : ops_globals :=
  mk_ops_globals (g_operand_size_16 o) (g_gs_base o) v (fpu_stack o) (fpu_top o)
    (mmx_regs o) (xmm_regs o).
Definition upd_fpu (f : list Z -> list Z) (t : Z -> Z) (o : ops_globals) : ops_globals :=
  mk_ops_globals (g_operand_size_16 o) (g_gs_base o) (g_seg_override o)
    (f (fpu_stack o)) (t (fpu_top o)) (mmx_regs o) (xmm_regs o).
Definition upd_mmx (f : list Z -> list Z) (o : ops_globals) : ops_globals :=
  mk_ops_globals (g_operand_size_16 o) (g_gs_base o) (g_seg_override o) (fpu_stack o)
    (fpu_top o) (f (mmx_regs o)) (xmm_regs o).
Definition upd_xmm (f : list XMMReg -> list XMMReg) (o : ops_globals) : ops_globals :=
  mk_ops_globals (g_operand_size_16 o) (g_gs_base o) (g_seg_override o) (fpu_stack o)
    (fpu_top o) (mmx_regs o) (f (xmm_regs o)).

Definition upd_fd_table (f : list GuestFd -> list GuestFd) (k : kernel) : kernel :=
  mk_kernel (f (fd_table k)) (g_mmap_base k) (g_mmap_ptr k) (g_brk k) (g_sigactions k).
Definition upd_mmap (b p : Z) (k : kernel) : kernel :=
  mk_kernel (fd_table k) b p (g_brk k) (g_sigactions k).
Definition upd_brk (b : Z) (k : kernel) : kernel :=
  mk_kernel (fd_table k) (g_mmap_base k) (g_mmap_ptr k) b (g_sigactions k).
Definition upd_sigactions (f : list (list Z) -> list (list Z)) (k : kernel) : kernel :=
  mk_kernel (fd_table k) (g_mmap_base k) (g_mmap_ptr k) (g_brk k) (f (g_sigactions k)).

Section updates.
Context {H : Type}.
Definition upd_cpu (f : i386 -> i386) (s : machine H) : machine H :=
  mk_machine (f (cpu s)) (mem s) (og s) (kern s) (host s).
Definition upd_mem (f : guest_mem -> guest_mem) (s : machine H) : machine H :=
  mk_machine (cpu s) (f (mem s)) (og s) (kern s) (host s).
Definition upd_og (f : ops_globals -> ops_globals) (s : machine H) : machine H :=
  mk_machine (cpu s) (mem s) (f (og s)) (kern s) (host s).
Definition upd_kern (f : kernel -> kernel) (s : machine H) : machine H :=
  mk_machine (cpu s) (mem s) (og s) (f (kern s)) (host s).
Definition upd_host (f : H -> H) (s : machine H) : machine H :=
  mk_machine (cpu s) (mem s) (og s) (kern s) (f (host s)).
End updates.

(** * The monad *)

Inductive ub :=
| UB_oob        (* access outside the host allocation that backs guest memory *)
| UB_shift      (* shift by a negative count or by at least the operand's width *)
| UB_overflow.  (* overflow of a signed operation, or a quotient that does not fit *)

Inductive outcome (H A : Type) :=
| Ret (a : A) (s : machine H)
| Exited (status : Z) (s : machine H)
| Undef (u : ub)
| NoFuel.
Arguments Ret {H A}.
Arguments Exited {H A}.
Arguments Undef {H A}.
Arguments NoFuel {H A}.

Definition M (H A : Type) : Type := machine H -> outcome H A.

#[export] Instance M_ret {H} : MRet (M H) := fun A a s => Ret a s.
#[export] Instance M_bind {H} : MBind (M H) := fun A B k m s =>
  match m s with
  | Ret a s' => k a s'
  | Exited st s' => Exited st s'
  | Undef u => Undef u
  | NoFuel => NoFuel
  end.

Section prims.
Context {H : Type}.
Abbreviation M := (M H).

Definition gets {A} (f : machine H -> A) : M A := fun s => Ret (f s) s.
Definition modify (f : machine H -> machine H) : M unit := fun s => Ret tt (f s).
Definition undef {A} (u : ub) : M A := fun _ => Undef u.
(** [exit(status)]. *)
Definition c_exit {A} (status : Z) : M A := fun s => Exited status s.
Definition no_fuel {A} : M A := fun _ => NoFuel.

(** ** The CPU structure *)

Definition reg (i : Z) : M Z := gets (fun s => zget (regs (cpu s)) i).
Definition set_reg (i v : Z) : M unit :=
  modify (upd_cpu (upd_regs (fun l => zset l i (u32 v)))).
Definition get_eip : M Z := gets (fun s => eip (cpu s)).
Definition set_eip (v : Z) : M unit := modify (upd_cpu (upd_eip (fun _ => u32 v))).
Definition get_eflags : M Z := gets (fun s => eflags (cpu s)).
Definition set_eflags (v : Z) : M unit := modify (upd_cpu (upd_eflags (fun _ => u32 v))).
(** [cpu->halted = 1]. *)
Definition halt : M unit := modify (upd_cpu (upd_halted (fun _ => 1))).
(** [cpu->cycles += k] for an [int] operand: signed addition. *)
Definition add_cycles (k : Z) : M unit :=
  c ← gets (fun s => cycles (cpu s));
  if fits_int (c + k) then modify (upd_cpu (upd_cycles (fun _ => c + k)))
  else undef UB_overflow.
(** [cpu->cycles += k] for a [uint32_t] operand: the sum is unsigned and wraps, and is
    converted back to [int]. *)
Definition add_cycles_u (k : Z) : M unit :=
  modify (upd_cpu (upd_cycles (fun c => s32 (u32 c + k)))).

(** ** Globals of ops.c *)

Definition get_og {A} (f : ops_globals -> A) : M A := gets (fun s => f (og s)).
Definition set_operand_size_16 (v : Z) : M unit := modify (upd_og (upd_operand_size_16 v)).
Definition set_seg_override (v : Z) : M unit := modify (upd_og (upd_seg_override (u32 v))).
Definition mmx (i : Z) : M Z := gets (fun s => zget (mmx_regs (og s)) i).
Definition set_mmx (i v : Z) : M unit :=
  modify (upd_og (upd_mmx (fun l => zset l i (u64 v)))).
Definition xmm (i : Z) : M XMMReg := gets (fun s => zget (xmm_regs (og s)) i).
Definition set_xmm (i : Z) (v : XMMReg) : M unit :=
  modify (upd_og (upd_xmm (fun l => zset l i (mk_xmm (u64 (lo v)) (u64 (hi v)))))).

(** ** C shifts: [w] is the width of the promoted left operand *)

Definition c_shl (w v n : Z) : M Z :=
  if (0 <=? n) && (n <? w) then mret (Z.shiftl v n) else undef UB_shift.
Definition c_shr (w v n : Z) : M Z :=
  if (0 <=? n) && (n <? w) then mret (Z.shiftr v n) else undef UB_shift.
(** A signed [int] result: undefined when it does not fit. *)
Definition c_int (v : Z) : M Z :=
  if fits_int v then mret v else undef UB_overflow.
End prims.

(** * Loops

    [iter2 d body a] runs [body] from loop state [a] at most [2 ^ d] times; [body] answers
    [inl a'] to go round again and [inr b] to leave the loop.  [c_loop] gives a C loop room
    for [2 ^ 33] turns, more than any loop driven by a 32-bit counter takes. *)
Section loops.
Context {H A B : Type}.

Fixpoint iter2 (d : nat) (body : A -> M H (A + B)) (a : A) : M H (A + B) :=
  match d with
  | O => body a
  | S d =>
      r ← iter2 d body a;
      match r with
      | inl a' => iter2 d body a'
      | inr b => mret (inr b)
      end
  end.

Definition c_loop (body : A -> M H (A + B)) (a : A) : M H B :=
  r ← iter2 33 body a;
  match r with
  | inl _ => no_fuel
  | inr b => mret b
  end.
End loops.

(** [while (test) stmt], where [body] runs the test and, when it holds, the statement, and
    tells whether to go round again. *)
Definition c_while {H} (body : M H bool) : M H unit :=
  c_loop (fun _ : unit => b ← body; mret (if (b : bool) then inl tt else inr tt)) tt.
