(* ===== verification/Logic.v ===== *)
(** Reasoning about computations of the emulator monad.

    - [runs m s a s']: the computation returns [a] in state [s'] (functional theorems are
      stated with it), with the rule for sequencing and the tactic [run] that executes a
      handler symbolically with the equations of the [run] hint database;
    - [respects R m]: every outcome of [m] that has a state is related to the initial
      state by the preorder [R], with closure rules and the tactic [respects] that goes
      through a handler with the hints of the [resp] database;
    - [wf]: the type invariant of the machine, and [guest_step], the preorder obeyed by
      every instruction handler: the invariant is preserved, and the kernel state, the
      host and the size of guest memory are untouched. *)
From S2P Require Import Prelude CInt Machine.

Section logic.
Context {H : Type}.
Implicit Types s : machine H.

(** * Symbolic execution *)

Definition runs {A} (m : M H A) s (a : A) s' : Prop := m s = Ret a s'.

Lemma runs_ret {A} (a : A) s : runs (mret a) s a s.
Proof. done. Qed.
Lemma runs_gets {A} (f : machine H -> A) s : runs (gets f) s (f s) s.
Proof. done. Qed.
Lemma runs_modify (f : machine H -> machine H) s : runs (modify f) s tt (f s).
Proof. done. Qed.

Lemma runs_bind {A B} (m : M H A) (k : A -> M H B) s a s1 b s2 :
  runs m s a s1 -> runs (k a) s1 b s2 -> runs (m ≫= k) s b s2.
Proof. unfold runs. intros E1 E2. unfold mbind, M_bind. by rewrite E1. Qed.

Lemma runs_eq {A} (m : M H A) s a s' a' s'' :
  runs m s a s' -> a = a' -> s' = s'' -> runs m s a' s''.
Proof. by intros ? -> ->. Qed.

Lemma runs_det {A} (m : M H A) s a s1 b s2 :
  runs m s a s1 -> runs m s b s2 -> a = b /\ s1 = s2.
Proof. unfold runs. intros E1 E2. rewrite E1 in E2. by simplify_eq. Qed.

Lemma bind_Ret {A B} (m : M H A) (k : A -> M H B) s a s1 :
  m s = Ret a s1 -> (m ≫= k) s = k a s1.
Proof. intros E. unfold mbind, M_bind. by rewrite E. Qed.

Lemma bind_Undef {A B} (m : M H A) (k : A -> M H B) s u :
  m s = Undef u -> (m ≫= k) s = Undef u.
Proof. intros E. unfold mbind, M_bind. by rewrite E. Qed.

Lemma runs_add_cycles k s :
  fits_int (cycles (cpu s) + k) = true ->
  runs (add_cycles k) s tt (upd_cpu (upd_cycles (fun c => c + k)) s).
Proof.
  intros Hc. unfold runs, add_cycles, mbind, M_bind, gets. by rewrite Hc.
Qed.

Lemma runs_c_shl w v n s : 0 <= n < w -> runs (c_shl w v n) s (Z.shiftl v n) s.
Proof.
  intros Hn. unfold runs, c_shl. by rewrite (proj2 (Z.leb_le _ _)), (proj2 (Z.ltb_lt _ _)) by lia.
Qed.
Lemma runs_c_shr w v n s : 0 <= n < w -> runs (c_shr w v n) s (Z.shiftr v n) s.
Proof.
  intros Hn. unfold runs, c_shr. by rewrite (proj2 (Z.leb_le _ _)), (proj2 (Z.ltb_lt _ _)) by lia.
Qed.

(** * Step preorders *)

Definition respects {A} (R : machine H -> machine H -> Prop) (m : M H A) : Prop :=
  forall s, match m s with
    | Ret _ s' | Exited _ s' => R s s'
    | Undef _ | NoFuel => True
    end.

Section closure.
Context (R : machine H -> machine H -> Prop) `{!PreOrder R}.

Lemma respects_ret {A} (a : A) : respects R (mret a).
Proof. intros s. simpl. reflexivity. Qed.
Lemma respects_gets {A} (f : machine H -> A) : respects R (gets f).
Proof. intros s. simpl. reflexivity. Qed.
Lemma respects_undef {A} u : respects R (undef (A:=A) u).
Proof. done. Qed.
Lemma respects_no_fuel {A} : respects R (no_fuel (A:=A)).
Proof. done. Qed.
Lemma respects_exit {A} st : respects R (c_exit (A:=A) st).
Proof. intros s. simpl. reflexivity. Qed.
Lemma respects_modify f : (forall s, R s (f s)) -> respects R (modify f).
Proof. intros Hf s. apply Hf. Qed.
Lemma respects_bind {A B} (m : M H A) (k : A -> M H B) :
  respects R m -> (forall a, respects R (k a)) -> respects R (m ≫= k).
Proof.
  intros Hm Hk s. unfold mbind, M_bind. specialize (Hm s).
  destruct (m s) as [a s1|st s1| |]; [|done..].
  specialize (Hk a s1). destruct (k a s1); [..|done|done]; by etrans.
Qed.
Lemma respects_if {A} (b : bool) (m1 m2 : M H A) :
  respects R m1 -> respects R m2 -> respects R (if b then m1 else m2).
Proof. by destruct b. Qed.
Lemma respects_c_shl w v n : respects R (c_shl w v n).
Proof. unfold c_shl. apply respects_if; [apply respects_ret|apply respects_undef]. Qed.
Lemma respects_c_shr w v n : respects R (c_shr w v n).
Proof. unfold c_shr. apply respects_if; [apply respects_ret|apply respects_undef]. Qed.
Lemma respects_c_int v : respects R (c_int v).
Proof. unfold c_int. apply respects_if; [apply respects_ret|apply respects_undef]. Qed.

Lemma respects_iter2 {A B} d (body : A -> M H (A + B)) a :
  (forall a, respects R (body a)) -> respects R (iter2 d body a).
Proof.
  intros Hb. revert a. induction d as [|d IH]; intros a; cbn [iter2]; [apply Hb|].
  apply respects_bind; [apply IH|]. intros []; [apply IH|apply respects_ret].
Qed.
Lemma respects_c_loop {A B} (body : A -> M H (A + B)) a :
  (forall a, respects R (body a)) -> respects R (c_loop body a).
Proof.
  intros Hb. unfold c_loop. apply respects_bind; [by apply respects_iter2|].
  intros []; [apply respects_no_fuel|apply respects_ret].
Qed.
Lemma respects_c_while (body : M H bool) :
  respects R body -> respects R (c_while body).
Proof.
  intros Hb. apply respects_c_loop. intros _. apply respects_bind; [done|].
  intros []; apply respects_ret.
Qed.
End closure.

Lemma respects_weaken {A} (R R' : machine H -> machine H -> Prop) (m : M H A) :
  (forall s s', R s s' -> R' s s') -> respects R m -> respects R' m.
Proof. intros HR Hm s. specialize (Hm s). destruct (m s); auto. Qed.

Lemma respects_run {A} (R : machine H -> machine H -> Prop) (m : M H A) s a s' :
  respects R m -> runs m s a s' -> R s s'.
Proof. intros Hm E. specialize (Hm s). by rewrite E in Hm. Qed.
End logic.

#[export] Hint Resolve runs_ret runs_gets runs_modify : run.
#[export] Hint Resolve respects_ret respects_gets respects_undef respects_no_fuel
  respects_exit respects_c_shl respects_c_shr respects_c_int : resp.

(** Walk through a computation, splitting sequences and conditionals and closing
    primitive steps with the [resp] hints. *)
Ltac respects :=
  repeat first
    [ assumption
    | solve [eauto 2 with resp typeclass_instances nocore]
    | match goal with
      | |- respects _ (mbind _ _) => apply respects_bind; [try exact _|..|intros ?]
      | |- respects _ (c_while _) => apply respects_c_while; [try exact _|]
      | |- respects _ (c_loop _ _) => apply respects_c_loop; [try exact _|intros ?; cbv beta]
      | |- respects _ (if _ then _ else _) => apply respects_if
      | |- respects _ (match ?x with _ => _ end) => destruct x
      | |- respects _ (let '_ := ?x in _) => destruct x
      end ].

(** Execute one or several primitive steps of a goal [runs m s ?a ?s']. *)
Ltac run1 := eapply runs_bind; [solve [eauto 3 with run nocore]|cbv beta].
Ltac run := repeat run1; try solve [eauto 3 with run nocore].

(** * The type invariant *)

(** The bits of EFLAGS the emulator ever sets: CF, the reserved bit 1, PF, ZF, SF, OF. *)
Definition flag_bit (i : Z) : bool :=
  (i =? 0) || (i =? 1) || (i =? 2) || (i =? 6) || (i =? 7) || (i =? 11).

Record wf_eflags (e : Z) : Prop := {
  wf_eflags_u32 : is_u32 e;
  wf_eflags_reserved : Z.testbit e 1 = true;
  wf_eflags_only : forall i, 0 <= i -> flag_bit i = false -> Z.testbit e i = false
}.

Record wf_cpu (c : i386) : Prop := {
  wf_regs_length : length (regs c) = 8%nat;
  wf_regs : Forall is_u32 (regs c);
  wf_eip : is_u32 (eip c);
  wf_flags : wf_eflags (eflags c);
  wf_halted : halted c = 0 \/ halted c = 1;
  wf_cycles : is_int (cycles c)
}.

(** Every byte the guest has written lies inside the allocation: nothing the emulator
    does through the accessors of mem.c can reach other host memory. *)
Record wf_mem (m : guest_mem) : Prop := {
  wf_size : 0 <= g_size m < 0x100000000;
  wf_bytes : map_Forall (fun a v => 0 <= a < g_size m /\ is_u8 v) (g_mem m)
}.

Definition wf_xmm (x : XMMReg) : Prop := is_u64 (lo x) /\ is_u64 (hi x).

Record wf_og (o : ops_globals) : Prop := {
  wf_opsize : g_operand_size_16 o = 0 \/ g_operand_size_16 o = 1;
  wf_gs_base : is_u32 (g_gs_base o);
  wf_seg : is_u32 (g_seg_override o);
  wf_fpu_length : length (fpu_stack o) = 8%nat;
  wf_fpu : Forall is_u64 (fpu_stack o);
  wf_fpu_top : 0 <= fpu_top o < 8;
  wf_mmx_length : length (mmx_regs o) = 8%nat;
  wf_mmx : Forall is_u64 (mmx_regs o);
  wf_xmm_length : length (xmm_regs o) = 8%nat;
  wf_xmms : Forall wf_xmm (xmm_regs o)
}.

Definition MAX_FDS : Z := 256.
Definition SIGMAX : Z := 64.
Definition SIZEOF_SIGACTION : nat := 20.

Record wf_kern (k : kernel) : Prop := {
  wf_fd_length : length (fd_table k) = 256%nat;
  wf_mmap_base : is_u32 (g_mmap_base k);
  wf_mmap_ptr : is_u32 (g_mmap_ptr k);
  wf_brk : is_u32 (g_brk k);
  wf_sig_length : length (g_sigactions k) = 64%nat;
  wf_sigs : Forall (fun bs => length bs = SIZEOF_SIGACTION /\ Forall is_u8 bs)
                   (g_sigactions k)
}.

Record wf {H} (s : machine H) : Prop := {
  wf_m_cpu : wf_cpu (cpu s);
  wf_m_mem : wf_mem (mem s);
  wf_m_og : wf_og (og s);
  wf_m_kern : wf_kern (kern s)
}.

(** What one guest instruction (system calls aside) may do to the machine. *)
Record guest_step {H} (s s' : machine H) : Prop := {
  gs_wf : wf s -> wf s';
  gs_kern : kern s' = kern s;
  gs_host : host s' = host s;
  gs_size : g_size (mem s') = g_size (mem s)
}.

(** What a system call may do: the invariant and the size of memory are kept. *)
Record kernel_step {H} (s s' : machine H) : Prop := {
  ks_wf : wf s -> wf s';
  ks_size : g_size (mem s') = g_size (mem s)
}.

#[export] Instance guest_step_preorder {H} : PreOrder (guest_step (H:=H)).
Proof.
  split.
  - by constructor.
  - intros s1 s2 s3 [W1 K1 H1 S1] [W2 K2 H2 S2].
    constructor; [auto|congruence..].
Qed.

#[export] Instance kernel_step_preorder {H} : PreOrder (kernel_step (H:=H)).
Proof.
  split.
  - by constructor.
  - intros s1 s2 s3 [W1 S1] [W2 S2]. constructor; [auto|congruence..].
Qed.

Lemma guest_kernel_step {H} (s s' : machine H) : guest_step s s' -> kernel_step s s'.
Proof. intros []. by constructor. Qed.

(** A preorder that every primitive of the guest obeys; handlers are proved once for all
    such preorders, by way of [guest_step]. *)
Section guest_prims.
Context {H : Type}.
Implicit Types s : machine H.

Lemma guest_upd_cpu f s :
  (wf_cpu (cpu s) -> wf_cpu (f (cpu s))) -> guest_step s (upd_cpu f s).
Proof. intros Hf. constructor; try done. intros []. constructor; simpl; auto. Qed.

Lemma guest_upd_og f s :
  (wf_og (og s) -> wf_og (f (og s))) -> guest_step s (upd_og f s).
Proof. intros Hf. constructor; try done. intros []. constructor; simpl; auto. Qed.

Lemma guest_upd_mem f s :
  g_size (f (mem s)) = g_size (mem s) ->
  (wf_mem (mem s) -> wf_mem (f (mem s))) -> guest_step s (upd_mem f s).
Proof. intros Hs Hf. constructor; try done. intros []. constructor; simpl; auto. Qed.

Lemma resp_set_reg i v : respects guest_step (set_reg (H:=H) i v).
Proof.
  apply respects_modify. intros s. apply guest_upd_cpu. intros [].
  constructor; simpl; try done; [by rewrite zset_length|].
  apply zset_Forall; [done|apply u32_range].
Qed.

Lemma resp_set_eip v : respects guest_step (set_eip (H:=H) v).
Proof.
  apply respects_modify. intros s. apply guest_upd_cpu. intros [].
  constructor; simpl; try done. apply u32_range.
Qed.

Lemma resp_halt : respects guest_step (halt (H:=H)).
Proof.
  apply respects_modify. intros s. apply guest_upd_cpu. intros [].
  constructor; simpl; auto.
Qed.

Lemma fits_int_spec z : fits_int z = true <-> is_int z.
Proof. unfold fits_int, is_int, INT_MIN, INT_MAX. lia. Qed.

Lemma resp_add_cycles k : respects guest_step (add_cycles (H:=H) k).
Proof.
  intros s. unfold add_cycles, mbind, M_bind, gets.
  destruct (fits_int _) eqn:E; [|done]. simpl. apply guest_upd_cpu. intros [].
  constructor; simpl; try done. by apply fits_int_spec.
Qed.

Lemma resp_add_cycles_u k : respects guest_step (add_cycles_u (H:=H) k).
Proof.
  apply respects_modify. intros s. apply guest_upd_cpu. intros [].
  constructor; simpl; try done. cint.
Qed.

Lemma resp_set_opsize v : v = 0 \/ v = 1 ->
  respects guest_step (set_operand_size_16 (H:=H) v).
Proof.
  intros Hv. apply respects_modify. intros s. apply guest_upd_og. intros [].
  by constructor.
Qed.

Lemma resp_set_seg v : respects guest_step (set_seg_override (H:=H) v).
Proof.
  apply respects_modify. intros s. apply guest_upd_og. intros [].
  constructor; try done. apply u32_range.
Qed.

Lemma resp_set_mmx i v : respects guest_step (set_mmx (H:=H) i v).
Proof.
  apply respects_modify. intros s. apply guest_upd_og. intros [].
  constructor; simpl; try done; [by rewrite zset_length|].
  apply zset_Forall; [done|apply u64_range].
Qed.

Lemma resp_set_xmm i v : respects guest_step (set_xmm (H:=H) i v).
Proof.
  apply respects_modify. intros s. apply guest_upd_og. intros [].
  constructor; simpl; try done; [by rewrite zset_length|].
  apply zset_Forall; [done|]. split; apply u64_range.
Qed.
End guest_prims.

#[export] Hint Resolve resp_set_reg resp_set_eip resp_halt resp_add_cycles
  resp_add_cycles_u resp_set_seg resp_set_mmx resp_set_xmm : resp.
#[export] Hint Extern 1 (respects _ (set_operand_size_16 _)) =>
  apply resp_set_opsize; auto : resp.
#[export] Hint Extern 1 (respects _ (reg _)) => apply respects_gets; exact _ : resp.
#[export] Hint Extern 1 (respects _ get_eip) => apply respects_gets; exact _ : resp.
#[export] Hint Extern 1 (respects _ get_eflags) => apply respects_gets; exact _ : resp.
#[export] Hint Extern 1 (respects _ (get_og _)) => apply respects_gets; exact _ : resp.
#[export] Hint Extern 1 (respects _ (mmx _)) => apply respects_gets; exact _ : resp.
#[export] Hint Extern 1 (respects _ (xmm _)) => apply respects_gets; exact _ : resp.
