(* ===== verification/Loops.v ===== *)
(** Loops: [c_loop] runs its body turn by turn, and does not run out of fuel when a measure
    below [2 ^ 33] decreases. *)
From S2P Require Import Prelude CInt Machine Logic.

Section loops.
Context {H A B : Type}.
Implicit Types s : machine H.
Implicit Types body : A -> M H (A + B).

(** [n] turns of a loop. *)
Fixpoint turns (n : nat) body (a : A) : M H (A + B) :=
  match n with
  | O => mret (inl a)
  | S n =>
      r ← body a;
      match r with
      | inl a' => turns n body a'
      | inr b => mret (inr b)
      end
  end.

Lemma turns_add m n body a s :
  turns (m + n) body a s =
    (r ← turns m body a;
     match r with
     | inl a' => turns n body a'
     | inr b => mret (inr b)
     end) s.
Proof.
  revert a s. induction m as [|m IH]; intros a s; [done|].
  cbn [Nat.add turns]. unfold mbind, M_bind in *.
  by destruct (body a s) as [[a'|b] s'|st s'|u|].
Qed.

Lemma iter2_turns d body a s : iter2 d body a s = turns (2 ^ d) body a s.
Proof.
  revert a s. induction d as [|d IH]; intros a s.
  - cbn. unfold mbind, M_bind. by destruct (body a s) as [[a'|b] s'|st s'|u|].
  - assert (2 ^ S d = 2 ^ d + 2 ^ d)%nat as -> by (rewrite Nat.pow_succ_r'; lia).
    cbn [iter2]. rewrite turns_add. unfold mbind, M_bind. rewrite IH.
    by destruct (turns (2 ^ d) body a s) as [[a'|b] s'|st s'|u|].
Qed.

(** A loop that is left is left for good: more turns change nothing. *)
Lemma turns_left n m body a s b s' :
  turns n body a s = Ret (inr b) s' -> (n <= m)%nat -> turns m body a s = Ret (inr b) s'.
Proof.
  intros E Hn. replace m with (n + (m - n))%nat by lia. rewrite turns_add.
  by rewrite (bind_Ret _ _ _ _ _ E).
Qed.

Lemma pow2_nat k : Z.of_nat (2 ^ k) = 2 ^ Z.of_nat k.
Proof. by rewrite Nat2Z.inj_pow. Qed.

(** A loop left within [2 ^ 33] turns is what [c_loop] computes. *)
Lemma c_loop_turns n body a s b s' :
  turns n body a s = Ret (inr b) s' -> Z.of_nat n <= 2 ^ 33 -> c_loop body a s = Ret b s'.
Proof.
  intros E Hn. unfold c_loop.
  assert (iter2 33 body a s = Ret (inr b) s') as E2.
  { rewrite iter2_turns. eapply turns_left; [exact E|]. apply Nat2Z.inj_le.
    rewrite pow2_nat. exact Hn. }
  by rewrite (bind_Ret _ _ _ _ _ E2).
Qed.

(** A loop that goes round [n] times through the loop states [a k] and the machines
    [st k]. *)
Lemma c_loop_runs body (a : nat -> A) (st : nat -> machine H) n b s' :
  (forall k, (k < n)%nat -> runs (body (a k)) (st k) (inl (a (S k))) (st (S k))) ->
  runs (body (a n)) (st n) (inr b) s' -> Z.of_nat n < 2 ^ 33 ->
  runs (c_loop body (a O)) (st O) b s'.
Proof.
  intros Hk Hn Hlt.
  assert (forall j, (j <= n)%nat -> turns (S (n - j)) body (a j) (st j) = Ret (inr b) s') as Ht.
  { intros j Hj. remember (n - j)%nat as m eqn:Em. revert j Hj Em.
    induction m as [|m IH]; intros j Hj Em.
    - assert (j = n) as -> by lia. cbn [turns]. by rewrite (bind_Ret _ _ _ _ _ Hn).
    - change (turns (S (S m)) body (a j) (st j)) with
        ((body (a j) ≫= fun r =>
            match r with inl a' => turns (S m) body a' | inr x => mret (inr x) end) (st j)).
      rewrite (bind_Ret _ _ _ _ _ (Hk j ltac:(lia))). apply IH; lia. }
  specialize (Ht O ltac:(lia)). rewrite Nat.sub_0_r in Ht.
  unfold runs. eapply c_loop_turns; [exact Ht|]. lia.
Qed.

Section measure.
Context body (I : A -> machine H -> Prop) (mu : A -> machine H -> Z).
Context (Hbody : forall a s, I a s -> body a s <> NoFuel).
Context (Hstep : forall a s a' s', I a s -> body a s = Ret (inl a') s' ->
  I a' s' /\ 0 <= mu a' s' < mu a s).

Lemma turns_measure n a s : I a s ->
  turns n body a s <> NoFuel /\
  forall a' s', turns n body a s = Ret (inl a') s' -> n = O \/ Z.of_nat n <= mu a s.
Proof.
  revert a s. induction n as [|n IH]; intros a s Ha; [split; [done|auto]|].
  cbn [turns]. unfold mbind, M_bind. specialize (Hbody a s Ha).
  destruct (body a s) as [[a1|b] s1|st s1|u|] eqn:E; try (split; done).
  destruct (Hstep a s a1 s1 Ha E) as [Ha1 Hmu]. destruct (IH a1 s1 Ha1) as [Hn Hle].
  split; [done|]. intros a' s' E'. right. destruct (Hle a' s' E'); lia.
Qed.

Lemma c_loop_total a s : I a s -> mu a s < 2 ^ 33 -> c_loop body a s <> NoFuel.
Proof.
  intros Ha Hmu. unfold c_loop, mbind, M_bind. rewrite iter2_turns.
  destruct (turns_measure (2 ^ 33) a s Ha) as [Hn Hle].
  destruct (turns (2 ^ 33) body a s) as [[a1|b] s1|st s1|u|]; try done.
  destruct (Hle a1 s1 eq_refl) as [E|E].
  - by apply Nat.pow_nonzero in E.
  - rewrite pow2_nat in E. change (Z.of_nat 33) with 33 in E. lia.
Qed.
End measure.
End loops.

Section while.
Context {H : Type}.
Implicit Types s : machine H.

(** A [while] loop that goes round [n] times through the states [st 0], ..., [st n]. *)
Lemma c_while_runs (body : M H bool) (st : nat -> machine H) n s' :
  (forall k, (k < n)%nat -> runs body (st k) true (st (S k))) ->
  runs body (st n) false s' -> Z.of_nat n < 2 ^ 33 ->
  runs (c_while body) (st O) tt s'.
Proof.
  intros Hk Hn Hlt. unfold c_while.
  apply (c_loop_runs _ (fun _ => tt) st n); [| |done].
  - intros k Hkn. eapply runs_bind; [by apply Hk|apply runs_ret].
  - eapply runs_bind; [exact Hn|apply runs_ret].
Qed.

(** A [while] loop whose turns decrease a measure. *)
Lemma c_while_total (body : M H bool) (I : machine H -> Prop) (mu : machine H -> Z) s :
  (forall s, I s -> body s <> NoFuel) ->
  (forall s s', I s -> body s = Ret true s' -> I s' /\ 0 <= mu s' < mu s) ->
  I s -> mu s < 2 ^ 33 -> c_while body s <> NoFuel.
Proof.
  intros Hb Hs Hi Hmu. unfold c_while.
  apply (c_loop_total _ (fun _ => I) (fun _ => mu)); [| |done|done].
  - intros [] s1 H1. unfold mbind, M_bind. specialize (Hb s1 H1).
    destruct (body s1) as [[]| | |]; done.
  - intros [] s1 [] s2 H1. unfold mbind, M_bind.
    destruct (body s1) as [[] s3|st s3|u|] eqn:E; try done. intros [= <-]. by apply Hs.
Qed.
End while.
