(* ===== verification/Mem.v ===== *)
(** Guest memory: mem.c.

    The flat guest address space is one host allocation of [g_size] bytes.  [host_load]
    and [host_store] are the C accesses [g_mem[off]]: outside the allocation they are
    undefined behaviour.  The accessors of mem.c check the range first and otherwise do
    nothing (a write) or give zero (a read); the diagnostics they print are not modelled. *)
From S2P Require Import Prelude CInt Machine Logic.

(** * Contents *)

(** The byte at an offset of the allocation. *)
Definition byte_at (m : guest_mem) (off : Z) : Z := default 0 (g_mem m !! off).
Definition upd_bytes (f : gmap Z Z -> gmap Z Z) (m : guest_mem) : guest_mem :=
  mk_guest_mem (f (g_mem m)) (g_size m) (g_last_eip m).
Definition set_last_eip (e : Z) (m : guest_mem) : guest_mem :=
  mk_guest_mem (g_mem m) (g_size m) e.

(** A run of bytes written from an offset upwards. *)
Fixpoint store_bytes (off : Z) (bs : list Z) (m : gmap Z Z) : gmap Z Z :=
  match bs with
  | [] => m
  | b :: bs => store_bytes (off + 1) bs (<[off := b]> m)
  end.
(** The [n] bytes from an offset upwards. *)
Fixpoint load_bytes (m : guest_mem) (off : Z) (n : nat) : list Z :=
  match n with
  | O => []
  | S n => byte_at m off :: load_bytes m (off + 1) n
  end.

Section mem.
Context {H : Type}.
Abbreviation M := (M H).

(** * Host accesses *)

Definition host_load (off : Z) : M Z := fun s =>
  if (0 <=? off) && (off <? g_size (mem s)) then Ret (byte_at (mem s) off) s
  else Undef UB_oob.
Definition host_store (off v : Z) : M unit := fun s =>
  if (0 <=? off) && (off <? g_size (mem s))
  then Ret tt (upd_mem (upd_bytes <[off := u8 v]>) s)
  else Undef UB_oob.
(** [memcpy] into and out of guest memory, and [memset], through a host pointer. *)
Definition host_store_bytes (off : Z) (bs : list Z) : M unit := fun s =>
  if (0 <=? off) && (off + Z.of_nat (length bs) <=? g_size (mem s))
  then Ret tt (upd_mem (upd_bytes (store_bytes off (u8 <$> bs))) s)
  else Undef UB_oob.
Definition host_load_bytes (off n : Z) : M (list Z) := fun s =>
  if (0 <=? off) && (off + n <=? g_size (mem s))
  then Ret (load_bytes (mem s) off (Z.to_nat n)) s
  else Undef UB_oob.
Definition host_memset (off v n : Z) : M unit := fun s =>
  if (0 <=? off) && (off + n <=? g_size (mem s))
  then Ret tt (upd_mem (upd_bytes (store_bytes off (replicate (Z.to_nat n) (u8 v)))) s)
  else Undef UB_oob.

(** * mem.c *)

(** [calloc] succeeding: a zeroed allocation.  (When it fails the process exits.) *)
Definition init_mem (size : Z) : M unit :=
  modify (upd_mem (fun m => mk_guest_mem ∅ size (g_last_eip m))).
Definition free_mem : M unit :=
  modify (upd_mem (fun m => mk_guest_mem ∅ 0 (g_last_eip m))).
Definition mem_size : M Z := gets (fun s => g_size (mem s)).

Definition check_bounds (addr width : Z) : M bool :=
  gets (fun s => negb (g_size (mem s) <? addr + width)).

Definition guest_to_host (addr : Z) : M (option Z) :=
  ok ← check_bounds addr 1;
  if negb ok then mret None else mret (Some addr).

Definition mem_read8 (addr : Z) : M Z :=
  ok ← check_bounds addr 1;
  if negb ok then mret 0 else host_load addr.

Definition mem_read16 (addr : Z) : M Z :=
  ok ← check_bounds addr 2;
  if negb ok then mret 0
  else
    b0 ← host_load addr;
    b1 ← host_load (u32 (addr + 1));
    mret (u16 (Z.lor b0 (Z.shiftl b1 8))).

Definition mem_read32 (addr : Z) : M Z :=
  ok ← check_bounds addr 4;
  if negb ok then mret 0
  else
    b0 ← host_load addr;
    b1 ← host_load (u32 (addr + 1));
    b2 ← host_load (u32 (addr + 2));
    b3 ← host_load (u32 (addr + 3));
    mret (Z.lor (Z.lor (Z.lor (u32 b0) (u32 (Z.shiftl b1 8)))
                       (u32 (Z.shiftl b2 16))) (u32 (Z.shiftl b3 24))).

Definition mem_write8 (addr val : Z) : M unit :=
  ok ← check_bounds addr 1;
  if negb ok then mret tt else host_store addr val.

Definition mem_write16 (addr val : Z) : M unit :=
  ok ← check_bounds addr 2;
  if negb ok then mret tt
  else
    host_store addr val;;
    host_store (u32 (addr + 1)) (Z.shiftr val 8).

Definition mem_write32 (addr val : Z) : M unit :=
  ok ← check_bounds addr 4;
  if negb ok then mret tt
  else
    host_store addr val;;
    host_store (u32 (addr + 1)) (Z.shiftr val 8);;
    host_store (u32 (addr + 2)) (Z.shiftr val 16);;
    host_store (u32 (addr + 3)) (Z.shiftr val 24).

Definition mem_copy_in (guest_dst : Z) (host_src : list Z) : M unit :=
  ok ← check_bounds guest_dst (Z.of_nat (length host_src));
  if negb ok then mret tt else host_store_bytes guest_dst host_src.
End mem.

(** * The accessors as functions of the contents *)

(** In range: [width] bytes from [addr] lie in the allocation. *)
Definition in_range (m : guest_mem) (addr width : Z) : bool := addr + width <=? g_size m.

Definition rd8 (m : guest_mem) (addr : Z) : Z :=
  if in_range m addr 1 then byte_at m addr else 0.
Definition rd16 (m : guest_mem) (addr : Z) : Z :=
  if in_range m addr 2 then le_value (load_bytes m addr 2) else 0.
Definition rd32 (m : guest_mem) (addr : Z) : Z :=
  if in_range m addr 4 then le_value (load_bytes m addr 4) else 0.
Definition wr_bytes (addr : Z) (bs : list Z) (m : guest_mem) : guest_mem :=
  if in_range m addr (Z.of_nat (length bs)) then upd_bytes (store_bytes addr bs) m else m.
Definition wr8 (addr v : Z) (m : guest_mem) : guest_mem := wr_bytes addr (le_bytes 1 v) m.
Definition wr16 (addr v : Z) (m : guest_mem) : guest_mem := wr_bytes addr (le_bytes 2 v) m.
Definition wr32 (addr v : Z) (m : guest_mem) : guest_mem := wr_bytes addr (le_bytes 4 v) m.

Lemma byte_at_u8 m off : wf_mem m -> is_u8 (byte_at m off).
Proof.
  intros [_ Hb]. unfold byte_at. destruct (g_mem m !! off) eqn:E; simpl.
  - by apply (Hb off).
  - unfold is_u8. lia.
Qed.

Lemma load_bytes_u8 m off n : wf_mem m -> Forall is_u8 (load_bytes m off n).
Proof.
  intros Hm. revert off. induction n; intros off; simpl; constructor; auto.
  by apply byte_at_u8.
Qed.

Lemma load_bytes_length m off n : length (load_bytes m off n) = n.
Proof. revert off. induction n; intros off; simpl; [done|]. by rewrite IHn. Qed.

Lemma load_bytes_lookup m a n k : (k < n)%nat ->
  load_bytes m a n !! k = Some (byte_at m (a + Z.of_nat k)).
Proof.
  revert a k. induction n as [|n IH]; intros a k Hk; [lia|]. destruct k as [|k]; cbn [load_bytes].
  - by rewrite Z.add_0_r.
  - cbn. rewrite IH by lia. do 2 f_equal. lia.
Qed.

Lemma load_bytes_app m a n1 n2 :
  load_bytes m a (n1 + n2) = load_bytes m a n1 ++ load_bytes m (a + Z.of_nat n1) n2.
Proof.
  revert a. induction n1 as [|n1 IH]; intros a; cbn [Nat.add load_bytes app].
  - by rewrite Z.add_0_r.
  - rewrite IH. do 3 f_equal. lia.
Qed.

Lemma load_bytes_ext m m' a n :
  (forall x, a <= x < a + Z.of_nat n -> byte_at m x = byte_at m' x) ->
  load_bytes m a n = load_bytes m' a n.
Proof.
  revert a. induction n as [|n IH]; intros a Hx; [done|]. cbn [load_bytes].
  rewrite Hx by lia. f_equal. apply IH. intros x ?. apply Hx. lia.
Qed.

Lemma store_bytes_lookup off bs m a :
  store_bytes off bs m !! a =
    if (off <=? a) && (a <? off + Z.of_nat (length bs))
    then bs !! Z.to_nat (a - off) else m !! a.
Proof.
  revert off m. induction bs as [|b bs IH]; intros off m; cbn [store_bytes length].
  { by bif. }
  rewrite IH. destruct (decide (a = off)) as [->|Hne].
  - repeat bif. rewrite lookup_insert_eq, Z.sub_diag. done.
  - rewrite lookup_insert_ne by done.
    destruct ((off <=? a) && (a <? off + Z.of_nat (S (length bs)))) eqn:E.
    + bif. replace (Z.to_nat (a - off)) with (S (Z.to_nat (a - (off + 1)))) by lia. done.
    + by bif.
Qed.

Lemma store_bytes_app off bs cs m :
  store_bytes off (bs ++ cs) m =
  store_bytes (off + Z.of_nat (length bs)) cs (store_bytes off bs m).
Proof.
  revert off m. induction bs as [|c bs IH]; intros off m; cbn [app store_bytes length].
  - by rewrite Z.add_0_r.
  - rewrite IH. f_equal. lia.
Qed.

Lemma byte_at_store off bs m a :
  byte_at (upd_bytes (store_bytes off bs) m) a =
    if (off <=? a) && (a <? off + Z.of_nat (length bs))
    then default 0 (bs !! Z.to_nat (a - off)) else byte_at m a.
Proof.
  unfold byte_at. simpl. rewrite store_bytes_lookup. by case_match.
Qed.

Lemma load_store_same off bs m :
  load_bytes (upd_bytes (store_bytes off bs) m) off (length bs) = bs.
Proof.
  apply list_eq_same_length with (n := length bs); [done|apply load_bytes_length|].
  intros i x y Hi. rewrite load_bytes_lookup by done. rewrite byte_at_store.
  bif. replace (Z.to_nat (off + Z.of_nat i - off)) with i by lia.
  intros [= <-] Hy. by rewrite Hy.
Qed.

Lemma load_store_other off bs m a n :
  a + Z.of_nat n <= off \/ off + Z.of_nat (length bs) <= a ->
  load_bytes (upd_bytes (store_bytes off bs) m) a n = load_bytes m a n.
Proof.
  revert a. induction n as [|n IH]; intros a Ha; cbn [load_bytes]; [done|].
  rewrite IH by lia. f_equal. rewrite byte_at_store.
  by bif.
Qed.

Lemma wf_store_bytes off bs m :
  wf_mem m -> 0 <= off -> off + Z.of_nat (length bs) <= g_size m -> Forall is_u8 bs ->
  wf_mem (upd_bytes (store_bytes off bs) m).
Proof.
  intros [Hs Hb] Ho Hl Hbs. constructor; [done|]. simpl. intros a v.
  rewrite store_bytes_lookup. case_match eqn:E; intros Hv; [|by apply (Hb a)].
  apply andb_true_iff in E as [E1 E2]. zbool. split; [lia|].
  by eapply Forall_lookup_1.
Qed.

Lemma wr32_in a v m : a + 4 <= g_size m -> wr32 a v m = upd_bytes (store_bytes a (le_bytes 4 v)) m.
Proof. intros Hr. unfold wr32, wr_bytes, in_range. rewrite le_bytes_length. by bif. Qed.

Lemma wr32_size a v m : g_size (wr32 a v m) = g_size m.
Proof. unfold wr32, wr_bytes. by destruct (in_range _ _ _). Qed.

Lemma byte_at_wr32 m a v x : a + 4 <= g_size m ->
  byte_at (wr32 a v m) x =
  if (a <=? x) && (x <? a + 4) then default 0 (le_bytes 4 v !! Z.to_nat (x - a))
  else byte_at m x.
Proof. intros Hr. rewrite wr32_in by done. by rewrite byte_at_store, le_bytes_length. Qed.

Lemma wf_wr_bytes addr bs m :
  wf_mem m -> 0 <= addr -> Forall is_u8 bs -> wf_mem (wr_bytes addr bs m).
Proof.
  intros Hm Ha Hbs. unfold wr_bytes, in_range. destruct (Z.leb_spec (addr + Z.of_nat (length bs)) (g_size m)); [|done].
  by apply wf_store_bytes.
Qed.

Lemma wf_mem_wr32 a v m : wf_mem m -> 0 <= a -> wf_mem (wr32 a v m).
Proof. intros Hm Ha. apply wf_wr_bytes; [done..|apply le_bytes_u8]. Qed.

(** A word just written, and bytes elsewhere. *)
Lemma rd32_wr32 a v m : a + 4 <= g_size m -> rd32 (wr32 a v m) a = u32 v.
Proof.
  intros Hr. unfold rd32, in_range. rewrite wr32_size, wr32_in by done. bif.
  change 4%nat with (length (le_bytes 4 v)) at 2. rewrite load_store_same, le_value_bytes.
  by change (2 ^ (8 * Z.of_nat 4)) with 0x100000000.
Qed.
Lemma rd32_wr32_ne a b v m : a + 4 <= b \/ b + 4 <= a -> rd32 (wr32 b v m) a = rd32 m a.
Proof.
  intros Hs. unfold rd32, in_range. rewrite wr32_size. destruct (a + 4 <=? g_size m); [|done].
  unfold wr32, wr_bytes. destruct (in_range _ _ _); [|done].
  by rewrite load_store_other by (rewrite le_bytes_length; lia).
Qed.
Lemma byte_at_wr32_ne a v m x : x < a \/ a + 4 <= x -> byte_at (wr32 a v m) x = byte_at m x.
Proof.
  intros Hs. unfold wr32, wr_bytes. destruct (in_range _ _ _); [|done].
  rewrite byte_at_store, le_bytes_length. by bif.
Qed.

(** A word depends on its four bytes only. *)
Lemma rd32_same m m' a : g_size m' = g_size m ->
  (forall x, a <= x < a + 4 -> byte_at m' x = byte_at m x) -> rd32 m' a = rd32 m a.
Proof.
  intros E Hb. unfold rd32, in_range. rewrite E. destruct (_ <=? _); [|done].
  f_equal. apply load_bytes_ext. intros x Hx. apply Hb. lia.
Qed.

Lemma rd8_range m a : wf_mem m -> is_u8 (rd8 m a).
Proof. intros Hm. unfold rd8. case_match; [by apply byte_at_u8|unfold is_u8; lia]. Qed.

Lemma le_value_range bs : Forall is_u8 bs -> 0 <= le_value bs < 2 ^ (8 * Z.of_nat (length bs)).
Proof.
  intros Hbs. rewrite <- (le_bytes_value bs Hbs) at 1 2. rewrite !le_value_bytes.
  apply Z.mod_pos_bound. lia.
Qed.

Lemma rd32_range m a : wf_mem m -> is_u32 (rd32 m a).
Proof.
  intros Hm. unfold rd32. case_match; [|unfold is_u32; lia].
  pose proof (le_value_range (load_bytes m a 4) (load_bytes_u8 _ _ _ Hm)) as Hr.
  by rewrite load_bytes_length in Hr.
Qed.

Lemma rd16_range m a : wf_mem m -> is_u16 (rd16 m a).
Proof.
  intros Hm. unfold rd16. case_match; [|unfold is_u16; lia].
  pose proof (le_value_range (load_bytes m a 2) (load_bytes_u8 _ _ _ Hm)) as Hr.
  by rewrite load_bytes_length in Hr.
Qed.

#[export] Hint Resolve byte_at_u8 rd8_range rd16_range rd32_range : zrange.

(** * Execution of the accessors *)

Section exec.
Context {H : Type}.
Implicit Types s : machine H.

Lemma runs_check_bounds s a w :
  runs (check_bounds a w) s (in_range (mem s) a w) s.
Proof.
  unfold runs, check_bounds, gets, in_range. f_equal.
  destruct (Z.leb_spec (a + w) (g_size (mem s))); simpl; lia.
Qed.

Lemma runs_host_load s a :
  0 <= a < g_size (mem s) -> runs (host_load a) s (byte_at (mem s) a) s.
Proof. intros. unfold runs, host_load. by bif. Qed.

Lemma runs_host_store s a v :
  0 <= a < g_size (mem s) ->
  runs (host_store a v) s tt (upd_mem (upd_bytes <[a := u8 v]>) s).
Proof. intros. unfold runs, host_store. by bif. Qed.

Lemma runs_mem_read8 s a : 0 <= a -> runs (mem_read8 a) s (rd8 (mem s) a) s.
Proof.
  intros Ha. unfold mem_read8. eapply runs_bind; [apply runs_check_bounds|].
  unfold rd8. destruct (in_range _ _ _) eqn:E; simpl; [|apply runs_ret].
  unfold in_range in E. zbool. apply runs_host_load. lia.
Qed.

Lemma le_value_2 b0 b1 : is_u8 b0 -> is_u8 b1 ->
  u16 (Z.lor b0 (Z.shiftl b1 8)) = le_value [b0; b1].
Proof.
  intros H0 H1. cbn [le_value]. rewrite Z.shiftl_0_l, Z.lor_0_r.
  apply u16_small. pose proof (le_value_range [b0; b1]) as Hr.
  cbn [le_value length] in Hr. rewrite Z.shiftl_0_l, Z.lor_0_r in Hr.
  apply Hr. by apply Forall_cons_2, Forall_singleton.
Qed.

Lemma u32_shiftl_u8 b n : is_u8 b -> 0 <= n <= 24 -> u32 (Z.shiftl b n) = Z.shiftl b n.
Proof.
  unfold is_u8. intros Hb Hn. apply u32_small. unfold is_u32.
  rewrite Z.shiftl_mul_pow2 by lia.
  assert (2 ^ n <= 2 ^ 24) by (apply Z.pow_le_mono_r; lia).
  assert (0 < 2 ^ n) by (apply Z.pow_pos_nonneg; lia).
  change 0x100000000 with (0x100 * 2 ^ 24). nia.
Qed.

Lemma le_value_4 b0 b1 b2 b3 :
  is_u8 b0 -> is_u8 b1 -> is_u8 b2 -> is_u8 b3 ->
  Z.lor (Z.lor (Z.lor (u32 b0) (u32 (Z.shiftl b1 8))) (u32 (Z.shiftl b2 16)))
    (u32 (Z.shiftl b3 24)) = le_value [b0; b1; b2; b3].
Proof.
  intros H0 H1 H2 H3. rewrite !u32_shiftl_u8 by (done || lia).
  rewrite u32_small by (unfold is_u8, is_u32 in *; lia).
  cbn [le_value]. rewrite Z.shiftl_0_l, Z.lor_0_r.
  rewrite !Z.shiftl_lor, !Z.shiftl_shiftl by lia. by rewrite !Z.lor_assoc.
Qed.

Lemma runs_mem_read16 s a :
  wf_mem (mem s) -> 0 <= a -> runs (mem_read16 a) s (rd16 (mem s) a) s.
Proof.
  intros Hm Ha. unfold mem_read16. eapply runs_bind; [apply runs_check_bounds|].
  unfold rd16. destruct (in_range _ _ _) eqn:E; simpl; [|apply runs_ret].
  unfold in_range in E. zbool. pose proof (wf_size _ Hm).
  rewrite (u32_small (a + 1)) by (unfold is_u32; lia).
  do 2 (eapply runs_bind; [apply runs_host_load; lia|]).
  eapply runs_eq; [apply runs_ret| |done].
  rewrite le_value_2 by auto with zrange. done.
Qed.

Lemma runs_mem_read32 s a :
  wf_mem (mem s) -> 0 <= a -> runs (mem_read32 a) s (rd32 (mem s) a) s.
Proof.
  intros Hm Ha. unfold mem_read32. eapply runs_bind; [apply runs_check_bounds|].
  unfold rd32. destruct (in_range _ _ _) eqn:E; simpl; [|apply runs_ret].
  unfold in_range in E. zbool. pose proof (wf_size _ Hm).
  rewrite (u32_small (a + 1)), (u32_small (a + 2)), (u32_small (a + 3))
    by (unfold is_u32; lia).
  do 4 (eapply runs_bind; [apply runs_host_load; lia|]).
  eapply runs_eq; [apply runs_ret| |done].
  rewrite le_value_4 by auto with zrange.
  by replace (a + 1 + 1 + 1) with (a + 3) by lia;
     replace (a + 1 + 1) with (a + 2) by lia.
Qed.

Lemma runs_mem_write8 s a v :
  0 <= a -> runs (mem_write8 a v) s tt (upd_mem (wr8 a v) s).
Proof.
  intros Ha. unfold mem_write8. eapply runs_bind; [apply runs_check_bounds|].
  destruct s as [c m o k h]. unfold wr8, wr_bytes, upd_mem. simpl mem.
  change (Z.of_nat (length (le_bytes 1 v))) with 1.
  destruct (in_range m a 1) eqn:E; simpl; [|apply runs_ret].
  unfold in_range in E. zbool.
  eapply runs_eq; [apply runs_host_store; simpl; lia|done|done].
Qed.

Lemma runs_mem_write16 s a v :
  wf_mem (mem s) -> 0 <= a -> runs (mem_write16 a v) s tt (upd_mem (wr16 a v) s).
Proof.
  intros Hm Ha. unfold mem_write16. eapply runs_bind; [apply runs_check_bounds|].
  destruct s as [c m o k h]. unfold wr16, wr_bytes, upd_mem. simpl mem in *.
  change (Z.of_nat (length (le_bytes 2 v))) with 2.
  destruct (in_range m a 2) eqn:E; simpl; [|apply runs_ret].
  unfold in_range in E. zbool. pose proof (wf_size _ Hm).
  rewrite (u32_small (a + 1)) by (unfold is_u32; lia).
  eapply runs_bind; [apply runs_host_store; simpl; lia|].
  eapply runs_eq; [apply runs_host_store; simpl; lia|done|done].
Qed.

Lemma runs_mem_write32 s a v :
  wf_mem (mem s) -> 0 <= a -> runs (mem_write32 a v) s tt (upd_mem (wr32 a v) s).
Proof.
  intros Hm Ha. unfold mem_write32. eapply runs_bind; [apply runs_check_bounds|].
  destruct s as [c m o k h]. unfold wr32, wr_bytes, upd_mem. simpl mem in *.
  change (Z.of_nat (length (le_bytes 4 v))) with 4.
  destruct (in_range m a 4) eqn:E; simpl; [|apply runs_ret].
  unfold in_range in E. zbool. pose proof (wf_size _ Hm).
  rewrite (u32_small (a + 1)), (u32_small (a + 2)), (u32_small (a + 3))
    by (unfold is_u32; lia).
  do 3 (eapply runs_bind; [apply runs_host_store; simpl; lia|]).
  eapply runs_eq; [apply runs_host_store; simpl; lia|done|].
  unfold upd_mem, upd_bytes; simpl. rewrite !Z.shiftr_shiftr by lia.
  by replace (a + 1 + 1 + 1) with (a + 3) by lia;
     replace (a + 1 + 1) with (a + 2) by lia.
Qed.

(** * Steps *)

Lemma resp_host_store a v : respects guest_step (host_store (H:=H) a v).
Proof.
  intros s. unfold host_store. destruct (_ && _) eqn:E; [|done].
  apply andb_true_iff in E as [E1 E2]. zbool.
  apply guest_upd_mem; [done|]. intros Hm.
  apply (wf_store_bytes a [u8 v]); [done..|simpl; lia|].
  apply Forall_singleton, u8_range.
Qed.

Lemma resp_host_load a : respects guest_step (host_load (H:=H) a).
Proof. intros s. unfold host_load. destruct (_ && _); [simpl; reflexivity|done]. Qed.

Lemma resp_check_bounds a w : respects guest_step (check_bounds (H:=H) a w).
Proof. apply respects_gets. exact _. Qed.

Lemma resp_host_store_bytes a bs : respects guest_step (host_store_bytes (H:=H) a bs).
Proof.
  intros s. unfold host_store_bytes. destruct (_ && _) eqn:E; [|done].
  apply andb_true_iff in E as [E1 E2]. zbool.
  apply guest_upd_mem; [done|]. intros Hm.
  apply wf_store_bytes; [done..|by rewrite length_fmap|].
  apply Forall_fmap, Forall_true. intros x. apply u8_range.
Qed.

Lemma resp_host_load_bytes a n : respects guest_step (host_load_bytes (H:=H) a n).
Proof. intros s. unfold host_load_bytes. destruct (_ && _); [simpl; reflexivity|done]. Qed.

Lemma resp_host_memset a v n : respects guest_step (host_memset (H:=H) a v n).
Proof.
  intros s. unfold host_memset. destruct (_ && _) eqn:E; [|done].
  apply andb_true_iff in E as [E1 E2]. zbool.
  apply guest_upd_mem; [done|]. intros Hm. destruct (Z.le_gt_cases 0 n).
  - apply wf_store_bytes; [done..|rewrite length_replicate; lia|].
    apply Forall_replicate, u8_range.
  - rewrite Z2Nat.nonpos by lia. by destruct Hm; constructor.
Qed.
End exec.

#[export] Hint Resolve resp_host_store resp_host_load resp_check_bounds
  resp_host_store_bytes resp_host_load_bytes resp_host_memset : resp.

Section steps.
Context {H : Type}.

Lemma resp_mem_read8 a : respects guest_step (mem_read8 (H:=H) a).
Proof. unfold mem_read8. respects. Qed.
Lemma resp_mem_read16 a : respects guest_step (mem_read16 (H:=H) a).
Proof. unfold mem_read16. respects. Qed.
Lemma resp_mem_read32 a : respects guest_step (mem_read32 (H:=H) a).
Proof. unfold mem_read32. respects. Qed.
Lemma resp_mem_write8 a v : respects guest_step (mem_write8 (H:=H) a v).
Proof. unfold mem_write8. respects. Qed.
Lemma resp_mem_write16 a v : respects guest_step (mem_write16 (H:=H) a v).
Proof. unfold mem_write16. respects. Qed.
Lemma resp_mem_write32 a v : respects guest_step (mem_write32 (H:=H) a v).
Proof. unfold mem_write32. respects. Qed.
Lemma resp_mem_copy_in a bs : respects guest_step (mem_copy_in (H:=H) a bs).
Proof. unfold mem_copy_in. respects. Qed.
Lemma resp_guest_to_host a : respects guest_step (guest_to_host (H:=H) a).
Proof. unfold guest_to_host. respects. Qed.
End steps.

#[export] Hint Resolve resp_mem_read8 resp_mem_read16 resp_mem_read32 resp_mem_write8
  resp_mem_write16 resp_mem_write32 resp_mem_copy_in resp_guest_to_host : resp.
