(* ===== verification/Flags.v ===== *)
(** EFLAGS: the flag helpers at the top of ops.c, and the architecture's definition of the
    arithmetic flags they are meant to compute. *)
From S2P Require Import Prelude CInt Machine Logic.

Definition FLAG_CF : Z := Z.shiftl 1 0.
Definition FLAG_PF : Z := Z.shiftl 1 2.
Definition FLAG_ZF : Z := Z.shiftl 1 6.
Definition FLAG_SF : Z := Z.shiftl 1 7.
Definition FLAG_OF : Z := Z.shiftl 1 11.

Section flags.
Context {H : Type}.
Abbreviation M := (M H).

(** The two-armed body of every setter:
    [if (c) cpu->eflags |= FLAG; else cpu->eflags &= ~FLAG;]. *)
Definition put_flag (FLAG : Z) (c : bool) : M unit :=
  e ← get_eflags;
  set_eflags (if c then Z.lor e FLAG else Z.land e (u32 (Z.lnot FLAG))).

Definition set_cf (cf : Z) : M unit := put_flag FLAG_CF (negb (cf =? 0)).

Definition set_pf (result : Z) : M unit :=
  let b := u8 result in
  let b := u8 (Z.lxor b (Z.shiftr b 4)) in
  let b := u8 (Z.lxor b (Z.shiftr b 2)) in
  let b := u8 (Z.lxor b (Z.shiftr b 1)) in
  put_flag FLAG_PF (Z.land b 1 =? 0).

Definition set_zf (result : Z) : M unit := put_flag FLAG_ZF (result =? 0).

Definition set_sf (result : Z) : M unit :=
  put_flag FLAG_SF (negb (Z.land result 0x80000000 =? 0)).

Definition set_of_add (a b result : Z) : M unit :=
  let ovf := Z.shiftr (Z.land (u32 (Z.lnot (Z.lxor a b))) (Z.lxor a result)) 31 in
  put_flag FLAG_OF (negb (ovf =? 0)).

Definition set_of_sub (a b result : Z) : M unit :=
  let ovf := Z.shiftr (Z.land (Z.lxor a b) (Z.lxor a result)) 31 in
  put_flag FLAG_OF (negb (ovf =? 0)).

Definition get_cf : M Z := e ← get_eflags; mret (Z.land (Z.shiftr e 0) 1).
Definition get_pf : M Z := e ← get_eflags; mret (Z.land (Z.shiftr e 2) 1).
Definition get_zf : M Z := e ← get_eflags; mret (Z.land (Z.shiftr e 6) 1).
Definition get_sf : M Z := e ← get_eflags; mret (Z.land (Z.shiftr e 7) 1).
Definition get_of : M Z := e ← get_eflags; mret (Z.land (Z.shiftr e 11) 1).
End flags.

(** * The architecture's flags *)

(** The arithmetic status flags of an EFLAGS value, and their definition for the result of
    an operation on [w]-bit operands (Intel SDM vol. 1, 3.4.3.1). *)
Record status := mk_status { CF : bool; PF : bool; ZF : bool; SF : bool; OF : bool }.

Definition status_of (e : Z) : status :=
  mk_status (Z.testbit e 0) (Z.testbit e 2) (Z.testbit e 6) (Z.testbit e 7)
    (Z.testbit e 11).

(** The bits that are not arithmetic status flags. *)
Definition status_bit (i : Z) : bool :=
  (i =? 0) || (i =? 2) || (i =? 6) || (i =? 7) || (i =? 11).
Definition same_system_flags (e e' : Z) : Prop :=
  forall i, 0 <= i -> status_bit i = false -> Z.testbit e' i = Z.testbit e i.

(** Even number of ones in the low byte. *)
Definition parity8 (r : Z) : bool :=
  negb (xorb (Z.testbit r 0) (xorb (Z.testbit r 1) (xorb (Z.testbit r 2)
       (xorb (Z.testbit r 3) (xorb (Z.testbit r 4) (xorb (Z.testbit r 5)
       (xorb (Z.testbit r 6) (Z.testbit r 7)))))))).

(** The two's complement value of a [w]-bit word. *)
Definition signed (w x : Z) : Z := if x <? 2 ^ (w - 1) then x else x - 2 ^ w.
Definition signed_overflow (w z : Z) : bool := (z <? - 2 ^ (w - 1)) || (2 ^ (w - 1) <=? z).

(** [a + b + c] and [a - b - c] on [w]-bit words with carry/borrow [c], and the logical
    operations, whose result is given. *)
Definition alu_add (w a b c : Z) : Z * status :=
  let r := (a + b + c) mod 2 ^ w in
  (r, mk_status (2 ^ w <=? a + b + c) (parity8 r) (r =? 0) (Z.testbit r (w - 1))
        (signed_overflow w (signed w a + signed w b + c))).
Definition alu_sub (w a b c : Z) : Z * status :=
  let r := (a - b - c) mod 2 ^ w in
  (r, mk_status (a <? b + c) (parity8 r) (r =? 0) (Z.testbit r (w - 1))
        (signed_overflow w (signed w a - signed w b - c))).
Definition alu_logic (w r : Z) : Z * status :=
  (r, mk_status false (parity8 r) (r =? 0) (Z.testbit r (w - 1)) false).

(** * Effect of the helpers *)

(** EFLAGS with bit [n] set to [c]. *)
Definition put_bit (n : Z) (c : bool) (e : Z) : Z :=
  u32 (if c then Z.lor e (Z.shiftl 1 n) else Z.land e (u32 (Z.lnot (Z.shiftl 1 n)))).

Lemma testbit_put_bit n c e i :
  0 <= n < 32 -> 0 <= i < 32 ->
  Z.testbit (put_bit n c e) i = if i =? n then c else Z.testbit e i.
Proof.
  intros Hn Hi. unfold put_bit. rewrite testbit_u32 by lia. btest (i <? 32).
  rewrite Z.shiftl_1_l. destruct c.
  - rewrite Z.lor_spec, Z.pow2_bits_eqb by lia.
    destruct (Z.eqb_spec n i), (Z.eqb_spec i n); try lia;
      by rewrite ?orb_true_r, ?orb_false_r.
  - rewrite Z.land_spec, testbit_u32, Z.lnot_spec, Z.pow2_bits_eqb by lia.
    btest (i <? 32).
    destruct (Z.eqb_spec n i), (Z.eqb_spec i n); try lia;
      by rewrite ?andb_false_r, ?andb_true_r.
Qed.

Lemma put_bit_high n c e i : 32 <= i -> Z.testbit (put_bit n c e) i = false.
Proof. intros Hi. unfold put_bit. rewrite testbit_u32 by lia. by btest (i <? 32). Qed.

Lemma wf_put_bit n c e :
  wf_eflags e -> 0 <= n < 32 -> n <> 1 -> flag_bit n = true -> wf_eflags (put_bit n c e).
Proof.
  intros [Hu Hr Ho] Hn H1 Hf. constructor.
  - apply u32_range.
  - rewrite testbit_put_bit by lia. by bif.
  - intros i Hi Hfi. destruct (decide (i < 32)).
    + rewrite testbit_put_bit by lia. destruct (Z.eqb_spec i n); [congruence|auto].
    + apply put_bit_high. lia.
Qed.

Section exec.
Context {H : Type}.
Implicit Types s : machine H.

Definition put_flag_st (n : Z) (c : bool) s : machine H :=
  upd_cpu (upd_eflags (put_bit n c)) s.

Lemma runs_put_flag n c s :
  runs (put_flag (Z.shiftl 1 n) c) s tt (put_flag_st n c s).
Proof. done. Qed.

Lemma resp_put_flag n c :
  0 <= n < 32 -> n <> 1 -> flag_bit n = true ->
  respects (guest_step (H:=H)) (put_flag (Z.shiftl 1 n) c).
Proof.
  intros Hn H1 Hf s. rewrite (runs_put_flag n c s). apply guest_upd_cpu.
  intros []. constructor; simpl; try done. by apply wf_put_bit.
Qed.

Lemma runs_set_cf cf s : runs (set_cf cf) s tt (put_flag_st 0 (negb (cf =? 0)) s).
Proof. apply runs_put_flag. Qed.

(** Folding a byte onto itself computes the parity of its bits. *)
Lemma parity_fold b : is_u8 b ->
  (let b := u8 (Z.lxor b (Z.shiftr b 4)) in
   let b := u8 (Z.lxor b (Z.shiftr b 2)) in
   let b := u8 (Z.lxor b (Z.shiftr b 1)) in
   Z.land b 1 =? 0) = parity8 b.
Proof.
  intros Hb.
  assert (forallb (fun n => let b := Z.of_nat n in
    Bool.eqb (let b := u8 (Z.lxor b (Z.shiftr b 4)) in
     let b := u8 (Z.lxor b (Z.shiftr b 2)) in
     let b := u8 (Z.lxor b (Z.shiftr b 1)) in
     Z.land b 1 =? 0) (parity8 b)) (seq 0 256) = true) as Hall by (vm_compute; done).
  rewrite forallb_forall in Hall. specialize (Hall (Z.to_nat b)).
  unfold is_u8 in Hb. rewrite Z2Nat.id in Hall by lia.
  apply eqb_prop, Hall. apply in_seq. lia.
Qed.

Lemma parity8_u8 r : parity8 (u8 r) = parity8 r.
Proof. unfold parity8. by rewrite !testbit_u8 by lia. Qed.

Lemma runs_set_pf r s : runs (set_pf r) s tt (put_flag_st 2 (parity8 r) s).
Proof.
  eapply runs_eq; [apply runs_put_flag|done|].
  pose proof (parity_fold (u8 r) (u8_range r)) as Hp. cbv zeta in Hp.
  by rewrite Hp, parity8_u8.
Qed.

Lemma runs_set_zf r s : runs (set_zf r) s tt (put_flag_st 6 (r =? 0) s).
Proof. apply runs_put_flag. Qed.

Lemma runs_set_sf r s : runs (set_sf r) s tt (put_flag_st 7 (Z.testbit r 31) s).
Proof.
  eapply runs_eq; [apply runs_put_flag|done|].
  change 0x80000000 with (2 ^ 31). rewrite land_pow2_testbit by lia.
  by destruct (Z.testbit r 31).
Qed.

Lemma shiftr31_testbit x : is_u32 x -> negb (Z.shiftr x 31 =? 0) = Z.testbit x 31.
Proof.
  intros Hx. rewrite (testbit_top 31) by (unfold is_u32 in Hx; lia).
  rewrite Z.shiftr_div_pow2 by lia. unfold is_u32 in Hx. change (2 ^ 31) with 0x80000000.
  destruct (Z.eqb_spec (x / 0x80000000) 0), (Z.leb_spec 0x80000000 x); simpl;
    Z.div_mod_to_equations; lia.
Qed.

Lemma runs_set_of_add a b r s :
  runs (set_of_add a b r) s tt
    (put_flag_st 11 (negb (xorb (Z.testbit a 31) (Z.testbit b 31)) &&
                     xorb (Z.testbit a 31) (Z.testbit r 31)) s).
Proof.
  eapply runs_eq; [apply runs_put_flag|done|]. rewrite shiftr31_testbit.
  - by rewrite Z.land_spec, testbit_u32, Z.lnot_spec, !Z.lxor_spec by lia.
  - apply land_u32, u32_range.
Qed.

Lemma runs_set_of_sub a b r s :
  is_u32 a -> is_u32 b ->
  runs (set_of_sub a b r) s tt
    (put_flag_st 11 (xorb (Z.testbit a 31) (Z.testbit b 31) &&
                     xorb (Z.testbit a 31) (Z.testbit r 31)) s).
Proof.
  intros Ha Hb. eapply runs_eq; [apply runs_put_flag|done|]. rewrite shiftr31_testbit.
  - by rewrite Z.land_spec, !Z.lxor_spec by lia.
  - by apply land_u32, lxor_u32.
Qed.

Definition flag (n : Z) s : Z := Z.b2z (Z.testbit (eflags (cpu s)) n).

Lemma runs_get_cf s : runs get_cf s (flag 0 s) s.
Proof. eapply runs_eq; [done|by rewrite shiftr_land1|done]. Qed.
Lemma runs_get_pf s : runs get_pf s (flag 2 s) s.
Proof. eapply runs_eq; [done|by rewrite shiftr_land1|done]. Qed.
Lemma runs_get_zf s : runs get_zf s (flag 6 s) s.
Proof. eapply runs_eq; [done|by rewrite shiftr_land1|done]. Qed.
Lemma runs_get_sf s : runs get_sf s (flag 7 s) s.
Proof. eapply runs_eq; [done|by rewrite shiftr_land1|done]. Qed.
Lemma runs_get_of s : runs get_of s (flag 11 s) s.
Proof. eapply runs_eq; [done|by rewrite shiftr_land1|done]. Qed.

Lemma resp_set_cf cf : respects (guest_step (H:=H)) (set_cf cf).
Proof. by apply (resp_put_flag 0). Qed.
Lemma resp_set_pf r : respects (guest_step (H:=H)) (set_pf r).
Proof. by apply (resp_put_flag 2). Qed.
Lemma resp_set_zf r : respects (guest_step (H:=H)) (set_zf r).
Proof. by apply (resp_put_flag 6). Qed.
Lemma resp_set_sf r : respects (guest_step (H:=H)) (set_sf r).
Proof. by apply (resp_put_flag 7). Qed.
Lemma resp_set_of_add a b r : respects (guest_step (H:=H)) (set_of_add a b r).
Proof. by apply (resp_put_flag 11). Qed.
Lemma resp_set_of_sub a b r : respects (guest_step (H:=H)) (set_of_sub a b r).
Proof. by apply (resp_put_flag 11). Qed.
Lemma resp_get_cf : respects (guest_step (H:=H)) get_cf.
Proof. unfold get_cf. respects. Qed.
Lemma resp_get_pf : respects (guest_step (H:=H)) get_pf.
Proof. unfold get_pf. respects. Qed.
Lemma resp_get_zf : respects (guest_step (H:=H)) get_zf.
Proof. unfold get_zf. respects. Qed.
Lemma resp_get_sf : respects (guest_step (H:=H)) get_sf.
Proof. unfold get_sf. respects. Qed.
Lemma resp_get_of : respects (guest_step (H:=H)) get_of.
Proof. unfold get_of. respects. Qed.
End exec.

#[export] Hint Resolve resp_set_cf resp_set_pf resp_set_zf resp_set_sf resp_set_of_add
  resp_set_of_sub resp_get_cf resp_get_pf resp_get_zf resp_get_sf resp_get_of : resp.
#[export] Hint Resolve runs_set_cf runs_set_pf runs_set_zf runs_set_sf runs_set_of_add
  runs_get_cf runs_get_pf runs_get_zf runs_get_sf runs_get_of : run.
#[export] Hint Extern 2 (runs (set_of_sub _ _ _) _ _ _) =>
  apply runs_set_of_sub; solve [auto with zrange] : run.
