(* ===== verification/ModRM.v ===== *)
(** Operand decoding: the 8-bit register file, the ModR/M and SIB bytes, effective
    addresses, and the operand accessors of ops.c. *)
From S2P Require Import Prelude CInt Machine Logic Mem.

(** [ModRM] of cpu.h.  [parse_modrm] leaves the fields [sib_*] (and [disp]) unset when there
    is no SIB byte (no displacement); the model gives them 0, and [resolve_ignores_unset]
    shows that the values are never used. *)
Record ModRM := mk_modrm {
  mrm_mod : Z;
  mrm_reg : Z;
  mrm_rm : Z;
  has_sib : Z;
  has_disp : Z;
  disp : Z;
  sib_base : Z;
  sib_index : Z;
  sib_scale : Z
}.

Section modrm.
Context {H : Type}.
Abbreviation M := (M H).

(** [mem_read8(cpu->eip++)]. *)
Definition fetch8 : M Z :=
  e ← get_eip;
  set_eip (e + 1);;
  mem_read8 e.
(** [x = mem_read16(cpu->eip); cpu->eip += 2;]. *)
Definition fetch16 : M Z :=
  e ← get_eip;
  v ← mem_read16 e;
  set_eip (e + 2);;
  mret v.
(** [x = mem_read32(cpu->eip); cpu->eip += 4;]. *)
Definition fetch32 : M Z :=
  e ← get_eip;
  v ← mem_read32 e;
  set_eip (e + 4);;
  mret v.

(** 0-3 are AL CL DL BL, 4-7 are AH CH DH BH. *)
Definition get_reg8 (r : Z) : M Z :=
  if r <? 4 then v ← reg r; mret (u8 v)
  else v ← reg (r - 4); mret (u8 (Z.shiftr v 8)).
Definition set_reg8 (r val : Z) : M unit :=
  if r <? 4 then v ← reg r; set_reg r (Z.lor (Z.land v 0xFFFFFF00) val)
  else
    v ← reg (r - 4);
    set_reg (r - 4) (Z.lor (Z.land v 0xFFFF00FF) (Z.shiftl val 8)).

Definition parse_modrm : M ModRM :=
  mrm ← fetch8;
  let md := Z.land (Z.shiftr mrm 6) 0x03 in
  let rg := Z.land (Z.shiftr mrm 3) 0x07 in
  let rm := Z.land mrm 0x07 in
  if negb (md =? 3) then
    '(hs, sc, ix, bs) ←
      (if rm =? 4 then
         sib ← fetch8;
         mret (1, Z.land (Z.shiftr sib 6) 0x03, Z.land (Z.shiftr sib 3) 0x07,
               Z.land sib 0x07)
       else mret (0, 0, 0, 0));
    '(hd, d) ←
      (if md =? 1 then b ← fetch8; mret (1, u32 (s8 b))
       else if md =? 2 then d ← fetch32; mret (1, d)
       else if md =? 0 then
         if (rm =? 5) || (negb (hs =? 0) && (bs =? 5)) then d ← fetch32; mret (1, d)
         else mret (0, 0)
       else mret (0, 0));
    mret (mk_modrm md rg rm hs hd d bs ix sc)
  else mret (mk_modrm md rg rm 0 0 0 0 0 0).

Definition resolve_rm_addr (m : ModRM) : M Z :=
  if mrm_mod m =? 3 then mret 0
  else
    addr ←
      (if negb (has_sib m =? 0) then
         addr ← (if (sib_base m =? 5) && (mrm_mod m =? 0) then mret 0
                 else reg (sib_base m));
         if negb (sib_index m =? 4) then
           ix ← reg (sib_index m);
           mret (u32 (addr + u32 (Z.shiftl ix (sib_scale m))))
         else mret addr
       else if (mrm_mod m =? 0) && (mrm_rm m =? 5) then mret 0
       else reg (mrm_rm m));
    let addr := if negb (has_disp m =? 0) then u32 (addr + disp m) else addr in
    seg ← get_og g_seg_override;
    let addr := u32 (addr + seg) in
    set_seg_override 0;;
    mret addr.

Definition read_rm32 (m : ModRM) : M Z :=
  if mrm_mod m =? 3 then reg (mrm_rm m)
  else a ← resolve_rm_addr m; mem_read32 a.

Definition write_rm32 (m : ModRM) (val : Z) : M unit :=
  if mrm_mod m =? 3 then set_reg (mrm_rm m) val
  else a ← resolve_rm_addr m; mem_write32 a val.

(** The 8- and 16-bit operand accesses that the handlers write inline:
    [(mrm.mod == 3) ? get_reg8(cpu, mrm.rm) : mem_read8(resolve_rm_addr(cpu, &mrm))],
    and the same for 16 bits and for stores. *)
Definition read_rm8 (m : ModRM) : M Z :=
  if mrm_mod m =? 3 then get_reg8 (mrm_rm m)
  else a ← resolve_rm_addr m; mem_read8 a.
Definition write_rm8 (m : ModRM) (val : Z) : M unit :=
  if mrm_mod m =? 3 then set_reg8 (mrm_rm m) val
  else a ← resolve_rm_addr m; mem_write8 a val.
Definition read_rm16 (m : ModRM) : M Z :=
  if mrm_mod m =? 3 then v ← reg (mrm_rm m); mret (u16 v)
  else a ← resolve_rm_addr m; mem_read16 a.
Definition write_rm16 (m : ModRM) (val : Z) : M unit :=
  if mrm_mod m =? 3 then
    v ← reg (mrm_rm m);
    set_reg (mrm_rm m) (Z.lor (Z.land v 0xFFFF0000) val)
  else a ← resolve_rm_addr m; mem_write16 a val.

(** [(uint64_t)mem_read32(addr) | ((uint64_t)mem_read32(addr + 4) << 32)]. *)
Definition mem_read64 (addr : Z) : M Z :=
  l ← mem_read32 addr;
  h ← mem_read32 (u32 (addr + 4));
  mret (Z.lor l (u64 (Z.shiftl h 32))).
(** [mem_write32(addr, (uint32_t)(val)); mem_write32(addr + 4, (uint32_t)(val >> 32));]. *)
Definition mem_write64 (addr val : Z) : M unit :=
  mem_write32 addr (u32 val);;
  mem_write32 (u32 (addr + 4)) (u32 (Z.shiftr val 32)).

Definition read_xmm_src (m : ModRM) : M XMMReg :=
  if mrm_mod m =? 3 then xmm (mrm_rm m)
  else
    addr ← resolve_rm_addr m;
    l ← mem_read64 addr;
    h ← mem_read64 (u32 (addr + 8));
    mret (mk_xmm l h).

Definition write_xmm_dst (m : ModRM) (val : XMMReg) : M unit :=
  if mrm_mod m =? 3 then set_xmm (mrm_rm m) val
  else
    addr ← resolve_rm_addr m;
    mem_write64 addr (lo val);;
    mem_write64 (u32 (addr + 8)) (hi val).

(** The 64-bit source of the MMX instructions. *)
Definition read_mmx_src (m : ModRM) : M Z :=
  if mrm_mod m =? 3 then mmx (mrm_rm m)
  else a ← resolve_rm_addr m; mem_read64 a.
End modrm.

(** Without a SIB byte (a displacement) the corresponding fields are not looked at. *)
Lemma resolve_ignores_unset {H} md rg rm d b i k b' i' k' :
  resolve_rm_addr (H:=H) (mk_modrm md rg rm 0 1 d b i k)
    = resolve_rm_addr (mk_modrm md rg rm 0 1 d b' i' k') /\
  forall hs d', resolve_rm_addr (H:=H) (mk_modrm md rg rm hs 0 d b i k)
    = resolve_rm_addr (mk_modrm md rg rm hs 0 d' b i k).
Proof. done. Qed.

(** * Steps *)

Section steps.
Context {H : Type}.

Lemma resp_fetch8 : respects (guest_step (H:=H)) fetch8.
Proof. unfold fetch8. respects. Qed.
Lemma resp_fetch16 : respects (guest_step (H:=H)) fetch16.
Proof. unfold fetch16. respects. Qed.
Lemma resp_fetch32 : respects (guest_step (H:=H)) fetch32.
Proof. unfold fetch32. respects. Qed.
Lemma resp_get_reg8 r : respects (guest_step (H:=H)) (get_reg8 r).
Proof. unfold get_reg8. respects. Qed.
Lemma resp_set_reg8 r v : respects (guest_step (H:=H)) (set_reg8 r v).
Proof. unfold set_reg8. respects. Qed.
#[local] Hint Resolve resp_fetch8 resp_fetch16 resp_fetch32 resp_get_reg8
  resp_set_reg8 : resp.
Lemma resp_parse_modrm : respects (guest_step (H:=H)) parse_modrm.
Proof. unfold parse_modrm. respects. Qed.
Lemma resp_resolve m : respects (guest_step (H:=H)) (resolve_rm_addr m).
Proof. unfold resolve_rm_addr. respects. Qed.
#[local] Hint Resolve resp_parse_modrm resp_resolve : resp.
Lemma resp_read_rm32 m : respects (guest_step (H:=H)) (read_rm32 m).
Proof. unfold read_rm32. respects. Qed.
Lemma resp_write_rm32 m v : respects (guest_step (H:=H)) (write_rm32 m v).
Proof. unfold write_rm32. respects. Qed.
Lemma resp_read_rm8 m : respects (guest_step (H:=H)) (read_rm8 m).
Proof. unfold read_rm8. respects. Qed.
Lemma resp_write_rm8 m v : respects (guest_step (H:=H)) (write_rm8 m v).
Proof. unfold write_rm8. respects. Qed.
Lemma resp_read_rm16 m : respects (guest_step (H:=H)) (read_rm16 m).
Proof. unfold read_rm16. respects. Qed.
Lemma resp_write_rm16 m v : respects (guest_step (H:=H)) (write_rm16 m v).
Proof. unfold write_rm16. respects. Qed.
Lemma resp_mem_read64 a : respects (guest_step (H:=H)) (mem_read64 a).
Proof. unfold mem_read64. respects. Qed.
Lemma resp_mem_write64 a v : respects (guest_step (H:=H)) (mem_write64 a v).
Proof. unfold mem_write64. respects. Qed.
#[local] Hint Resolve resp_mem_read64 resp_mem_write64 : resp.
Lemma resp_read_xmm_src m : respects (guest_step (H:=H)) (read_xmm_src m).
Proof. unfold read_xmm_src. respects. Qed.
Lemma resp_write_xmm_dst m v : respects (guest_step (H:=H)) (write_xmm_dst m v).
Proof. unfold write_xmm_dst. respects. Qed.
Lemma resp_read_mmx_src m : respects (guest_step (H:=H)) (read_mmx_src m).
Proof. unfold read_mmx_src. respects. Qed.
End steps.

#[export] Hint Resolve resp_fetch8 resp_fetch16 resp_fetch32 resp_get_reg8 resp_set_reg8
  resp_parse_modrm resp_resolve resp_read_rm32 resp_write_rm32 resp_read_rm8
  resp_write_rm8 resp_read_rm16 resp_write_rm16 resp_mem_read64 resp_mem_write64
  resp_read_xmm_src resp_write_xmm_dst resp_read_mmx_src : resp.
