(* ===== verification/OpsAlu.v ===== *)
(** Integer arithmetic and logic: the one-byte opcodes 0x00-0x4F of ops.c, the three
    immediate groups 0x80, 0x81 and 0x83, and TEST. *)
From S2P Require Import Prelude CInt Machine Logic Mem Flags ModRM.

Section alu.
Context {H : Type}.
Abbreviation M := (M H).

(** 0x00 ADD r/m8, r8 *)
Definition op_add_rm8_r8 (op : Z) : M unit :=
  mrm ← parse_modrm;
  a ← read_rm8 mrm;
  b ← get_reg8 (mrm_reg mrm);
  let result := u8 (a + b) in
  write_rm8 mrm result;;
  set_cf (Z.b2z (result <? a));;
  set_zf result;;
  set_sf result;;
  set_pf result;;
  set_of_add a b result;;
  add_cycles 2.

(** 0x01 ADD r/m32, r32 *)
Definition op_add_rm32_r32 (op : Z) : M unit :=
  mrm ← parse_modrm;
  a ← read_rm32 mrm;
  b ← reg (mrm_reg mrm);
  let result := u32 (a + b) in
  write_rm32 mrm result;;
  set_cf (Z.b2z (result <? a));;
  set_zf result;;
  set_sf result;;
  set_pf result;;
  set_of_add a b result;;
  add_cycles 2.

(** 0x02 ADD r8, r/m8 *)
Definition op_add_r8_rm8 (op : Z) : M unit :=
  mrm ← parse_modrm;
  a ← get_reg8 (mrm_reg mrm);
  b ← read_rm8 mrm;
  let result := u8 (a + b) in
  set_reg8 (mrm_reg mrm) result;;
  set_cf (Z.b2z (result <? a));;
  set_zf result;;
  set_sf result;;
  set_pf result;;
  set_of_add a b result;;
  add_cycles 2.

(** 0x03 ADD r32, r/m32 *)
Definition op_add_r32_rm32 (op : Z) : M unit :=
  mrm ← parse_modrm;
  a ← reg (mrm_reg mrm);
  b ← read_rm32 mrm;
  let result := u32 (a + b) in
  set_reg (mrm_reg mrm) result;;
  set_cf (Z.b2z (result <? a));;
  set_zf result;;
  set_sf result;;
  set_pf result;;
  set_of_add a b result;;
  add_cycles 2.

(** 0x05 ADD EAX, imm32 *)
Definition op_add_eax_imm32 (op : Z) : M unit :=
  a ← reg REG_EAX;
  b ← fetch32;
  let result := u32 (a + b) in
  set_reg REG_EAX result;;
  set_cf (Z.b2z (result <? a));;
  set_zf result;;
  set_sf result;;
  set_pf result;;
  set_of_add a b result;;
  add_cycles 1.

(** 0x09 OR r/m32, r32 *)
Definition op_or_rm32_r32 (op : Z) : M unit :=
  mrm ← parse_modrm;
  a ← read_rm32 mrm;
  b ← reg (mrm_reg mrm);
  let result := Z.lor a b in
  write_rm32 mrm result;;
  set_zf result;;
  set_sf result;;
  set_pf result;;
  set_cf 0;;
  add_cycles 2.

(** 0x10 ADC r/m8, r8 *)
Definition op_adc_rm8_r8 (op : Z) : M unit :=
  mrm ← parse_modrm;
  a ← read_rm8 mrm;
  b ← get_reg8 (mrm_reg mrm);
  cf ← get_cf;
  let result := u8 (a + b + cf) in
  write_rm8 mrm result;;
  set_cf (Z.b2z ((result <? a) || (negb (cf =? 0) && (result =? a))));;
  set_zf result;;
  set_sf result;;
  set_pf result;;
  set_of_add a b result;;
  add_cycles 2.

(** 0x12 ADC r8, r/m8 *)
Definition op_adc_r8_rm8 (op : Z) : M unit :=
  mrm ← parse_modrm;
  a ← get_reg8 (mrm_reg mrm);
  b ← read_rm8 mrm;
  cf ← get_cf;
  let result := u8 (a + b + cf) in
  set_reg8 (mrm_reg mrm) result;;
  set_cf (Z.b2z ((result <? a) || (negb (cf =? 0) && (result =? a))));;
  set_zf result;;
  set_sf result;;
  set_pf result;;
  set_of_add a b result;;
  add_cycles 2.

(** 0x0B OR r32, r/m32 *)
Definition op_or_r32_rm32 (op : Z) : M unit :=
  mrm ← parse_modrm;
  a ← reg (mrm_reg mrm);
  b ← read_rm32 mrm;
  let result := Z.lor a b in
  set_reg (mrm_reg mrm) result;;
  set_zf result;;
  set_sf result;;
  set_cf 0;;
  set_pf result;;
  add_cycles 2.

(** 0x0C OR AL, imm8 *)
Definition op_or_al_imm8 (op : Z) : M unit :=
  v ← reg REG_EAX;
  let a := u8 v in
  b ← fetch8;
  let result := Z.lor a b in
  set_reg8 REG_EAX result;;
  set_zf result;;
  set_sf result;;
  set_pf result;;
  set_cf 0;;
  add_cycles 1.

(** 0x0D OR EAX, imm32 *)
Definition op_or_eax_imm32 (op : Z) : M unit :=
  imm ← fetch32;
  a ← reg REG_EAX;
  let result := Z.lor a imm in
  set_reg REG_EAX result;;
  set_zf result;;
  set_sf result;;
  set_pf result;;
  set_cf 0;;
  add_cycles 1.

(** 0x11 ADC r/m32, r32 *)
Definition op_adc_rm32_r32 (op : Z) : M unit :=
  mrm ← parse_modrm;
  a ← read_rm32 mrm;
  b ← reg (mrm_reg mrm);
  cf ← get_cf;
  let result := u32 (a + b + cf) in
  write_rm32 mrm result;;
  set_cf (Z.b2z ((result <? a) || (negb (cf =? 0) && (result =? a))));;
  set_zf result;;
  set_sf result;;
  set_pf result;;
  set_of_add a b result;;
  add_cycles 2.

(** 0x13 ADC r32, r/m32 *)
Definition op_adc_r32_rm32 (op : Z) : M unit :=
  mrm ← parse_modrm;
  a ← reg (mrm_reg mrm);
  b ← read_rm32 mrm;
  cf ← get_cf;
  let result := u32 (a + b + cf) in
  set_reg (mrm_reg mrm) result;;
  set_cf (Z.b2z ((result <? a) || (negb (cf =? 0) && (result =? a))));;
  set_zf result;;
  set_sf result;;
  set_pf result;;
  set_of_add a b result;;
  add_cycles 2.

(** 0x19 SBB r/m32, r32 *)
Definition op_sbb_rm32_r32 (op : Z) : M unit :=
  mrm ← parse_modrm;
  a ← read_rm32 mrm;
  b ← reg (mrm_reg mrm);
  cf ← get_cf;
  let result := u32 (a - b - cf) in
  write_rm32 mrm result;;
  set_cf (Z.b2z ((a <? u32 (b + cf)) || (negb (cf =? 0) && (b =? 0xFFFFFFFF))));;
  set_zf result;;
  set_sf result;;
  set_pf result;;
  set_of_sub a b result;;
  add_cycles 2.

(** 0x1B SBB r32, r/m32 *)
Definition op_sbb_r32_rm32 (op : Z) : M unit :=
  mrm ← parse_modrm;
  a ← reg (mrm_reg mrm);
  b ← read_rm32 mrm;
  cf ← get_cf;
  let result := u32 (a - b - cf) in
  set_reg (mrm_reg mrm) result;;
  set_cf (Z.b2z ((a <? u32 (b + cf)) || (negb (cf =? 0) && (b =? 0xFFFFFFFF))));;
  set_zf result;;
  set_sf result;;
  set_pf result;;
  set_of_sub a b result;;
  add_cycles 2.

(** 0x20 AND r/m8, r8 *)
Definition op_and_rm8_r8 (op : Z) : M unit :=
  mrm ← parse_modrm;
  a ← read_rm8 mrm;
  b ← get_reg8 (mrm_reg mrm);
  let result := Z.land a b in
  write_rm8 mrm result;;
  set_zf result;;
  set_sf result;;
  set_pf result;;
  set_cf 0;;
  add_cycles 2.

(** 0x21 AND r/m32, r32 *)
Definition op_and_rm32_r32 (op : Z) : M unit :=
  mrm ← parse_modrm;
  a ← read_rm32 mrm;
  b ← reg (mrm_reg mrm);
  let result := Z.land a b in
  write_rm32 mrm result;;
  set_zf result;;
  set_sf result;;
  set_pf result;;
  set_cf 0;;
  add_cycles 2.

(** 0x22 AND r8, r/m8 *)
Definition op_and_r8_rm8 (op : Z) : M unit :=
  mrm ← parse_modrm;
  a ← get_reg8 (mrm_reg mrm);
  b ← read_rm8 mrm;
  let result := Z.land a b in
  set_reg8 (mrm_reg mrm) result;;
  set_zf result;;
  set_sf result;;
  set_pf result;;
  set_cf 0;;
  add_cycles 2.

(** 0x23 AND r32, r/m32 *)
Definition op_and_r32_rm32 (op : Z) : M unit :=
  mrm ← parse_modrm;
  a ← reg (mrm_reg mrm);
  b ← read_rm32 mrm;
  let result := Z.land a b in
  set_reg (mrm_reg mrm) result;;
  set_zf result;;
  set_sf result;;
  set_pf result;;
  set_cf 0;;
  add_cycles 2.

(** 0x24 AND AL, imm8 *)
Definition op_and_al_imm8 (op : Z) : M unit :=
  v ← reg REG_EAX;
  let a := u8 v in
  b ← fetch8;
  let result := Z.land a b in
  set_reg8 REG_EAX result;;
  set_zf result;;
  set_sf result;;
  set_pf result;;
  set_cf 0;;
  add_cycles 1.

(** 0x25 AND EAX, imm32 *)
Definition op_and_eax_imm32 (op : Z) : M unit :=
  imm ← fetch32;
  a ← reg REG_EAX;
  let result := Z.land a imm in
  set_reg REG_EAX result;;
  set_zf result;;
  set_sf result;;
  set_pf result;;
  set_cf 0;;
  add_cycles 1.

(** 0x29 SUB r/m32, r32 *)
Definition op_sub_rm32_r32 (op : Z) : M unit :=
  mrm ← parse_modrm;
  a ← read_rm32 mrm;
  b ← reg (mrm_reg mrm);
  let result := u32 (a - b) in
  write_rm32 mrm result;;
  set_cf (Z.b2z (a <? b));;
  set_zf result;;
  set_sf result;;
  set_pf result;;
  set_of_sub a b result;;
  add_cycles 2.

(** 0x2B SUB r32, r/m32 *)
Definition op_sub_r32_rm32 (op : Z) : M unit :=
  mrm ← parse_modrm;
  a ← reg (mrm_reg mrm);
  b ← read_rm32 mrm;
  let result := u32 (a - b) in
  set_reg (mrm_reg mrm) result;;
  set_cf (Z.b2z (a <? b));;
  set_zf result;;
  set_sf result;;
  set_pf result;;
  set_of_sub a b result;;
  add_cycles 2.

(** 0x2D SUB EAX, imm32 *)
Definition op_sub_eax_imm32 (op : Z) : M unit :=
  a ← reg REG_EAX;
  b ← fetch32;
  let result := u32 (a - b) in
  set_reg REG_EAX result;;
  set_cf (Z.b2z (a <? b));;
  set_zf result;;
  set_sf result;;
  set_pf result;;
  set_of_sub a b result;;
  add_cycles 1.

(** 0x30 XOR r/m8, r8 *)
Definition op_xor_rm8_r8 (op : Z) : M unit :=
  mrm ← parse_modrm;
  a ← read_rm8 mrm;
  b ← get_reg8 (mrm_reg mrm);
  let result := Z.lxor a b in
  write_rm8 mrm result;;
  set_zf result;;
  set_sf result;;
  set_pf result;;
  set_cf 0;;
  add_cycles 2.

(** 0x31 XOR r/m32, r32 (CF is left alone) *)
Definition op_xor_rm32_r32 (op : Z) : M unit :=
  mrm ← parse_modrm;
  a ← read_rm32 mrm;
  b ← reg (mrm_reg mrm);
  let result := Z.lxor a b in
  write_rm32 mrm result;;
  set_zf result;;
  set_sf result;;
  set_pf result;;
  add_cycles 2.

(** 0x33 XOR r32, r/m32 *)
Definition op_xor_r32_rm32 (op : Z) : M unit :=
  mrm ← parse_modrm;
  a ← reg (mrm_reg mrm);
  b ← read_rm32 mrm;
  let result := Z.lxor a b in
  set_reg (mrm_reg mrm) result;;
  set_zf result;;
  set_sf result;;
  set_pf result;;
  set_cf 0;;
  add_cycles 2.

(** 0x34 XOR AL, imm8 *)
Definition op_xor_al_imm8 (op : Z) : M unit :=
  v ← reg REG_EAX;
  let a := u8 v in
  b ← fetch8;
  let result := Z.lxor a b in
  set_reg8 REG_EAX result;;
  set_zf result;;
  set_sf result;;
  set_pf result;;
  set_cf 0;;
  add_cycles 1.

(** 0x38 CMP r/m8, r8 *)
Definition op_cmp_rm8_r8 (op : Z) : M unit :=
  mrm ← parse_modrm;
  a ← read_rm8 mrm;
  b ← get_reg8 (mrm_reg mrm);
  let result := u8 (a - b) in
  set_cf (Z.b2z (a <? b));;
  set_zf result;;
  set_sf result;;
  set_pf result;;
  set_of_sub a b result;;
  add_cycles 2.

(** 0x39 CMP r/m32, r32 *)
Definition op_cmp_rm32_r32 (op : Z) : M unit :=
  mrm ← parse_modrm;
  a ← read_rm32 mrm;
  b ← reg (mrm_reg mrm);
  let result := u32 (a - b) in
  set_cf (Z.b2z (a <? b));;
  set_zf result;;
  set_sf result;;
  set_pf result;;
  set_of_sub a b result;;
  add_cycles 2.

(** 0x3A CMP r8, r/m8 *)
Definition op_cmp_r8_rm8 (op : Z) : M unit :=
  mrm ← parse_modrm;
  a ← get_reg8 (mrm_reg mrm);
  b ← read_rm8 mrm;
  let result := u8 (a - b) in
  set_cf (Z.b2z (a <? b));;
  set_zf result;;
  set_sf result;;
  set_pf result;;
  set_of_sub a b result;;
  add_cycles 2.

(** 0x3B CMP r32, r/m32 *)
Definition op_cmp_r32_rm32 (op : Z) : M unit :=
  mrm ← parse_modrm;
  a ← reg (mrm_reg mrm);
  b ← read_rm32 mrm;
  let result := u32 (a - b) in
  set_cf (Z.b2z (a <? b));;
  set_zf result;;
  set_sf result;;
  set_pf result;;
  set_of_sub a b result;;
  add_cycles 2.

(** 0x3C CMP AL, imm8 *)
Definition op_cmp_al_imm8 (op : Z) : M unit :=
  v ← reg REG_EAX;
  let a := u8 v in
  b ← fetch8;
  let result := u8 (a - b) in
  set_cf (Z.b2z (a <? b));;
  set_zf result;;
  set_sf result;;
  set_pf result;;
  set_of_sub a b result;;
  add_cycles 1.

(** 0x3D CMP EAX, imm32 *)
Definition op_cmp_eax_imm32 (op : Z) : M unit :=
  a ← reg REG_EAX;
  b ← fetch32;
  let result := u32 (a - b) in
  set_cf (Z.b2z (a <? b));;
  set_zf result;;
  set_sf result;;
  set_pf result;;
  set_of_sub a b result;;
  add_cycles 1.

(** 0x40-0x47 INC r32 (CF untouched) *)
Definition op_inc_r32 (op : Z) : M unit :=
  let r := Z.land op 0x07 in
  a ← reg r;
  let result := u32 (a + 1) in
  set_reg r result;;
  set_zf result;;
  set_sf result;;
  set_pf result;;
  set_of_add a 1 result;;
  add_cycles 1.

(** 0x48-0x4F DEC r32 (CF untouched) *)
Definition op_dec_r32 (op : Z) : M unit :=
  let r := Z.land op 0x07 in
  a ← reg r;
  let result := u32 (a - 1) in
  set_reg r result;;
  set_zf result;;
  set_sf result;;
  set_pf result;;
  set_of_sub a 1 result;;
  add_cycles 1.

(** 0x84 TEST r/m8, r8 *)
Definition op_test_rm8_r8 (op : Z) : M unit :=
  mrm ← parse_modrm;
  a ← read_rm8 mrm;
  b ← get_reg8 (mrm_reg mrm);
  let result := Z.land a b in
  set_zf result;;
  set_sf result;;
  set_pf result;;
  set_cf 0;;
  add_cycles 2.

(** 0x85 TEST r/m32, r32 (CF is left alone) *)
Definition op_test_rm32_r32 (op : Z) : M unit :=
  mrm ← parse_modrm;
  a ← read_rm32 mrm;
  b ← reg (mrm_reg mrm);
  let result := Z.land a b in
  set_zf result;;
  set_sf result;;
  set_pf result;;
  add_cycles 2.

(** 0xA8 TEST AL, imm8 *)
Definition op_test_al_imm8 (op : Z) : M unit :=
  imm ← fetch8;
  v ← reg REG_EAX;
  let result := Z.land (u8 v) imm in
  set_zf result;;
  set_sf result;;
  set_pf result;;
  set_cf 0;;
  add_cycles 1.

(** 0xA9 TEST EAX, imm32 *)
Definition op_test_eax_imm32 (op : Z) : M unit :=
  imm ← fetch32;
  a ← reg REG_EAX;
  let result := Z.land a imm in
  set_zf result;;
  set_sf result;;
  set_pf result;;
  set_cf 0;;
  add_cycles 1.

(** 0x80 group: r/m8, imm8.  ADC and SBB are computed without the carry. *)
Definition op_80_group (op : Z) : M unit :=
  mrm ← parse_modrm;
  imm ← fetch8;
  a ← read_rm8 mrm;
  let finish (result : Z) : M unit :=
    write_rm8 mrm result;;
    set_zf result;;
    set_sf result;;
    set_pf result;;
    add_cycles 2 in
  match mrm_reg mrm with
  | 0 =>
      let result := u8 (a + imm) in
      set_cf (Z.b2z (result <? a));;
      set_of_add a imm result;;
      finish result
  | 1 =>
      let result := Z.lor a imm in
      set_cf 0;;
      finish result
  | 2 =>
      let result := u8 (a + imm) in
      set_cf (Z.b2z (result <? a));;
      set_of_add a imm result;;
      finish result
  | 3 =>
      let result := u8 (a - imm) in
      set_cf (Z.b2z (a <? imm));;
      set_of_sub a imm result;;
      finish result
  | 4 =>
      let result := Z.land a imm in
      set_cf 0;;
      finish result
  | 5 =>
      let result := u8 (a - imm) in
      set_cf (Z.b2z (a <? imm));;
      set_of_sub a imm result;;
      finish result
  | 6 =>
      let result := Z.lxor a imm in
      set_cf 0;;
      finish result
  | 7 =>
      let result := u8 (a - imm) in
      set_cf (Z.b2z (a <? imm));;
      set_of_sub a imm result;;
      set_zf result;;
      set_sf result;;
      set_pf result;;
      add_cycles 2
  | _ => halt
  end.

(** The 16-bit branch shared by 0x81 and 0x83 (the operand-size prefix is active). *)
Definition group_16 (mrm : ModRM) (a imm : Z) : M unit :=
  let finish (result : Z) : M unit :=
    write_rm16 mrm result;;
    set_zf result;;
    set_sf (u32 (Z.shiftl result 16));;
    add_cycles 2 in
  match mrm_reg mrm with
  | 0 => finish (u16 (a + imm))
  | 1 => finish (Z.lor a imm)
  | 4 => finish (Z.land a imm)
  | 5 => finish (u16 (a - imm))
  | 6 => finish (Z.lxor a imm)
  | 7 =>
      let result := u16 (a - imm) in
      set_cf (Z.b2z (a <? imm));;
      set_zf result;;
      set_sf (u32 (Z.shiftl result 16));;
      add_cycles 2
  | _ => halt
  end.

(** 0x81 group: r/m32, imm32 (r/m16, imm16 with the prefix).  /2 and /3 are missing. *)
Definition op_81 (op : Z) : M unit :=
  mrm ← parse_modrm;
  sz ← get_og g_operand_size_16;
  if negb (sz =? 0) then
    imm ← fetch16;
    a ← read_rm16 mrm;
    group_16 mrm a imm
  else
    imm ← fetch32;
    a ← read_rm32 mrm;
    let finish (result : Z) : M unit :=
      set_zf result;;
      set_sf result;;
      add_cycles 2 in
    match mrm_reg mrm with
    | 0 =>
        let result := u32 (a + imm) in
        write_rm32 mrm result;;
        set_cf (Z.b2z (result <? a));;
        set_of_add a imm result;;
        finish result
    | 1 =>
        let result := Z.lor a imm in
        write_rm32 mrm result;;
        set_cf 0;;
        finish result
    | 4 =>
        let result := Z.land a imm in
        write_rm32 mrm result;;
        set_cf 0;;
        finish result
    | 5 =>
        let result := u32 (a - imm) in
        write_rm32 mrm result;;
        set_cf (Z.b2z (a <? imm));;
        set_of_sub a imm result;;
        finish result
    | 6 =>
        let result := Z.lxor a imm in
        write_rm32 mrm result;;
        set_cf 0;;
        finish result
    | 7 =>
        let result := u32 (a - imm) in
        set_cf (Z.b2z (a <? imm));;
        set_of_sub a imm result;;
        finish result
    | _ => halt
    end.

(** 0x83 group: r/m32, sign-extended imm8. *)
Definition op_83 (op : Z) : M unit :=
  mrm ← parse_modrm;
  b ← fetch8;
  let raw := s8 b in
  let imm := u32 raw in
  sz ← get_og g_operand_size_16;
  if negb (sz =? 0) then
    let imm16 := u16 raw in
    a ← read_rm16 mrm;
    group_16 mrm a imm16
  else
    a ← read_rm32 mrm;
    let finish (result : Z) : M unit :=
      set_zf result;;
      set_sf result;;
      add_cycles 2 in
    match mrm_reg mrm with
    | 0 =>
        let result := u32 (a + imm) in
        write_rm32 mrm result;;
        set_cf (Z.b2z (result <? a));;
        set_of_add a imm result;;
        finish result
    | 1 =>
        let result := Z.lor a imm in
        write_rm32 mrm result;;
        set_cf 0;;
        finish result
    | 2 =>
        cf ← get_cf;
        let result := u32 (a + imm + cf) in
        write_rm32 mrm result;;
        set_cf (Z.b2z (result <? a));;
        set_of_add a imm result;;
        finish result
    | 3 =>
        cf ← get_cf;
        let result := u32 (a - imm - cf) in
        write_rm32 mrm result;;
        cf2 ← get_cf;
        set_cf (Z.b2z (a <? u32 (imm + cf2)));;
        set_of_sub a imm result;;
        finish result
    | 4 =>
        let result := Z.land a imm in
        write_rm32 mrm result;;
        set_cf 0;;
        finish result
    | 5 =>
        let result := u32 (a - imm) in
        write_rm32 mrm result;;
        set_cf (Z.b2z (a <? imm));;
        set_of_sub a imm result;;
        finish result
    | 6 =>
        let result := Z.lxor a imm in
        write_rm32 mrm result;;
        set_cf 0;;
        finish result
    | 7 =>
        let result := u32 (a - imm) in
        set_cf (Z.b2z (a <? imm));;
        set_of_sub a imm result;;
        finish result
    | _ => halt
    end.
End alu.

#[export] Hint Unfold op_add_rm8_r8 op_add_rm32_r32 op_add_r8_rm8 op_add_r32_rm32
  op_add_eax_imm32 op_or_rm32_r32 op_adc_rm8_r8 op_adc_r8_rm8 op_or_r32_rm32
  op_or_al_imm8 op_or_eax_imm32 op_adc_rm32_r32 op_adc_r32_rm32 op_sbb_rm32_r32
  op_sbb_r32_rm32 op_and_rm8_r8 op_and_rm32_r32 op_and_r8_rm8 op_and_r32_rm32
  op_and_al_imm8 op_and_eax_imm32 op_sub_rm32_r32 op_sub_r32_rm32 op_sub_eax_imm32
  op_xor_rm8_r8 op_xor_rm32_r32 op_xor_r32_rm32 op_xor_al_imm8 op_cmp_rm8_r8
  op_cmp_rm32_r32 op_cmp_r8_rm8 op_cmp_r32_rm32 op_cmp_al_imm8 op_cmp_eax_imm32
  op_inc_r32 op_dec_r32 op_test_rm8_r8 op_test_rm32_r32 op_test_al_imm8
  op_test_eax_imm32 op_80_group op_81 op_83 group_16 : handlers.
