(* ===== verification/OpsMove.v ===== *)
(** Data movement, stack, control transfer and string handlers of ops.c, in the order of
    the source. *)
From S2P Require Import Prelude CInt Machine Logic Mem Flags ModRM.

Section move.
Context {H : Type}.
Abbreviation M := (M H).

(** The switch over the sixteen conditions that CMOVcc, Jcc near, SETcc and Jcc short
    repeat; [c] is the opcode less the base of its row (0x40, 0x80, 0x90, 0x70).  [None]
    is the [default] case. *)
Definition condition (c : Z) : M (option Z) :=
  match c with
  | 0 => f ← get_of; mret (Some f)
  | 1 => f ← get_of; mret (Some (Z.b2z (f =? 0)))
  | 2 => f ← get_cf; mret (Some f)
  | 3 => f ← get_cf; mret (Some (Z.b2z (f =? 0)))
  | 4 => f ← get_zf; mret (Some f)
  | 5 => f ← get_zf; mret (Some (Z.b2z (f =? 0)))
  | 6 => f ← get_cf; g ← get_zf; mret (Some (Z.b2z (negb (f =? 0) || negb (g =? 0))))
  | 7 => f ← get_cf; g ← get_zf; mret (Some (Z.b2z ((f =? 0) && (g =? 0))))
  | 8 => f ← get_sf; mret (Some f)
  | 9 => f ← get_sf; mret (Some (Z.b2z (f =? 0)))
  | 10 => f ← get_pf; mret (Some f)
  | 11 => f ← get_pf; mret (Some (Z.b2z (f =? 0)))
  | 12 => f ← get_sf; g ← get_of; mret (Some (Z.b2z (negb (f =? g))))
  | 13 => f ← get_sf; g ← get_of; mret (Some (Z.b2z (f =? g)))
  | 14 => z ← get_zf; f ← get_sf; g ← get_of;
          mret (Some (Z.b2z (negb (z =? 0) || negb (f =? g))))
  | 15 => z ← get_zf; f ← get_sf; g ← get_of;
          mret (Some (Z.b2z ((z =? 0) && (f =? g))))
  | _ => mret None
  end.

(** [cpu->eip += offset]. *)
Definition jump_by (offset : Z) : M unit := e ← get_eip; set_eip (e + offset).
(** [cpu->regs[r] += k]. *)
Definition bump_reg (r k : Z) : M unit := v ← reg r; set_reg r (v + k).
(** [cpu->regs[REG_ESP] -= 4; mem_write32(cpu->regs[REG_ESP], val);]. *)
Definition push32 (val : Z) : M unit :=
  bump_reg REG_ESP (-4);;
  a ← reg REG_ESP;
  mem_write32 a val.

(** 0x0F 0x4x CMOVcc r32, r/m32 *)
Definition op_cmovcc (op : Z) : M unit :=
  mrm ← parse_modrm;
  src ← read_rm32 mrm;
  t ← condition (op - 0x40);
  match t with
  | None => halt
  | Some taken =>
      (if negb (taken =? 0) then set_reg (mrm_reg mrm) src else mret tt);;
      add_cycles 2
  end.

(** 0x0F 0x8x Jcc near *)
Definition op_jcc_near (op : Z) : M unit :=
  v ← fetch32;
  let offset := s32 v in
  t ← condition (op - 0x80);
  match t with
  | None => halt
  | Some taken =>
      (if negb (taken =? 0) then jump_by offset else mret tt);;
      add_cycles 1
  end.

(** 0x0F 0x9x SETcc r/m8 *)
Definition op_setcc (op : Z) : M unit :=
  mrm ← parse_modrm;
  t ← condition (op - 0x90);
  match t with
  | None => halt
  | Some val =>
      write_rm8 mrm (u8 val);;
      add_cycles 2
  end.

(** 0x0F 0xA2 CPUID *)
Definition op_cpuid (op : Z) : M unit :=
  leaf ← reg REG_EAX;
  let answer (a b c d : Z) : M unit :=
    set_reg REG_EAX a;; set_reg REG_EBX b;; set_reg REG_ECX c;; set_reg REG_EDX d in
  (match leaf with
   | 0 => answer 7 0x756E6547 0x6C65746E 0x49656E69
   | 1 => answer 0x00000623 0 0 0x0783FBFF
   | 2 => answer 0 0 0 0
   | 7 => answer 0 0 0 0
   | 0x80000000 => answer 0x80000001 0 0 0
   | 0x80000001 => answer 0 0 0 0
   | _ => answer 0 0 0 0
   end);;
  add_cycles 10.

(** 0x0F 0xA4 SHLD r/m32, r32, imm8 *)
Definition op_shld_rm32_r32_imm8 (op : Z) : M unit :=
  mrm ← parse_modrm;
  b ← fetch8;
  let count := Z.land b 0x1F in
  dst ← read_rm32 mrm;
  src ← reg (mrm_reg mrm);
  if count =? 0 then mret tt
  else
    l ← c_shl 32 dst count;
    r ← c_shr 32 src (32 - count);
    let result := Z.lor (u32 l) r in
    write_rm32 mrm result;;
    c ← c_shr 32 dst (32 - count);
    set_cf (Z.land c 1);;
    set_zf result;;
    set_sf result;;
    set_pf result;;
    set_of_sub dst src result;;
    add_cycles 3.

(** 0x0F 0xAF IMUL r32, r/m32 *)
Definition op_imul_r32_rm32 (op : Z) : M unit :=
  mrm ← parse_modrm;
  va ← reg (mrm_reg mrm);
  let a := s32 va in
  vb ← read_rm32 mrm;
  let b := s32 vb in
  result ← c_int (a * b);
  set_reg (mrm_reg mrm) result;;
  set_zf (u32 result);;
  set_sf (u32 result);;
  add_cycles 10.

(** 0x0F 0xB1 CMPXCHG r/m32, r32 *)
Definition op_cmpxchg_rm32_r32 (op : Z) : M unit :=
  mrm ← parse_modrm;
  dst ← read_rm32 mrm;
  eax ← reg REG_EAX;
  src ← reg (mrm_reg mrm);
  let result := u32 (eax - dst) in
  set_zf result;;
  set_sf result;;
  set_cf (Z.b2z (eax <? dst));;
  set_of_sub eax dst result;;
  (if eax =? dst then write_rm32 mrm src else set_reg REG_EAX dst);;
  add_cycles 6.

(** 0x0F 0xB6 MOVZX r32, r/m8 *)
Definition op_movzx_r32_rm8 (op : Z) : M unit :=
  mrm ← parse_modrm;
  val ← read_rm8 mrm;
  set_reg (mrm_reg mrm) val;;
  add_cycles 2.

(** 0x0F 0xB7 MOVZX r32, r/m16 *)
Definition op_movzx_r32_rm16 (op : Z) : M unit :=
  mrm ← parse_modrm;
  val ← read_rm16 mrm;
  set_reg (mrm_reg mrm) val;;
  add_cycles 2.

(** 0x0F 0xBE MOVSX r32, r/m8 *)
Definition op_movsx_r32_rm8 (op : Z) : M unit :=
  mrm ← parse_modrm;
  val ← read_rm8 mrm;
  set_reg (mrm_reg mrm) (s8 val);;
  add_cycles 2.

(** 0x0F 0xBF MOVSX r32, r/m16 *)
Definition op_movsx_r32_rm16 (op : Z) : M unit :=
  mrm ← parse_modrm;
  val ← read_rm16 mrm;
  set_reg (mrm_reg mrm) (s16 val);;
  add_cycles 2.

(** 0x06, 0x16, 0x1E PUSH sreg *)
Definition op_push_sreg (op : Z) : M unit := push32 0;; add_cycles 1.

(** 0x07, 0x17, 0x1F POP sreg *)
Definition op_pop_sreg (op : Z) : M unit := bump_reg REG_ESP 4;; add_cycles 1.

(** 0x50-0x57 PUSH r32: the register is read after ESP moved. *)
Definition op_push_r32 (op : Z) : M unit :=
  let r := Z.land op 0x07 in
  bump_reg REG_ESP (-4);;
  a ← reg REG_ESP;
  v ← reg r;
  mem_write32 a v;;
  add_cycles 1.

(** 0x58-0x5F POP r32: ESP moves after the register is written. *)
Definition op_pop_r32 (op : Z) : M unit :=
  let r := Z.land op 0x07 in
  a ← reg REG_ESP;
  v ← mem_read32 a;
  set_reg r v;;
  bump_reg REG_ESP 4;;
  add_cycles 1.

(** 0x68 PUSH imm32 *)
Definition op_push_imm32 (op : Z) : M unit :=
  imm ← fetch32;
  push32 imm;;
  add_cycles 1.

(** 0x69 IMUL r32, r/m32, imm32 *)
Definition op_imul_r32_rm32_imm32 (op : Z) : M unit :=
  mrm ← parse_modrm;
  va ← read_rm32 mrm;
  let a := s32 va in
  vb ← fetch32;
  let b := s32 vb in
  result ← c_int (a * b);
  set_reg (mrm_reg mrm) result;;
  set_zf (u32 result);;
  set_sf (u32 result);;
  add_cycles 10.

(** 0x6A PUSH imm8 *)
Definition op_push_imm8 (op : Z) : M unit :=
  b ← fetch8;
  let imm := s8 b in
  push32 (u32 imm);;
  add_cycles 1.

(** 0x6B IMUL r32, r/m32, imm8 *)
Definition op_imul_r32_rm32_imm8 (op : Z) : M unit :=
  mrm ← parse_modrm;
  va ← read_rm32 mrm;
  let a := s32 va in
  vb ← fetch8;
  let b := s8 vb in
  result ← c_int (a * b);
  set_reg (mrm_reg mrm) result;;
  set_zf (u32 result);;
  set_sf (u32 result);;
  add_cycles 10.

(** 0x70-0x7F Jcc short *)
Definition op_jcc_short (op : Z) : M unit :=
  b ← fetch8;
  let offset := s8 b in
  t ← condition (op - 0x70);
  match t with
  | None => halt
  | Some taken =>
      (if negb (taken =? 0) then jump_by offset else mret tt);;
      add_cycles 1
  end.

(** 0x87 XCHG r/m32, r32 *)
Definition op_xchg_rm32_r32 (op : Z) : M unit :=
  mrm ← parse_modrm;
  a ← read_rm32 mrm;
  b ← reg (mrm_reg mrm);
  write_rm32 mrm b;;
  set_reg (mrm_reg mrm) a;;
  add_cycles 2.

(** 0x88 MOV r/m8, r8 *)
Definition op_mov_rm8_r8 (op : Z) : M unit :=
  mrm ← parse_modrm;
  val ← get_reg8 (mrm_reg mrm);
  write_rm8 mrm val;;
  add_cycles 2.

(** 0x89 MOV r/m32, r32 *)
Definition op_mov_rm32_r32 (op : Z) : M unit :=
  mrm ← parse_modrm;
  sz ← get_og g_operand_size_16;
  (if negb (sz =? 0) then v ← reg (mrm_reg mrm); write_rm16 mrm (u16 v)
   else v ← reg (mrm_reg mrm); write_rm32 mrm v);;
  add_cycles 2.

(** 0x8A MOV r8, r/m8 *)
Definition op_mov_r8_rm8 (op : Z) : M unit :=
  mrm ← parse_modrm;
  val ← read_rm8 mrm;
  set_reg8 (mrm_reg mrm) val;;
  add_cycles 2.

(** 0x8B MOV r32, r/m32 *)
Definition op_mov_r32_rm32 (op : Z) : M unit :=
  mrm ← parse_modrm;
  sz ← get_og g_operand_size_16;
  (if negb (sz =? 0) then
     val ← read_rm16 mrm;
     v ← reg (mrm_reg mrm);
     set_reg (mrm_reg mrm) (Z.lor (Z.land v 0xFFFF0000) val)
   else
     v ← read_rm32 mrm;
     set_reg (mrm_reg mrm) v);;
  add_cycles 2.

(** 0x8D LEA r32, m *)
Definition op_lea_r32_m (op : Z) : M unit :=
  mrm ← parse_modrm;
  a ← resolve_rm_addr mrm;
  set_reg (mrm_reg mrm) a;;
  add_cycles 1.

(** 0x8E MOV Sreg, r/m16: ignored *)
Definition op_mov_sreg_rm16 (op : Z) : M unit :=
  mrm ← parse_modrm;
  add_cycles 2.

(** 0x90 NOP *)
Definition op_nop (op : Z) : M unit := add_cycles 1.

(** 0x91-0x97 XCHG EAX, r32 *)
Definition op_xchg_eax_r32 (op : Z) : M unit :=
  let r := Z.land op 0x07 in
  tmp ← reg REG_EAX;
  v ← reg r;
  set_reg REG_EAX v;;
  set_reg r tmp;;
  add_cycles 2.

(** 0x99 CDQ *)
Definition op_cdq (op : Z) : M unit :=
  v ← reg REG_EAX;
  set_reg REG_EDX (if negb (Z.land v 0x80000000 =? 0) then 0xFFFFFFFF else 0);;
  add_cycles 1.

(** [addr += g_seg_override; g_seg_override = 0;] *)
Definition apply_seg (addr : Z) : M Z :=
  seg ← get_og g_seg_override;
  set_seg_override 0;;
  mret (u32 (addr + seg)).

(** 0xA1 MOV EAX, [imm32] *)
Definition op_mov_eax_mem (op : Z) : M unit :=
  a0 ← fetch32;
  addr ← apply_seg a0;
  v ← mem_read32 addr;
  set_reg REG_EAX v;;
  add_cycles 2.

(** 0xA2 MOV [imm32], AL *)
Definition op_mov_mem_al (op : Z) : M unit :=
  a0 ← fetch32;
  addr ← apply_seg a0;
  v ← reg REG_EAX;
  mem_write8 addr (u8 v);;
  add_cycles 2.

(** 0xA3 MOV [imm32], EAX *)
Definition op_mov_mem_eax (op : Z) : M unit :=
  a0 ← fetch32;
  addr ← apply_seg a0;
  v ← reg REG_EAX;
  mem_write32 addr v;;
  add_cycles 2.

(** One element of MOVSB, MOVSD, STOSB, STOSD: the memory access and the pointer updates,
    shared with the REP forms. *)
Definition movs8 : M unit :=
  si ← reg REG_ESI;
  v ← mem_read8 si;
  di ← reg REG_EDI;
  mem_write8 di v;;
  bump_reg REG_ESI 1;;
  bump_reg REG_EDI 1.
Definition movs32 : M unit :=
  si ← reg REG_ESI;
  v ← mem_read32 si;
  di ← reg REG_EDI;
  mem_write32 di v;;
  bump_reg REG_ESI 4;;
  bump_reg REG_EDI 4.
Definition stos8 : M unit :=
  di ← reg REG_EDI;
  v ← reg REG_EAX;
  mem_write8 di (u8 v);;
  bump_reg REG_EDI 1.
Definition stos32 : M unit :=
  di ← reg REG_EDI;
  v ← reg REG_EAX;
  mem_write32 di v;;
  bump_reg REG_EDI 4.

(** 0xA4 MOVSB *)
Definition op_movsb (op : Z) : M unit := movs8;; add_cycles 2.
(** 0xA5 MOVSD *)
Definition op_movsd (op : Z) : M unit := movs32;; add_cycles 2.

(** 0xA6 CMPSB *)
Definition op_cmpsb (op : Z) : M unit :=
  si ← reg REG_ESI;
  set_reg REG_ESI (si + 1);;
  a ← mem_read8 si;
  di ← reg REG_EDI;
  set_reg REG_EDI (di + 1);;
  b ← mem_read8 di;
  let result := u8 (a - b) in
  set_cf (Z.b2z (a <? b));;
  set_zf result;;
  set_sf result;;
  set_of_sub a b result;;
  add_cycles 2.

(** 0xAA STOSB *)
Definition op_stosb (op : Z) : M unit := stos8;; add_cycles 2.
(** 0xAB STOSD *)
Definition op_stosd (op : Z) : M unit := stos32;; add_cycles 2.

(** 0xAE SCASB *)
Definition op_scasb (op : Z) : M unit :=
  v ← reg REG_EAX;
  let a := u8 v in
  di ← reg REG_EDI;
  b ← mem_read8 di;
  bump_reg REG_EDI 1;;
  let result := u8 (a - b) in
  set_cf (Z.b2z (a <? b));;
  set_zf result;;
  set_sf result;;
  set_of_sub a b result;;
  add_cycles 2.

(** 0xB8-0xBF MOV r32, imm32 *)
Definition op_mov_r32_imm32 (op : Z) : M unit :=
  let r := Z.land op 0x07 in
  v ← fetch32;
  set_reg r v;;
  add_cycles 1.

(** 0xC2 RET imm16 *)
Definition op_ret_imm16 (op : Z) : M unit :=
  imm ← fetch16;
  a ← reg REG_ESP;
  v ← mem_read32 a;
  set_eip v;;
  bump_reg REG_ESP (4 + imm);;
  add_cycles 5.

(** 0xC3 RET *)
Definition op_ret (op : Z) : M unit :=
  a ← reg REG_ESP;
  v ← mem_read32 a;
  set_eip v;;
  bump_reg REG_ESP 4;;
  add_cycles 5.

(** 0xC6 MOV r/m8, imm8 *)
Definition op_mov_rm8_imm8 (op : Z) : M unit :=
  mrm ← parse_modrm;
  imm ← fetch8;
  write_rm8 mrm imm;;
  add_cycles 2.

(** 0xC7 MOV r/m32, imm32 *)
Definition op_mov_rm32_imm32 (op : Z) : M unit :=
  mrm ← parse_modrm;
  imm ← fetch32;
  write_rm32 mrm imm;;
  add_cycles 2.

(** 0xC9 LEAVE *)
Definition op_leave (op : Z) : M unit :=
  sz ← get_og g_operand_size_16;
  (if negb (sz =? 0) then
     sp ← reg REG_ESP;
     bp ← reg REG_EBP;
     set_reg REG_ESP (Z.lor (Z.land sp 0xFFFF0000) (Z.land bp 0x0000FFFF));;
     a ← reg REG_ESP;
     val ← mem_read16 a;
     bump_reg REG_ESP 2;;
     bp ← reg REG_EBP;
     set_reg REG_EBP (Z.lor (Z.land bp 0xFFFF0000) val)
   else
     bp ← reg REG_EBP;
     set_reg REG_ESP bp;;
     a ← reg REG_ESP;
     v ← mem_read32 a;
     set_reg REG_EBP v;;
     bump_reg REG_ESP 4);;
  add_cycles 3.

(** 0xE3 JECXZ rel8 *)
Definition op_jecxz (op : Z) : M unit :=
  b ← fetch8;
  let offset := s8 b in
  cx ← reg REG_ECX;
  (if cx =? 0 then jump_by offset else mret tt);;
  add_cycles 1.

(** 0xE8 CALL rel32 *)
Definition op_call_rel32 (op : Z) : M unit :=
  v ← fetch32;
  let offset := s32 v in
  e ← get_eip;
  push32 e;;
  jump_by offset;;
  add_cycles 5.

(** 0xE9 JMP rel32 *)
Definition op_jmp_near (op : Z) : M unit :=
  v ← fetch32;
  let offset := s32 v in
  jump_by offset;;
  add_cycles 1.

(** 0xEB JMP rel8 *)
Definition op_jmp_short (op : Z) : M unit :=
  b ← fetch8;
  let offset := s8 b in
  jump_by offset;;
  add_cycles 1.

(** 0xF4 HLT *)
Definition op_hlt (op : Z) : M unit := halt;; add_cycles 1.
(** 0xFA CLI *)
Definition op_cli (op : Z) : M unit := add_cycles 1.
(** 0xFB STI *)
Definition op_sti (op : Z) : M unit := add_cycles 1.
(** 0xFC CLD *)
Definition op_cld (op : Z) : M unit := add_cycles 1.

(** Unassigned opcodes: a diagnostic and a halt. *)
Definition op_unimplemented (op : Z) : M unit := halt.
Definition op_0f_unimplemented (op : Z) : M unit := halt.
End move.

#[export] Hint Unfold op_cmovcc op_jcc_near op_setcc op_cpuid op_shld_rm32_r32_imm8
  op_imul_r32_rm32 op_cmpxchg_rm32_r32 op_movzx_r32_rm8 op_movzx_r32_rm16
  op_movsx_r32_rm8 op_movsx_r32_rm16 op_push_sreg op_pop_sreg op_push_r32 op_pop_r32
  op_push_imm32 op_imul_r32_rm32_imm32 op_push_imm8 op_imul_r32_rm32_imm8 op_jcc_short
  op_xchg_rm32_r32 op_mov_rm8_r8 op_mov_rm32_r32 op_mov_r8_rm8 op_mov_r32_rm32
  op_lea_r32_m op_mov_sreg_rm16 op_nop op_xchg_eax_r32 op_cdq op_mov_eax_mem
  op_mov_mem_al op_mov_mem_eax op_movsb op_movsd op_cmpsb op_stosb op_stosd op_scasb
  op_mov_r32_imm32 op_ret_imm16 op_ret op_mov_rm8_imm8 op_mov_rm32_imm32 op_leave
  op_jecxz op_call_rel32 op_jmp_near op_jmp_short op_hlt op_cli op_sti op_cld
  op_unimplemented op_0f_unimplemented jump_by bump_reg apply_seg movs8 movs32 stos8
  stos32 : handlers.
