(* ===== verification/OpsGroup.v ===== *)
(** The shift, multiply/divide and 0xFF opcode groups of ops.c. *)
From S2P Require Import Prelude CInt Machine Logic Mem Flags ModRM OpsMove.

Section group.
Context {H : Type}.
Abbreviation M := (M H).

(** [count ? (val >> n) & 1 : 0]. *)
Definition bit_if (count val n : Z) : M Z :=
  if negb (count =? 0) then c ← c_shr 32 val n; mret (Z.land c 1) else mret 0.

(** The body shared by 0xC0 and 0xD2 after [count] is known: r/m8 shifted by [count].
    A [uint8_t] operand is promoted, so its shifts are [int] shifts. *)
Definition shift8_group (mrm : ModRM) (count : Z) : M unit :=
  val ← read_rm8 mrm;
  let finish (result : Z) : M unit :=
    write_rm8 mrm result;;
    set_pf result;;
    add_cycles 2 in
  match mrm_reg mrm with
  | 0 =>
      l ← c_shl 32 val count;
      r ← c_shr 32 val (8 - count);
      let result := u8 (Z.lor l r) in
      set_cf (Z.land result 1);;
      finish result
  | 1 =>
      r ← c_shr 32 val count;
      l ← c_shl 32 val (8 - count);
      let result := u8 (Z.lor r l) in
      set_cf (Z.land (Z.shiftr result 7) 1);;
      finish result
  | 4 | 6 =>
      l ← c_shl 32 val count;
      let result := u8 l in
      c ← bit_if count val (8 - count);
      set_cf c;;
      set_zf result;;
      set_sf result;;
      finish result
  | 5 =>
      r ← c_shr 32 val count;
      let result := u8 r in
      c ← bit_if count val (count - 1);
      set_cf c;;
      set_zf result;;
      set_sf result;;
      finish result
  | 7 =>
      r ← c_shr 32 (s8 val) count;
      let result := u8 r in
      c ← bit_if count val (count - 1);
      set_cf c;;
      set_zf result;;
      set_sf result;;
      finish result
  | _ => halt
  end.

(** The body shared by 0xC1 and 0xD3: r/m32 shifted by [count]. *)
Definition shift32_group (mrm : ModRM) (count : Z) : M unit :=
  val ← read_rm32 mrm;
  let finish (result : Z) : M unit :=
    write_rm32 mrm result;;
    add_cycles 2 in
  match mrm_reg mrm with
  | 0 =>
      l ← c_shl 32 val count;
      r ← c_shr 32 val (32 - count);
      let result := Z.lor (u32 l) r in
      set_cf (Z.land result 1);;
      finish result
  | 1 =>
      r ← c_shr 32 val count;
      l ← c_shl 32 val (32 - count);
      let result := Z.lor r (u32 l) in
      set_cf (Z.land (Z.shiftr result 31) 1);;
      finish result
  | 4 | 6 =>
      l ← c_shl 32 val count;
      let result := u32 l in
      c ← bit_if count val (32 - count);
      set_cf c;;
      set_zf result;;
      set_sf result;;
      finish result
  | 5 =>
      result ← c_shr 32 val count;
      c ← bit_if count val (count - 1);
      set_cf c;;
      set_zf result;;
      set_sf result;;
      finish result
  | 7 =>
      r ← c_shr 32 (s32 val) count;
      let result := u32 r in
      c ← bit_if count val (count - 1);
      set_cf c;;
      set_zf result;;
      set_sf result;;
      finish result
  | _ => halt
  end.

(** 0xC0: r/m8, imm8 *)
Definition op_c0_group (op : Z) : M unit :=
  mrm ← parse_modrm;
  b ← fetch8;
  shift8_group mrm (Z.land b 0x1F).

(** 0xC1: r/m32, imm8 *)
Definition op_c1_group (op : Z) : M unit :=
  mrm ← parse_modrm;
  b ← fetch8;
  shift32_group mrm (Z.land b 0x1F).

(** 0xD0: r/m8, 1 *)
Definition op_d0_group (op : Z) : M unit :=
  mrm ← parse_modrm;
  val ← read_rm8 mrm;
  let finish (result : Z) : M unit :=
    write_rm8 mrm result;;
    set_pf result;;
    add_cycles 2 in
  match mrm_reg mrm with
  | 0 =>
      let result := u8 (Z.lor (Z.shiftl val 1) (Z.shiftr val 7)) in
      set_cf (Z.land result 1);;
      finish result
  | 1 =>
      let result := u8 (Z.lor (Z.shiftr val 1) (Z.shiftl val 7)) in
      set_cf (Z.land (Z.shiftr result 7) 1);;
      finish result
  | 4 | 6 =>
      set_cf (Z.land (Z.shiftr val 7) 1);;
      let result := u8 (Z.shiftl val 1) in
      set_zf result;;
      set_sf result;;
      finish result
  | 5 =>
      set_cf (Z.land val 1);;
      let result := u8 (Z.shiftr val 1) in
      set_zf result;;
      set_sf result;;
      finish result
  | 7 =>
      set_cf (Z.land val 1);;
      let result := u8 (Z.shiftr (s8 val) 1) in
      set_zf result;;
      set_sf result;;
      finish result
  | _ => halt
  end.

(** 0xD1: r/m32, 1 *)
Definition op_d1_group (op : Z) : M unit :=
  mrm ← parse_modrm;
  val ← read_rm32 mrm;
  let finish (result : Z) : M unit :=
    write_rm32 mrm result;;
    add_cycles 2 in
  match mrm_reg mrm with
  | 0 =>
      let result := Z.lor (u32 (Z.shiftl val 1)) (Z.shiftr val 31) in
      set_cf (Z.land result 1);;
      finish result
  | 1 =>
      let result := Z.lor (Z.shiftr val 1) (u32 (Z.shiftl val 31)) in
      set_cf (Z.land (Z.shiftr result 31) 1);;
      finish result
  | 4 | 6 =>
      set_cf (Z.land (Z.shiftr val 31) 1);;
      let result := u32 (Z.shiftl val 1) in
      set_zf result;;
      set_sf result;;
      finish result
  | 5 =>
      set_cf (Z.land val 1);;
      let result := Z.shiftr val 1 in
      set_zf result;;
      set_sf result;;
      finish result
  | 7 =>
      set_cf (Z.land val 1);;
      let result := u32 (Z.shiftr (s32 val) 1) in
      set_zf result;;
      set_sf result;;
      finish result
  | _ => halt
  end.

(** 0xD2: r/m8, CL *)
Definition op_d2_group (op : Z) : M unit :=
  mrm ← parse_modrm;
  cx ← reg REG_ECX;
  shift8_group mrm (Z.land cx 0x1F).

(** 0xD3: r/m32, CL *)
Definition op_d3_group (op : Z) : M unit :=
  mrm ← parse_modrm;
  cx ← reg REG_ECX;
  shift32_group mrm (Z.land cx 0x1F).

(** 0xF6 group: TEST/NOT/NEG/MUL/IMUL/DIV/IDIV r/m8 *)
Definition op_f6_group (op : Z) : M unit :=
  mrm ← parse_modrm;
  match mrm_reg mrm with
  | 0 | 1 =>
      imm ← fetch8;
      a ← read_rm8 mrm;
      let result := Z.land a imm in
      set_zf result;;
      set_sf result;;
      set_pf result;;
      set_cf 0;;
      add_cycles 2
  | 2 =>
      (if mrm_mod mrm =? 3 then
         v ← get_reg8 (mrm_rm mrm);
         set_reg8 (mrm_rm mrm) (u8 (Z.lnot v))
       else
         addr ← resolve_rm_addr mrm;
         v ← mem_read8 addr;
         mem_write8 addr (u8 (Z.lnot v)));;
      add_cycles 2
  | 3 =>
      val ← read_rm8 mrm;
      let result := u8 (- s8 val) in
      write_rm8 mrm result;;
      set_cf (Z.b2z (negb (val =? 0)));;
      set_zf result;;
      set_sf result;;
      add_cycles 2
  | 4 =>
      eax ← reg REG_EAX;
      v ← read_rm8 mrm;
      let result := u16 (Z.land eax 0xFF * v) in
      eax ← reg REG_EAX;
      set_reg REG_EAX (Z.lor (Z.land eax 0xFFFF0000) result);;
      set_cf (Z.b2z (negb (Z.shiftr result 8 =? 0)));;
      add_cycles 10
  | 5 =>
      eax ← reg REG_EAX;
      v ← read_rm8 mrm;
      let result := s16 (s8 (Z.land eax 0xFF) * s8 v) in
      eax ← reg REG_EAX;
      set_reg REG_EAX (Z.lor (Z.land eax 0xFFFF0000) (u16 result));;
      set_cf (Z.b2z (negb (Z.shiftr result 8 =?
                             (if negb (Z.land result 0x80 =? 0) then -1 else 0))));;
      add_cycles 10
  | 6 =>
      divisor ← read_rm8 mrm;
      if divisor =? 0 then halt
      else
        eax ← reg REG_EAX;
        let dividend := Z.land eax 0xFFFF in
        set_reg REG_EAX
          (Z.lor (Z.lor (Z.land eax 0xFFFF0000) (Z.shiftl (dividend mod divisor) 8))
             (dividend / divisor));;
        add_cycles 20
  | 7 =>
      v ← read_rm8 mrm;
      let divisor := s8 v in
      if divisor =? 0 then halt
      else
        eax ← reg REG_EAX;
        let dividend := s16 (Z.land eax 0xFFFF) in
        set_reg REG_EAX
          (Z.lor (Z.lor (Z.land eax 0xFFFF0000)
                    (Z.shiftl (u8 (Z.rem dividend divisor)) 8))
             (u8 (Z.quot dividend divisor)));;
        add_cycles 20
  | _ => halt
  end.

(** 0xF7 group: TEST/NOT/NEG/MUL/IMUL/DIV/IDIV r/m32 *)
Definition op_f7_group (op : Z) : M unit :=
  mrm ← parse_modrm;
  match mrm_reg mrm with
  | 0 | 1 =>
      imm ← fetch32;
      a ← read_rm32 mrm;
      let result := Z.land a imm in
      set_zf result;;
      set_sf result;;
      set_pf result;;
      set_cf 0;;
      add_cycles 2
  | 2 =>
      v ← read_rm32 mrm;
      write_rm32 mrm (u32 (Z.lnot v));;
      add_cycles 2
  | 3 =>
      val ← read_rm32 mrm;
      n ← c_int (- s32 val);
      let result := u32 n in
      write_rm32 mrm result;;
      set_cf (Z.b2z (negb (val =? 0)));;
      set_zf result;;
      set_sf result;;
      set_of_sub 0 val result;;
      add_cycles 2
  | 4 =>
      eax ← reg REG_EAX;
      v ← read_rm32 mrm;
      let result := u64 (eax * v) in
      set_reg REG_EAX (Z.land result 0xFFFFFFFF);;
      set_reg REG_EDX (Z.shiftr result 32);;
      edx ← reg REG_EDX;
      set_cf (Z.b2z (negb (edx =? 0)));;
      add_cycles 10
  | 5 =>
      eax ← reg REG_EAX;
      v ← read_rm32 mrm;
      let result := s32 eax * s32 v in
      set_reg REG_EAX (Z.land result 0xFFFFFFFF);;
      set_reg REG_EDX (Z.shiftr (u64 result) 32);;
      edx ← reg REG_EDX;
      set_cf (Z.b2z (negb (edx =? 0)));;
      add_cycles 10
  | 6 =>
      divisor ← read_rm32 mrm;
      if divisor =? 0 then add_cycles 20
      else
        edx ← reg REG_EDX;
        eax ← reg REG_EAX;
        let dividend := Z.lor (u64 (Z.shiftl edx 32)) eax in
        set_reg REG_EAX (dividend / divisor);;
        set_reg REG_EDX (dividend mod divisor);;
        add_cycles 20
  | 7 =>
      v ← read_rm32 mrm;
      let divisor := s32 v in
      if divisor =? 0 then halt
      else
        edx ← reg REG_EDX;
        eax ← reg REG_EAX;
        let dividend := s64 (Z.lor (u64 (Z.shiftl edx 32)) eax) in
        if (dividend =? - 0x8000000000000000) && (divisor =? -1) then undef UB_overflow
        else
          set_reg REG_EAX (Z.quot dividend divisor);;
          set_reg REG_EDX (Z.rem dividend divisor);;
          add_cycles 20
  | _ => halt
  end.

(** 0xFF group: INC/DEC/CALL/JMP/PUSH r/m32 (and a 16-bit push under /7) *)
Definition op_ff_group (op : Z) : M unit :=
  mrm ← parse_modrm;
  match mrm_reg mrm with
  | 0 =>
      val ← read_rm32 mrm;
      let result := u32 (val + 1) in
      write_rm32 mrm result;;
      set_zf result;;
      set_sf result;;
      set_pf result;;
      set_of_add val 1 result;;
      add_cycles 2
  | 1 =>
      val ← read_rm32 mrm;
      let result := u32 (val - 1) in
      write_rm32 mrm result;;
      set_zf result;;
      set_sf result;;
      set_pf result;;
      set_of_sub val 1 result;;
      add_cycles 2
  | 2 =>
      target ← read_rm32 mrm;
      e ← get_eip;
      push32 e;;
      set_eip target;;
      add_cycles 5
  | 4 =>
      v ← read_rm32 mrm;
      set_eip v;;
      add_cycles 3
  | 6 =>
      val ← read_rm32 mrm;
      push32 val;;
      add_cycles 2
  | 7 =>
      val ← read_rm16 mrm;
      push32 (u32 (s16 val));;
      add_cycles 2
  | _ => halt
  end.
End group.

#[export] Hint Unfold op_c0_group op_c1_group op_d0_group op_d1_group op_d2_group
  op_d3_group op_f6_group op_f7_group op_ff_group bit_if shift8_group shift32_group :
  handlers.
