(* ===== verification/OpsSimd.v ===== *)
(** MMX and SSE handlers of ops.c (two-byte opcodes 0x0F xx) and the REP/REPNE prefixes,
    which hold both the repeated string instructions and further SSE forms. *)
From S2P Require Import Prelude CInt Machine Logic Mem Flags ModRM OpsMove.

Section simd.
Context {H : Type}.
Abbreviation M := (M H).

(** 0x0F 0x10 MOVUPS xmm, xmm/m128 *)
Definition op_movups_xmm_rm128 (op : Z) : M unit :=
  mrm ← parse_modrm;
  src ← read_xmm_src mrm;
  set_xmm (mrm_reg mrm) src;;
  add_cycles 3.

(** 0x0F 0x11 MOVUPS xmm/m128, xmm *)
Definition op_movups_rm128_xmm (op : Z) : M unit :=
  mrm ← parse_modrm;
  src ← xmm (mrm_reg mrm);
  write_xmm_dst mrm src;;
  add_cycles 3.

Definition set_xmm_lo (i v : Z) : M unit := x ← xmm i; set_xmm i (mk_xmm v (hi x)).
Definition set_xmm_hi (i v : Z) : M unit := x ← xmm i; set_xmm i (mk_xmm (lo x) v).

(** 0x0F 0x16 MOVHPS xmm, m64 / MOVLHPS *)
Definition op_movhps_xmm_m64 (op : Z) : M unit :=
  mrm ← parse_modrm;
  (if mrm_mod mrm =? 3 then
     x ← xmm (mrm_rm mrm);
     set_xmm_hi (mrm_reg mrm) (lo x)
   else
     addr ← resolve_rm_addr mrm;
     v ← mem_read64 addr;
     set_xmm_hi (mrm_reg mrm) v);;
  add_cycles 3.

(** 0x0F 0x17 MOVHPS m64, xmm *)
Definition op_movhps_m64_xmm (op : Z) : M unit :=
  mrm ← parse_modrm;
  x ← xmm (mrm_reg mrm);
  let val := hi x in
  (if mrm_mod mrm =? 3 then set_xmm_lo (mrm_rm mrm) val
   else
     addr ← resolve_rm_addr mrm;
     mem_write64 addr val);;
  add_cycles 3.

(** [((x >> n) & mask) << k] on [uint64_t]. *)
Definition lane (x n mask k : Z) : Z := u64 (Z.shiftl (Z.land (Z.shiftr x n) mask) k).

(** 0x0F 0x60 PUNPCKLBW mm, mm/m64 *)
Definition op_punpcklbw (op : Z) : M unit :=
  mrm ← parse_modrm;
  src ← read_mmx_src mrm;
  dst ← mmx (mrm_reg mrm);
  let result :=
    Z.lor (Z.lor (Z.lor (Z.lor (Z.lor (Z.lor (Z.lor
      (lane dst 0 0xFF 0) (lane src 0 0xFF 8)) (lane dst 8 0xFF 16))
      (lane src 8 0xFF 24)) (lane dst 16 0xFF 32)) (lane src 16 0xFF 40))
      (lane dst 24 0xFF 48)) (lane src 24 0xFF 56) in
  set_mmx (mrm_reg mrm) result;;
  add_cycles 3.

(** 0x0F 0x61 PUNPCKLWD mm, mm/m64 *)
Definition op_punpcklwd (op : Z) : M unit :=
  mrm ← parse_modrm;
  src ← read_mmx_src mrm;
  dst ← mmx (mrm_reg mrm);
  let result :=
    Z.lor (Z.lor (Z.lor (lane dst 0 0xFFFF 0) (lane src 0 0xFFFF 16))
      (lane dst 16 0xFFFF 32)) (lane src 16 0xFFFF 48) in
  set_mmx (mrm_reg mrm) result;;
  add_cycles 3.

(** 0x0F 0x62 PUNPCKLDQ mm, mm/m64 *)
Definition op_punpckldq (op : Z) : M unit :=
  mrm ← parse_modrm;
  src ← read_mmx_src mrm;
  dst ← mmx (mrm_reg mrm);
  let result := Z.lor (Z.land dst 0xFFFFFFFF) (lane src 0 0xFFFFFFFF 32) in
  set_mmx (mrm_reg mrm) result;;
  add_cycles 3.

(** 0x0F 0x6C PUNPCKLQDQ xmm, xmm/m128 *)
Definition op_punpcklqdq (op : Z) : M unit :=
  mrm ← parse_modrm;
  src ← read_xmm_src mrm;
  set_xmm_hi (mrm_reg mrm) (lo src);;
  add_cycles 3.

(** 0x0F 0x6D PUNPCKHQDQ xmm, xmm/m128 *)
Definition op_punpckhqdq (op : Z) : M unit :=
  mrm ← parse_modrm;
  src ← read_xmm_src mrm;
  x ← xmm (mrm_reg mrm);
  set_xmm_lo (mrm_reg mrm) (hi x);;
  set_xmm_hi (mrm_reg mrm) (hi src);;
  add_cycles 3.

(** 0x0F 0x6E MOVD mm, r/m32 *)
Definition op_movd_mm_rm32 (op : Z) : M unit :=
  mrm ← parse_modrm;
  val ← read_rm32 mrm;
  set_mmx (mrm_reg mrm) val;;
  add_cycles 3.

(** 0x0F 0x6F MOVQ mm, mm/m64 *)
Definition op_movq_mm_rm64 (op : Z) : M unit :=
  mrm ← parse_modrm;
  val ← read_mmx_src mrm;
  set_mmx (mrm_reg mrm) val;;
  add_cycles 3.

(** [words[(imm >> n) & 3]] for the four 16-bit words of [src], and the four of them put
    together: the shuffle of PSHUFW, PSHUFLW and PSHUFHW. *)
Definition word_sel (src imm n : Z) : Z :=
  u16 (Z.shiftr src (16 * Z.land (Z.shiftr imm n) 3)).
Definition shuffle_words (src imm : Z) : Z :=
  Z.lor (Z.lor (Z.lor (word_sel src imm 0) (Z.shiftl (word_sel src imm 2) 16))
    (Z.shiftl (word_sel src imm 4) 32)) (Z.shiftl (word_sel src imm 6) 48).

(** 0x0F 0x70 PSHUFW mm, mm/m64, imm8 *)
Definition op_pshufw (op : Z) : M unit :=
  mrm ← parse_modrm;
  src ← read_mmx_src mrm;
  imm ← fetch8;
  set_mmx (mrm_reg mrm) (shuffle_words src imm);;
  add_cycles 3.

(** The loop of PCMPEQB, from lane [i] on with [n] lanes left. *)
Fixpoint pcmpeqb_loop (n : nat) (i dst src result : Z) : Z :=
  match n with
  | O => result
  | S n =>
      let a := u8 (Z.shiftr dst (i * 8)) in
      let b := u8 (Z.shiftr src (i * 8)) in
      let r := if a =? b then 0xFF else 0x00 in
      pcmpeqb_loop n (i + 1) dst src (Z.lor result (u64 (Z.shiftl r (i * 8))))
  end.

(** 0x0F 0x74 PCMPEQB mm, mm/m64 *)
Definition op_pcmpeqb (op : Z) : M unit :=
  mrm ← parse_modrm;
  src ← read_mmx_src mrm;
  dst ← mmx (mrm_reg mrm);
  set_mmx (mrm_reg mrm) (pcmpeqb_loop 8 0 dst src 0);;
  add_cycles 3.

(** 0x0F 0x7E MOVD r/m32, mm *)
Definition op_movd_rm32_mm (op : Z) : M unit :=
  mrm ← parse_modrm;
  v ← mmx (mrm_reg mrm);
  let val := u32 (Z.land v 0xFFFFFFFF) in
  write_rm32 mrm val;;
  add_cycles 3.

(** Store of the MOVQ forms 0x7F and 0xD6. *)
Definition movq_store : M unit :=
  mrm ← parse_modrm;
  val ← mmx (mrm_reg mrm);
  (if mrm_mod mrm =? 3 then set_mmx (mrm_rm mrm) val
   else
     addr ← resolve_rm_addr mrm;
     mem_write64 addr val);;
  add_cycles 3.

(** 0x0F 0x7F MOVQ mm/m64, mm *)
Definition op_movq_rm64_mm2 (op : Z) : M unit := movq_store.
(** 0x0F 0xD6 MOVQ mm/m64, mm *)
Definition op_movq_rm64_mm (op : Z) : M unit := movq_store.

(** The loop of PMOVMSKB. *)
Fixpoint pmovmskb_loop (n : nat) (i src mask : Z) : Z :=
  match n with
  | O => mask
  | S n =>
      pmovmskb_loop n (i + 1) src
        (if negb (Z.land (Z.shiftr src (i * 8 + 7)) 1 =? 0)
         then Z.lor mask (Z.shiftl 1 i) else mask)
  end.

(** 0x0F 0xD7 PMOVMSKB r32, mm *)
Definition op_pmovmskb (op : Z) : M unit :=
  mrm ← parse_modrm;
  src ← mmx (mrm_rm mrm);
  set_reg (mrm_reg mrm) (pmovmskb_loop 8 0 src 0);;
  add_cycles 3.

(** 0x0F 0xEF PXOR mm, mm/m64 *)
Definition op_pxor_mm_mm (op : Z) : M unit :=
  mrm ← parse_modrm;
  src ← read_mmx_src mrm;
  v ← mmx (mrm_reg mrm);
  set_mmx (mrm_reg mrm) (Z.lxor v src);;
  add_cycles 3.

(** ** REPNE *)

(** One turn of the REPNE SCASB loop: test, compare, early exit on a match. *)
Definition repne_scasb_body : M bool :=
  cx ← reg REG_ECX;
  if 0 <? cx then
    v ← reg REG_EAX;
    let a := u8 v in
    di ← reg REG_EDI;
    b ← mem_read8 di;
    bump_reg REG_EDI 1;;
    bump_reg REG_ECX (-1);;
    let result := u8 (a - b) in
    set_cf (Z.b2z (a <? b));;
    set_zf result;;
    set_sf result;;
    set_of_sub a b result;;
    z ← get_zf;
    mret (z =? 0)
  else mret false.

(** The low quadword of an xmm register or of memory, the source of the scalar moves. *)
Definition read_xmm_lo (mrm : ModRM) : M Z :=
  if mrm_mod mrm =? 3 then x ← xmm (mrm_rm mrm); mret (lo x)
  else addr ← resolve_rm_addr mrm; mem_read64 addr.

(** 0xF2 REPNE prefix *)
Definition op_repne (op : Z) : M unit :=
  next ← fetch8;
  match next with
  | 0xAE =>
      c_while repne_scasb_body;;
      cx ← reg REG_ECX;
      add_cycles_u (u32 (cx + 1))
  | 0x0F =>
      sse_op ← fetch8;
      match sse_op with
      | 0x10 =>
          mrm ← parse_modrm;
          val ← read_xmm_lo mrm;
          set_xmm_lo (mrm_reg mrm) val;;
          set_xmm_hi (mrm_reg mrm) 0;;
          add_cycles 3
      | 0x11 =>
          mrm ← parse_modrm;
          x ← xmm (mrm_reg mrm);
          let val := lo x in
          (if mrm_mod mrm =? 3 then
             set_xmm_lo (mrm_rm mrm) val;;
             set_xmm_hi (mrm_rm mrm) 0
           else
             addr ← resolve_rm_addr mrm;
             mem_write64 addr val);;
          add_cycles 3
      | 0x70 =>
          mrm ← parse_modrm;
          src ← read_xmm_src mrm;
          imm ← fetch8;
          set_xmm (mrm_reg mrm) (mk_xmm (shuffle_words (lo src) imm) (hi src));;
          add_cycles 3
      | _ => halt
      end
  | _ => halt
  end.

(** ** REP *)

(** One turn of [while (cpu->regs[REG_ECX] > 0) { elem; cpu->regs[REG_ECX]--; }]. *)
Definition rep_body (elem : M unit) : M bool :=
  cx ← reg REG_ECX;
  if 0 <? cx then
    elem;;
    bump_reg REG_ECX (-1);;
    mret true
  else mret false.

Definition rep_loop (elem : M unit) : M unit :=
  count ← reg REG_ECX;
  c_while (rep_body elem);;
  add_cycles_u (u32 (count + 1)).

(** 0xF3 REP prefix *)
Definition op_rep (op : Z) : M unit :=
  next ← fetch8;
  match next with
  | 0x0F =>
      sse_op ← fetch8;
      match sse_op with
      | 0x1E =>
          e ← get_eip;
          set_eip (e + 1);;
          add_cycles 1
      | 0x6F =>
          mrm ← parse_modrm;
          src ← read_xmm_src mrm;
          set_xmm (mrm_reg mrm) src;;
          add_cycles 3
      | 0x7E =>
          mrm ← parse_modrm;
          val ← read_xmm_lo mrm;
          set_xmm_lo (mrm_reg mrm) val;;
          set_xmm_hi (mrm_reg mrm) 0;;
          add_cycles 3
      | 0x7F =>
          mrm ← parse_modrm;
          src ← xmm (mrm_reg mrm);
          write_xmm_dst mrm src;;
          add_cycles 3
      | 0x70 =>
          mrm ← parse_modrm;
          src ← read_xmm_src mrm;
          imm ← fetch8;
          set_xmm_lo (mrm_reg mrm) (lo src);;
          set_xmm_hi (mrm_reg mrm) (shuffle_words (hi src) imm);;
          add_cycles 3
      | _ => halt
      end
  | 0xA4 => rep_loop movs8
  | 0xA5 => rep_loop movs32
  | 0xAA => rep_loop stos8
  | 0xAB => rep_loop stos32
  | _ => halt
  end.
End simd.

#[export] Hint Unfold op_movups_xmm_rm128 op_movups_rm128_xmm op_movhps_xmm_m64
  op_movhps_m64_xmm op_punpcklbw op_punpcklwd op_punpckldq op_punpcklqdq op_punpckhqdq
  op_movd_mm_rm32 op_movq_mm_rm64 op_pshufw op_pcmpeqb op_movd_rm32_mm op_movq_rm64_mm2
  op_movq_rm64_mm op_pmovmskb op_pxor_mm_mm op_repne op_rep set_xmm_lo set_xmm_hi
  movq_store read_xmm_lo repne_scasb_body rep_body rep_loop : handlers.
