(* ===== verification/OpsFpu.v ===== *)
(** x87 handlers of ops.c: the escapes 0xD9, 0xDB, 0xDD and 0xDF.

    A [double] is its IEEE 754 bit pattern.  The arithmetic of the host's [double] type and
    of libm is the parameter [FloatOps]; everything the handlers do around it (the circular
    register stack, the operand forms, the memory images, the conversions that are
    undefined out of range) is modelled. *)
From S2P Require Import Prelude CInt Machine Logic Mem Flags ModRM.

(** Host floating point, on 64-bit ([f64]) and 32-bit ([f32]) patterns. *)
Class FloatOps := {
  f64_of_f32 : Z -> Z;                (* (double)val for a float *)
  f32_of_f64 : Z -> Z;                (* (float)val for a double *)
  f64_of_int : Z -> Z;                (* (double)val for an integer *)
  f64_trunc : Z -> option Z;          (* toward zero; None for NaN and infinities *)
  f64_neg : Z -> Z;
  f64_mul : Z -> Z -> Z;
  f64_sub : Z -> Z -> Z;
  f64_neg_test : Z -> bool;           (* x < 0 *)
  f64_pow : Z -> Z -> Z;
  f64_log2 : Z -> Z;
  f64_fmod : Z -> Z -> Z;
  f64_sqrt : Z -> Z;
  f64_round : Z -> Z
}.

Definition F64_ZERO : Z := 0x0000000000000000.
Definition F64_ONE : Z := 0x3FF0000000000000.
Definition F64_TWO : Z := 0x4000000000000000.
Definition F64_L2T : Z := 0x400A934F0979A371.
Definition F64_L2E : Z := 0x3FF71547652B82FE.
Definition F64_PI : Z := 0x400921FB54442D18.
Definition F64_LG2 : Z := 0x3FD34413509F79FF.
Definition F64_LN2 : Z := 0x3FE62E42FEFA39EF.

Section fpu.
Context {H : Type} `{FloatOps}.
Abbreviation M := (M H).

(** [fpu_stack[i]], reads and writes, and [fpu_top]. *)
Definition fpu (i : Z) : M Z := gets (fun s => zget (fpu_stack (og s)) i).
Definition set_fpu (i v : Z) : M unit :=
  modify (upd_og (upd_fpu (fun l => zset l i (u64 v)) id)).
Definition get_top : M Z := get_og fpu_top.
(** [fpu_top = (fpu_top + k) & 7]. *)
Definition move_top (k : Z) : M unit :=
  modify (upd_og (upd_fpu id (fun t => Z.land (t + k) 7))).
(** [fpu_stack[fpu_top]]. *)
Definition st0 : M Z := t ← get_top; fpu t.
Definition set_st0 (v : Z) : M unit := t ← get_top; set_fpu t v.
(** [fpu_stack[(fpu_top + i) & 7]]. *)
Definition st (i : Z) : M Z := t ← get_top; fpu (Z.land (t + i) 7).
Definition set_st (i v : Z) : M unit := t ← get_top; set_fpu (Z.land (t + i) 7) v.
(** [fpu_top = (fpu_top - 1) & 7; fpu_stack[fpu_top] = v;]. *)
Definition fpu_push (v : Z) : M unit := move_top (-1);; set_st0 v.

(** Conversion of a double to a signed integer type of [w] bits. *)
Definition to_int (w v : Z) : M Z :=
  match f64_trunc v with
  | Some n => if (- 2 ^ (w - 1) <=? n) && (n <? 2 ^ (w - 1)) then mret n
              else undef UB_overflow
  | None => undef UB_overflow
  end.

(** 0xD9 with a register operand. *)
Definition op_d9_reg (mrm : ModRM) : M unit :=
  let skip : M unit := add_cycles 3 in
  match mrm_reg mrm with
  | 0 => (* FLD ST(i) *)
      move_top (-1);;
      v ← st (1 + mrm_rm mrm);
      set_st0 v;;
      add_cycles 3
  | 1 => (* FXCH ST(i) *)
      tmp ← st0;
      v ← st (mrm_rm mrm);
      set_st0 v;;
      set_st (mrm_rm mrm) tmp;;
      add_cycles 3
  | 4 =>
      (match mrm_rm mrm with
       | 0 => v ← st0; set_st0 (f64_neg v)                                (* FCHS *)
       | 1 => v ← st0; set_st0 (if f64_neg_test v then f64_neg v else v)  (* FABS *)
       | _ => skip                                                 (* FTST, FXAM *)
       end);;
      add_cycles 3
  | 5 =>
      (match mrm_rm mrm with
       | 0 => fpu_push F64_ONE
       | 1 => fpu_push F64_L2T
       | 2 => fpu_push F64_L2E
       | 3 => fpu_push F64_PI
       | 4 => fpu_push F64_LG2
       | 5 => fpu_push F64_LN2
       | 6 => fpu_push F64_ZERO
       | _ => skip
       end);;
      add_cycles 3
  | 6 =>
      (match mrm_rm mrm with
       | 0 => v ← st0; set_st0 (f64_sub (f64_pow F64_TWO v) F64_ONE)      (* F2XM1 *)
       | 1 => (* FYL2X *)
           y ← st 1;
           x ← st0;
           set_st 1 (f64_mul y (f64_log2 x));;
           move_top 1
       | 7 => move_top 1                                                (* FINCSTP *)
       | _ => skip
       end);;
      add_cycles 3
  | 7 =>
      (match mrm_rm mrm with
       | 0 => x ← st0; y ← st 1; set_st0 (f64_fmod x y)                   (* FPREM *)
       | 4 => v ← st0; set_st0 (f64_sqrt v)                               (* FSQRT *)
       | 5 => (* FSCALE *)
           y ← st 1;
           n ← to_int 32 y;
           x ← st0;
           set_st0 (f64_mul x (f64_pow F64_TWO (f64_of_int n)))
       | 6 => v ← st0; set_st0 (f64_round v)                            (* FRNDINT *)
       | _ => skip
       end);;
      add_cycles 3
  | _ => halt
  end.

(** 0xD9 with a memory operand. *)
Definition op_d9_mem (mrm : ModRM) : M unit :=
  match mrm_reg mrm with
  | 0 => (* FLD m32 *)
      addr ← resolve_rm_addr mrm;
      bits ← mem_read32 addr;
      fpu_push (f64_of_f32 bits);;
      add_cycles 3
  | 2 => (* FST m32 *)
      addr ← resolve_rm_addr mrm;
      v ← st0;
      mem_write32 addr (u32 (f32_of_f64 v));;
      add_cycles 3
  | 3 => (* FSTP m32 *)
      addr ← resolve_rm_addr mrm;
      v ← st0;
      mem_write32 addr (u32 (f32_of_f64 v));;
      move_top 1;;
      add_cycles 3
  | 4 => add_cycles 10
  | 5 => add_cycles 3
  | 6 => add_cycles 10
  | 7 => (* FNSTCW m16 *)
      addr ← resolve_rm_addr mrm;
      mem_write16 addr 0x037F;;
      add_cycles 3
  | _ => halt
  end.

Definition op_d9 (op : Z) : M unit :=
  mrm ← parse_modrm;
  if mrm_mod mrm =? 3 then op_d9_reg mrm else op_d9_mem mrm.

Definition op_db (op : Z) : M unit :=
  mrm ← parse_modrm;
  let is_reg := mrm_mod mrm =? 3 in
  match mrm_reg mrm with
  | 0 => (* FILD m32 *)
      if is_reg then add_cycles 3
      else
        addr ← resolve_rm_addr mrm;
        v ← mem_read32 addr;
        fpu_push (f64_of_int (s32 v));;
        add_cycles 3
  | 2 => (* FIST m32 *)
      if is_reg then add_cycles 3
      else
        addr ← resolve_rm_addr mrm;
        v ← st0;
        n ← to_int 32 v;
        mem_write32 addr (u32 n);;
        add_cycles 3
  | 3 => (* FISTP m32 *)
      if is_reg then add_cycles 3
      else
        addr ← resolve_rm_addr mrm;
        v ← st0;
        n ← to_int 32 v;
        mem_write32 addr (u32 n);;
        move_top 1;;
        add_cycles 3
  | 4 => add_cycles 3
  | 5 => (* FLD m80 *)
      if is_reg then add_cycles 3
      else fpu_push F64_ZERO;; add_cycles 3
  | 7 => (* FSTP m80 *)
      if is_reg then add_cycles 3
      else move_top 1;; add_cycles 3
  | _ => halt
  end.

Definition op_dd (op : Z) : M unit :=
  mrm ← parse_modrm;
  let is_reg := mrm_mod mrm =? 3 in
  match mrm_reg mrm with
  | 0 => (* FLD m64 *)
      if is_reg then add_cycles 3
      else
        addr ← resolve_rm_addr mrm;
        bits ← mem_read64 addr;
        fpu_push bits;;
        add_cycles 3
  | 2 => (* FST m64 *)
      if is_reg then add_cycles 3
      else
        addr ← resolve_rm_addr mrm;
        bits ← st0;
        mem_write64 addr bits;;
        add_cycles 3
  | 3 => (* FSTP *)
      if is_reg then
        v ← st0;
        set_st (mrm_rm mrm) v;;
        move_top 1;;
        add_cycles 3
      else
        addr ← resolve_rm_addr mrm;
        bits ← st0;
        mem_write64 addr bits;;
        move_top 1;;
        add_cycles 3
  | 4 => add_cycles 10
  | 6 => add_cycles 10
  | 7 => (* FNSTSW m16 *)
      (if negb is_reg then
         addr ← resolve_rm_addr mrm;
         mem_write16 addr 0
       else mret tt);;
      add_cycles 3
  | _ => halt
  end.

Definition op_df (op : Z) : M unit :=
  mrm ← parse_modrm;
  if mrm_mod mrm =? 3 then
    match mrm_reg mrm with
    | 4 => (* FNSTSW AX *)
        v ← reg REG_EAX;
        t ← get_top;
        set_reg REG_EAX (Z.lor (Z.land v 0xFFFF0000) (Z.shiftl (Z.land t 7) 11));;
        add_cycles 3
    | _ => halt
    end
  else
    match mrm_reg mrm with
    | 0 => (* FILD m16 *)
        addr ← resolve_rm_addr mrm;
        v ← mem_read16 addr;
        fpu_push (f64_of_int (s16 v));;
        add_cycles 3
    | 2 => (* FIST m16 *)
        addr ← resolve_rm_addr mrm;
        v ← st0;
        n ← to_int 16 v;
        mem_write16 addr (u16 n);;
        add_cycles 3
    | 3 => (* FISTP m16 *)
        addr ← resolve_rm_addr mrm;
        v ← st0;
        n ← to_int 16 v;
        mem_write16 addr (u16 n);;
        move_top 1;;
        add_cycles 3
    | 5 => (* FILD m64 *)
        addr ← resolve_rm_addr mrm;
        bits ← mem_read64 addr;
        fpu_push (f64_of_int (s64 bits));;
        add_cycles 3
    | 7 => (* FISTP m64 *)
        addr ← resolve_rm_addr mrm;
        v ← st0;
        n ← to_int 64 v;
        mem_write64 addr (u64 n);;
        move_top 1;;
        add_cycles 3
    | _ => halt
    end.
End fpu.

#[export] Hint Unfold op_d9_reg op_d9_mem op_d9 op_db op_dd op_df get_top st0 set_st0 st
  set_st fpu_push to_int : handlers.
