(* ===== verification/Backend.v ===== *)
(** The system-call back end: backend_win32.c, in its POSIX variant (the [#else] arms).

    The host operating system is the interface [HostOS]: the libc calls the back end makes,
    on a host state [H].  Guest buffers are reached through host pointers after
    [guest_to_host] checked only their first byte, so an access that runs past the end of
    guest memory is undefined behaviour ([UB_oob]). *)
From S2P Require Import Prelude CInt Machine Logic Mem.

(** The fields of [struct stat] the back end copies. *)
Record host_stat := mk_host_stat {
  hst_dev : Z; hst_ino : Z; hst_mode : Z; hst_nlink : Z; hst_uid : Z; hst_gid : Z;
  hst_rdev : Z; hst_size : Z; hst_blksize : Z; hst_blocks : Z;
  hst_atime : Z; hst_mtime : Z; hst_ctime : Z
}.

(** The libc calls.  [inl e] is a failure with [errno = e]. *)
Class HostOS (H : Type) := {
  O_RDONLY : Z; O_WRONLY : Z; O_RDWR : Z; O_CREAT : Z; O_TRUNC : Z; O_APPEND : Z;
  os_write : Z -> list Z -> H -> (Z + Z) * H;           (* fd, bytes: count written *)
  os_read : Z -> Z -> H -> (Z + list Z) * H;            (* fd, count: bytes read *)
  os_open : list Z -> Z -> Z -> H -> (Z + Z) * H;       (* path, flags, mode: fd *)
  os_close : Z -> H -> H;
  os_lseek : Z -> Z -> Z -> H -> (Z + Z) * H;           (* fd, offset, whence: position *)
  os_fstat : Z -> H -> (Z + host_stat) * H
}.

Definition EBADF : Z := 9.
Definition EFAULT : Z := 14.
Definition EINVAL : Z := 22.
Definition ENOSYS : Z := 38.
Definition ENOENT : Z := 2.
Definition EMFILE : Z := 24.
Definition ENOMEM : Z := 12.

Definition LINUX_O_WRONLY : Z := 1.
Definition LINUX_O_RDWR : Z := 2.
Definition LINUX_O_CREAT : Z := 0x40.
Definition LINUX_O_TRUNC : Z := 0x200.
Definition LINUX_O_APPEND : Z := 0x400.

Definition LINUX_MAP_FIXED : Z := 0x10.
Definition LINUX_MAP_ANONYMOUS : Z := 0x20.

(** First index from [i] on, among [2 ^ d] of them, that satisfies [f]. *)
Fixpoint scan2 (d : nat) (f : Z -> bool) (i : Z) : option Z :=
  match d with
  | O => if f i then Some i else None
  | S d => match scan2 d f i with
           | Some j => Some j
           | None => scan2 d f (i + 2 ^ Z.of_nat d)
           end
  end.

Section backend.
Context {H : Type} `{HostOS H}.
Abbreviation M := (M H).

(** * Accesses through a host pointer *)

(** Dereference of a [uint32_t] at an offset (the host is little-endian). *)
Definition host_load32 (off : Z) : M Z :=
  bs ← host_load_bytes off 4; mret (le_value bs).
Definition host_store32 (off v : Z) : M unit := host_store_bytes off (le_bytes 4 v).

(** The NUL-terminated string at an offset, as a libc call reads it. *)
Definition host_string (off : Z) : M (list Z) := fun s =>
  match scan2 32 (fun i => (g_size (mem s) <=? i) || (byte_at (mem s) i =? 0)) off with
  | Some j => if j <? g_size (mem s)
              then Ret (load_bytes (mem s) off (Z.to_nat (j - off))) s
              else Undef UB_oob
  | None => Undef UB_oob
  end.

(** A call to the host. *)
Definition os {A} (f : H -> A * H) : M A := fun s =>
  let '(a, h) := f (host s) in Ret a (upd_host (fun _ => h) s).

Definition get_kern {A} (f : kernel -> A) : M A := gets (fun s => f (kern s)).
Definition fd_entry (fd : Z) : M GuestFd := gets (fun s => zget (fd_table (kern s)) fd).
Definition set_fd_entry (fd : Z) (e : GuestFd) : M unit :=
  modify (upd_kern (upd_fd_table (fun t => zset t fd e))).
Definition set_brk (v : Z) : M unit := modify (upd_kern (upd_brk (u32 v))).
Definition set_mmap_ptr (v : Z) : M unit :=
  b ← get_kern g_mmap_base; modify (upd_kern (upd_mmap b (u32 v))).
Definition set_gs_base (v : Z) : M unit := modify (upd_og (upd_gs_base (u32 v))).

(** * Initialisation *)

Definition init_mmap_arena (mmap_base : Z) : M unit :=
  modify (upd_kern (upd_mmap (u32 mmap_base) (u32 mmap_base))).

Definition init_fd_table : M unit :=
  modify (upd_kern (upd_fd_table (fun _ => replicate (Z.to_nat MAX_FDS) (mk_fd 0 0))));;
  set_fd_entry 0 (mk_fd 1 0);;
  set_fd_entry 1 (mk_fd 1 1);;
  set_fd_entry 2 (mk_fd 1 2).

Definition init_brk (base : Z) : M unit := set_brk base.

(** * Descriptors *)

(** The search of [alloc_fd] from index [i] on, [n] entries left. *)
Fixpoint first_free (n : nat) (i : Z) (t : list GuestFd) : Z :=
  match n with
  | O => -1
  | S n => if used (zget t i) =? 0 then i else first_free n (i + 1) t
  end.
Definition alloc_fd : M Z :=
  t ← get_kern fd_table;
  mret (first_free (Z.to_nat (MAX_FDS - 3)) 3 t).

(** [fd < 0 || fd >= MAX_FDS || !fd_table[fd].used]. *)
Definition bad_fd (fd : Z) : M bool :=
  if (fd <? 0) || (MAX_FDS <=? fd) then mret true
  else e ← fd_entry fd; mret (used e =? 0).

Definition sys_exit {A} (status : Z) : M A :=
  halt;;
  c_exit status.

Definition sys_write (fd buf_addr count : Z) : M Z :=
  if count =? 0 then mret 0
  else
    bad ← bad_fd fd;
    if (bad : bool) then mret (- EBADF)
    else
      host_buf ← guest_to_host buf_addr;
      match host_buf with
      | None => mret (- EFAULT)
      | Some p =>
          bs ← host_load_bytes p count;
          e ← fd_entry fd;
          n ← os (os_write (host_fd e) bs);
          match n with
          | inl errno => mret (- s32 errno)
          | inr n => mret (s32 n)
          end
      end.

Definition sys_read (fd buf_addr count : Z) : M Z :=
  if count =? 0 then mret 0
  else
    bad ← bad_fd fd;
    if (bad : bool) then mret (- EBADF)
    else
      host_buf ← guest_to_host buf_addr;
      match host_buf with
      | None => mret (- EFAULT)
      | Some p =>
          e ← fd_entry fd;
          n ← os (os_read (host_fd e) count);
          match n with
          | inl errno => mret (- s32 errno)
          | inr bs => host_store_bytes p bs;; mret (s32 (Z.of_nat (length bs)))
          end
      end.

(** The translation of the guest's open flags. *)
Definition host_open_flags (flags : Z) : Z :=
  let f0 := if Z.land flags 3 =? LINUX_O_RDWR then O_RDWR
            else if Z.land flags 3 =? LINUX_O_WRONLY then O_WRONLY
            else O_RDONLY in
  let f1 := if negb (Z.land flags LINUX_O_CREAT =? 0) then Z.lor f0 O_CREAT else f0 in
  let f2 := if negb (Z.land flags LINUX_O_TRUNC =? 0) then Z.lor f1 O_TRUNC else f1 in
  if negb (Z.land flags LINUX_O_APPEND =? 0) then Z.lor f2 O_APPEND else f2.

Definition sys_open (path_addr flags mode : Z) : M Z :=
  path ← guest_to_host path_addr;
  match path with
  | None => mret (- EFAULT)
  | Some p =>
      guest_fd ← alloc_fd;
      if guest_fd <? 0 then mret (- EMFILE)
      else
        str ← host_string p;
        r ← os (os_open str (host_open_flags flags) mode);
        match r with
        | inl errno => mret (- s32 errno)
        | inr hfd => set_fd_entry guest_fd (mk_fd 1 hfd);; mret guest_fd
        end
  end.

Definition sys_close (fd : Z) : M Z :=
  bad ← bad_fd fd;
  if (bad : bool) then mret (- EBADF)
  else if fd <=? 2 then mret 0
  else
    e ← fd_entry fd;
    os (fun h => (tt, os_close (host_fd e) h));;
    set_fd_entry fd (mk_fd 0 (host_fd e));;
    mret 0.

Definition sys_lseek (fd offset whence : Z) : M Z :=
  bad ← bad_fd fd;
  if (bad : bool) then mret (- EBADF)
  else
    e ← fd_entry fd;
    r ← os (os_lseek (host_fd e) offset whence);
    match r with
    | inl errno => mret (- s32 errno)
    | inr n => mret (s32 n)
    end.

(** * Memory management *)

Definition sys_munmap (addr len : Z) : M Z := mret 0.
Definition sys_mprotect (addr len prot : Z) : M Z := mret 0.

(** [(len + 0xFFF) & ~0xFFFu]. *)
Definition page_align (len : Z) : Z := Z.land (u32 (len + 0xFFF)) (u32 (Z.lnot 0xFFF)).

Definition sys_mmap2 (addr len prot flags fd pgoffset : Z) : M Z :=
  if len =? 0 then mret (u32 (- EINVAL))
  else
    let aligned_len := page_align len in
    if negb (fd =? -1) && (Z.land flags LINUX_MAP_ANONYMOUS =? 0)
    then mret (u32 (- ENOSYS))
    else
      size ← mem_size;
      result_addr ←
        (if negb (Z.land flags LINUX_MAP_FIXED =? 0) then
           if size <? addr + aligned_len then mret None
           else mret (Some addr)
         else
           ptr ← get_kern g_mmap_ptr;
           if ptr =? 0 then mret None
           else if u64 (size - 0x100000) <? u32 (ptr + aligned_len) then mret None
           else set_mmap_ptr (ptr + aligned_len);; mret (Some ptr));
      match result_addr with
      | None => mret (u32 (- ENOMEM))
      | Some result_addr =>
          host ← guest_to_host result_addr;
          match host with
          | None => mret (u32 (- EFAULT))
          | Some p => host_memset p 0 aligned_len;; mret result_addr
          end
      end.

Definition sys_brk (new_brk : Z) : M Z :=
  brk ← get_kern g_brk;
  size ← mem_size;
  if new_brk =? 0 then mret brk
  else if new_brk <? brk then mret brk
  else if size <=? new_brk then mret brk
  else
    let alloc_size := u32 (new_brk - brk) in
    (if 8 <=? alloc_size then
       mem_write32 (u32 (brk + 0)) 0;;
       mem_write32 (u32 (brk + 4)) (Z.lor alloc_size 1)
     else mret tt);;
    set_brk new_brk;;
    get_kern g_brk.

(** * Files, signals, threads *)

(** Byte offsets of [LinuxStat64] under natural alignment ([uint64_t] members aligned to
    8, as on Win32, Win64 and x86-64 hosts), and its size. *)
Definition SIZEOF_STAT64 : Z := 104.
Definition stat64_fields (h : host_stat) : list (Z * nat * Z) :=
  [ (0, 8%nat, hst_dev h); (96, 8%nat, hst_ino h); (16, 4%nat, hst_mode h);
    (20, 4%nat, hst_nlink h); (24, 4%nat, hst_uid h); (28, 4%nat, hst_gid h);
    (32, 8%nat, hst_rdev h); (48, 8%nat, hst_size h); (56, 4%nat, hst_blksize h);
    (64, 8%nat, hst_blocks h); (72, 4%nat, hst_atime h); (80, 4%nat, hst_mtime h);
    (88, 4%nat, hst_ctime h) ].
Fixpoint store_fields (p : Z) (fs : list (Z * nat * Z)) : M unit :=
  match fs with
  | [] => mret tt
  | (off, n, v) :: fs => host_store_bytes (p + off) (le_bytes n v);; store_fields p fs
  end.

Definition sys_fstat64 (fd buf_addr : Z) : M Z :=
  bad ← bad_fd fd;
  if (bad : bool) then mret (- EBADF)
  else
    st ← guest_to_host buf_addr;
    match st with
    | None => mret (- EFAULT)
    | Some p =>
        host_memset p 0 SIZEOF_STAT64;;
        e ← fd_entry fd;
        r ← os (os_fstat (host_fd e));
        match r with
        | inl errno => mret (- s32 errno)
        | inr h => store_fields p (stat64_fields h);; mret 0
        end
    end.

Definition sys_rt_sigaction (sig act_addr oact_addr sigsetsize : Z) : M Z :=
  if (sig <? 1) || (SIGMAX <=? sig) then mret (- EINVAL)
  else
    let read_act : M Z :=
      if negb (act_addr =? 0) then
        act ← guest_to_host act_addr;
        match act with
        | None => mret (- EFAULT)
        | Some p =>
            bs ← host_load_bytes p (Z.of_nat SIZEOF_SIGACTION);
            modify (upd_kern (upd_sigactions (fun t => zset t sig bs)));;
            mret 0
        end
      else mret 0 in
    if negb (oact_addr =? 0) then
      oact ← guest_to_host oact_addr;
      match oact with
      | None => mret (- EFAULT)
      | Some p =>
          bs ← gets (fun s => zget (g_sigactions (kern s)) sig);
          host_store_bytes p bs;;
          read_act
      end
    else read_act.

Definition sys_rt_sigprocmask (how set_addr oset_addr sigsetsize : Z) : M Z :=
  if negb (oset_addr =? 0) then
    oset ← guest_to_host oset_addr;
    match oset with
    | None => mret (- EFAULT)
    | Some p => host_memset p 0 (if sigsetsize <? 8 then sigsetsize else 8);; mret 0
    end
  else mret 0.

Definition sys_set_tid_address (tidptr : Z) : M Z :=
  (if negb (tidptr =? 0) then
     p ← guest_to_host tidptr;
     match p with
     | Some p => host_store32 p 1
     | None => mret tt
     end
   else mret tt);;
  mret 1.

(** One turn of the loop of [sys_writev], from index and running total. *)
Definition writev_body (fd iov_addr iovcnt : Z) (st : Z * Z) : M (Z * Z + Z) :=
  let '(i, total) := st in
  if i <? iovcnt then
    iov ← guest_to_host (u32 (iov_addr + u32 (u32 i * 8)));
    match iov with
    | None => mret (inr (- EFAULT))
    | Some p =>
        iov_len ← host_load32 (p + 4);
        if iov_len =? 0 then mret (inl (i + 1, total))
        else
          iov_base ← host_load32 p;
          n ← sys_write fd iov_base iov_len;
          if n <? 0 then mret (inr n)
          else total' ← c_int (total + n); mret (inl (i + 1, total'))
    end
  else mret (inr total).

Definition sys_writev (fd iov_addr iovcnt : Z) : M Z :=
  c_loop (writev_body fd iov_addr iovcnt) (0, 0).

(** [desc->base_addr] is read again after every store, which may alias it. *)
Definition sys_set_thread_area (u_info_addr : Z) : M Z :=
  desc ← guest_to_host u_info_addr;
  match desc with
  | None => mret (- EFAULT)
  | Some p =>
      let base_addr := host_load32 (p + 4) in
      entry_number ← host_load32 p;
      (if entry_number =? u32 (-1) then host_store32 p 0 else mret tt);;
      b ← base_addr;
      set_gs_base b;;
      b ← base_addr;
      mem_write32 (u32 (b + 0x10)) 0x00001000;;
      b ← base_addr;
      mem_write32 (u32 (b - 8)) 0;;
      b ← base_addr;
      mem_write32 (u32 (b - 4)) 0x91;;
      mret 0
  end.
End backend.
