(* ===== verification/Toy.v ===== *)
(** A concrete host and concrete machines, on which the theorems are instantiated.

    The host has no files: it collects what is written to it, and every other call fails.
    A second host writes at most two bytes at a time and refuses some.  The floating-point
    instance flips signs as IEEE 754 does; no example depends on its other values. *)
From S2P Require Import Prelude CInt Machine Logic Mem Backend OpsFpu.

#[export] Instance toy_host : HostOS (list Z) := {|
  O_RDONLY := 0; O_WRONLY := 1; O_RDWR := 2; O_CREAT := 0x40; O_TRUNC := 0x200;
  O_APPEND := 0x400;
  os_write := fun _ bs out => (inr (Z.of_nat (length bs)), out ++ bs);
  os_read := fun _ _ out => (inr [], out);
  os_open := fun path _ _ out =>
    (if bool_decide (path = []) then inl ENOENT else inr 7, out);
  os_close := fun _ out => out;
  os_lseek := fun _ _ _ out => (inl EINVAL, out);
  os_fstat := fun _ out => (inl EBADF, out)
|}.

(** A host that takes at most two bytes of a write, and refuses one that begins with [bad]. *)
Definition short_host (bad : Z) : HostOS (list Z) := {|
  O_RDONLY := O_RDONLY; O_WRONLY := O_WRONLY; O_RDWR := O_RDWR; O_CREAT := O_CREAT;
  O_TRUNC := O_TRUNC; O_APPEND := O_APPEND;
  os_write := fun _ bs out =>
    if decide (head bs = Some bad) then (inl 5, out)
    else (inr (Z.of_nat (length (take 2 bs))), out ++ take 2 bs);
  os_read := os_read; os_open := os_open; os_close := os_close;
  os_lseek := os_lseek; os_fstat := os_fstat
|}.

#[export] Instance toy_floats : FloatOps := {|
  f64_of_f32 := id; f32_of_f64 := id; f64_of_int := u64;
  f64_trunc := fun x => Some (s64 x);
  f64_neg := fun x => Z.lxor x (2 ^ 63);
  f64_mul := fun x _ => x; f64_sub := fun x _ => x;
  f64_neg_test := fun x => Z.testbit x 63 && negb (x =? 2 ^ 63);
  f64_pow := fun x _ => x; f64_log2 := id; f64_fmod := fun x _ => x; f64_sqrt := id;
  f64_round := id
|}.

(** The state of a successful outcome; a computation whose result is known by evaluation
    reaches it. *)
Definition state_of {H A} (o : outcome H A) (dflt : machine H) : machine H :=
  match o with Ret _ s | Exited _ s => s | _ => dflt end.
Lemma runs_state_of {H A} `{EqDecision A} (m : M H A) s a dflt :
  (match m s with Ret b _ => bool_decide (b = a) | _ => false end) = true ->
  runs m s a (state_of (m s) dflt).
Proof.
  unfold runs. destruct (m s); try done. intros E. by apply bool_decide_eq_true in E as ->.
Qed.

Definition toy_kernel : kernel :=
  mk_kernel ([mk_fd 1 0; mk_fd 1 1; mk_fd 1 2] ++ replicate 253 (mk_fd 0 0))
    0x8000 0x8000 0x4000 (replicate 64 (replicate 20 0)).
Definition toy_og : ops_globals :=
  mk_ops_globals 0 0 0 (replicate 8 0) 0 (replicate 8 0) (replicate 8 (mk_xmm 0 0)).

(** Runs of bytes put in memory, the later ones first. *)
Fixpoint toy_image (image : list (Z * list Z)) : gmap Z Z :=
  match image with
  | [] => ∅
  | (off, bs) :: image => store_bytes off bs (toy_image image)
  end.

(** A machine with 64 KiB of memory. *)
Definition toy_machine (rs : list Z) (ip : Z) (image : list (Z * list Z))
    : machine (list Z) :=
  mk_machine (mk_i386 rs ip 0x2 0 0) (mk_guest_mem (toy_image image) 0x10000 0) toy_og
    toy_kernel [].

Definition toy_ok (rs : list Z) (ip : Z) (image : list (Z * list Z)) : bool :=
  (length rs =? 8)%nat && forallb (fun r => (0 <=? r) && (r <? 0x100000000)) rs &&
  (0 <=? ip) && (ip <? 0x100000000) &&
  forallb (fun '(off, bs) =>
    (0 <=? off) && (off + Z.of_nat (length bs) <=? 0x10000) &&
    forallb (fun b => (0 <=? b) && (b <? 0x100)) bs) image.

Lemma forallb_range k l :
  forallb (fun r => (0 <=? r) && (r <? k)) l = true -> Forall (fun r => 0 <= r < k) l.
Proof.
  rewrite forallb_forall. intros Hl. apply List.Forall_forall. intros x Hx.
  specialize (Hl x Hx). lia.
Qed.

Lemma wf_toy_image image :
  forallb (fun '(off, bs) =>
    (0 <=? off) && (off + Z.of_nat (length bs) <=? 0x10000) &&
    forallb (fun b => (0 <=? b) && (b <? 0x100)) bs) image = true ->
  wf_mem (mk_guest_mem (toy_image image) 0x10000 0).
Proof.
  induction image as [|[off bs] image IH]; cbn [toy_image forallb].
  { intros _. by constructor. }
  rewrite !andb_true_iff. intros [[[H0 H1] H2] H3].
  apply (wf_store_bytes off bs (mk_guest_mem (toy_image image) 0x10000 0));
    [by apply IH|lia|simpl; lia|by apply forallb_range].
Qed.

Lemma wf_toy_og : wf_og toy_og.
Proof. by repeat constructor. Qed.

(** The tables as [init_fd_table] and the C runtime leave them. *)
Lemma wf_kern_zeros fds b p k :
  length fds = 256%nat -> is_u32 b -> is_u32 p -> is_u32 k ->
  wf_kern (mk_kernel fds b p k (replicate 64 (replicate 20 0))).
Proof.
  intros Hl Hb Hp Hk. constructor; try done. apply Forall_replicate. split; [done|].
  by apply (Forall_replicate _ 20 0).
Qed.

Lemma wf_toy_kernel : wf_kern toy_kernel.
Proof. by apply wf_kern_zeros. Qed.

Lemma wf_toy rs ip image : toy_ok rs ip image = true -> wf (toy_machine rs ip image).
Proof.
  unfold toy_ok. rewrite !andb_true_iff, Nat.eqb_eq. intros [[[[H0 H1] H2] H3] H4].
  constructor; simpl.
  - constructor; simpl; [done|by apply forallb_range|unfold is_u32; lia| |auto|].
    + constructor; [unfold is_u32; lia|done|].
      intros i Hi Hf. change 0x2 with (2 ^ 1). rewrite Z.pow2_bits_eqb by lia.
      unfold flag_bit in Hf. lia.
    + unfold is_int, INT_MIN, INT_MAX. lia.
  - by apply wf_toy_image.
  - apply wf_toy_og.
  - apply wf_toy_kernel.
Qed.

(** ** A small executable

    [write(1, "Hi\n", 3); exit(7);], linked at 0x2000 with four bytes of zeroed data after
    its 37 bytes. *)
Definition hello_code : list Z :=
  [0xB8] ++ le_bytes 4 4 ++ [0xBB] ++ le_bytes 4 1 ++ [0xB9] ++ le_bytes 4 0x2022 ++
  [0xBA] ++ le_bytes 4 3 ++ [0xCD; 0x80] ++
  [0xB8] ++ le_bytes 4 1 ++ [0xBB] ++ le_bytes 4 7 ++ [0xCD; 0x80] ++ [0x48; 0x69; 0x0A].

Definition hello_elf : list Z :=
  [0x7F; 0x45; 0x4C; 0x46; 1; 1; 1; 0] ++ replicate 8 0 ++
  le_bytes 2 2 ++ le_bytes 2 3 ++ le_bytes 4 1 ++ le_bytes 4 0x2000 ++ le_bytes 4 52 ++
  le_bytes 4 0 ++ le_bytes 4 0 ++ le_bytes 2 52 ++ le_bytes 2 32 ++ le_bytes 2 1 ++
  le_bytes 2 0 ++ le_bytes 2 0 ++ le_bytes 2 0 ++
  le_bytes 4 1 ++ le_bytes 4 84 ++ le_bytes 4 0x2000 ++ le_bytes 4 0x2000 ++
  le_bytes 4 37 ++ le_bytes 4 41 ++ le_bytes 4 7 ++ le_bytes 4 0x1000 ++
  hello_code.

(** [fake-kernel hello a]. *)
Definition hello_argv : list (list Z) :=
  [[0x66; 0x6B]; [0x68; 0x65; 0x6C; 0x6C; 0x6F]; [0x61]].
