(* ===== verification/MemSpec.v ===== *)
(** Guest memory against an abstract memory.

    The accessors of the three widths are one family, indexed by [width]; the theorems say
    that a write is seen by the reads it overlaps byte by byte in little-endian order, that
    it is invisible elsewhere, and that out of range it is ignored. *)
From S2P Require Import Prelude CInt Machine Logic Mem Backend Toy.

Inductive width := W8 | W16 | W32.
#[export] Instance width_eq_dec : EqDecision width.
Proof. solve_decision. Defined.

Definition bytes_of (w : width) : nat := match w with W8 => 1 | W16 => 2 | W32 => 4 end.
(** The values of the C type of a width. *)
Definition is_width (w : width) (v : Z) : Prop := 0 <= v < 2 ^ (8 * Z.of_nat (bytes_of w)).

Section family.
Context {H : Type}.
Implicit Types s : machine H.

Definition mem_read (w : width) : Z -> M H Z :=
  match w with W8 => mem_read8 | W16 => mem_read16 | W32 => mem_read32 end.
Definition mem_write (w : width) : Z -> Z -> M H unit :=
  match w with W8 => mem_write8 | W16 => mem_write16 | W32 => mem_write32 end.

(** The abstract accessors: the little-endian value of the bytes in range, else zero. *)
Definition rd (w : width) (m : guest_mem) (a : Z) : Z :=
  if in_range m a (Z.of_nat (bytes_of w)) then le_value (load_bytes m a (bytes_of w)) else 0.
Definition wr (w : width) (a v : Z) (m : guest_mem) : guest_mem :=
  wr_bytes a (le_bytes (bytes_of w) v) m.

Lemma runs_mem_read w s a : wf s -> 0 <= a -> runs (mem_read w a) s (rd w (mem s) a) s.
Proof.
  intros Hs Ha. destruct w; cbn [mem_read].
  - eapply runs_eq; [by apply runs_mem_read8| |done].
    unfold rd8, rd. cbn [bytes_of load_bytes le_value]. by rewrite Z.shiftl_0_l, Z.lor_0_r.
  - apply runs_mem_read16; [apply Hs|done].
  - apply runs_mem_read32; [apply Hs|done].
Qed.

Lemma runs_mem_write w s a v : wf s -> 0 <= a ->
  runs (mem_write w a v) s tt (upd_mem (wr w a v) s).
Proof.
  intros Hs Ha. destruct w; cbn [mem_write].
  - by apply runs_mem_write8.
  - apply runs_mem_write16; [apply Hs|done].
  - apply runs_mem_write32; [apply Hs|done].
Qed.

Lemma wf_wr w s a v : wf s -> 0 <= a -> wf (upd_mem (wr w a v) s).
Proof.
  intros [Hc Hm Ho Hk] Ha. constructor; simpl; try done.
  apply wf_wr_bytes; [done..|apply le_bytes_u8].
Qed.

Lemma g_size_wr w a v m : g_size (wr w a v m) = g_size m.
Proof. unfold wr, wr_bytes. by case_match. Qed.

Lemma in_range_wr w a v m b n : in_range (wr w a v m) b n = in_range m b n.
Proof. unfold in_range. by rewrite g_size_wr. Qed.

Lemma rd_wr_same w a v m : is_width w v -> in_range m a (Z.of_nat (bytes_of w)) = true ->
  rd w (wr w a v m) a = v.
Proof.
  intros Hv Hr. unfold rd. rewrite in_range_wr, Hr. unfold wr, wr_bytes.
  rewrite le_bytes_length, Hr.
  pose proof (load_store_same a (le_bytes (bytes_of w) v) m) as E.
  rewrite le_bytes_length in E. rewrite E, le_value_bytes. by apply Z.mod_small.
Qed.

Lemma rd_wr_other w w' a b v m :
  b + Z.of_nat (bytes_of w') <= a \/ a + Z.of_nat (bytes_of w) <= b ->
  rd w' (wr w a v m) b = rd w' m b.
Proof.
  intros Hd. unfold rd. rewrite in_range_wr. case_match; [|done].
  unfold wr, wr_bytes. case_match; [|done]. rewrite load_store_other; [done|].
  by rewrite le_bytes_length.
Qed.

Lemma wr_out w a v m : in_range m a (Z.of_nat (bytes_of w)) = false -> wr w a v m = m.
Proof. intros Hr. unfold wr, wr_bytes. by rewrite le_bytes_length, Hr. Qed.

Lemma le_bytes_lookup n v k : (k < n)%nat ->
  le_bytes n v !! k = Some (u8 (Z.shiftr v (8 * Z.of_nat k))).
Proof.
  revert v k. induction n as [|n IH]; intros v k Hk; [lia|]. destruct k as [|k]; cbn [le_bytes].
  - by rewrite Z.shiftr_0_r.
  - cbn. rewrite IH by lia. rewrite Z.shiftr_shiftr by lia. do 3 f_equal. lia.
Qed.

Lemma rd8_wr w a v m k : (k < bytes_of w)%nat ->
  in_range m a (Z.of_nat (bytes_of w)) = true ->
  rd W8 (wr w a v m) (a + Z.of_nat k) = u8 (Z.shiftr v (8 * Z.of_nat k)).
Proof.
  intros Hk Hr. unfold rd. rewrite in_range_wr. unfold in_range in *. simpl Z.of_nat.
  bif. unfold wr, wr_bytes, in_range. rewrite le_bytes_length. bif.
  cbn [bytes_of load_bytes le_value]. rewrite Z.shiftl_0_l, Z.lor_0_r, byte_at_store, le_bytes_length.
  bif. replace (a + Z.of_nat k - a) with (Z.of_nat k) by lia.
  by rewrite Nat2Z.id, le_bytes_lookup.
Qed.

(** C12: guest memory is memory.  A write of any width never fails; in range, the same-width
    read gives the value back, the bytes lie in little-endian order, and reads of every
    width that do not overlap it are unaffected; out of range, the write changes nothing at
    all.  Reads change nothing. *)
Theorem memory_write_read s w a v :
  wf s -> is_u32 a -> is_width w v ->
  exists s', runs (mem_write w a v) s tt s' /\ wf s' /\
    (if in_range (mem s) a (Z.of_nat (bytes_of w)) then
       runs (mem_read w a) s' v s' /\
       (forall k, (k < bytes_of w)%nat ->
          runs (mem_read8 (a + Z.of_nat k)) s' (u8 (Z.shiftr v (8 * Z.of_nat k))) s')
     else s' = s /\ runs (mem_read w a) s' 0 s') /\
    forall w' b, 0 <= b ->
      b + Z.of_nat (bytes_of w') <= a \/ a + Z.of_nat (bytes_of w) <= b ->
      runs (mem_read w' b) s' (rd w' (mem s) b) s'.
Proof.
  intros Hs [Ha _] Hv. pose proof (wf_wr w s a v Hs Ha) as Hs'.
  exists (upd_mem (wr w a v) s). split; [by apply runs_mem_write|]. split; [done|]. split.
  - destruct (in_range _ _ _) eqn:Hr.
    + split.
      * eapply runs_eq; [by apply runs_mem_read|by apply rd_wr_same|done].
      * intros k Hk. eapply runs_eq; [apply (runs_mem_read W8); [done|lia]|by apply rd8_wr|done].
    + assert (upd_mem (wr w a v) s = s) as E
        by (destruct s; unfold upd_mem; simpl in *; by rewrite wr_out).
      rewrite E. split; [done|].
      eapply runs_eq; [by apply runs_mem_read| |done]. unfold rd. by rewrite Hr.
  - intros w' b Hb Hd. eapply runs_eq; [by apply runs_mem_read|by apply rd_wr_other|done].
Qed.
End family.

Lemma memory_write_read_witness :
  let s := toy_machine (replicate 8 0) 0 [(0x100, [1; 2; 3; 4; 5; 6])] in
  exists s', runs (mem_write32 0x102 0xAABBCCDD) s tt s' /\
    runs (mem_read8 0x103) s' 0xCC s' /\ runs (mem_read16 0x100) s' 0x0201 s'.
Proof.
  intros s. destruct (memory_write_read s W32 0x102 0xAABBCCDD) as (s' & Hw & _ & Hr & Ho).
  - by apply wf_toy.
  - done.
  - done.
  - exists s'. split; [exact Hw|]. split.
    + apply (proj2 Hr 1%nat). simpl. lia.
    + apply (Ho W16 0x100); simpl; lia.
Defined.
