(* ===== verification/Syscall.v ===== *)
(** System-call dispatch: syscall.c.

    [dispatch_syscall] reads the number and the arguments from the registers and leaves the
    result in EAX.  The C [switch] is an association list from the case labels to their
    bodies. *)
From S2P Require Import Prelude CInt Machine Logic Mem Backend.

Definition LINUX_SYS_EXIT : Z := 1.
Definition LINUX_SYS_READ : Z := 3.
Definition LINUX_SYS_WRITE : Z := 4.
Definition LINUX_SYS_OPEN : Z := 5.
Definition LINUX_SYS_CLOSE : Z := 6.
Definition LINUX_SYS_LSEEK : Z := 19.
Definition LINUX_SYS_GETPID : Z := 20.
Definition LINUX_SYS_KILL : Z := 37.
Definition LINUX_SYS_BRK : Z := 45.
Definition LINUX_SYS_MUNMAP : Z := 91.
Definition LINUX_SYS_UNAME : Z := 122.
Definition LINUX_SYS_MPROTECT : Z := 125.
Definition LINUX_SYS_LLSEEK : Z := 140.
Definition LINUX_SYS_RT_SIGRETURN : Z := 173.
Definition LINUX_SYS_RT_SIGACTION : Z := 174.
Definition LINUX_SYS_RT_SIGPROCMASK : Z := 175.
Definition LINUX_SYS_MMAP2 : Z := 192.
Definition LINUX_SYS_FSTAT64 : Z := 197.
Definition LINUX_SYS_FUTEX : Z := 240.
Definition LINUX_SYS_SET_THREAD_AREA : Z := 243.
Definition LINUX_SYS_EXIT_GROUP : Z := 252.
Definition LINUX_SYS_SET_TID_ADDRESS : Z := 258.
Definition LINUX_SYS_CLOCK_GETTIME : Z := 265.
Definition LINUX_SYS_RSEQ : Z := 386.

(** A C [switch] whose cases all leave it. *)
Fixpoint switch {A} (x : Z) (cases : list (Z * A)) (dflt : A) : A :=
  match cases with
  | [] => dflt
  | (k, m) :: cases => if x =? k then m else switch x cases dflt
  end.

Lemma switch_default {A} x (cases : list (Z * A)) dflt :
  x ∉ cases.*1 -> switch x cases dflt = dflt.
Proof.
  induction cases as [|[k m] cases IH]; [done|]. cbn. rewrite not_elem_of_cons.
  intros [Hk Hx]. destruct (Z.eqb_spec x k); [done|auto].
Qed.

Lemma switch_Forall {A} (P : A -> Prop) x cases dflt :
  Forall (fun c => P c.2) cases -> P dflt -> P (switch x cases dflt).
Proof.
  induction 1 as [|[k m] cases Hm _ IH]; [done|]. cbn. intros Hd.
  destruct (x =? k); auto.
Qed.

(** The same, with one case label [y] left aside. *)
Lemma switch_Forall_but {A} (P : A -> Prop) y x cases dflt : x <> y ->
  Forall (fun c => c.1 <> y -> P c.2) cases -> P dflt -> P (switch x cases dflt).
Proof.
  intros Hx. induction 1 as [|[k m] cases Hm _ IH]; [done|]. cbn in *. intros Hd.
  destruct (Z.eqb_spec x k) as [->|]; auto.
Qed.

(** ASCII codes of the strings [uname] reports. *)
Definition str_Linux : list Z := [0x4C; 0x69; 0x6E; 0x75; 0x78].
Definition str_emu : list Z := [0x65; 0x6D; 0x75].
Definition str_release : list Z := [0x33; 0x2E; 0x31; 0x39; 0x2E; 0x30].
Definition str_version : list Z := [0x23; 0x31; 0x20; 0x53; 0x4D; 0x50].
Definition str_i686 : list Z := [0x69; 0x36; 0x38; 0x36].
Definition str_none : list Z := [0x28; 0x6E; 0x6F; 0x6E; 0x65; 0x29].

Section syscall.
Context {H : Type} `{HostOS H}.
Abbreviation M := (M H).

(** [strncpy(dst, src, n)] for a literal [src]: copied, then padded with NULs to [n]. *)
Definition strncpy (dst : Z) (src : list Z) (n : nat) : M unit :=
  host_store_bytes dst (take n src ++ replicate (n - length src) 0).

(** [cpu->regs[REG_EAX] = (uint32_t)m;]. *)
Definition ret_eax (m : M Z) : M unit := v ← m; set_reg REG_EAX v.

(** Field [k] of [LinuxUtsname] is at offset [65 * k]. *)
Definition sys_uname (ebx : Z) : M Z :=
  uts ← guest_to_host ebx;
  match uts with
  | None => mret (-14)
  | Some p =>
      strncpy (p + 65 * 0) str_Linux 64;;
      strncpy (p + 65 * 1) str_emu 64;;
      strncpy (p + 65 * 2) str_release 64;;
      strncpy (p + 65 * 3) str_version 64;;
      strncpy (p + 65 * 4) str_i686 64;;
      strncpy (p + 65 * 5) str_none 64;;
      mret 0
  end.

Definition sys_llseek (fd offset_high offset_low result_ptr whence : Z) : M Z :=
  if negb (offset_high =? 0) && negb (offset_high =? 0xFFFFFFFF) then mret (-22)
  else
    result ← sys_lseek fd (s32 offset_low) whence;
    if result <? 0 then mret result
    else
      (if negb (result_ptr =? 0) then
         mem_write32 result_ptr (u32 result);;
         mem_write32 (u32 (result_ptr + 4)) 0
       else mret tt);;
      mret 0.

(** [if (addr) { mem_write32(addr, v); mem_write32(addr + 4, v); ... }], [n] words. *)
Fixpoint write_words (n : nat) (addr v : Z) : M unit :=
  match n with
  | O => mret tt
  | S n => mem_write32 addr v;; write_words n (u32 (addr + 4)) v
  end.
Definition fill_words (n : nat) (addr v : Z) : M unit :=
  if negb (addr =? 0) then write_words n addr v else mret tt.

Definition sys_tgkill (edx : Z) : M Z :=
  (if s32 edx =? 6 then sys_exit 1 else mret tt);;
  mret 0.

Definition sys_getrandom (ebx ecx : Z) : M Z :=
  (if negb (ebx =? 0) then
     buf ← guest_to_host ebx;
     match buf with
     | Some p => host_memset p 0xAB ecx
     | None => mret tt
     end
   else mret tt);;
  mret ecx.

Definition syscall_cases (ebx ecx edx esi edi ebp : Z) : list (Z * M unit) :=
  [ (LINUX_SYS_EXIT, sys_exit (s32 ebx));
    (LINUX_SYS_READ, ret_eax (sys_read (s32 ebx) ecx edx));
    (LINUX_SYS_WRITE, ret_eax (sys_write (s32 ebx) ecx edx));
    (LINUX_SYS_OPEN, ret_eax (sys_open ebx (s32 ecx) (s32 edx)));
    (LINUX_SYS_CLOSE, ret_eax (sys_close (s32 ebx)));
    (LINUX_SYS_LSEEK, ret_eax (sys_lseek (s32 ebx) (s32 ecx) (s32 edx)));
    (LINUX_SYS_GETPID, ret_eax (mret 1));
    (LINUX_SYS_KILL, ret_eax (mret 0));
    (LINUX_SYS_BRK, ret_eax (sys_brk ebx));
    (LINUX_SYS_MUNMAP, ret_eax (sys_munmap ebx ecx));
    (LINUX_SYS_UNAME, ret_eax (sys_uname ebx));
    (LINUX_SYS_MPROTECT, ret_eax (sys_mprotect ebx ecx (s32 edx)));
    (LINUX_SYS_LLSEEK, ret_eax (sys_llseek (s32 ebx) ecx edx esi (s32 edi)));
    (LINUX_SYS_RT_SIGRETURN, ret_eax (mret 0));
    (LINUX_SYS_RT_SIGACTION, ret_eax (sys_rt_sigaction (s32 ebx) ecx edx esi));
    (LINUX_SYS_RT_SIGPROCMASK, ret_eax (sys_rt_sigprocmask (s32 ebx) ecx edx esi));
    (LINUX_SYS_MMAP2,
       ret_eax (sys_mmap2 ebx ecx (s32 edx) (s32 esi) (s32 edi) ebp));
    (LINUX_SYS_FSTAT64, ret_eax (sys_fstat64 (s32 ebx) ecx));
    (LINUX_SYS_FUTEX, ret_eax (mret 0));
    (LINUX_SYS_SET_THREAD_AREA, ret_eax (sys_set_thread_area ebx));
    (LINUX_SYS_EXIT_GROUP, sys_exit (s32 ebx));
    (LINUX_SYS_SET_TID_ADDRESS, ret_eax (sys_set_tid_address ebx));
    (LINUX_SYS_CLOCK_GETTIME, ret_eax (fill_words 2 ecx 0;; mret 0));
    (LINUX_SYS_RSEQ, ret_eax (mret 0));
    (146, ret_eax (sys_writev (s32 ebx) ecx (s32 edx)));
    (172, ret_eax (mret 0));                                    (* prctl *)
    (180, ret_eax (mret (- ENOSYS)));                           (* pread64 *)
    (191, ret_eax (fill_words 2 ecx 0xFFFFFFFF;; mret 0));      (* ugetrlimit *)
    (195, ret_eax (mret (-2)));                                 (* stat64 *)
    (196, ret_eax (mret (-2)));                                 (* lstat64 *)
    (199, ret_eax (mret 1000));                                 (* getuid32 *)
    (200, ret_eax (mret 1000));                                 (* getgid32 *)
    (201, ret_eax (mret 1000));                                 (* geteuid32 *)
    (202, ret_eax (mret 1000));                                 (* getegid32 *)
    (219, ret_eax (mret 0));                                    (* madvise *)
    (224, ret_eax (mret 1));                                    (* gettid *)
    (270, ret_eax (sys_tgkill edx));
    (295, ret_eax (sys_open ecx (s32 edx) (s32 esi)));          (* openat *)
    (300, ret_eax (mret 0));                                    (* fchownat *)
    (305, ret_eax (mret (-2)));                                 (* fstatat64 *)
    (311, ret_eax (mret 0));                                    (* get_robust_list *)
    (355, ret_eax (sys_getrandom ebx ecx));
    (383, ret_eax (mret (-38)));                                (* statx *)
    (403, ret_eax (fill_words 4 ecx 0;; mret 0)) ].             (* clock_gettime64 *)

Definition dispatch_syscall : M unit :=
  nr ← reg REG_EAX;
  ebx ← reg REG_EBX;
  ecx ← reg REG_ECX;
  edx ← reg REG_EDX;
  esi ← reg REG_ESI;
  edi ← reg REG_EDI;
  ebp ← reg REG_EBP;
  switch nr (syscall_cases ebx ecx edx esi edi ebp) (ret_eax (mret (- ENOSYS))).
End syscall.
