(* ===== verification/Dispatch.v ===== *)
(** Instruction dispatch: the opcode tables, the prefixes and INT of ops.c, and cpu.c.

    The C tables hold function pointers; here a cell holds a [handler], the name of the
    function, and [call_handler] is the indirect call.  [execute_opcode] and the prefix
    handlers call each other through the table: the recursion is cut by fuel, one unit per
    prefix byte. *)
From S2P Require Import Prelude CInt Machine Logic Mem Flags ModRM OpsAlu OpsMove.
From S2P Require Import OpsGroup OpsSimd OpsFpu Backend Syscall.

(** Function pointers. *)
Inductive handler :=
| H_unimplemented | H_0f_unimplemented | H_prefix_0f | H_prefix_cs
| H_movups_xmm_rm128 | H_movups_rm128_xmm | H_movhps_xmm_m64 | H_movhps_m64_xmm | H_cmovcc
| H_punpcklbw | H_punpcklwd | H_punpckldq | H_punpcklqdq | H_punpckhqdq | H_movd_mm_rm32
| H_movq_mm_rm64 | H_pshufw | H_pcmpeqb | H_movd_rm32_mm | H_movq_rm64_mm2 | H_jcc_near
| H_setcc | H_cpuid | H_shld_rm32_r32_imm8 | H_imul_r32_rm32 | H_cmpxchg_rm32_r32
| H_movzx_r32_rm8 | H_movzx_r32_rm16 | H_movsx_r32_rm8 | H_movsx_r32_rm16 | H_movq_rm64_mm
| H_pmovmskb | H_pxor_mm_mm
| H_add_rm8_r8 | H_add_rm32_r32 | H_add_r8_rm8 | H_add_r32_rm32 | H_add_eax_imm32
| H_push_sreg | H_pop_sreg | H_or_rm32_r32 | H_adc_rm8_r8 | H_adc_r8_rm8 | H_or_r32_rm32
| H_or_al_imm8 | H_or_eax_imm32 | H_adc_rm32_r32 | H_adc_r32_rm32 | H_sbb_rm32_r32
| H_sbb_r32_rm32 | H_and_rm8_r8 | H_and_rm32_r32 | H_and_r8_rm8 | H_and_r32_rm32
| H_and_al_imm8 | H_and_eax_imm32 | H_sub_rm32_r32 | H_sub_r32_rm32 | H_sub_eax_imm32
| H_xor_rm8_r8 | H_xor_rm32_r32 | H_xor_r32_rm32 | H_xor_al_imm8 | H_cmp_rm8_r8
| H_cmp_rm32_r32 | H_cmp_r8_rm8 | H_cmp_r32_rm32 | H_cmp_al_imm8 | H_cmp_eax_imm32
| H_inc_r32 | H_dec_r32 | H_push_r32 | H_pop_r32 | H_prefix_gs | H_prefix_66 | H_prefix_67
| H_push_imm32 | H_imul_r32_rm32_imm32 | H_push_imm8 | H_imul_r32_rm32_imm8 | H_jcc_short
| H_80_group | H_81 | H_83 | H_test_rm8_r8 | H_test_rm32_r32 | H_xchg_rm32_r32
| H_mov_rm8_r8 | H_mov_rm32_r32 | H_mov_r8_rm8 | H_mov_r32_rm32 | H_lea_r32_m
| H_mov_sreg_rm16 | H_nop | H_xchg_eax_r32 | H_cdq | H_mov_eax_mem | H_mov_mem_al
| H_mov_mem_eax | H_movsb | H_movsd | H_cmpsb | H_test_al_imm8 | H_test_eax_imm32 | H_stosb
| H_stosd | H_scasb | H_mov_r32_imm32 | H_c0_group | H_c1_group | H_ret_imm16 | H_ret
| H_mov_rm8_imm8 | H_mov_rm32_imm32 | H_leave | H_int | H_d0_group | H_d1_group
| H_d2_group | H_d3_group | H_d9 | H_db | H_dd | H_df | H_jecxz | H_call_rel32 | H_jmp_near
| H_jmp_short | H_prefix_lock | H_repne | H_rep | H_hlt | H_f6_group | H_f7_group | H_cli
| H_sti | H_cld | H_ff_group.

#[export] Instance handler_inhabited : Inhabited handler := populate H_unimplemented.

(** [for (int i = a; i <= b; i++) table[i] = h;] *)
Fixpoint set_range (n : nat) (a : Z) (h : handler) (t : list handler) : list handler :=
  match n with
  | O => t
  | S n => set_range n (a + 1) h (zset t a h)
  end.
(** [table[i] = h] for each pair of a list, in order. *)
Fixpoint set_cells (cells : list (Z * handler)) (t : list handler) : list handler :=
  match cells with
  | [] => t
  | (i, h) :: cells => set_cells cells (zset t i h)
  end.

(** The two tables as [init_opcode_table] leaves them. *)
Definition opcode_table_0f : list handler :=
  let t := replicate 256 H_0f_unimplemented in
  let t := set_cells
    [ (0x10, H_movups_xmm_rm128); (0x11, H_movups_rm128_xmm); (0x16, H_movhps_xmm_m64);
      (0x17, H_movhps_m64_xmm) ] t in
  let t := set_range 16 0x40 H_cmovcc t in
  let t := set_cells
    [ (0x60, H_punpcklbw); (0x61, H_punpcklwd); (0x62, H_punpckldq); (0x6C, H_punpcklqdq);
      (0x6D, H_punpckhqdq); (0x6E, H_movd_mm_rm32); (0x6F, H_movq_mm_rm64);
      (0x70, H_pshufw); (0x74, H_pcmpeqb); (0x7E, H_movd_rm32_mm);
      (0x7F, H_movq_rm64_mm2) ] t in
  let t := set_range 16 0x80 H_jcc_near t in
  let t := set_range 16 0x90 H_setcc t in
  set_cells
    [ (0xA2, H_cpuid); (0xA4, H_shld_rm32_r32_imm8); (0xAF, H_imul_r32_rm32);
      (0xB1, H_cmpxchg_rm32_r32); (0xB6, H_movzx_r32_rm8); (0xB7, H_movzx_r32_rm16);
      (0xBE, H_movsx_r32_rm8); (0xBF, H_movsx_r32_rm16); (0xD6, H_movq_rm64_mm);
      (0xD7, H_pmovmskb); (0xEF, H_pxor_mm_mm) ] t.

Definition opcode_table : list handler :=
  let t := replicate 256 H_unimplemented in
  let t := set_cells
    [ (0x0F, H_prefix_0f);
      (0x00, H_add_rm8_r8); (0x01, H_add_rm32_r32); (0x02, H_add_r8_rm8);
      (0x03, H_add_r32_rm32); (0x05, H_add_eax_imm32); (0x06, H_push_sreg);
      (0x07, H_pop_sreg); (0x09, H_or_rm32_r32); (0x10, H_adc_rm8_r8);
      (0x12, H_adc_r8_rm8); (0x0B, H_or_r32_rm32); (0x0C, H_or_al_imm8);
      (0x0D, H_or_eax_imm32); (0x11, H_adc_rm32_r32); (0x13, H_adc_r32_rm32);
      (0x16, H_push_sreg); (0x17, H_pop_sreg); (0x19, H_sbb_rm32_r32);
      (0x1B, H_sbb_r32_rm32); (0x1E, H_push_sreg); (0x1F, H_pop_sreg);
      (0x20, H_and_rm8_r8); (0x21, H_and_rm32_r32); (0x22, H_and_r8_rm8);
      (0x23, H_and_r32_rm32); (0x24, H_and_al_imm8); (0x25, H_and_eax_imm32);
      (0x26, H_prefix_cs); (0x29, H_sub_rm32_r32); (0x2B, H_sub_r32_rm32);
      (0x2D, H_sub_eax_imm32); (0x2E, H_prefix_cs); (0x30, H_xor_rm8_r8);
      (0x31, H_xor_rm32_r32); (0x33, H_xor_r32_rm32); (0x34, H_xor_al_imm8);
      (0x36, H_prefix_cs); (0x38, H_cmp_rm8_r8); (0x39, H_cmp_rm32_r32);
      (0x3A, H_cmp_r8_rm8); (0x3B, H_cmp_r32_rm32); (0x3C, H_cmp_al_imm8);
      (0x3D, H_cmp_eax_imm32); (0x3E, H_prefix_cs) ] t in
  let t := set_range 8 0x40 H_inc_r32 t in
  let t := set_range 8 0x48 H_dec_r32 t in
  let t := set_range 8 0x50 H_push_r32 t in
  let t := set_range 8 0x58 H_pop_r32 t in
  let t := set_cells
    [ (0x64, H_prefix_cs); (0x65, H_prefix_gs); (0x66, H_prefix_66); (0x67, H_prefix_67);
      (0x68, H_push_imm32); (0x69, H_imul_r32_rm32_imm32); (0x6A, H_push_imm8);
      (0x6B, H_imul_r32_rm32_imm8) ] t in
  let t := set_range 16 0x70 H_jcc_short t in
  let t := set_cells
    [ (0x80, H_80_group); (0x81, H_81); (0x83, H_83); (0x84, H_test_rm8_r8);
      (0x85, H_test_rm32_r32); (0x87, H_xchg_rm32_r32); (0x88, H_mov_rm8_r8);
      (0x89, H_mov_rm32_r32); (0x8A, H_mov_r8_rm8); (0x8B, H_mov_r32_rm32);
      (0x8D, H_lea_r32_m); (0x8E, H_mov_sreg_rm16); (0x90, H_nop) ] t in
  let t := set_range 7 0x91 H_xchg_eax_r32 t in
  let t := set_cells
    [ (0x99, H_cdq); (0xA1, H_mov_eax_mem); (0xA2, H_mov_mem_al); (0xA3, H_mov_mem_eax);
      (0xA4, H_movsb); (0xA5, H_movsd); (0xA6, H_cmpsb); (0xA8, H_test_al_imm8);
      (0xA9, H_test_eax_imm32); (0xAA, H_stosb); (0xAB, H_stosd); (0xAE, H_scasb) ] t in
  let t := set_range 8 0xB8 H_mov_r32_imm32 t in
  set_cells
    [ (0xC0, H_c0_group); (0xC1, H_c1_group); (0xC2, H_ret_imm16); (0xC3, H_ret);
      (0xC6, H_mov_rm8_imm8); (0xC7, H_mov_rm32_imm32); (0xC9, H_leave); (0xCD, H_int);
      (0xD0, H_d0_group); (0xD1, H_d1_group); (0xD2, H_d2_group); (0xD3, H_d3_group);
      (0xD9, H_d9); (0xDB, H_db); (0xDD, H_dd); (0xDF, H_df); (0xE3, H_jecxz);
      (0xE8, H_call_rel32); (0xE9, H_jmp_near); (0xEB, H_jmp_short);
      (0xF0, H_prefix_lock); (0xF2, H_repne); (0xF3, H_rep); (0xF4, H_hlt);
      (0xF6, H_f6_group); (0xF7, H_f7_group); (0xFA, H_cli); (0xFB, H_sti);
      (0xFC, H_cld); (0xFF, H_ff_group) ] t.

Section dispatch.
Context {H : Type} `{HostOS H} `{FloatOps}.
Abbreviation M := (M H).

(** 0xCD INT imm8 *)
Definition op_int (op : Z) : M unit :=
  vector ← fetch8;
  (if vector =? 0x80 then dispatch_syscall else halt);;
  add_cycles 50.

Section prefixes.
(** [execute_opcode], and the call through [opcode_table_0f]. *)
Context (execute : Z -> M unit) (call_0f : Z -> M unit).

Definition op_prefix_0f (op : Z) : M unit := op2 ← fetch8; call_0f op2.

(** 0x26, 0x2E, 0x36, 0x3E, 0x64: segment prefixes without effect *)
Definition op_prefix_cs (op : Z) : M unit :=
  next ← fetch8; execute next;; add_cycles 1.

(** 0x65 GS prefix *)
Definition op_prefix_gs (op : Z) : M unit :=
  base ← get_og g_gs_base;
  set_seg_override base;;
  next ← fetch8;
  execute next;;
  set_seg_override 0;;
  add_cycles 1.

(** 0x66 operand-size prefix *)
Definition op_prefix_66 (op : Z) : M unit :=
  set_operand_size_16 1;;
  next ← fetch8;
  execute next;;
  set_operand_size_16 0.

(** 0x67 address-size prefix *)
Definition op_prefix_67 (op : Z) : M unit :=
  next ← fetch8; execute next;; add_cycles 1.

(** 0xF0 LOCK prefix *)
Definition op_prefix_lock (op : Z) : M unit :=
  next ← fetch8; execute next;; add_cycles 1.

(** The handlers that neither call back nor leave the guest. *)
Definition call_plain (h : handler) : Z -> M unit :=
  match h with
  | H_0f_unimplemented => op_0f_unimplemented
  | H_movups_xmm_rm128 => op_movups_xmm_rm128
  | H_movups_rm128_xmm => op_movups_rm128_xmm
  | H_movhps_xmm_m64 => op_movhps_xmm_m64
  | H_movhps_m64_xmm => op_movhps_m64_xmm
  | H_cmovcc => op_cmovcc
  | H_punpcklbw => op_punpcklbw
  | H_punpcklwd => op_punpcklwd
  | H_punpckldq => op_punpckldq
  | H_punpcklqdq => op_punpcklqdq
  | H_punpckhqdq => op_punpckhqdq
  | H_movd_mm_rm32 => op_movd_mm_rm32
  | H_movq_mm_rm64 => op_movq_mm_rm64
  | H_pshufw => op_pshufw
  | H_pcmpeqb => op_pcmpeqb
  | H_movd_rm32_mm => op_movd_rm32_mm
  | H_movq_rm64_mm2 => op_movq_rm64_mm2
  | H_jcc_near => op_jcc_near
  | H_setcc => op_setcc
  | H_cpuid => op_cpuid
  | H_shld_rm32_r32_imm8 => op_shld_rm32_r32_imm8
  | H_imul_r32_rm32 => op_imul_r32_rm32
  | H_cmpxchg_rm32_r32 => op_cmpxchg_rm32_r32
  | H_movzx_r32_rm8 => op_movzx_r32_rm8
  | H_movzx_r32_rm16 => op_movzx_r32_rm16
  | H_movsx_r32_rm8 => op_movsx_r32_rm8
  | H_movsx_r32_rm16 => op_movsx_r32_rm16
  | H_movq_rm64_mm => op_movq_rm64_mm
  | H_pmovmskb => op_pmovmskb
  | H_pxor_mm_mm => op_pxor_mm_mm
  | H_add_rm8_r8 => op_add_rm8_r8
  | H_add_rm32_r32 => op_add_rm32_r32
  | H_add_r8_rm8 => op_add_r8_rm8
  | H_add_r32_rm32 => op_add_r32_rm32
  | H_add_eax_imm32 => op_add_eax_imm32
  | H_push_sreg => op_push_sreg
  | H_pop_sreg => op_pop_sreg
  | H_or_rm32_r32 => op_or_rm32_r32
  | H_adc_rm8_r8 => op_adc_rm8_r8
  | H_adc_r8_rm8 => op_adc_r8_rm8
  | H_or_r32_rm32 => op_or_r32_rm32
  | H_or_al_imm8 => op_or_al_imm8
  | H_or_eax_imm32 => op_or_eax_imm32
  | H_adc_rm32_r32 => op_adc_rm32_r32
  | H_adc_r32_rm32 => op_adc_r32_rm32
  | H_sbb_rm32_r32 => op_sbb_rm32_r32
  | H_sbb_r32_rm32 => op_sbb_r32_rm32
  | H_and_rm8_r8 => op_and_rm8_r8
  | H_and_rm32_r32 => op_and_rm32_r32
  | H_and_r8_rm8 => op_and_r8_rm8
  | H_and_r32_rm32 => op_and_r32_rm32
  | H_and_al_imm8 => op_and_al_imm8
  | H_and_eax_imm32 => op_and_eax_imm32
  | H_sub_rm32_r32 => op_sub_rm32_r32
  | H_sub_r32_rm32 => op_sub_r32_rm32
  | H_sub_eax_imm32 => op_sub_eax_imm32
  | H_xor_rm8_r8 => op_xor_rm8_r8
  | H_xor_rm32_r32 => op_xor_rm32_r32
  | H_xor_r32_rm32 => op_xor_r32_rm32
  | H_xor_al_imm8 => op_xor_al_imm8
  | H_cmp_rm8_r8 => op_cmp_rm8_r8
  | H_cmp_rm32_r32 => op_cmp_rm32_r32
  | H_cmp_r8_rm8 => op_cmp_r8_rm8
  | H_cmp_r32_rm32 => op_cmp_r32_rm32
  | H_cmp_al_imm8 => op_cmp_al_imm8
  | H_cmp_eax_imm32 => op_cmp_eax_imm32
  | H_inc_r32 => op_inc_r32
  | H_dec_r32 => op_dec_r32
  | H_push_r32 => op_push_r32
  | H_pop_r32 => op_pop_r32
  | H_push_imm32 => op_push_imm32
  | H_imul_r32_rm32_imm32 => op_imul_r32_rm32_imm32
  | H_push_imm8 => op_push_imm8
  | H_imul_r32_rm32_imm8 => op_imul_r32_rm32_imm8
  | H_jcc_short => op_jcc_short
  | H_80_group => op_80_group
  | H_81 => op_81
  | H_83 => op_83
  | H_test_rm8_r8 => op_test_rm8_r8
  | H_test_rm32_r32 => op_test_rm32_r32
  | H_xchg_rm32_r32 => op_xchg_rm32_r32
  | H_mov_rm8_r8 => op_mov_rm8_r8
  | H_mov_rm32_r32 => op_mov_rm32_r32
  | H_mov_r8_rm8 => op_mov_r8_rm8
  | H_mov_r32_rm32 => op_mov_r32_rm32
  | H_lea_r32_m => op_lea_r32_m
  | H_mov_sreg_rm16 => op_mov_sreg_rm16
  | H_nop => op_nop
  | H_xchg_eax_r32 => op_xchg_eax_r32
  | H_cdq => op_cdq
  | H_mov_eax_mem => op_mov_eax_mem
  | H_mov_mem_al => op_mov_mem_al
  | H_mov_mem_eax => op_mov_mem_eax
  | H_movsb => op_movsb
  | H_movsd => op_movsd
  | H_cmpsb => op_cmpsb
  | H_test_al_imm8 => op_test_al_imm8
  | H_test_eax_imm32 => op_test_eax_imm32
  | H_stosb => op_stosb
  | H_stosd => op_stosd
  | H_scasb => op_scasb
  | H_mov_r32_imm32 => op_mov_r32_imm32
  | H_c0_group => op_c0_group
  | H_c1_group => op_c1_group
  | H_ret_imm16 => op_ret_imm16
  | H_ret => op_ret
  | H_mov_rm8_imm8 => op_mov_rm8_imm8
  | H_mov_rm32_imm32 => op_mov_rm32_imm32
  | H_leave => op_leave
  | H_d0_group => op_d0_group
  | H_d1_group => op_d1_group
  | H_d2_group => op_d2_group
  | H_d3_group => op_d3_group
  | H_d9 => op_d9
  | H_db => op_db
  | H_dd => op_dd
  | H_df => op_df
  | H_jecxz => op_jecxz
  | H_call_rel32 => op_call_rel32
  | H_jmp_near => op_jmp_near
  | H_jmp_short => op_jmp_short
  | H_repne => op_repne
  | H_rep => op_rep
  | H_hlt => op_hlt
  | H_f6_group => op_f6_group
  | H_f7_group => op_f7_group
  | H_cli => op_cli
  | H_sti => op_sti
  | H_cld => op_cld
  | H_ff_group => op_ff_group
  | _ => op_unimplemented
  end.

(** The indirect call. *)
Definition call_handler (h : handler) : Z -> M unit :=
  match h with
  | H_prefix_0f => op_prefix_0f
  | H_prefix_cs => op_prefix_cs
  | H_prefix_gs => op_prefix_gs
  | H_prefix_66 => op_prefix_66
  | H_prefix_67 => op_prefix_67
  | H_prefix_lock => op_prefix_lock
  | H_int => op_int
  | _ => call_plain h
  end.
End prefixes.

(** [opcode_table_0f[op2](cpu, op2)]: no cell of that table is a prefix. *)
Definition call_0f (op2 : Z) : M unit := call_plain (zget opcode_table_0f op2) op2.

(** [execute_opcode], with at most [fuel] prefix bytes before the instruction. *)
Fixpoint execute_opcode (fuel : nat) (opcode : Z) : M unit :=
  call_handler
    (match fuel with
     | O => fun _ => no_fuel
     | S fuel => execute_opcode fuel
     end) call_0f (zget opcode_table opcode) opcode.

(** ** cpu.c *)

Definition init_cpu : M unit :=
  modify (upd_cpu (fun _ => mk_i386 (replicate 8 0) 0 0x00000002 0 0)).

(** More prefix bytes than fit in the guest's memory. *)
Definition prefix_fuel (s : machine H) : nat := S (S (Z.to_nat (g_size (mem s)))).

(** One turn of the loop of [emulate]; [inr tt] when the processor is halted.  The fuel of
    [execute_opcode] is the parameter [pf]. *)
Definition emulate_body (pf : nat) : M (unit + unit) :=
  h ← gets (fun s => halted (cpu s));
  if negb (h =? 0) then mret (inr tt)
  else
    e ← get_eip;
    modify (upd_mem (set_last_eip e));;
    opcode ← mem_read8 e;
    set_eip (e + 1);;
    execute_opcode pf opcode;;
    mret (inl tt).

(** [emulate], for at most [fuel] turns of its loop. *)
Fixpoint emulate (fuel pf : nat) : M unit :=
  match fuel with
  | O => no_fuel
  | S fuel =>
      r ← emulate_body pf;
      match r with
      | inl _ => emulate fuel pf
      | inr _ => mret tt
      end
  end.
End dispatch.
