(* ===== verification/Loader.v ===== *)
(** The ELF loader: loader.c.

    [load_elf] reads the executable through stdio.  A stream is the contents of the file
    with a position ([FILE]), for a regular file on a host whose [long] has 64 bits: a seek
    to a non-negative offset succeeds, a read fails when it meets the end of the file.  The
    argument vector is the list of its strings without their terminators, so that [argc] is
    its length. *)
From S2P Require Import Prelude CInt Machine Logic Mem.

Record LoadInfo := mk_load_info { li_load_end : Z }.

(** * stdio *)

Record FILE := mk_file { contents : list Z; pos : Z }.

Definition fseek (f : FILE) (off : Z) : option FILE :=
  if off <? 0 then None else Some (mk_file (contents f) off).
Definition fread (f : FILE) (n : Z) : option (list Z * FILE) :=
  if pos f + n <=? Z.of_nat (length (contents f)) then
    Some (take (Z.to_nat n) (drop (Z.to_nat (pos f)) (contents f)),
          mk_file (contents f) (pos f + n))
  else None.

(** * ELF structures *)

Record Elf32_Ehdr := mk_ehdr {
  e_ident : list Z;
  e_type : Z; e_machine : Z; e_version : Z; e_entry : Z; e_phoff : Z; e_shoff : Z;
  e_flags : Z; e_ehsize : Z; e_phentsize : Z; e_phnum : Z; e_shentsize : Z;
  e_shnum : Z; e_shstrndx : Z
}.
Record Elf32_Phdr := mk_phdr {
  p_type : Z; p_offset : Z; p_vaddr : Z; p_paddr : Z; p_filesz : Z; p_memsz : Z;
  p_flags : Z; p_align : Z
}.
Definition SIZEOF_EHDR : Z := 52.
Definition SIZEOF_PHDR : Z := 32.

(** The integer of [n] bytes at an offset of a structure's bytes. *)
Definition field (bs : list Z) (off n : nat) : Z := le_value (take n (drop off bs)).

Definition ehdr_of_bytes (bs : list Z) : Elf32_Ehdr :=
  mk_ehdr (take 16 bs) (field bs 16 2) (field bs 18 2) (field bs 20 4) (field bs 24 4)
    (field bs 28 4) (field bs 32 4) (field bs 36 4) (field bs 40 2) (field bs 42 2)
    (field bs 44 2) (field bs 46 2) (field bs 48 2) (field bs 50 2).
Definition phdr_of_bytes (bs : list Z) : Elf32_Phdr :=
  mk_phdr (field bs 0 4) (field bs 4 4) (field bs 8 4) (field bs 12 4) (field bs 16 4)
    (field bs 20 4) (field bs 24 4) (field bs 28 4).

Definition ELF_MAGIC : list Z := [0x7F; 0x45; 0x4C; 0x46].
Definition ET_EXEC : Z := 2.
Definition EM_386 : Z := 3.
Definition PT_LOAD : Z := 1.
Definition ELFCLASS32 : Z := 1.
Definition ELFDATA2LSB : Z := 1.

(** The checks on the header. *)
Definition ehdr_ok (e : Elf32_Ehdr) : bool :=
  bool_decide (take 4 (e_ident e) = ELF_MAGIC) &&
  (zget (e_ident e) 4 =? ELFCLASS32) && (zget (e_ident e) 5 =? ELFDATA2LSB) &&
  (e_type e =? ET_EXEC) && (e_machine e =? EM_386) && (SIZEOF_PHDR <=? e_phentsize e).

(** [(x + 0xFFF) & ~0xFFFu]. *)
Definition page_up (x : Z) : Z := Z.land (u32 (x + 0xFFF)) (u32 (Z.lnot 0xFFF)).
(** [x & ~0xFu]. *)
Definition align16 (x : Z) : Z := Z.land x (u32 (Z.lnot 0xF)).

(** State of the loop over program headers. *)
Record seg_state := mk_seg {
  sg_file : FILE; sg_load_end : Z; sg_load_addr : Z; sg_first : bool
}.

Section loader.
Context {H : Type}.
Abbreviation M := (M H).

Definition put32 (addr val : Z) : M Z :=
  mem_write32 addr val;;
  mret (u32 (addr + 4)).
(** A run of [put32(&w, v)]. *)
Fixpoint put_words (w : Z) (vs : list Z) : M Z :=
  match vs with
  | [] => mret w
  | v :: vs => w ← put32 w v; put_words w vs
  end.

(** [for (uint32_t b = 0; b < memsz; b++) mem_write8(vaddr + b, 0);] *)
Definition zero_body (vaddr memsz : Z) (b : Z) : M (Z + unit) :=
  if b <? memsz then
    mem_write8 (u32 (vaddr + b)) 0;;
    mret (inl (u32 (b + 1)))
  else mret (inr tt).
Definition zero_segment (vaddr memsz : Z) : M unit := c_loop (zero_body vaddr memsz) 0.

(** The 4096-byte chunks of [while (remaining > 0)]; the result is [None] on a short
    read. *)
Definition CHUNK : Z := 4096.
Definition copy_body (st : FILE * Z * Z) : M (FILE * Z * Z + option FILE) :=
  let '(f, remaining, dst) := st in
  if 0 <? remaining then
    let to_read := if remaining <? CHUNK then remaining else CHUNK in
    match fread f to_read with
    | None => mret (inr None)
    | Some (chunk, f) =>
        mem_copy_in dst chunk;;
        mret (inl (f, u32 (remaining - to_read), u32 (dst + to_read)))
    end
  else mret (inr (Some f)).
Definition copy_segment (f : FILE) (filesz vaddr : Z) : M (option FILE) :=
  c_loop copy_body (f, filesz, vaddr).

(** One turn of the loop over program headers; [None] is a failure of [load_elf]. *)
Definition load_segment (ehdr : Elf32_Ehdr) (i : Z) (st : seg_state)
    : M (option seg_state) :=
  match fseek (sg_file st) (u32 (e_phoff ehdr + u32 (i * e_phentsize ehdr))) with
  | None => mret None
  | Some f =>
      match fread f SIZEOF_PHDR with
      | None => mret None
      | Some (bs, f) =>
          let phdr := phdr_of_bytes bs in
          let skip := mk_seg f (sg_load_end st) (sg_load_addr st) (sg_first st) in
          if negb (p_type phdr =? PT_LOAD) then mret (Some skip)
          else if p_memsz phdr =? 0 then mret (Some skip)
          else
            size ← mem_size;
            if size <? p_vaddr phdr + p_memsz phdr then mret None
            else
              let load_addr := if sg_first st then p_vaddr phdr else sg_load_addr st in
              zero_segment (p_vaddr phdr) (p_memsz phdr);;
              fo ←
                (if 0 <? p_filesz phdr then
                   match fseek f (p_offset phdr) with
                   | None => mret None
                   | Some f => copy_segment f (p_filesz phdr) (p_vaddr phdr)
                   end
                 else mret (Some f));
              match fo with
              | None => mret None
              | Some f =>
                  let seg_end := u32 (p_vaddr phdr + p_memsz phdr) in
                  let load_end := if sg_load_end st <? seg_end then seg_end
                                  else sg_load_end st in
                  mret (Some (mk_seg f load_end load_addr false))
              end
      end
  end.

(** [n] turns of the loop, from index [i]. *)
Fixpoint load_segments (n : nat) (ehdr : Elf32_Ehdr) (i : Z) (st : seg_state)
    : M (option seg_state) :=
  match n with
  | O => mret (Some st)
  | S n =>
      r ← load_segment ehdr i st;
      match r with
      | None => mret None
      | Some st => load_segments n ehdr (i + 1) st
      end
  end.

(** ** The initial stack *)

Definition N_AUXV_ENTRIES : Z := 16.

(** Copies the argument strings from [sptr] up; gives their addresses and the end. *)
Fixpoint copy_strings (sptr : Z) (strs : list (list Z)) : M (list Z * Z) :=
  match strs with
  | [] => mret ([], sptr)
  | s :: strs =>
      mem_copy_in sptr (s ++ [0]);;
      r ← copy_strings (u32 (sptr + Z.of_nat (length s) + 1)) strs;
      mret (sptr :: r.1, r.2)
  end.

Definition guest_args (argv : list (list Z)) : list (list Z) := take 63 (drop 1 argv).

Definition header_bytes (args : list (list Z)) : Z :=
  u32 (4 * (1 + (Z.of_nat (length args) + 1) + 1 + N_AUXV_ENTRIES * 2)).
Definition string_bytes (args : list (list Z)) : Z :=
  foldl (fun n s => u32 (n + (Z.of_nat (length s) + 1))) 16 args.
Definition str_area_base (size : Z) (args : list (list Z)) : Z :=
  align16 (u32 (u32 (u32 size - 4) - string_bytes args)).
Definition esp_base (size : Z) (args : list (list Z)) : Z :=
  align16 (u32 (str_area_base size args - header_bytes args)).

Definition auxv (ehdr : Elf32_Ehdr) (at_phdr random_addr : Z) : list Z :=
  [ 3; at_phdr; 4; e_phentsize ehdr; 5; e_phnum ehdr; 6; 0x1000; 7; 0; 8; 0;
    9; e_entry ehdr; 11; 1000; 12; 1000; 13; 1000; 14; 1000; 16; 0x00008910;
    17; 100; 23; 0; 25; random_addr; 0; 0 ].

Definition build_stack (ehdr : Elf32_Ehdr) (at_phdr : Z) (argv : list (list Z))
    : M unit :=
  size ← mem_size;
  let args := guest_args argv in
  r ← copy_strings (str_area_base size args) args;
  let '(argv_addrs, random_addr) := r in
  mem_write32 (u32 (random_addr + 0)) 0xDEADBEEF;;
  mem_write32 (u32 (random_addr + 4)) 0xCAFEBABE;;
  mem_write32 (u32 (random_addr + 8)) 0x13371337;;
  mem_write32 (u32 (random_addr + 12)) 0xABCDEF01;;
  put_words (esp_base size args)
    (Z.of_nat (length args) :: argv_addrs ++ [0] ++ [0]
     ++ auxv ehdr at_phdr random_addr);;
  set_reg REG_ESP (esp_base size args).

(** [load_elf]: [file] is what [fopen] gives, [None] stands for the result 0. *)
Definition load_elf (file : option (list Z)) (argv : list (list Z))
    : M (option LoadInfo) :=
  match file with
  | None => mret None
  | Some c =>
      match fread (mk_file c 0) SIZEOF_EHDR with
      | None => mret None
      | Some (bs, f) =>
          let ehdr := ehdr_of_bytes bs in
          if negb (ehdr_ok ehdr) then mret None
          else
            r ← load_segments (Z.to_nat (e_phnum ehdr)) ehdr 0 (mk_seg f 0 0 true);
            match r with
            | None => mret None
            | Some st =>
                set_eip (e_entry ehdr);;
                build_stack ehdr (u32 (sg_load_addr st + e_phoff ehdr)) argv;;
                mret (Some (mk_load_info (page_up (sg_load_end st))))
            end
      end
  end.
End loader.
