(* ===== verification/Main.v ===== *)
(** The program: main.c.

    [main] sets up memory, descriptors and the processor, writes the system-call
    trampoline, loads the executable, lays out the fake thread block, the heap and the mmap
    arena, and runs the emulator. *)
From S2P Require Import Prelude CInt Machine Logic Mem Backend OpsFpu Syscall Dispatch.
From S2P Require Import Loader.

Definition STUB_ADDR : Z := 0x00001000.
Definition FAKE_TLS_SIZE : Z := 0x400.
Definition GUEST_MEM : Z := 1024 * 1024 * 512.
Definition EXIT_SUCCESS : Z := 0.
Definition EXIT_FAILURE : Z := 1.

(** [(FAKE_TLS_SIZE + 8 + 7) & ~7u]. *)
Definition chunk_size : Z := Z.land (FAKE_TLS_SIZE + 8 + 7) (u32 (Z.lnot 7)).

Section main.
Context {H : Type} `{HostOS H} `{FloatOps}.
Abbreviation M := (M H).

(** [int 0x80; ret], the [__kernel_vsyscall] of the guest. *)
Definition write_stub : M unit :=
  mem_write8 (STUB_ADDR + 0) 0xCD;;
  mem_write8 (STUB_ADDR + 1) 0x80;;
  mem_write8 (STUB_ADDR + 2) 0xC3.

(** [for (uint32_t i = 4; i <= 0x400; i += 4) mem_write32(base - i, 0);], [n] turns from
    index [i]. *)
Fixpoint zero_below (n : nat) (base i : Z) : M unit :=
  match n with
  | O => mret tt
  | S n => mem_write32 (u32 (base - i)) 0;; zero_below n base (i + 4)
  end.

(** The heap chunk with the fake thread block, and the GS base. *)
Definition setup_tls (load_end : Z) : M unit :=
  let chunk_base := load_end in
  let fake_tls_base := u32 (chunk_base + 8) in
  mem_write32 (u32 (chunk_base + 0)) 0;;
  mem_write32 (u32 (chunk_base + 4)) (Z.lor chunk_size 1);;
  set_brk (chunk_base + chunk_size);;
  write_words 256 fake_tls_base STUB_ADDR;;
  zero_below 256 fake_tls_base 4;;
  mem_write32 (u32 (fake_tls_base + 0x00)) STUB_ADDR;;
  mem_write32 (u32 (fake_tls_base + 0x04)) fake_tls_base;;
  mem_write32 (u32 (fake_tls_base + 0x08)) fake_tls_base;;
  mem_write32 (u32 (fake_tls_base + 0x14)) 0xDEADBEEF;;
  set_gs_base fake_tls_base.

Definition mmap_arena_start (load_end : Z) : Z :=
  if 0x0C000000 <? load_end
  then Z.land (u32 (load_end + 0x00FFFFFF)) (u32 (Z.lnot 0x00FFFFFF))
  else 0x0C000000.

(** Everything [main] does before [emulate], on a guest memory of [size] bytes; the
    result tells whether the executable was loaded. *)
Definition boot (size : Z) (file : option (list Z)) (argv : list (list Z)) : M bool :=
  init_mem size;;
  init_fd_table;;
  init_cpu;;
  write_stub;;
  r ← load_elf file argv;
  match r with
  | None => mret false
  | Some info =>
      init_brk (li_load_end info);;
      setup_tls (li_load_end info);;
      init_mmap_arena (mmap_arena_start (li_load_end info));;
      mret true
  end.

(** [main]: [fopen path] is what opening the executable for reading gives; [fuel] bounds
    the instructions executed, [pf] the prefixes of one instruction.  The result is the
    exit status. *)
Definition main (fopen : list Z -> option (list Z)) (argv : list (list Z))
    (fuel pf : nat) : M Z :=
  match argv with
  | _ :: path :: _ =>
      ok ← boot GUEST_MEM (fopen path) argv;
      if negb ok then free_mem;; mret EXIT_FAILURE
      else
        emulate fuel pf;;
        free_mem;;
        mret EXIT_SUCCESS
  | _ => mret EXIT_FAILURE
  end.
End main.

(** The globals at program start, and the uninitialised [i386 cpu] of [main] (which
    [init_cpu] clears before it is read) as zeros. *)
Definition machine0 {H} (h : H) : machine H :=
  mk_machine
    (mk_i386 (replicate 8 0) 0 0 0 0)
    (mk_guest_mem ∅ 0 0)
    (mk_ops_globals 0 0 0 (replicate 8 0) 0 (replicate 8 0) (replicate 8 (mk_xmm 0 0)))
    (mk_kernel (replicate 256 (mk_fd 0 0)) 0 0 0 (replicate 64 (replicate 20 0)))
    h.
