(* ===== verification/Safety.v ===== *)
(** Type safety: every instruction handler obeys [guest_step], every system call
    [kernel_step], hence so do [execute_opcode] and [emulate]. *)
From S2P Require Import Prelude CInt Machine Logic Mem Flags ModRM OpsAlu OpsMove.
From S2P Require Import OpsGroup OpsSimd OpsFpu Backend Syscall Dispatch.

Section handlers.
Context {H : Type} `{FloatOps}.
Abbreviation R := (guest_step (H:=H)).

Lemma resp_condition c : respects R (condition c).
Proof. unfold condition. respects. Qed.
Lemma resp_push32 v : respects R (push32 v).
Proof. unfold push32, bump_reg. respects. Qed.
Lemma resp_move_top k : respects R (move_top k).
Proof.
  apply respects_modify. intros s. apply guest_upd_og. intros [].
  constructor; simpl; try done.
  change 7 with (Z.ones 3). rewrite Z.land_ones by lia. apply Z.mod_pos_bound. lia.
Qed.
Lemma resp_set_fpu i v : respects R (set_fpu i v).
Proof.
  apply respects_modify. intros s. apply guest_upd_og. intros [].
  constructor; simpl; try done; [by rewrite zset_length|].
  apply zset_Forall; [done|apply u64_range].
Qed.
Lemma resp_fpu i : respects R (fpu i).
Proof. apply respects_gets. exact _. Qed.
End handlers.
#[export] Hint Resolve resp_condition resp_push32 resp_move_top resp_set_fpu resp_fpu : resp.

Section guest.
Context {H : Type} `{FloatOps}.

(** A handler other than a prefix or INT is a guest step. *)
Lemma resp_call_plain h op : respects (guest_step (H:=H)) (call_plain h op).
Proof. destruct h; unfold call_plain; repeat autounfold with handlers; respects. Qed.
End guest.

(** * System calls *)

(** A guest step is a kernel step. *)
Lemma resp_guest_kernel {H A} (m : M H A) : respects guest_step m -> respects kernel_step m.
Proof. apply respects_weaken. apply guest_kernel_step. Qed.
#[export] Hint Extern 4 (respects kernel_step _) =>
  apply resp_guest_kernel; solve [eauto 2 with resp typeclass_instances nocore] : resp.

Section kernel.
Context {H : Type} `{HostOS H}.
Abbreviation R := (kernel_step (H:=H)).
Implicit Types s : machine H.

Lemma kernel_upd_kern f s :
  (wf_kern (kern s) -> wf_kern (f (kern s))) -> kernel_step s (upd_kern f s).
Proof. intros Hf. constructor; try done. intros []. constructor; simpl; auto. Qed.

Lemma resp_os {A} (f : H -> A * H) : respects R (os f).
Proof.
  intros s. unfold os. destruct (f (host s)) as [a h]. constructor; [|done].
  intros []. by constructor.
Qed.
Lemma resp_get_kern {A} (f : kernel -> A) : respects R (get_kern f).
Proof. apply respects_gets. exact _. Qed.
Lemma resp_fd_entry fd : respects R (fd_entry fd).
Proof. apply respects_gets. exact _. Qed.
Lemma resp_set_fd_entry fd e : respects R (set_fd_entry fd e).
Proof.
  apply respects_modify. intros s. apply kernel_upd_kern. intros [].
  constructor; simpl; try done. by rewrite zset_length.
Qed.
Lemma resp_set_brk v : respects R (set_brk v).
Proof.
  apply respects_modify. intros s. apply kernel_upd_kern. intros [].
  constructor; simpl; try done. apply u32_range.
Qed.
Lemma resp_set_mmap_ptr v : respects R (set_mmap_ptr v).
Proof.
  intros s. simpl. apply kernel_upd_kern. intros [].
  constructor; simpl; try done. apply u32_range.
Qed.
Lemma resp_set_gs_base v : respects R (set_gs_base v).
Proof.
  apply resp_guest_kernel, respects_modify. intros s. apply guest_upd_og. intros [].
  constructor; simpl; try done. apply u32_range.
Qed.
Lemma resp_init_mmap_arena b : respects R (init_mmap_arena b).
Proof.
  apply respects_modify. intros s. apply kernel_upd_kern. intros [].
  constructor; simpl; try done; apply u32_range.
Qed.
Lemma resp_mem_size : respects R mem_size.
Proof. apply respects_gets. exact _. Qed.
Lemma resp_host_string p : respects R (host_string p).
Proof.
  intros s. unfold host_string. destruct (scan2 _ _ _) as [j|]; [|done].
  destruct (j <? g_size (mem s)); [simpl; reflexivity|done].
Qed.
#[local] Hint Resolve resp_os resp_get_kern resp_fd_entry resp_set_fd_entry resp_set_brk
  resp_set_mmap_ptr resp_set_gs_base resp_mem_size resp_host_string : resp.

Lemma resp_init_fd_table : respects R init_fd_table.
Proof.
  unfold init_fd_table. apply respects_bind; [exact _| |intros _; respects].
  apply respects_modify. intros s. apply kernel_upd_kern. intros []. by constructor.
Qed.
Lemma resp_bad_fd fd : respects R (bad_fd fd).
Proof. unfold bad_fd. respects. Qed.
Lemma resp_sys_exit {A} st : respects R (sys_exit (A:=A) st).
Proof. unfold sys_exit. respects. Qed.
Lemma resp_host_load32 p : respects R (host_load32 p).
Proof. unfold host_load32. respects. Qed.
Lemma resp_host_store32 p v : respects R (host_store32 p v).
Proof. unfold host_store32. respects. Qed.
#[local] Hint Resolve resp_bad_fd resp_sys_exit resp_host_load32 resp_host_store32 : resp.

Lemma resp_sys_write fd a n : respects R (sys_write fd a n).
Proof. unfold sys_write. respects. Qed.
Lemma resp_sys_read fd a n : respects R (sys_read fd a n).
Proof. unfold sys_read. respects. Qed.
Lemma resp_sys_open p f m : respects R (sys_open p f m).
Proof. unfold sys_open, alloc_fd. respects. Qed.
Lemma resp_sys_close fd : respects R (sys_close fd).
Proof. unfold sys_close. respects. Qed.
Lemma resp_sys_lseek fd o w : respects R (sys_lseek fd o w).
Proof. unfold sys_lseek. respects. Qed.
Lemma resp_sys_mmap2 a l p f fd o : respects R (sys_mmap2 a l p f fd o).
Proof. unfold sys_mmap2. respects. Qed.
Lemma resp_sys_brk b : respects R (sys_brk b).
Proof. unfold sys_brk. respects. Qed.
Lemma resp_store_fields p fs : respects R (store_fields p fs).
Proof. induction fs as [|[[]]]; simpl; respects. Qed.
#[local] Hint Resolve resp_sys_write resp_sys_lseek resp_store_fields : resp.
Lemma resp_sys_fstat64 fd a : respects R (sys_fstat64 fd a).
Proof. unfold sys_fstat64. respects. Qed.
Lemma resp_sys_sigaction sig a o n : respects R (sys_rt_sigaction sig a o n).
Proof.
  assert (forall p, respects R
    (bs ← host_load_bytes p (Z.of_nat SIZEOF_SIGACTION);
     modify (upd_kern (upd_sigactions (fun t => zset t sig bs)));; mret 0)) as Hread.
  { intros p s. unfold mbind, M_bind, host_load_bytes.
    destruct (_ && _); [|done]. simpl. constructor; [|done]. intros Hs.
    pose proof (wf_m_mem _ Hs). destruct Hs as [? ? ? []]. constructor; simpl; auto.
    constructor; simpl; try done; [by rewrite zset_length|].
    apply zset_Forall; [done|]. split; [done|].
    by apply (load_bytes_u8 (mem s) p SIZEOF_SIGACTION). }
  unfold sys_rt_sigaction. respects.
Qed.
Lemma resp_sys_sigprocmask h a o n : respects R (sys_rt_sigprocmask h a o n).
Proof. unfold sys_rt_sigprocmask. respects. Qed.
Lemma resp_sys_set_tid t : respects R (sys_set_tid_address t).
Proof. unfold sys_set_tid_address. respects. Qed.
Lemma resp_sys_writev fd a n : respects R (sys_writev fd a n).
Proof. unfold sys_writev, writev_body. respects. Qed.
Lemma resp_sys_set_thread_area a : respects R (sys_set_thread_area a).
Proof. unfold sys_set_thread_area. respects. Qed.
Lemma resp_write_words n a v : respects (guest_step (H:=H)) (write_words n a v).
Proof. revert a. induction n; intros a; simpl; respects. Qed.
#[local] Hint Resolve resp_write_words resp_sys_read resp_sys_open resp_sys_close
  resp_sys_mmap2 resp_sys_brk resp_sys_fstat64 resp_sys_sigaction resp_sys_sigprocmask
  resp_sys_set_tid resp_sys_writev resp_sys_set_thread_area : resp.

Lemma resp_dispatch_syscall : respects R dispatch_syscall.
Proof.
  unfold dispatch_syscall.
  do 7 (apply respects_bind; [exact _|eauto 2 with resp|intros ?]).
  apply switch_Forall.
  - unfold syscall_cases, ret_eax, fill_words, sys_uname, strncpy, sys_llseek,
      sys_tgkill, sys_getrandom, sys_munmap, sys_mprotect.
    repeat first [apply Forall_nil_2 | apply Forall_cons_2; [simpl snd; respects|]].
  - unfold ret_eax. respects.
Qed.
End kernel.

#[export] Hint Resolve resp_set_fd_entry resp_set_brk resp_set_gs_base resp_init_fd_table
  resp_init_mmap_arena resp_mem_size resp_dispatch_syscall resp_write_words : resp.

(** * Instructions and the emulator's loop *)

Section run.
Context {H : Type} `{HostOS H} `{FloatOps}.

#[local] Ltac prefix_steps Hexec Hg :=
  repeat match goal with
  | |- respects _ (mbind _ _) =>
      apply respects_bind; [done|first [apply Hexec|apply Hg; respects]|intros ?]
  end; apply Hg; respects.

(** Whatever preorder the recursive calls and the system calls obey, a handler obeys,
    provided every guest step does. *)
Lemma resp_call_handler (R : machine H -> machine H -> Prop) `{!PreOrder R} exec h op :
  (forall s s', guest_step s s' -> R s s') ->
  (forall o, respects R (exec o)) ->
  (h = H_int -> respects R (dispatch_syscall (H:=H))) ->
  respects R (call_handler exec call_0f h op).
Proof.
  intros HR Hexec Hint.
  assert (forall A (m : M H A), respects guest_step m -> respects R m) as Hg.
  { intros A m. by apply respects_weaken. }
  assert (forall h, respects R (call_plain h op)) as Hplain
    by (intros; apply Hg, resp_call_plain).
  destruct h; cbn [call_handler]; try (exact (Hplain _)).
  - apply respects_bind; [done|apply Hg; respects|intros; apply Hg, resp_call_plain].
  - unfold op_prefix_cs. prefix_steps Hexec Hg.
  - unfold op_prefix_gs. prefix_steps Hexec Hg.
  - unfold op_prefix_66. prefix_steps Hexec Hg.
  - unfold op_prefix_67. prefix_steps Hexec Hg.
  - unfold op_int.
    apply respects_bind; [done|apply Hg; respects|intros v].
    apply respects_bind; [done| |intros; apply Hg; respects].
    apply respects_if; [by apply Hint|apply Hg; respects].
  - unfold op_prefix_lock. prefix_steps Hexec Hg.
Qed.

Lemma resp_execute_opcode fuel op : respects (kernel_step (H:=H)) (execute_opcode fuel op).
Proof.
  revert op. induction fuel as [|fuel IH]; intros op; cbn [execute_opcode];
    (apply resp_call_handler;
     [exact _|apply guest_kernel_step|first [exact IH|done]|]);
    intros _; apply resp_dispatch_syscall.
Qed.

Lemma resp_set_last_eip e :
  respects (guest_step (H:=H)) (modify (upd_mem (set_last_eip e))).
Proof.
  apply respects_modify. intros s. apply guest_upd_mem; [done|]. intros []. by constructor.
Qed.

#[local] Hint Resolve resp_execute_opcode resp_set_last_eip : resp.
Lemma resp_emulate_body pf : respects (kernel_step (H:=H)) (emulate_body pf).
Proof. unfold emulate_body. respects. Qed.

Lemma resp_emulate fuel pf : respects (kernel_step (H:=H)) (emulate fuel pf).
Proof.
  pose proof resp_emulate_body as Hb.
  induction fuel as [|fuel IH]; cbn [emulate]; [done|].
  apply respects_bind; [exact _|apply Hb|]. intros []; [exact IH|respects].
Qed.
End run.
