(* ===== verification/Invariant.v ===== *)
(** The invariant of the whole program: from start to end, in every state the emulator
    reaches, the machine is well-formed. *)
From S2P Require Import Prelude CInt Machine Logic Mem Flags ModRM OpsFpu Backend Toy.
From S2P Require Import Syscall Dispatch Loader Main Safety.

Section loader.
Context {H : Type}.
Abbreviation R := (guest_step (H:=H)).

Lemma resp_put_words w vs : respects R (put_words w vs).
Proof. revert w. induction vs; intros w; simpl; unfold put32; respects. Qed.
Lemma resp_zero_segment v m : respects R (zero_segment v m).
Proof. unfold zero_segment, zero_body. respects. Qed.
Lemma resp_copy_segment f n v : respects R (copy_segment f n v).
Proof. unfold copy_segment, copy_body. respects. Qed.
Lemma resp_mem_size_guest : respects R mem_size.
Proof. apply respects_gets. exact _. Qed.
#[local] Hint Resolve resp_put_words resp_zero_segment resp_copy_segment
  resp_mem_size_guest : resp.
Lemma resp_load_segment e i st : respects R (load_segment e i st).
Proof. unfold load_segment. cbv zeta. respects. Qed.
#[local] Hint Resolve resp_load_segment : resp.
Lemma resp_load_segments n e i st : respects R (load_segments n e i st).
Proof. revert i st. induction n; intros i st; simpl; respects. Qed.
Lemma resp_copy_strings p strs : respects R (copy_strings p strs).
Proof. revert p. induction strs; intros p; simpl; respects. Qed.
#[local] Hint Resolve resp_load_segments resp_copy_strings : resp.
Lemma resp_build_stack e a argv : respects R (build_stack e a argv).
Proof. unfold build_stack. respects. Qed.
#[local] Hint Resolve resp_build_stack : resp.
Lemma resp_load_elf f argv : respects R (load_elf f argv).
Proof. unfold load_elf. cbv zeta. respects. Qed.
Lemma resp_write_stub : respects R write_stub.
Proof. unfold write_stub. respects. Qed.
Lemma resp_zero_below n b i : respects R (zero_below n b i).
Proof. revert i. induction n; intros i; simpl; respects. Qed.
End loader.

#[export] Hint Resolve resp_load_elf resp_write_stub resp_zero_below : resp.

(** One turn of the loop of [emulate], as a step relation. *)
Definition estep {H} `{HostOS H} `{FloatOps} (pf : nat) (s s' : machine H) : Prop :=
  runs (emulate_body pf) s (inl tt) s'.

Section invariant.
Context {H : Type} `{HostOS H} `{FloatOps}.
Implicit Types s : machine H.

Lemma resp_setup_tls e : respects (kernel_step (H:=H)) (setup_tls e).
Proof. unfold setup_tls. respects. Qed.
#[local] Hint Resolve resp_setup_tls : resp.

(** The part of [boot] after the memory and the processor are set up. *)
Definition boot_rest (file : option (list Z)) (argv : list (list Z)) : M H bool :=
  write_stub;;
  r ← load_elf file argv;
  match r with
  | None => mret false
  | Some info =>
      init_brk (li_load_end info);;
      setup_tls (li_load_end info);;
      init_mmap_arena (mmap_arena_start (li_load_end info));;
      mret true
  end.

Lemma resp_boot_rest file argv : respects (kernel_step (H:=H)) (boot_rest file argv).
Proof. unfold boot_rest, init_brk. respects. Qed.

(** The machine after [init_mem], [init_fd_table] and [init_cpu]. *)
Definition machine1 (size : Z) (h : H) : machine H :=
  mk_machine (mk_i386 (replicate 8 0) 0 0x2 0 0) (mk_guest_mem ∅ size 0)
    (og (machine0 h))
    (upd_fd_table (fun _ => [mk_fd 1 0; mk_fd 1 1; mk_fd 1 2] ++ replicate 253 (mk_fd 0 0))
       (kern (machine0 h)))
    h.

Lemma boot_machine1 size file argv h :
  boot size file argv (machine0 h) = boot_rest file argv (machine1 size h).
Proof. reflexivity. Qed.

Lemma wf_machine1 size h : 0 <= size < 0x100000000 -> wf (machine1 size h).
Proof.
  intros Hz. constructor; cbn [machine1 cpu mem og kern machine0].
  - constructor; try done; [by apply (Forall_replicate _ 8 0)| |by left].
    constructor; [done|done|]. intros i Hi Hf. cbn [eflags]. change 0x2 with (2 ^ 1).
    rewrite Z.pow2_bits_eqb by lia. unfold flag_bit in Hf. lia.
  - by constructor.
  - apply wf_toy_og.
  - apply (wf_kern_zeros _ 0 0 0); done.
Qed.

(** C9: the invariant of the emulator.  For every executable file, argument vector, host
    and guest-memory size below 4 GiB: in every state reached from a successful boot by
    turns of the loop of [emulate], and in the state left by the next turn (also one that
    ends in [exit]), the machine is well-formed - eight 32-bit registers, EIP a 32-bit
    word, EFLAGS with bit 1 set and no bit outside CF, PF, ZF, SF and OF, valid FPU, MMX,
    SSE, descriptor and signal state, every byte the guest has written a byte inside the
    allocation - and guest memory keeps its size. *)
Theorem emulator_invariant size file argv pf h s0 s :
  0 <= size < 0x100000000 ->
  runs (boot size file argv) (machine0 h) true s0 -> rtc (estep pf) s0 s ->
  wf s /\ g_size (mem s) = size /\
  match emulate_body pf s with
  | Ret _ s' | Exited _ s' => wf s' /\ g_size (mem s') = size
  | Undef _ | NoFuel => True
  end.
Proof.
  intros Hz Hb Hr. unfold runs in Hb. rewrite boot_machine1 in Hb.
  pose proof (respects_run _ _ _ _ _ (resp_boot_rest file argv) Hb) as [W0 Z0].
  specialize (W0 (wf_machine1 size h Hz)). simpl in Z0.
  assert (wf s /\ g_size (mem s) = size) as [W Z].
  { clear Hb. induction Hr as [|s1 s2 s3 E _ IH]; [done|].
    pose proof (respects_run _ _ _ _ _ (resp_emulate_body pf) E) as [W1 Z1].
    apply IH; [by apply W1|by rewrite Z1]. }
  split; [done|]. split; [done|]. pose proof (resp_emulate_body pf s) as Hs.
  destruct (emulate_body pf s); try done; destruct Hs as [W1 Z1]; split; auto; by rewrite Z1.
Qed.

(** ** The loop of [emulate] as reachability *)

Lemma emulate_body_halted pf s : halted (cpu s) <> 0 ->
  emulate_body pf s = Ret (inr tt) s.
Proof.
  intros Hh. unfold emulate_body, mbind, M_bind, gets.
  by rewrite (proj2 (Z.eqb_neq _ _) Hh).
Qed.

Lemma emulate_body_running pf s r s' : halted (cpu s) = 0 ->
  emulate_body pf s = Ret r s' -> r = inl tt.
Proof.
  intros Hh. unfold emulate_body. unfold mbind at 1, M_bind at 1, gets at 1. rewrite Hh.
  cbn [Z.eqb negb]. unfold mbind, M_bind. intros E.
  repeat (case_match; try discriminate). by injection E as <- _.
Qed.

Lemma estep_running pf s s' : estep pf s s' -> halted (cpu s) = 0.
Proof.
  unfold estep, runs. intros E. destruct (Z.eq_dec (halted (cpu s)) 0) as [|Hh]; [done|].
  by rewrite emulate_body_halted in E.
Qed.

(** [emulate] runs its loop until the processor halts.  It returns in state [s']
    within its fuel exactly when [s'] is halted and is reached from [s] by fewer turns than
    the fuel, each from a running state; so the result does not depend on the fuel once
    it suffices. *)
Lemma emulate_reaches fuel pf s s' :
  runs (emulate fuel pf) s tt s' <->
  exists n, (n < fuel)%nat /\ nsteps (estep pf) n s s' /\ halted (cpu s') <> 0.
Proof.
  revert s. induction fuel as [|fuel IH]; intros s.
  { split; [done|]. intros (n & Hn & _). lia. }
  cbn [emulate]. unfold runs. unfold mbind, M_bind.
  destruct (Z.eq_dec (halted (cpu s)) 0) as [Hh|Hh].
  - destruct (emulate_body pf s) as [r s1|st s1|u|] eqn:E.
    + rewrite (emulate_body_running _ _ _ _ Hh E) in E |- *. rewrite (IH s1). split.
      * intros (n & Hn & Hs & Hz). exists (S n). split; [lia|].
        split; [by eapply nsteps_l|done].
      * intros (n & Hn & Hs & Hz). inversion Hs as [|m x y z E1 E2]; subst; [done|].
        unfold estep, runs in E1. rewrite E in E1. injection E1 as <-.
        exists m. split; [lia|done].
    + split; [done|]. intros (n & Hn & Hs & Hz). inversion Hs as [|m x y z E1 E2]; subst; [done|].
      unfold estep, runs in E1. by rewrite E in E1.
    + split; [done|]. intros (n & Hn & Hs & Hz). inversion Hs as [|m x y z E1 E2]; subst; [done|].
      unfold estep, runs in E1. by rewrite E in E1.
    + split; [done|]. intros (n & Hn & Hs & Hz). inversion Hs as [|m x y z E1 E2]; subst; [done|].
      unfold estep, runs in E1. by rewrite E in E1.
  - rewrite emulate_body_halted by done. split.
    + intros [= <-]. exists O. split; [lia|]. split; [constructor|done].
    + intros (n & Hn & Hs & Hz). inversion Hs as [|m x y z E1 E2]; subst; [done|].
      by apply estep_running in E1.
Qed.
End invariant.

(** The small executable in 64 KiB, after its first instruction. *)
Lemma emulator_invariant_witness :
  let h := machine0 (H:=list Z) [] in
  let s0 := state_of (boot 0x10000 (Some hello_elf) hello_argv h) h in
  let s1 := state_of (emulate_body 0 s0) h in
  wf s1 /\ g_size (mem s1) = 0x10000 /\ zget (regs (cpu s1)) REG_EAX = 4.
Proof.
  intros h s0 s1.
  destruct (emulator_invariant 0x10000 (Some hello_elf) hello_argv 0 [] s0 s1) as (W & Z & _).
  - lia.
  - apply runs_state_of. vm_compute. reflexivity.
  - eapply rtc_l; [|apply rtc_refl]. apply runs_state_of. vm_compute. reflexivity.
  - split; [exact W|]. split; [exact Z|]. vm_compute. reflexivity.
Defined.
