(* ===== verification/Exec.v ===== *)
(** Symbolic execution of the operand helpers: what the primitives, the fetches and the
    8-bit register accesses do to a well-formed machine, as equations for the [run]
    tactic. *)
From S2P Require Import Prelude CInt Machine Logic Mem Flags ModRM OpsMove.

Section state.
Context {H : Type}.
Implicit Types s : machine H.

(** ** Views and updates of the state *)

Definition rget s (r : Z) : Z := zget (regs (cpu s)) r.
Definition rset (r v : Z) s : machine H := upd_cpu (upd_regs (fun l => zset l r (u32 v))) s.
Definition with_eip (v : Z) s : machine H := upd_cpu (upd_eip (fun _ => u32 v)) s.
Definition retire (k : Z) s : machine H := upd_cpu (upd_cycles (fun c => c + k)) s.
Definition with_seg (v : Z) s : machine H := upd_og (upd_seg_override (u32 v)) s.
Definition seg s : Z := g_seg_override (og s).

(** No overflow of the [int] cycle counter in the next [k] cycles. *)
Definition cycles_ok (k : Z) s : Prop := cycles (cpu s) + k <= INT_MAX.

(** ** Registers *)

Lemma rget_u32 s r : wf s -> 0 <= r < 8 -> is_u32 (rget s r).
Proof.
  intros Hs Hr. unfold rget. apply zget_Forall; [apply Hs|].
  rewrite (wf_regs_length _ (wf_m_cpu _ Hs)). lia.
Qed.

Lemma rget_rset_eq s r v : wf s -> 0 <= r < 8 -> rget (rset r v s) r = u32 v.
Proof.
  intros Hs Hr. unfold rget, rset. simpl. apply zget_zset_eq.
  rewrite (wf_regs_length _ (wf_m_cpu _ Hs)). lia.
Qed.

Lemma rget_rset_ne s r r' v : 0 <= r -> 0 <= r' -> r <> r' ->
  rget (rset r v s) r' = rget s r'.
Proof. intros. unfold rget, rset. simpl. by apply zget_zset_ne. Qed.

Lemma with_seg_same s : seg s = 0 -> with_seg 0 s = s.
Proof.
  destruct s as [c m o k h], o. unfold seg, with_seg, upd_og, upd_seg_override. simpl.
  by intros ->.
Qed.

Lemma with_eip_same s : wf s -> with_eip (eip (cpu s)) s = s.
Proof.
  intros Hs. destruct s as [c m o k h], c. unfold with_eip, upd_cpu, upd_eip. simpl.
  rewrite u32_small; [done|]. apply (wf_eip _ (wf_m_cpu _ Hs)).
Qed.

Lemma with_eip_eip v w s : with_eip v (with_eip w s) = with_eip v s.
Proof. done. Qed.

(** ** Primitive steps *)

Lemma runs_reg r s : runs (reg r) s (rget s r) s.
Proof. done. Qed.
Lemma runs_set_reg r v s : runs (set_reg r v) s tt (rset r v s).
Proof. done. Qed.
Lemma runs_get_eip s : runs get_eip s (eip (cpu s)) s.
Proof. done. Qed.
Lemma runs_set_eip v s : runs (set_eip v) s tt (with_eip v s).
Proof. done. Qed.
Lemma runs_get_og {A} (f : ops_globals -> A) s : runs (get_og f) s (f (og s)) s.
Proof. done. Qed.
Lemma runs_set_seg v s : runs (set_seg_override v) s tt (with_seg v s).
Proof. done. Qed.
Lemma runs_retire k s :
  wf s -> 0 <= k -> cycles_ok k s -> runs (add_cycles k) s tt (retire k s).
Proof.
  intros Hs Hk Hc. apply runs_add_cycles. apply fits_int_spec.
  pose proof (wf_cycles _ (wf_m_cpu _ Hs)). unfold cycles_ok, is_int in *. lia.
Qed.

(** ** Fetches *)

Lemma runs_fetch8 s : wf s ->
  runs fetch8 s (rd8 (mem s) (eip (cpu s))) (with_eip (eip (cpu s) + 1) s).
Proof.
  intros Hs. pose proof (wf_eip _ (wf_m_cpu _ Hs)) as He. unfold is_u32 in He.
  unfold fetch8. eapply runs_bind; [apply runs_get_eip|].
  eapply runs_bind; [apply runs_set_eip|].
  eapply runs_eq; [apply runs_mem_read8; lia|done|done].
Qed.

Lemma runs_fetch16 s : wf s ->
  runs fetch16 s (rd16 (mem s) (eip (cpu s))) (with_eip (eip (cpu s) + 2) s).
Proof.
  intros Hs. pose proof (wf_eip _ (wf_m_cpu _ Hs)) as He. unfold is_u32 in He.
  unfold fetch16. eapply runs_bind; [apply runs_get_eip|].
  eapply runs_bind; [apply runs_mem_read16; [apply Hs|lia]|].
  eapply runs_bind; [apply runs_set_eip|apply runs_ret].
Qed.

Lemma runs_fetch32 s : wf s ->
  runs fetch32 s (rd32 (mem s) (eip (cpu s))) (with_eip (eip (cpu s) + 4) s).
Proof.
  intros Hs. pose proof (wf_eip _ (wf_m_cpu _ Hs)) as He. unfold is_u32 in He.
  unfold fetch32. eapply runs_bind; [apply runs_get_eip|].
  eapply runs_bind; [apply runs_mem_read32; [apply Hs|lia]|].
  eapply runs_bind; [apply runs_set_eip|apply runs_ret].
Qed.

(** ** Well-formedness along an execution *)

Lemma wf_run {A} (m : M H A) s a s' :
  wf s -> respects guest_step m -> runs m s a s' -> wf s'.
Proof. intros Hs Hm Hr. by apply (respects_run _ _ _ _ _ Hm Hr). Qed.

Lemma wf_with_eip v s : wf s -> wf (with_eip v s).
Proof. intros Hs. by eapply wf_run; [| |apply runs_set_eip]; eauto with resp. Qed.
Lemma wf_rset r v s : wf s -> wf (rset r v s).
Proof. intros Hs. by eapply wf_run; [| |apply runs_set_reg]; eauto with resp. Qed.
Lemma wf_with_seg v s : wf s -> wf (with_seg v s).
Proof. intros Hs. by eapply wf_run; [| |apply runs_set_seg]; eauto with resp. Qed.
Lemma wf_wr8 a v s : wf s -> 0 <= a -> wf (upd_mem (wr8 a v) s).
Proof. intros Hs Ha. by eapply wf_run; [| |apply runs_mem_write8]; eauto with resp. Qed.
Lemma wf_wr32 a v s : wf s -> 0 <= a -> wf (upd_mem (wr32 a v) s).
Proof.
  intros Hs Ha. eapply wf_run; [done| |apply runs_mem_write32; [apply Hs|done]].
  eauto with resp.
Qed.
Lemma wf_retire k s : wf s -> 0 <= k -> cycles_ok k s -> wf (retire k s).
Proof. intros Hs Hk Hc. by eapply wf_run; [| |by apply runs_retire]; eauto with resp. Qed.
Lemma wf_put_flag n c s :
  0 <= n < 32 -> n <> 1 -> flag_bit n = true -> wf s -> wf (put_flag_st n c s).
Proof.
  intros Hn H1 Hf Hs. eapply wf_run; [done| |apply runs_put_flag].
  by apply resp_put_flag.
Qed.
End state.

#[export] Hint Resolve wf_with_eip wf_rset wf_with_seg wf_wr8 wf_wr32 : wf.
#[export] Hint Resolve runs_reg runs_set_reg runs_get_eip runs_set_eip runs_get_og
  runs_set_seg : run.
#[export] Hint Extern 2 (runs fetch8 _ _ _) =>
  apply runs_fetch8; solve [auto with wf] : run.
#[export] Hint Extern 2 (runs fetch16 _ _ _) =>
  apply runs_fetch16; solve [auto with wf] : run.
#[export] Hint Extern 2 (runs fetch32 _ _ _) =>
  apply runs_fetch32; solve [auto with wf] : run.
