(* ===== verification/Decode.v ===== *)
(** Operand decoding against the architecture's addressing forms.

    [operand] is the abstract syntax of an r/m operand (a register, or base + index *
    2^scale + displacement), [ea] its effective address and [encode] its encoding as ModR/M,
    SIB and displacement bytes (Intel SDM vol. 2, 2.1).  The lemmas show that
    [parse_modrm] followed by [resolve_rm_addr] inverts the encoding. *)
From S2P Require Import Prelude CInt Machine Logic Mem Flags ModRM OpsMove Backend Toy.
From S2P Require Import Exec.

Inductive operand :=
| OReg (r : Z)
| OMem (base : option Z) (index : option (Z * Z)) (d : Z).

(** Registers are numbered 0-7; ESP cannot be an index; the scale is an exponent. *)
Definition operand_ok (o : operand) : Prop :=
  match o with
  | OReg r => 0 <= r < 8
  | OMem b ix d =>
      (forall r, b = Some r -> 0 <= r < 8) /\
      (forall r k, ix = Some (r, k) -> 0 <= r < 8 /\ r <> 4 /\ 0 <= k < 4) /\ is_u32 d
  end.

(** The three fields of a ModR/M or SIB byte. *)
Definition fields_byte (a b c : Z) : Z := a * 64 + b * 8 + c.

(** Mod field and bytes of a displacement from base register [b]. *)
Definition disp_form (b d : Z) : Z * list Z :=
  if (d =? 0) && negb (b =? 5) then (0, [])
  else if (d <? 0x80) || (0xFFFFFF80 <=? d) then (1, le_bytes 1 d)
  else (2, le_bytes 4 d).

(** The ModR/M byte with register field [rg], and what follows it. *)
Definition encode (rg : Z) (o : operand) : list Z :=
  match o with
  | OReg r => [fields_byte 3 rg r]
  | OMem None None d => fields_byte 0 rg 5 :: le_bytes 4 d
  | OMem None (Some (i, k)) d => fields_byte 0 rg 4 :: fields_byte k i 5 :: le_bytes 4 d
  | OMem (Some b) None d =>
      let '(md, ds) := disp_form b d in
      if b =? 4 then fields_byte md rg 4 :: fields_byte 0 4 4 :: ds
      else fields_byte md rg b :: ds
  | OMem (Some b) (Some (i, k)) d =>
      let '(md, ds) := disp_form b d in
      fields_byte md rg 4 :: fields_byte k i b :: ds
  end.

Section decode.
Context {H : Type}.
Implicit Types s : machine H.

(** The effective address of a memory operand, before the segment base. *)
Definition ea s (b : option Z) (ix : option (Z * Z)) (d : Z) : Z :=
  u32 (match b with Some r => rget s r | None => 0 end
       + match ix with Some (r, k) => rget s r * 2 ^ k | None => 0 end + d).

(** The bytes [bs] are the next ones to be fetched. *)
Definition code_at s (bs : list Z) : Prop :=
  load_bytes (mem s) (eip (cpu s)) (length bs) = bs /\
  eip (cpu s) + Z.of_nat (length bs) <= g_size (mem s).
(** EIP past [n] bytes. *)
Definition advance (n : nat) s : machine H := with_eip (eip (cpu s) + Z.of_nat n) s.

(** ** Fetching known code *)

Lemma with_eip_u32 v k s : with_eip (u32 v + k) s = with_eip (v + k) s.
Proof. unfold with_eip, upd_cpu, upd_eip. by rewrite u32_add_l. Qed.

Lemma advance_advance m n s : advance n (advance m s) = advance (m + n) s.
Proof.
  unfold advance. simpl. rewrite with_eip_u32.
  change (with_eip ?v (with_eip ?w s)) with (with_eip v s). f_equal. lia.
Qed.

Lemma wf_advance n s : wf s -> wf (advance n s).
Proof. apply wf_with_eip. Qed.
#[local] Hint Resolve wf_advance : wf.

Lemma advance_0 s : wf s -> advance 0 s = s.
Proof. intros Hs. unfold advance. simpl. rewrite Z.add_0_r. by apply with_eip_same. Qed.

Lemma code_at_eip_small s bs : wf s -> code_at s bs ->
  u32 (eip (cpu s) + Z.of_nat (length bs)) = eip (cpu s) + Z.of_nat (length bs).
Proof.
  intros Hs [_ Hl]. pose proof (wf_size _ (wf_m_mem _ Hs)).
  pose proof (wf_eip _ (wf_m_cpu _ Hs)) as He. unfold is_u32 in He.
  apply u32_small. unfold is_u32. lia.
Qed.

Lemma code_at_app s bs1 bs2 : wf s -> code_at s (bs1 ++ bs2) ->
  code_at s bs1 /\ code_at (advance (length bs1) s) bs2.
Proof.
  intros Hs [Hl Hr]. rewrite length_app in *. rewrite load_bytes_app in Hl.
  apply app_inj_1 in Hl as [Hl1 Hl2]; [|apply load_bytes_length].
  assert (code_at s bs1) as H1 by (split; [done|lia]). split; [done|].
  pose proof (code_at_eip_small _ _ Hs H1) as E.
  split; unfold advance; simpl; rewrite E; [done|lia].
Qed.

Lemma code_at_fetch8 s b : wf s -> code_at s [b] -> runs fetch8 s b (advance 1 s).
Proof.
  intros Hs [Hl Hr]. eapply runs_eq; [by apply runs_fetch8| |done].
  unfold rd8, in_range. simpl in *. injection Hl as ->. by bif.
Qed.

Lemma code_at_fetch32 s d : wf s -> is_u32 d -> code_at s (le_bytes 4 d) ->
  runs fetch32 s d (advance 4 s).
Proof.
  intros Hs Hd [Hl Hr]. rewrite le_bytes_length in *.
  eapply runs_eq; [by apply runs_fetch32| |done].
  unfold rd32, in_range. bif. rewrite Hl, le_value_bytes. by apply u32_small.
Qed.

(** ** The fields of the ModR/M byte *)

Lemma fields_byte_split a b c : 0 <= a < 4 -> 0 <= b < 8 -> 0 <= c < 8 ->
  Z.land (Z.shiftr (fields_byte a b c) 6) 3 = a /\
  Z.land (Z.shiftr (fields_byte a b c) 3) 7 = b /\ Z.land (fields_byte a b c) 7 = c.
Proof.
  intros. unfold fields_byte. change 3 with (Z.ones 2) at 1. change 7 with (Z.ones 3).
  rewrite !Z.land_ones, !Z.shiftr_div_pow2 by lia.
  change (2 ^ 6) with 64. change (2 ^ 2) with 4. change (2 ^ 3) with 8.
  repeat split; Z.div_mod_to_equations; lia.
Qed.

(** ** The displacement *)

(** The part of [parse_modrm] that reads the displacement. *)
Definition disp_part (md rm hs bs : Z) : M H (Z * Z) :=
  if md =? 1 then b ← fetch8; mret (1, u32 (s8 b))
  else if md =? 2 then d ← fetch32; mret (1, d)
  else if md =? 0 then
    if (rm =? 5) || (negb (hs =? 0) && (bs =? 5)) then d ← fetch32; mret (1, d)
    else mret (0, 0)
  else mret (0, 0).

(** A displacement [d] was decoded as the pair [(hd, d')]. *)
Definition disp_means (hd d' d : Z) : Prop :=
  (if negb (hd =? 0) then d' else 0) = d.

Lemma s8_u8_disp d : is_u32 d -> d < 0x80 \/ 0xFFFFFF80 <= d -> u32 (s8 (u8 d)) = d.
Proof. intros. cint. Qed.

Lemma runs_disp32 s rm hs bs d : wf s -> is_u32 d ->
  (rm =? 5) || (negb (hs =? 0) && (bs =? 5)) = true ->
  code_at s (le_bytes 4 d) -> runs (disp_part 0 rm hs bs) s (1, d) (advance 4 s).
Proof.
  intros Hs Hd Hb Hc. unfold disp_part. simpl. rewrite Hb.
  eapply runs_bind; [by apply code_at_fetch32|apply runs_ret].
Qed.

Lemma runs_disp_form s rm hs bs b d : wf s -> is_u32 d ->
  (b <> 5 -> (rm =? 5) || (negb (hs =? 0) && (bs =? 5)) = false) ->
  code_at s (disp_form b d).2 ->
  exists hd d', disp_means hd d' d /\
    runs (disp_part (disp_form b d).1 rm hs bs) s (hd, d')
      (advance (length (disp_form b d).2) s).
Proof.
  intros Hs Hd Hb. unfold disp_form.
  destruct ((d =? 0) && negb (b =? 5)) eqn:E0; cbn [fst snd].
  - intros _. assert (b <> 5 /\ d = 0) as [Hb5 ->] by (clear Hb; lia).
    exists 0, 0. split; [done|]. unfold disp_part. simpl. rewrite Hb by done. rewrite advance_0 by done. apply runs_ret.
  - destruct ((d <? 0x80) || (0xFFFFFF80 <=? d)) eqn:E1; cbn [fst snd]; intros Hc.
    + exists 1, d. split; [done|]. unfold disp_part. simpl in *.
      eapply runs_bind; [by apply code_at_fetch8|].
      rewrite s8_u8_disp by (done || lia). apply runs_ret.
    + exists 1, d. split; [done|]. unfold disp_part. simpl Z.eqb. cbv iota.
      eapply runs_bind; [by apply code_at_fetch32|]. rewrite le_bytes_length.
      apply runs_ret.
Qed.

Lemma disp_form_mod b d : 0 <= (disp_form b d).1 < 3.
Proof. unfold disp_form. repeat case_match; simpl; lia. Qed.

(** ** The ModR/M structure *)

(** The fields of [m] describe the operand [o]. *)
Definition modrm_means (m : ModRM) (o : operand) : Prop :=
  match o with
  | OReg r => mrm_mod m = 3 /\ mrm_rm m = r
  | OMem b ix d =>
      mrm_mod m <> 3 /\ disp_means (has_disp m) (disp m) d /\
      if has_sib m =? 0 then
        ix = None /\
        b = (if (mrm_mod m =? 0) && (mrm_rm m =? 5) then None else Some (mrm_rm m))
      else
        ix = (if negb (sib_index m =? 4) then Some (sib_index m, sib_scale m) else None) /\
        b = (if (sib_base m =? 5) && (mrm_mod m =? 0) then None else Some (sib_base m))
  end.

Lemma runs_parse_reg s rg r : wf s -> 0 <= rg < 8 -> 0 <= r < 8 ->
  code_at s [fields_byte 3 rg r] ->
  runs parse_modrm s (mk_modrm 3 rg r 0 0 0 0 0 0) (advance 1 s).
Proof.
  intros Hs Hrg Hr Hc. unfold parse_modrm.
  destruct (fields_byte_split 3 rg r) as (E1 & E2 & E3); [lia..|].
  eapply runs_bind; [by apply code_at_fetch8|]. cbv zeta. rewrite E1, E2, E3.
  apply runs_ret.
Qed.

Lemma runs_parse_nosib s md rg rm hd d' s' :
  wf s -> 0 <= md < 3 -> 0 <= rg < 8 -> 0 <= rm < 8 -> rm <> 4 ->
  code_at s [fields_byte md rg rm] ->
  runs (disp_part md rm 0 0) (advance 1 s) (hd, d') s' ->
  runs parse_modrm s (mk_modrm md rg rm 0 hd d' 0 0 0) s'.
Proof.
  intros Hs Hmd Hrg Hrm H4 Hc Hd. unfold parse_modrm.
  destruct (fields_byte_split md rg rm) as (E1 & E2 & E3); [lia..|].
  eapply runs_bind; [by apply code_at_fetch8|]. cbv zeta. rewrite E1, E2, E3.
  btest (md =? 3). btest (rm =? 4).
  eapply runs_bind; [apply runs_ret|]. cbv iota.
  eapply runs_bind; [exact Hd|apply runs_ret].
Qed.

Lemma runs_parse_sib s md rg k i b hd d' s' :
  wf s -> 0 <= md < 3 -> 0 <= rg < 8 -> 0 <= k < 4 -> 0 <= i < 8 -> 0 <= b < 8 ->
  code_at s [fields_byte md rg 4; fields_byte k i b] ->
  runs (disp_part md 4 1 b) (advance 2 s) (hd, d') s' ->
  runs parse_modrm s (mk_modrm md rg 4 1 hd d' b i k) s'.
Proof.
  intros Hs Hmd Hrg Hk Hi Hb Hc Hd. unfold parse_modrm.
  destruct (fields_byte_split md rg 4) as (E1 & E2 & E3); [lia..|].
  destruct (fields_byte_split k i b) as (F1 & F2 & F3); [lia..|].
  apply (code_at_app s [_] [_]) in Hc as [Hc1 Hc2]; [|done].
  eapply runs_bind; [by apply code_at_fetch8|]. cbv zeta. rewrite E1, E2, E3.
  btest (md =? 3). btest (4 =? 4).
  eapply runs_bind.
  { eapply runs_bind; [apply code_at_fetch8; [auto with wf|exact Hc2]|].
    cbv beta. rewrite F1, F2, F3. apply runs_ret. }
  cbv iota. rewrite advance_advance.
  eapply runs_bind; [exact Hd|apply runs_ret].
Qed.

(** [parse_modrm] inverts [encode]. *)
Lemma parse_encode s rg o :
  wf s -> 0 <= rg < 8 -> operand_ok o -> code_at s (encode rg o) ->
  exists m, mrm_reg m = rg /\ modrm_means m o /\
    runs parse_modrm s m (advance (length (encode rg o)) s).
Proof.
  intros Hs Hrg Ho Hc. destruct o as [r|[b|] [[i k]|] d]; cbn [encode operand_ok] in *.
  - eexists. split; [|split; [|by apply (runs_parse_reg s rg r)]]; done.
  - destruct Ho as (Hb & Hi & Hd). specialize (Hb b eq_refl).
    specialize (Hi i k eq_refl) as (Hi & Hi4 & Hk).
    destruct (disp_form b d) as [md ds] eqn:Ed.
    apply (code_at_app s [_; _] ds) in Hc as [Hc1 Hc2]; [|done].
    pose proof (disp_form_mod b d) as Hmd. rewrite Ed in Hmd. simpl in Hmd.
    destruct (runs_disp_form (advance 2 s) 4 1 b b d) as (hd & d' & Hm & Hr);
      [auto with wf|done|intros; simpl; lia|by rewrite Ed|].
    rewrite Ed, advance_advance in Hr.
    eexists. split; [|split; [|by apply (runs_parse_sib s md rg k i b hd d')]]; [done|].
    cbn. split; [lia|]. split; [done|]. split; [by bif|].
    unfold disp_form in Ed. destruct (Z.eqb_spec b 5), (Z.eqb_spec md 0); try done.
    rewrite andb_false_r in Ed. case_match; simplify_eq.
  - destruct Ho as (Hb & _ & Hd). specialize (Hb b eq_refl).
    destruct (disp_form b d) as [md ds] eqn:Ed.
    pose proof (disp_form_mod b d) as Hmd. rewrite Ed in Hmd. simpl in Hmd.
    destruct (Z.eqb_spec b 4) as [->|Hb4].
    + apply (code_at_app s [_; _] ds) in Hc as [Hc1 Hc2]; [|done].
      destruct (runs_disp_form (advance 2 s) 4 1 4 4 d) as (hd & d' & Hm & Hr);
        [auto with wf|done|done|by rewrite Ed|].
      rewrite Ed, advance_advance in Hr.
      eexists. split; [|split; [|by apply (runs_parse_sib s md rg 0 4 4 hd d')]]; [done|].
      cbn. repeat split; [lia|done].
    + apply (code_at_app s [_] ds) in Hc as [Hc1 Hc2]; [|done].
      destruct (runs_disp_form (advance 1 s) b 0 0 b d) as (hd & d' & Hm & Hr);
        [auto with wf|done|intros; simpl; lia|by rewrite Ed|].
      rewrite Ed, advance_advance in Hr.
      eexists. split; [|split; [|by apply (runs_parse_nosib s md rg b hd d')]]; [done|].
      cbn. split; [lia|]. split; [done|]. split; [done|].
      unfold disp_form in Ed. destruct (Z.eqb_spec b 5), (Z.eqb_spec md 0); try done.
      rewrite andb_false_r in Ed. case_match; simplify_eq.
  - destruct Ho as (_ & Hi & Hd). specialize (Hi i k eq_refl) as (Hi & Hi4 & Hk).
    apply (code_at_app s [_; _] (le_bytes 4 d)) in Hc as [Hc1 Hc2]; [|done].
    pose proof (runs_disp32 (advance 2 s) 4 1 5 d) as Hr.
    eexists. split; [|split; [|apply (runs_parse_sib s 0 rg k i 5 1 d); try done]].
    3: { rewrite advance_advance in Hr. by apply Hr; [auto with wf|..]. }
    + done.
    + cbn. repeat split; [done|by bif].
  - destruct Ho as (_ & _ & Hd).
    apply (code_at_app s [_] (le_bytes 4 d)) in Hc as [Hc1 Hc2]; [|done].
    pose proof (runs_disp32 (advance 1 s) 5 0 0 d) as Hr.
    eexists. split; [|split; [|apply (runs_parse_nosib s 0 rg 5 1 d); try done]].
    3: { rewrite advance_advance in Hr. by apply Hr; [auto with wf|..]. }
    + done.
    + done.
Qed.

(** [resolve_rm_addr] computes the effective address, adds the segment override and
    clears it. *)
Lemma runs_resolve s m b ix d : modrm_means m (OMem b ix d) ->
  (forall r k, ix = Some (r, k) -> 0 <= k) ->
  runs (resolve_rm_addr m) s (u32 (ea s b ix d + seg s)) (with_seg 0 s).
Proof.
  intros (H3 & Hd & Hf) Hk. unfold resolve_rm_addr. btest (mrm_mod m =? 3).
  assert (exists a, runs
    (if negb (has_sib m =? 0)
     then
      addr ← (if (sib_base m =? 5) && (mrm_mod m =? 0) then mret 0 else reg (sib_base m));
      (if negb (sib_index m =? 4)
       then ix ← reg (sib_index m); mret (u32 (addr + u32 (Z.shiftl ix (sib_scale m))))
       else mret addr)
     else if (mrm_mod m =? 0) && (mrm_rm m =? 5) then mret 0 else reg (mrm_rm m)) s a s
    /\ u32 (a + d) = ea s b ix d) as (a & Hr & Ha).
  { unfold ea. destruct (has_sib m =? 0); cbn [negb]; destruct Hf as [-> ->].
    - destruct (_ && _); eexists; (split; [apply runs_reg || apply runs_ret|]);
        f_equal; lia.
    - set (bv := if (sib_base m =? 5) && (mrm_mod m =? 0) then 0 else rget s (sib_base m)).
      assert (runs (if (sib_base m =? 5) && (mrm_mod m =? 0) then mret 0
                    else reg (sib_base m)) s bv s) as Hb
        by (unfold bv; destruct (_ && _); [apply runs_ret|apply runs_reg]).
      replace (match _ with Some r => rget s r | None => 0 end) with bv
        by (unfold bv; by destruct (_ && _)).
      destruct (negb (sib_index m =? 4)); eexists.
      + split; [do 2 (eapply runs_bind; [try exact Hb; apply runs_reg|]); apply runs_ret|].
        rewrite u32_add_r, u32_add_l, Z.shiftl_mul_pow2 by eauto. done.
      + split; [eapply runs_bind; [exact Hb|apply runs_ret]|]. f_equal. lia. }
  eapply runs_bind; [exact Hr|]. cbv zeta.
  eapply runs_bind; [apply runs_get_og|]. eapply runs_bind; [apply runs_set_seg|].
  eapply runs_eq; [apply runs_ret| |done]. fold (seg s). rewrite <- Ha.
  unfold disp_means in Hd. destruct (negb (has_disp m =? 0)); subst d; [done|].
  rewrite u32_add_l. f_equal. lia.
Qed.

(** ** Operand accesses *)

(** The address of a memory operand, the segment override included. *)
Definition opd_addr s b ix d : Z := u32 (ea s b ix d + seg s).
Definition rd_opd s (o : operand) : Z :=
  match o with
  | OReg r => rget s r
  | OMem b ix d => rd32 (mem s) (opd_addr s b ix d)
  end.
(** A memory access consumes the segment override. *)
Definition touch_opd (o : operand) s : machine H :=
  match o with OReg _ => s | OMem _ _ _ => with_seg 0 s end.
Definition wr_opd (o : operand) (v : Z) s : machine H :=
  match o with
  | OReg r => rset r v s
  | OMem b ix d => upd_mem (wr32 (opd_addr s b ix d) v) (with_seg 0 s)
  end.

Lemma operand_ok_index b ix d : operand_ok (OMem b ix d) ->
  forall r k, ix = Some (r, k) -> 0 <= k.
Proof. intros (_ & Hi & _) r k E. by destruct (Hi r k E) as (_ & _ & ? & _). Qed.

Lemma touch_opd_same o s : seg s = 0 -> touch_opd o s = s.
Proof. intros Hg. destruct o; simpl; [done|by apply with_seg_same]. Qed.
Lemma wf_touch_opd o s : wf s -> wf (touch_opd o s).
Proof. destruct o; simpl; auto using wf_with_seg. Qed.
Lemma wf_wr_opd o v s : wf s -> wf (wr_opd o v s).
Proof.
  intros Hs. destruct o; simpl; [by apply wf_rset|].
  apply wf_wr32; [by apply wf_with_seg|]. apply u32_range.
Qed.

Lemma rd_opd_u32 s o : wf s -> operand_ok o -> is_u32 (rd_opd s o).
Proof.
  intros Hs Ho. destruct o; simpl in *; [by apply rget_u32|].
  apply rd32_range, Hs.
Qed.

Lemma runs_read_rm32 s m o : wf s -> operand_ok o -> modrm_means m o ->
  runs (read_rm32 m) s (rd_opd s o) (touch_opd o s).
Proof.
  intros Hs Ho Hm. unfold read_rm32. destruct o as [r|b ix d].
  - destruct Hm as [-> ->]. apply runs_reg.
  - pose proof Hm as [H3 _]. btest (mrm_mod m =? 3).
    eapply runs_bind; [by eapply runs_resolve, operand_ok_index|].
    eapply runs_eq; [|done|done]. apply runs_mem_read32; [apply Hs|apply u32_range].
Qed.

Lemma runs_write_rm32 s m o v : wf s -> operand_ok o -> modrm_means m o ->
  runs (write_rm32 m v) s tt (wr_opd o v s).
Proof.
  intros Hs Ho Hm. unfold write_rm32. destruct o as [r|b ix d].
  - destruct Hm as [-> ->]. apply runs_set_reg.
  - pose proof Hm as [H3 _]. btest (mrm_mod m =? 3).
    eapply runs_bind; [by eapply runs_resolve, operand_ok_index|].
    eapply runs_eq; [|done|done]. apply runs_mem_write32; [apply Hs|apply u32_range].
Qed.

(** C8: operand decoding inverts the architecture's encoding.  For every legal operand -
    a register, or any combination of base, scaled index and displacement - and every
    register field, [parse_modrm] on the operand's ModR/M, SIB and displacement bytes
    returns normally, consumes exactly these bytes and recovers the register field; the
    decoded structure then denotes that register, or an address equal to base + index *
    2^scale + displacement + segment base modulo 2^32, in whatever state it is resolved;
    resolving consumes the segment override. *)
Theorem operand_roundtrip s rg o :
  wf s -> 0 <= rg < 8 -> operand_ok o -> code_at s (encode rg o) ->
  exists m, mrm_reg m = rg /\
    runs parse_modrm s m (advance (length (encode rg o)) s) /\
    match o with
    | OReg r => forall s1 v, runs (read_rm32 m) s1 (rget s1 r) s1 /\
                             runs (write_rm32 m v) s1 tt (rset r v s1)
    | OMem b ix d => forall s1,
        runs (resolve_rm_addr m) s1 (u32 (ea s1 b ix d + seg s1)) (with_seg 0 s1)
    end.
Proof.
  intros Hs Hrg Ho Hc. destruct (parse_encode s rg o) as (m & Hr & Hm & Hp); [done..|].
  exists m. split; [done|]. split; [done|]. destruct o as [r|b ix d].
  - intros s1 v. destruct Hm as [H3 H4]. unfold read_rm32, write_rm32. by rewrite H3, H4.
  - intros s1. by eapply runs_resolve, operand_ok_index.
Qed.

(** ** The 8-bit registers *)

(** The value of an 8-bit register: AL CL DL BL, then AH CH DH BH. *)
Definition rget8 s (r : Z) : Z :=
  if r <? 4 then u8 (rget s r) else u8 (Z.shiftr (rget s (r - 4)) 8).

Lemma runs_get_reg8 s r : runs (get_reg8 r) s (rget8 s r) s.
Proof. unfold get_reg8, rget8. destruct (r <? 4); done. Qed.

(** The bits of a 32-bit register after a store to one of its bytes. *)
Lemma testbit_insert8 x v k i : is_u8 v -> 0 <= i < 32 -> k = 0 \/ k = 8 ->
  Z.testbit (u32 (Z.lor (Z.land x (if k =? 0 then 0xFFFFFF00 else 0xFFFF00FF))
                        (Z.shiftl v k))) i
  = if (k <=? i) && (i <? k + 8) then Z.testbit v (i - k) else Z.testbit x i.
Proof.
  intros Hv Hi Hk. rewrite testbit_u32, Z.lor_spec, Z.land_spec, Z.shiftl_spec by lia.
  btest (i <? 32).
  assert (forallb (fun n => let i := Z.of_nat n in
    Bool.eqb (Z.testbit 0xFFFFFF00 i) (8 <=? i) &&
    Bool.eqb (Z.testbit 0xFFFF00FF i) ((i <? 8) || (16 <=? i))) (seq 0 32) = true) as Hall
    by (vm_compute; done).
  rewrite forallb_forall in Hall. specialize (Hall (Z.to_nat i)).
  rewrite in_seq, andb_true_iff, !eqb_true_iff, Z2Nat.id in Hall by lia.
  destruct Hall as [E1 E2]; [lia|].
  destruct Hk as [-> | ->]; cbn [Z.eqb]; rewrite ?E1, ?E2.
  - btest (0 <=? i). destruct (decide (i < 8)).
    + btest (8 <=? i). btest (i <? 0 + 8). by rewrite andb_false_r.
    + btest (8 <=? i). btest (i <? 0 + 8).
      rewrite andb_true_r, (proj2 (proj1 (is_u8_bits v) Hv)) by lia. apply orb_false_r.
  - destruct (decide (i < 8)); [|destruct (decide (i < 16))].
    + btest (i <? 8). btest (8 <=? i). rewrite (Z.testbit_neg_r v) by lia.
      by rewrite andb_true_r, orb_false_r.
    + btest (i <? 8). btest (16 <=? i). btest (8 <=? i). btest (i <? 8 + 8).
      by rewrite andb_false_r.
    + btest (i <? 8). btest (16 <=? i). btest (8 <=? i). btest (i <? 8 + 8).
      rewrite andb_true_r, (proj2 (proj1 (is_u8_bits v) Hv)) by lia. apply orb_false_r.
Qed.

(** The 32-bit register that holds an 8-bit register, and its bit offset there. *)
Definition parent8 (r : Z) : Z := if r <? 4 then r else r - 4.
Definition offset8 (r : Z) : Z := if r <? 4 then 0 else 8.
Definition insert8 (x v k : Z) : Z :=
  u32 (Z.lor (Z.land x (if k =? 0 then 0xFFFFFF00 else 0xFFFF00FF)) (Z.shiftl v k)).
Definition rset8 (r v : Z) s : machine H :=
  rset (parent8 r) (insert8 (rget s (parent8 r)) v (offset8 r)) s.

Lemma runs_set_reg8 s r v : runs (set_reg8 r v) s tt (rset8 r v s).
Proof.
  unfold set_reg8, rset8, parent8, offset8, insert8.
  destruct (r <? 4); (eapply runs_bind; [apply runs_reg|]);
    (eapply runs_eq; [apply runs_set_reg|done|]); unfold rset; cbn [Z.eqb];
    by rewrite u32_idem, ?Z.shiftl_0_r.
Qed.

Lemma rget8_eq s r : rget8 s r = u8 (Z.shiftr (rget s (parent8 r)) (offset8 r)).
Proof. unfold rget8, parent8, offset8. case_match; [by rewrite Z.shiftr_0_r|done]. Qed.

Lemma u8_bits_eq x y : (forall i, 0 <= i < 8 -> Z.testbit x i = Z.testbit y i) -> u8 x = u8 y.
Proof.
  intros Hb. apply Z.bits_inj'. intros i Hi. rewrite !testbit_u8 by done.
  destruct (Z.ltb_spec i 8); [|done]. by rewrite Hb.
Qed.

Lemma rget8_rset8 s r r' v : wf s -> 0 <= r < 8 -> 0 <= r' < 8 -> is_u8 v ->
  rget8 (rset8 r v s) r' = if r' =? r then v else rget8 s r'.
Proof.
  intros Hs Hr Hr' Hv. rewrite !rget8_eq.
  assert (0 <= parent8 r < 8 /\ 0 <= parent8 r' < 8 /\ (offset8 r = 0 \/ offset8 r = 8) /\
          (offset8 r' = 0 \/ offset8 r' = 8) /\
          (parent8 r = parent8 r' -> offset8 r = offset8 r' -> r = r') /\
          (r = r' -> parent8 r = parent8 r' /\ offset8 r = offset8 r')) as
    (Hp & Hp' & Ho & Ho' & Hinj & Heq).
  { unfold parent8, offset8. destruct (Z.ltb_spec r 4), (Z.ltb_spec r' 4); lia. }
  destruct (decide (parent8 r = parent8 r')) as [E|E].
  - unfold rset8. rewrite <- E, rget_rset_eq by done. unfold insert8. rewrite u32_idem.
    destruct (Z.eqb_spec r' r) as [->|Hne].
    + destruct Heq as [_ _]; [done|]. rewrite <- (u8_small v Hv) at 2. apply u8_bits_eq.
      intros i Hi. rewrite Z.shiftr_spec, testbit_insert8 by (done || lia). bif. f_equal. lia.
    + apply u8_bits_eq. intros i Hi. rewrite !Z.shiftr_spec, testbit_insert8 by (done || lia).
      assert (offset8 r <> offset8 r') by (intros ?; by apply Hne, eq_sym, Hinj). by bif.
  - unfold rset8. rewrite rget_rset_ne by lia.
    destruct (Z.eqb_spec r' r) as [->|]; [by destruct E|done].
Qed.

(** C14: the 8-bit register file.  Storing a byte in any of AL CL DL BL AH CH DH BH makes
    that register read back as the byte and leaves the other seven unchanged; the upper
    halves of the 32-bit registers keep their bits, and nothing else of the machine
    moves. *)
Theorem reg8_write_read s r r' v :
  wf s -> 0 <= r < 8 -> 0 <= r' < 8 -> is_u8 v ->
  exists s', runs (set_reg8 r v) s tt s' /\
    runs (get_reg8 r') s' (if r' =? r then v else rget8 s r') s' /\
    (forall q i, 0 <= q < 8 -> 16 <= i -> Z.testbit (rget s' q) i = Z.testbit (rget s q) i) /\
    s' = upd_cpu (upd_regs (fun _ => regs (cpu s'))) s.
Proof.
  intros Hs Hr Hr' Hv. exists (rset8 r v s). split; [apply runs_set_reg8|]. split; [|split].
  - eapply runs_eq; [apply runs_get_reg8|by apply rget8_rset8|done].
  - intros q i Hq Hi.
    assert (0 <= parent8 r < 8) by (unfold parent8; destruct (Z.ltb_spec r 4); lia).
    unfold rset8. destruct (decide (parent8 r = q)) as [->|E]; [|by rewrite rget_rset_ne by lia].
    rewrite rget_rset_eq by done. unfold insert8. rewrite u32_idem.
    destruct (decide (i < 32)).
    + assert (offset8 r = 0 \/ offset8 r = 8) by (unfold offset8; case_match; auto).
      rewrite testbit_insert8 by (done || lia). by bif.
    + pose proof (rget_u32 s q Hs Hq) as Hu. apply is_u32_bits in Hu as [_ Hu].
      rewrite testbit_u32, Hu by lia. by btest (i <? 32).
  - by destruct s as [[]].
Qed.
End decode.

(** MOV-like use of [EBX + ESI * 4 + 0x80], whose displacement needs four bytes. *)
Lemma operand_roundtrip_witness :
  let o := OMem (Some REG_EBX) (Some (REG_ESI, 2)) 0x80 in
  let s := toy_machine [0; 0; 0; 0x2000; 0; 0; 3; 0] 0x1000 [(0x1000, encode 2 o)] in
  exists m, mrm_reg m = 2 /\ runs parse_modrm s m (advance 6 s) /\
    runs (resolve_rm_addr m) s 0x208C (with_seg 0 s).
Proof.
  intros o s. destruct (operand_roundtrip s 2 o) as (m & Hr & Hp & Ha).
  - by apply wf_toy.
  - lia.
  - split; [by intros r [= <-]|split; [by intros r k [= <- <-]|done]].
  - by split.
  - exists m. split; [exact Hr|]. split; [exact Hp|exact (Ha s)].
Defined.

(** Writing AH does not change AL. *)
Lemma reg8_write_read_witness :
  let s := toy_machine [0x11223344; 0; 0; 0; 0; 0; 0; 0] 0 [] in
  exists s', runs (set_reg8 4 0xAB) s tt s' /\ runs (get_reg8 0) s' 0x44 s'.
Proof.
  intros s. destruct (reg8_write_read s 4 0 0xAB) as (s' & Hw & Hr & _).
  - by apply wf_toy.
  - lia.
  - lia.
  - done.
  - exists s'. split; [exact Hw|exact Hr].
Defined.

#[export] Hint Resolve wf_advance wf_touch_opd wf_wr_opd : wf.
