(* ===== verification/Alu.v ===== *)
(** The 32-bit arithmetic instructions against the architecture.

    [alu_step] is the specification of one two-operand instruction on decoded operands:
    destination and status flags as the architecture defines them ([alu_eval]). *)
From S2P Require Import Prelude CInt Machine Logic Mem Flags ModRM OpsAlu OpsMove OpsFpu.
From S2P Require Import Backend Toy Dispatch Exec Decode.

(** * Status flags *)

(** EFLAGS with the five arithmetic flags replaced. *)
Definition with_status (st : status) (e : Z) : Z :=
  put_bit 11 (OF st) (put_bit 2 (PF st) (put_bit 7 (SF st) (put_bit 6 (ZF st)
    (put_bit 0 (CF st) e)))).

Lemma status_of_with_status st e : status_of (with_status st e) = st.
Proof.
  unfold status_of, with_status. by rewrite !testbit_put_bit by lia; destruct st.
Qed.

Lemma with_status_system st e : is_u32 e -> same_system_flags e (with_status st e).
Proof.
  intros He i Hi Hs. unfold status_bit in Hs. destruct (decide (i < 32)).
  - unfold with_status. rewrite !testbit_put_bit by lia. repeat bif. done.
  - unfold with_status. rewrite put_bit_high by lia. symmetry. apply is_u32_bits; [done|lia].
Qed.

Lemma put_bit_comm m n b c e : 0 <= m < 32 -> 0 <= n < 32 -> m <> n ->
  put_bit m b (put_bit n c e) = put_bit n c (put_bit m b e).
Proof.
  intros Hm Hn Hne. apply Z.bits_inj'. intros i Hi. destruct (decide (i < 32)).
  - rewrite !testbit_put_bit by lia. destruct (Z.eqb_spec i m), (Z.eqb_spec i n); lia || done.
  - by rewrite !put_bit_high by lia.
Qed.

(** * Arithmetic *)

Lemma signed_32 x : signed 32 x = if x <? 0x80000000 then x else x - 0x100000000.
Proof. done. Qed.

Lemma top_bit x : is_u32 x -> Z.testbit x 31 = (0x80000000 <=? x).
Proof. intros Hx. apply (testbit_top 31); [lia|exact Hx]. Qed.

(** Overflow of an addition with carry, as [set_of_add] computes it. *)
Lemma overflow_add a b c : is_u32 a -> is_u32 b -> 0 <= c <= 1 ->
  negb (xorb (Z.testbit a 31) (Z.testbit b 31)) &&
  xorb (Z.testbit a 31) (Z.testbit (u32 (a + b + c)) 31)
  = signed_overflow 32 (signed 32 a + signed 32 b + c).
Proof.
  intros Ha Hb Hc. rewrite !top_bit by auto with zrange. rewrite !signed_32.
  unfold signed_overflow. change (2 ^ (32 - 1)) with 0x80000000.
  assert (u32 (a + b + c) = if a + b + c <? 0x100000000 then a + b + c
                            else a + b + c - 0x100000000) as E
    by (destruct (Z.ltb_spec (a + b + c) 0x100000000); cint).
  rewrite E. unfold is_u32 in *.
  destruct (Z.ltb_spec (a + b + c) 0x100000000), (Z.ltb_spec a 0x80000000),
    (Z.ltb_spec b 0x80000000); cbv iota; zcases.
Qed.

(** Overflow of a subtraction with borrow, as [set_of_sub] computes it. *)
Lemma overflow_sub a b c : is_u32 a -> is_u32 b -> 0 <= c <= 1 ->
  xorb (Z.testbit a 31) (Z.testbit b 31) &&
  xorb (Z.testbit a 31) (Z.testbit (u32 (a - b - c)) 31)
  = signed_overflow 32 (signed 32 a - signed 32 b - c).
Proof.
  intros Ha Hb Hc. rewrite !top_bit by auto with zrange. rewrite !signed_32.
  unfold signed_overflow. change (2 ^ (32 - 1)) with 0x80000000.
  assert (u32 (a - b - c) = if b + c <=? a then a - b - c
                            else a - b - c + 0x100000000) as E
    by (destruct (Z.leb_spec (b + c) a); cint).
  rewrite E. unfold is_u32 in *.
  destruct (Z.leb_spec (b + c) a), (Z.ltb_spec a 0x80000000), (Z.ltb_spec b 0x80000000); cbv iota; zcases.
Qed.

(** The carry tests of the handlers. *)
Lemma carry_add a b : is_u32 a -> is_u32 b ->
  (u32 (a + b) <? a) = (0x100000000 <=? a + b).
Proof. intros. destruct (Z.leb_spec 0x100000000 (a + b)); cint. Qed.

Lemma carry_adc a b c : is_u32 a -> is_u32 b -> 0 <= c <= 1 ->
  (u32 (a + b + c) <? a) || (negb (c =? 0) && (u32 (a + b + c) =? a))
  = (0x100000000 <=? a + b + c).
Proof.
  intros. assert (c = 0 \/ c = 1) as [-> | ->] by lia;
    destruct (Z.leb_spec 0x100000000 (a + b + 0)), (Z.leb_spec 0x100000000 (a + b + 1)); cint.
Qed.

Lemma borrow_sbb a b c : is_u32 a -> is_u32 b -> 0 <= c <= 1 ->
  (a <? u32 (b + c)) || (negb (c =? 0) && (b =? 0xFFFFFFFF)) = (a <? b + c).
Proof.
  intros. assert (c = 0 \/ c = 1) as [-> | ->] by lia;
    destruct (Z.ltb_spec a (b + 0)), (Z.ltb_spec a (b + 1)); cint.
Qed.

(** * The instructions *)

Inductive alu_op := ADD | ADC | SUB | SBB | CMP.

(** Result and status flags (Intel SDM vol. 2, ADD ... CMP). *)
Definition alu_eval (op : alu_op) (a b : Z) (cf : bool) : Z * status :=
  match op with
  | ADD => alu_add 32 a b 0
  | ADC => alu_add 32 a b (Z.b2z cf)
  | SUB | CMP => alu_sub 32 a b 0
  | SBB => alu_sub 32 a b (Z.b2z cf)
  end.

(** The opcodes with a ModR/M byte: operation, and whether the register field is the
    destination. *)
Definition alu32_forms : list (Z * (alu_op * bool)) :=
  [ (0x01, (ADD, false)); (0x03, (ADD, true)); (0x11, (ADC, false)); (0x13, (ADC, true));
    (0x19, (SBB, false)); (0x1B, (SBB, true)); (0x29, (SUB, false)); (0x2B, (SUB, true));
    (0x39, (CMP, false)); (0x3B, (CMP, true)) ].

Section alu.
Context {H : Type} `{HostOS H} `{FloatOps}.
Implicit Types s : machine H.

Definition set_status (st : status) s : machine H :=
  upd_cpu (upd_eflags (with_status st)) s.
Definition carry s : bool := CF (status_of (eflags (cpu s))).

Definition alu_step (op : alu_op) (to_reg : bool) (rg : Z) (o : operand) s : machine H :=
  let dst := if to_reg then OReg rg else o in
  let src := if to_reg then o else OReg rg in
  let e := alu_eval op (rd_opd s dst) (rd_opd s src) (carry s) in
  retire 2 (set_status e.2 (match op with CMP => s | _ => wr_opd dst e.1 s end)).

(** ** The flag sequences the handlers end with *)

Lemma wf_set_status st s : wf s -> wf (set_status st s).
Proof.
  intros Hs. change (set_status st s) with (put_flag_st 11 (OF st) (put_flag_st 2 (PF st)
    (put_flag_st 7 (SF st) (put_flag_st 6 (ZF st) (put_flag_st 0 (CF st) s))))).
  do 5 (apply wf_put_flag; [lia|lia|done|]). done.
Qed.

(** Composite rules: the handlers' common tails, by the flags they must produce. *)
Lemma runs_add_tail k s a b c cf :
  wf s -> 0 <= k -> cycles_ok k s -> is_u32 a -> is_u32 b -> 0 <= c <= 1 ->
  negb (cf =? 0) = (0x100000000 <=? a + b + c) ->
  runs (set_cf cf;; set_zf (u32 (a + b + c));; set_sf (u32 (a + b + c));;
        set_pf (u32 (a + b + c));; set_of_add a b (u32 (a + b + c));; add_cycles k)
    s tt (retire k (set_status (alu_add 32 a b c).2 s)).
Proof.
  intros Hs Hk Hc Ha Hb Hc1 Hcf. set (r := u32 (a + b + c)).
  do 5 (eapply runs_bind; [solve [eauto with run]|]).
  eapply runs_eq; [apply runs_retire; [|done..]|done|].
  - do 5 (apply wf_put_flag; [lia|lia|done|]). done.
  - subst r. by rewrite overflow_add, Hcf by done.
Qed.

Lemma runs_sub_tail k s a b c cf :
  wf s -> 0 <= k -> cycles_ok k s -> is_u32 a -> is_u32 b -> 0 <= c <= 1 ->
  negb (cf =? 0) = (a <? b + c) ->
  runs (set_cf cf;; set_zf (u32 (a - b - c));; set_sf (u32 (a - b - c));;
        set_pf (u32 (a - b - c));; set_of_sub a b (u32 (a - b - c));; add_cycles k)
    s tt (retire k (set_status (alu_sub 32 a b c).2 s)).
Proof.
  intros Hs Hk Hc Ha Hb Hc1 Hcf. set (r := u32 (a - b - c)).
  do 4 (eapply runs_bind; [solve [eauto with run]|]).
  eapply runs_bind; [by apply runs_set_of_sub|].
  eapply runs_eq; [apply runs_retire; [|done..]|done|].
  - do 5 (apply wf_put_flag; [lia|lia|done|]). done.
  - subst r. by rewrite overflow_sub, Hcf by done.
Qed.

(** ** Dispatch *)

Lemma execute_plain fuel op h :
  zget opcode_table op = h ->
  (forall exec, call_handler exec call_0f h op = call_plain (H:=H) h op) ->
  execute_opcode (H:=H) fuel op = call_plain h op.
Proof. intros Ht Hc. destruct fuel; cbn [execute_opcode]; rewrite Ht; apply Hc. Qed.

Lemma cycles_ok_wr_opd k o v s : cycles_ok k s -> cycles_ok k (wr_opd o v s).
Proof. by destruct o. Qed.

Lemma alu_tails op s s' k a b r :
  wf s' -> 0 <= k -> cycles_ok k s' -> is_u32 a -> is_u32 b ->
  r = (alu_eval op a b (carry s)).1 ->
  forall cf, negb (cf =? 0) = CF (alu_eval op a b (carry s)).2 ->
  runs (set_cf cf;; set_zf r;; set_sf r;; set_pf r;;
        match op with ADD | ADC => set_of_add a b r | _ => set_of_sub a b r end;;
        add_cycles k)
    s' tt (retire k (set_status (alu_eval op a b (carry s)).2 s')).
Proof.
  intros Hs Hk Hc Ha Hb -> cf Hcf.
  assert (0 <= Z.b2z (carry s) <= 1) by (destruct (carry s); simpl; lia).
  destruct op; cbn [alu_eval] in *.
  - change (alu_add 32 a b 0).1 with (u32 (a + b + 0)). by apply runs_add_tail.
  - change (alu_add 32 a b ?c).1 with (u32 (a + b + c)). by apply runs_add_tail.
  - change (alu_sub 32 a b 0).1 with (u32 (a - b - 0)). by apply runs_sub_tail.
  - change (alu_sub 32 a b ?c).1 with (u32 (a - b - c)). by apply runs_sub_tail.
  - change (alu_sub 32 a b 0).1 with (u32 (a - b - 0)). by apply runs_sub_tail.
Qed.

(** What the decoding of a ModR/M instruction leaves for the handler: the structure [m]
    and the state [s] after it, with no segment override pending. *)
Record decoded (m : ModRM) (rg : Z) (o : operand) s : Prop := {
  dc_wf : wf s;
  dc_seg : seg s = 0;
  dc_rg : 0 <= rg < 8;
  dc_ok : operand_ok o;
  dc_reg : mrm_reg m = rg;
  dc_means : modrm_means m o
}.

Lemma decode_instruction s rg o :
  wf s -> seg s = 0 -> 0 <= rg < 8 -> operand_ok o -> code_at s (encode rg o) ->
  exists m, decoded m rg o (advance (length (encode rg o)) s) /\
    runs parse_modrm s m (advance (length (encode rg o)) s).
Proof.
  intros Hs Hg Hrg Ho Hc. destruct (parse_encode s rg o) as (m & Hr & Hm & Hp); [done..|].
  exists m. split; [|done]. constructor; auto with wf.
Qed.

Section with_decoded.
Context (m : ModRM) (rg : Z) (o : operand) s (D : decoded m rg o s).

Lemma dc_read : runs (read_rm32 m) s (rd_opd s o) s.
Proof.
  destruct D. eapply runs_eq; [by apply runs_read_rm32|done|by apply touch_opd_same].
Qed.
Lemma dc_get_reg : runs (reg (mrm_reg m)) s (rd_opd s (OReg rg)) s.
Proof. destruct D as [_ _ _ _ -> _]. apply runs_reg. Qed.
Lemma dc_write v : runs (write_rm32 m v) s tt (wr_opd o v s).
Proof. destruct D. by apply runs_write_rm32. Qed.
Lemma dc_set_reg v : runs (set_reg (mrm_reg m) v) s tt (wr_opd (OReg rg) v s).
Proof. destruct D as [_ _ _ _ -> _]. apply runs_set_reg. Qed.
Lemma dc_get_cf : runs get_cf s (Z.b2z (carry s)) s.
Proof. apply runs_get_cf. Qed.
Lemma dc_opd_u32 : is_u32 (rd_opd s o).
Proof. destruct D. by apply rd_opd_u32. Qed.
Lemma dc_reg_u32 : is_u32 (rd_opd s (OReg rg)).
Proof. destruct D. by apply rd_opd_u32. Qed.
Lemma dc_wf_wr o' v : wf (wr_opd o' v s).
Proof. apply wf_wr_opd, D. Qed.
End with_decoded.

End alu.

(** One read or write of the decoded operands. *)
Ltac dc_step D :=
  eapply runs_bind; [first [exact (dc_read _ _ _ _ D)|exact (dc_get_reg _ _ _ _ D)
    |exact (dc_get_cf _)|exact (dc_write _ _ _ _ D _)|exact (dc_set_reg _ _ _ _ D _)]|];
  cbv beta zeta.

Section alu_cases.
Context {H : Type} `{HostOS H} `{FloatOps}.
Implicit Types s : machine H.

Lemma b2z_carry_range s : 0 <= Z.b2z (carry s) <= 1.
Proof. destruct (carry s); simpl; lia. Qed.

(** The result and the carry test of each handler are those of [alu_eval]. *)
Lemma alu_eval_add a b cf : is_u32 a -> is_u32 b ->
  u32 (a + b) = (alu_eval ADD a b cf).1 /\
  negb (Z.b2z (u32 (a + b) <? a) =? 0) = CF (alu_eval ADD a b cf).2.
Proof.
  intros Ha Hb. rewrite b2z_neq0, carry_add by done. cbn. by rewrite Z.add_0_r.
Qed.
Lemma alu_eval_adc a b cf : is_u32 a -> is_u32 b ->
  let r := u32 (a + b + Z.b2z cf) in
  r = (alu_eval ADC a b cf).1 /\
  negb (Z.b2z ((r <? a) || (negb (Z.b2z cf =? 0) && (r =? a))) =? 0)
    = CF (alu_eval ADC a b cf).2.
Proof.
  intros Ha Hb r. subst r. rewrite b2z_neq0, carry_adc by (done || (destruct cf; simpl; lia)).
  done.
Qed.
Lemma alu_eval_sub op a b cf : is_u32 a -> is_u32 b ->
  match op with SUB | CMP => True | _ => False end ->
  u32 (a - b) = (alu_eval op a b cf).1 /\
  negb (Z.b2z (a <? b) =? 0) = CF (alu_eval op a b cf).2.
Proof.
  intros Ha Hb Hop. rewrite b2z_neq0.
  destruct op; try done; cbn; by rewrite Z.sub_0_r, Z.add_0_r.
Qed.
Lemma alu_eval_sbb a b cf : is_u32 a -> is_u32 b ->
  u32 (a - b - Z.b2z cf) = (alu_eval SBB a b cf).1 /\
  negb (Z.b2z ((a <? u32 (b + Z.b2z cf)) || (negb (Z.b2z cf =? 0) && (b =? 0xFFFFFFFF)))
        =? 0) = CF (alu_eval SBB a b cf).2.
Proof.
  intros Ha Hb. rewrite b2z_neq0, borrow_sbb by (done || (destruct cf; simpl; lia)). done.
Qed.

(** From the decoded operands to the end of one handler: [ev] gives the result and the
    carry, [alu_tails] the flags. *)
#[local] Ltac alu_case D Hp Hc op ev :=
  cbn [call_plain]; autounfold with handlers;
  eapply runs_bind; [exact Hp|]; cbv beta; repeat dc_step D;
  pose proof (dc_opd_u32 _ _ _ _ D) as Hu; pose proof (dc_reg_u32 _ _ _ _ D) as Hv;
  unfold alu_step; cbv zeta iota;
  match goal with
  | |- context [alu_eval op ?a ?b (carry ?s)] =>
      let Er := fresh in let Ecf := fresh in
      destruct (ev a b (carry s)) as [Er Ecf]; [assumption..|];
      rewrite <- ?Er; apply (alu_tails op s _ 2 a b);
      [first [exact (dc_wf _ _ _ _ D)|exact (dc_wf_wr _ _ _ _ D _ _)]
      |lia|first [exact Hc|apply cycles_ok_wr_opd; exact Hc]
      |assumption|assumption|exact Er|exact Ecf]
  end.

(** One instruction on its own, for the clients of CMP. *)
Lemma runs_cmp_rm32_r32 fuel rg o s :
  wf s -> seg s = 0 -> cycles_ok 2 s -> 0 <= rg < 8 -> operand_ok o ->
  code_at s (encode rg o) ->
  runs (execute_opcode fuel 0x39) s tt
    (alu_step CMP false rg o (advance (length (encode rg o)) s)).
Proof.
  intros Hs Hg Hc Hrg Ho Hcode.
  destruct (decode_instruction s rg o) as (m & D & Hp); [done..|].
  assert (cycles_ok 2 (advance (length (encode rg o)) s)) as Hc1 by exact Hc.
  set (s1 := advance _ s) in *. clearbody s1.
  rewrite (execute_plain fuel 0x39 H_cmp_rm32_r32) by done.
  alu_case D Hp Hc1 CMP (fun a b c Ha Hb => alu_eval_sub CMP a b c Ha Hb I).
Qed.

(** C1: the ten 32-bit ADD/ADC/SUB/SBB/CMP instructions with a ModR/M byte, in both
    directions, do what the architecture says.  On any well-formed machine about to
    fetch a legal operand encoding, [execute_opcode] returns normally, in the state of
    the specification [alu_step]: the destination register or memory cell holds the
    result modulo 2^32, CF, PF, ZF, SF and OF are the architectural flags, EIP is past
    the operand bytes, two cycles are counted, and nothing else changes. *)
Theorem alu32_refines fuel opc op to_reg rg o s :
  (opc, (op, to_reg)) ∈ alu32_forms ->
  wf s -> seg s = 0 -> cycles_ok 2 s -> 0 <= rg < 8 -> operand_ok o ->
  code_at s (encode rg o) ->
  runs (execute_opcode fuel opc) s tt
    (alu_step op to_reg rg o (advance (length (encode rg o)) s)).
Proof.
  intros Hin Hs Hg Hc Hrg Ho Hcode.
  destruct (decode_instruction s rg o) as (m & D & Hp); [done..|].
  assert (cycles_ok 2 (advance (length (encode rg o)) s)) as Hc1 by exact Hc.
  set (s1 := advance _ s) in *. clearbody s1.
  unfold alu32_forms in Hin. rewrite !elem_of_cons in Hin.
  destruct Hin as [E|[E|[E|[E|[E|[E|[E|[E|[E|[E|E]]]]]]]]]]; [..|by apply elem_of_nil in E];
    injection E as -> -> ->.
  - rewrite (execute_plain fuel 0x01 H_add_rm32_r32) by done.
    alu_case D Hp Hc1 ADD alu_eval_add.
  - rewrite (execute_plain fuel 0x03 H_add_r32_rm32) by done.
    alu_case D Hp Hc1 ADD alu_eval_add.
  - rewrite (execute_plain fuel 0x11 H_adc_rm32_r32) by done.
    alu_case D Hp Hc1 ADC alu_eval_adc.
  - rewrite (execute_plain fuel 0x13 H_adc_r32_rm32) by done.
    alu_case D Hp Hc1 ADC alu_eval_adc.
  - rewrite (execute_plain fuel 0x19 H_sbb_rm32_r32) by done.
    alu_case D Hp Hc1 SBB alu_eval_sbb.
  - rewrite (execute_plain fuel 0x1B H_sbb_r32_rm32) by done.
    alu_case D Hp Hc1 SBB alu_eval_sbb.
  - rewrite (execute_plain fuel 0x29 H_sub_rm32_r32) by done.
    alu_case D Hp Hc1 SUB (fun a b c Ha Hb => alu_eval_sub SUB a b c Ha Hb I).
  - rewrite (execute_plain fuel 0x2B H_sub_r32_rm32) by done.
    alu_case D Hp Hc1 SUB (fun a b c Ha Hb => alu_eval_sub SUB a b c Ha Hb I).
  - rewrite (execute_plain fuel 0x39 H_cmp_rm32_r32) by done.
    alu_case D Hp Hc1 CMP (fun a b c Ha Hb => alu_eval_sub CMP a b c Ha Hb I).
  - rewrite (execute_plain fuel 0x3B H_cmp_r32_rm32) by done.
    alu_case D Hp Hc1 CMP (fun a b c Ha Hb => alu_eval_sub CMP a b c Ha Hb I).
Qed.
End alu_cases.

(** SBB [EBX + ESI * 4 + 0x10], ECX with the carry clear, on a machine of 64 KiB. *)
Lemma alu32_refines_witness :
  let o := OMem (Some REG_EBX) (Some (REG_ESI, 2)) 0x10 in
  let s := toy_machine [0; 5; 0; 0x2000; 0; 0; 3; 0] 0x1000
             [(0x1000, encode REG_ECX o); (0x201C, [7; 0; 0; 0])] in
  runs (execute_opcode 0 0x19) s tt (alu_step SBB false REG_ECX o (advance 3 s)) /\
  rd32 (mem (alu_step SBB false REG_ECX o (advance 3 s))) 0x201C = 2.
Proof.
  intros o s. split; [|vm_compute; reflexivity].
  apply (alu32_refines 0 0x19 SBB false REG_ECX o s).
  - vm_compute. do 4 right. left.
  - by apply wf_toy.
  - done.
  - done.
  - unfold REG_ECX. lia.
  - split; [|split]; [by intros r [= <-]|by intros r k [= <- <-]|done].
  - by split.
Defined.
