(* ===== verification/Branch.v ===== *)
(** Conditions and branches: the sixteen condition codes, and compare-and-branch sequences
    as the loop of [emulate] runs them. *)
From S2P Require Import Prelude CInt Machine Logic Mem Flags ModRM OpsAlu OpsMove OpsFpu.
From S2P Require Import Backend Toy Dispatch Safety Exec Decode Alu.

(** * Condition codes *)

(** The condition with code [c] (Intel SDM vol. 1, appendix B): the odd codes negate the
    even ones. *)
Definition cond (c : Z) (st : status) : bool :=
  xorb (Z.odd c)
    (match c / 2 with
     | 0 => OF st
     | 1 => CF st
     | 2 => ZF st
     | 3 => CF st || ZF st
     | 4 => SF st
     | 5 => PF st
     | 6 => xorb (SF st) (OF st)
     | _ => ZF st || xorb (SF st) (OF st)
     end).

(** What a branch on code [c] means after [CMP a, b]; [None] for the codes that are not
    order relations. *)
Definition cmp_relation (c a b : Z) : option bool :=
  match c with
  | 2 => Some (a <? b)
  | 3 => Some (b <=? a)
  | 4 => Some (a =? b)
  | 5 => Some (negb (a =? b))
  | 6 => Some (a <=? b)
  | 7 => Some (b <? a)
  | 12 => Some (signed 32 a <? signed 32 b)
  | 13 => Some (signed 32 b <=? signed 32 a)
  | 14 => Some (signed 32 a <=? signed 32 b)
  | 15 => Some (signed 32 b <? signed 32 a)
  | _ => None
  end.

(** The sign and overflow flags of a subtraction decide the signed order, and its zero
    flag equality. *)
Lemma sub_less a b : is_u32 a -> is_u32 b ->
  xorb (SF (alu_sub 32 a b 0).2) (OF (alu_sub 32 a b 0).2) = (signed 32 a <? signed 32 b).
Proof.
  intros Ha Hb. cbn [alu_sub SF OF snd]. change ((a - b - 0) mod 2 ^ 32) with (u32 (a - b - 0)).
  change (32 - 1) with 31. rewrite (top_bit (u32 (a - b - 0))) by apply u32_range.
  rewrite !signed_32.
  unfold signed_overflow. change (2 ^ (32 - 1)) with 0x80000000. change (2 ^ 31) with 0x80000000.
  assert (u32 (a - b - 0) = if b <=? a then a - b else a - b + 0x100000000) as ->
    by (destruct (Z.leb_spec b a); cint).
  unfold is_u32 in *.
  destruct (Z.leb_spec b a), (Z.ltb_spec a 0x80000000), (Z.ltb_spec b 0x80000000);
    cbv iota; zcases.
Qed.

Lemma sub_equal a b : is_u32 a -> is_u32 b -> ZF (alu_sub 32 a b 0).2 = (a =? b).
Proof.
  intros Ha Hb. cbn [alu_sub ZF snd]. change ((a - b - 0) mod 2 ^ 32) with (u32 (a - b - 0)).
  destruct (Z.eqb_spec a b), (Z.eqb_spec (u32 (a - b - 0)) 0); cint.
Qed.

Lemma sub_below a b : CF (alu_sub 32 a b 0).2 = (a <? b).
Proof. cbn. by rewrite Z.add_0_r. Qed.

Lemma cond_cmp c a b t : is_u32 a -> is_u32 b -> cmp_relation c a b = Some t ->
  cond c (alu_sub 32 a b 0).2 = t.
Proof.
  intros Ha Hb Hc. unfold cond.
  assert (a = b <-> signed 32 a = signed 32 b) as Hs.
  { rewrite !signed_32. unfold is_u32 in *.
    destruct (Z.ltb_spec a 0x80000000), (Z.ltb_spec b 0x80000000); lia. }
  assert (c = 2 \/ c = 3 \/ c = 4 \/ c = 5 \/ c = 6 \/ c = 7 \/ c = 12 \/ c = 13 \/ c = 14
          \/ c = 15) as Hcs.
  { unfold cmp_relation in Hc. repeat (case_match; try discriminate); lia. }
  destruct Hcs as [-> | [-> | [-> | [-> | [-> | [-> | [-> | [-> | [-> | ->]]]]]]]]];
    cbn in Hc; injection Hc as <-;
    match goal with |- context [?n / 2] => let v := eval cbv in (n / 2) in change (n / 2) with v end;
    cbn [Z.odd]; cbv iota;
    rewrite ?sub_less, ?sub_equal, ?sub_below by done; zcases.
Qed.

Section branch.
Context {H : Type} `{HostOS H} `{FloatOps}.
Implicit Types s : machine H.

Lemma runs_condition c s : 0 <= c < 16 ->
  runs (condition c) s (Some (Z.b2z (cond c (status_of (eflags (cpu s)))))) s.
Proof.
  intros Hc.
  assert (c = 0 \/ c = 1 \/ c = 2 \/ c = 3 \/ c = 4 \/ c = 5 \/ c = 6 \/ c = 7 \/ c = 8 \/
          c = 9 \/ c = 10 \/ c = 11 \/ c = 12 \/ c = 13 \/ c = 14 \/ c = 15) as Hcs by lia.
  repeat destruct Hcs as [-> | Hcs]; try subst c; unfold condition;
    repeat match goal with
    | |- runs (mbind _ get_of) _ _ _ => eapply runs_bind; [apply runs_get_of|]
    | |- runs (mbind _ get_cf) _ _ _ => eapply runs_bind; [apply runs_get_cf|]
    | |- runs (mbind _ get_zf) _ _ _ => eapply runs_bind; [apply runs_get_zf|]
    | |- runs (mbind _ get_sf) _ _ _ => eapply runs_bind; [apply runs_get_sf|]
    | |- runs (mbind _ get_pf) _ _ _ => eapply runs_bind; [apply runs_get_pf|]
    end;
    (eapply runs_eq; [apply runs_ret| |done]); unfold flag, cond, status_of;
    cbn [OF CF ZF SF PF];
    repeat match goal with |- context [Z.testbit ?e ?n] => destruct (Z.testbit e n) end;
    reflexivity.
Qed.

(** ** One turn of [emulate] *)

(** [g_last_eip = cpu->eip]. *)
Definition note_eip s : machine H := upd_mem (set_last_eip (eip (cpu s))) s.

(** What is fetched depends only on the contents of memory and EIP. *)
Lemma load_bytes_same m m' a n : g_mem m = g_mem m' -> load_bytes m a n = load_bytes m' a n.
Proof.
  intros E. revert a. induction n as [|n IH]; intros a; cbn [load_bytes]; [done|].
  rewrite IH. unfold byte_at. by rewrite E.
Qed.

Lemma code_at_same s s' bs : g_mem (mem s') = g_mem (mem s) ->
  g_size (mem s') = g_size (mem s) -> eip (cpu s') = eip (cpu s) ->
  code_at s bs -> code_at s' bs.
Proof.
  intros Em Es Ee [Hl Hr]. split; [|by rewrite Ee, Es].
  rewrite Ee. by rewrite (load_bytes_same _ (mem s)).
Qed.

Lemma rd_opd_advance n s o : rd_opd (advance n s) o = rd_opd s o.
Proof. by destruct o. Qed.

Lemma rd_opd_note_eip n s o : rd_opd (advance n (note_eip s)) o = rd_opd s o.
Proof.
  destruct o as [r|b ix d]; [done|]. unfold rd_opd.
  change (opd_addr (advance n (note_eip s)) b ix d) with (opd_addr s b ix d).
  unfold rd32. by rewrite (load_bytes_same _ (mem s)).
Qed.

Lemma wf_note_eip s : wf s -> wf (note_eip s).
Proof. intros [Hc [Hz Hb] Ho Hk]. constructor; simpl; [done|by constructor|done|done]. Qed.

(** A turn is the execution of the instruction at EIP. *)
Lemma emulate_body_execute pf s opc :
  wf s -> halted (cpu s) = 0 -> code_at s [opc] ->
  emulate_body pf s = (execute_opcode pf opc;; mret (inl tt)) (advance 1 (note_eip s)).
Proof.
  intros Hs Hh [Hl Hr]. simpl in Hl, Hr. injection Hl as Hb. unfold emulate_body.
  erewrite bind_Ret by apply runs_gets. rewrite Hh. cbn [Z.eqb negb].
  erewrite bind_Ret by apply runs_get_eip. erewrite bind_Ret by apply runs_modify.
  erewrite bind_Ret
    by (apply (runs_mem_read8 (note_eip s)); apply (wf_eip _ (wf_m_cpu _ Hs))).
  change (rd8 (mem (note_eip s)) (eip (cpu s))) with (rd8 (mem s) (eip (cpu s))).
  unfold rd8, in_range. btest (eip (cpu s) + 1 <=? g_size (mem s)). rewrite Hb.
  by erewrite bind_Ret by apply runs_set_eip.
Qed.

Lemma runs_emulate_body pf s opc s' :
  wf s -> halted (cpu s) = 0 -> code_at s [opc] ->
  runs (execute_opcode pf opc) (advance 1 (note_eip s)) tt s' ->
  runs (emulate_body pf) s (inl tt) s'.
Proof.
  intros Hs Hh Hc Hr. unfold runs. rewrite (emulate_body_execute pf s opc) by done.
  eapply runs_bind; [exact Hr|apply runs_ret].
Qed.

(** ** Jcc *)

Lemma runs_jcc_short s c off :
  wf s -> cycles_ok 1 s -> 0 <= c < 16 -> code_at s [off] ->
  runs (op_jcc_short (0x70 + c)) s tt
    (retire 1 (if cond c (status_of (eflags (cpu s)))
               then with_eip (eip (cpu s) + 1 + s8 off) s else advance 1 s)).
Proof.
  intros Hs Hk Hc Hcode. unfold op_jcc_short.
  eapply runs_bind; [by apply code_at_fetch8|]. cbv zeta.
  replace (0x70 + c - 0x70) with c by lia.
  eapply runs_bind; [by apply runs_condition|]. cbv iota.
  change (eflags (cpu (advance 1 s))) with (eflags (cpu s)). rewrite b2z_neq0.
  destruct (cond c _).
  - eapply runs_bind; [unfold jump_by; eapply runs_bind; [apply runs_get_eip|apply runs_set_eip]|].
    eapply runs_eq; [apply runs_retire; [|lia|done]|done|].
    + auto with wf.
    + f_equal. unfold advance. simpl. rewrite with_eip_u32. done.
  - eapply runs_bind; [apply runs_ret|]. apply runs_retire; [auto with wf|lia|done].
Qed.

Lemma execute_jcc_short pf c s : 0 <= c < 16 ->
  execute_opcode pf (0x70 + c) s = op_jcc_short (0x70 + c) s.
Proof.
  intros Hc.
  assert (c = 0 \/ c = 1 \/ c = 2 \/ c = 3 \/ c = 4 \/ c = 5 \/ c = 6 \/ c = 7 \/ c = 8 \/
          c = 9 \/ c = 10 \/ c = 11 \/ c = 12 \/ c = 13 \/ c = 14 \/ c = 15) as Hcs by lia.
  repeat destruct Hcs as [-> | Hcs]; try subst c;
    by rewrite (execute_plain pf _ H_jcc_short).
Qed.

(** C13: compare and branch.  Two turns of the emulator's loop over [CMP r/m32, r32] and a
    short conditional jump leave EIP at the target exactly when the relation named by the
    condition code - unsigned below, above or equal, signed less, greater, equality and
    their negations - holds of the operands, and just after the jump otherwise; registers
    and memory contents are unchanged. *)
Theorem cmp_jcc_taken pf s rg o c off t :
  wf s -> halted (cpu s) = 0 -> seg s = 0 -> cycles_ok 3 s ->
  0 <= rg < 8 -> operand_ok o -> 0 <= c < 16 ->
  code_at s ([0x39] ++ encode rg o ++ [0x70 + c] ++ [off]) ->
  cmp_relation c (rd_opd s o) (rget s rg) = Some t ->
  exists s', runs (emulate_body pf ≫= fun _ => emulate_body pf) s (inl tt) s' /\
    eip (cpu s') = u32 (eip (cpu s) + Z.of_nat (length (encode rg o)) + 3
                        + if t then s8 off else 0) /\
    regs (cpu s') = regs (cpu s) /\ g_mem (mem s') = g_mem (mem s).
Proof.
  intros Hs Hh Hg Hk Hrg Ho Hc Hcode Ht.
  apply code_at_app in Hcode as [Hc1 Hcode]; [|done].
  apply code_at_app in Hcode as [Hc2 Hcode]; [|auto with wf].
  apply code_at_app in Hcode as [Hc3 Hc4]; [|auto with wf].
  rewrite !advance_advance in *. simpl length in *.
  set (n := length (encode rg o)) in *.
  set (s1 := advance 1 (note_eip s)).
  assert (wf s1) as Hs1 by (unfold s1; auto using wf_note_eip with wf).
  set (s2 := alu_step CMP false rg o (advance n s1)).
  assert (runs (emulate_body pf) s (inl tt) s2) as Hr1.
  { eapply runs_emulate_body; [done..|]. fold s1. subst s2 n.
    apply runs_cmp_rm32_r32; try done; [unfold cycles_ok in *; simpl; lia|].
    by eapply code_at_same, Hc2. }
  assert (eip (cpu s2) = eip (cpu (advance (1 + n) s))) as He.
  { by rewrite <- (advance_advance 1 n s). }
  assert (wf s2) as Hs2.
  { apply (ks_wf _ _ (respects_run _ _ _ _ _ (resp_emulate_body pf) Hr1) Hs). }
  set (st := alu_sub 32 (rd_opd s o) (rget s rg) 0).
  assert (status_of (eflags (cpu s2)) = st.2) as Hst.
  { unfold s2, alu_step. cbn [eflags cpu retire set_status upd_cpu upd_eflags upd_cycles].
    rewrite status_of_with_status. subst st s1. by rewrite rd_opd_advance, rd_opd_note_eip. }
  set (s2' := advance 1 (note_eip s2)).
  eexists. split; [eapply runs_bind; [exact Hr1|]|].
  { eapply runs_emulate_body; [done|done|by eapply code_at_same, Hc3|].
    unfold runs. rewrite execute_jcc_short by done. fold s2'.
    apply runs_jcc_short; [subst s2'; auto using wf_note_eip with wf| |done|].
    - unfold cycles_ok in *. simpl. lia.
    - eapply code_at_same, Hc4; try done.
      change (eip (cpu s2')) with (u32 (eip (cpu s2) + 1)). rewrite He.
      replace (1 + (n + 1))%nat with (1 + n + 1)%nat by lia. by rewrite <- (advance_advance (1 + n) 1 s). }
  change (eflags (cpu s2')) with (eflags (cpu s2)). rewrite Hst. subst st.
  rewrite (cond_cmp _ _ _ t) by (done || apply rd_opd_u32 || apply rget_u32; done).
  pose proof (code_at_eip_small _ _ (wf_advance _ _ Hs) Hc4) as E1.
  assert (eip (cpu s2') = u32 (eip (cpu s) + Z.of_nat n + 2)) as E2.
  { change (eip (cpu s2')) with (u32 (eip (cpu s2) + 1)). rewrite He. simpl.
    rewrite u32_add_l. f_equal. lia. }
  split; [|by destruct t].
  destruct t; cbn [eip cpu retire with_eip upd_cpu upd_eip upd_cycles advance]; rewrite E2;
    simpl Z.of_nat; rewrite <- Z.add_assoc, u32_add_l; f_equal; lia.
Qed.
End branch.

(** CMP EAX, EBX; JL -5 with EAX = -1 and EBX = 1. *)
Lemma cmp_jcc_taken_witness :
  let s := toy_machine [0xFFFFFFFF; 0; 0; 1; 0; 0; 0; 0] 0x1000
             [(0x1000, [0x39; 0xD8; 0x7C; 0xFB])] in
  exists s', runs (emulate_body 0 ≫= fun _ => emulate_body 0) s (inl tt) s' /\
    eip (cpu s') = 0xFFF.
Proof.
  intros s. destruct (cmp_jcc_taken 0 s 3 (OReg 0) 12 0xFB true) as (s' & Hr & He & _).
  - by apply wf_toy.
  - done.
  - done.
  - done.
  - lia.
  - simpl. lia.
  - lia.
  - by split.
  - done.
  - exists s'. split; [exact Hr|exact He].
Defined.
