(* ===== verification/Isolation.v ===== *)
(** Isolation: only INT reaches the kernel state and the host. *)
From S2P Require Import Prelude CInt Machine Logic Mem Flags ModRM OpsFpu Backend Toy.
From S2P Require Import Dispatch Safety Exec Decode Alu Branch.

Definition is_prefix (h : handler) : bool :=
  match h with
  | H_prefix_cs | H_prefix_gs | H_prefix_66 | H_prefix_67 | H_prefix_lock => true
  | _ => false
  end.

Section isolation.
Context {H : Type} `{HostOS H} `{FloatOps}.
Implicit Types s : machine H.

(** The outcome of a computation from [s] is a guest step away from [s]. *)
Definition outcome_step {A} s (o : outcome H A) : Prop :=
  match o with Ret _ s' | Exited _ s' => guest_step s s' | Undef _ | NoFuel => True end.

Lemma outcome_step_resp {A} (m : M H A) s : respects guest_step m -> outcome_step s (m s).
Proof. intros Hm. apply Hm. Qed.

Lemma outcome_step_bind {A B} (m : M H A) (k : A -> M H B) s :
  outcome_step s (m s) -> (forall a s1, m s = Ret a s1 -> outcome_step s1 (k a s1)) ->
  outcome_step s ((m ≫= k) s).
Proof.
  intros Hm Hk. unfold mbind, M_bind. destruct (m s) as [a s1|st s1| |] eqn:E; try done.
  specialize (Hk a s1 eq_refl). destruct (k a s1); try done; simpl in *; by etrans.
Qed.

(** Running on from a known intermediate state. *)
Lemma outcome_step_runs {A B} (m : M H A) (k : A -> M H B) s a s1 :
  respects guest_step m -> runs m s a s1 -> outcome_step s1 (k a s1) ->
  outcome_step s ((m ≫= k) s).
Proof.
  intros Hm Hr Hk. apply outcome_step_bind; [by apply Hm|].
  unfold runs in Hr. rewrite Hr. by intros ? ? [= -> ->].
Qed.

Lemma outcome_step_then {A B} (m : M H A) (k : A -> M H B) s :
  outcome_step s (m s) -> (forall a, respects guest_step (k a)) ->
  outcome_step s ((m ≫= k) s).
Proof. intros Hm Hk. apply outcome_step_bind; [done|]. intros a s1 _. apply Hk. Qed.

(** A prefix handler, from the byte that follows the prefix. *)
Lemma prefix_step (exec : Z -> M H unit) h op next s :
  is_prefix h = true -> wf s -> code_at s [next] ->
  (forall s1, wf s1 -> g_mem (mem s1) = g_mem (mem s) -> g_size (mem s1) = g_size (mem s) ->
     eip (cpu s1) = eip (cpu (advance 1 s)) -> outcome_step s1 (exec next s1)) ->
  outcome_step s (call_handler exec call_0f h op s).
Proof.
  intros Hh Hs Hc Hx.
  assert (forall s1, wf s1 -> g_mem (mem s1) = g_mem (mem s) ->
    g_size (mem s1) = g_size (mem s) -> eip (cpu s1) = eip (cpu s) ->
    forall A (k : unit -> M H A), (forall a, respects guest_step (k a)) ->
    outcome_step s1 ((fetch8 ≫= fun b => exec b ≫= k) s1)) as Hf.
  { intros s1 W Em Ez Ee A k Hk. eapply outcome_step_runs; [eauto with resp| |].
    - apply code_at_fetch8; [done|by eapply code_at_same].
    - apply outcome_step_then; [|done]. apply Hx; auto with wf. simpl. by rewrite Ee. }
  destruct h; try done; cbn [call_handler].
  - apply Hf; try done. intros ?. respects.
  - unfold op_prefix_gs. eapply outcome_step_runs; [respects|apply runs_get_og|].
    eapply outcome_step_runs; [respects|apply runs_set_seg|].
    apply Hf; auto with wf. intros ?. respects.
  - unfold op_prefix_66. eapply outcome_step_runs; [respects|apply runs_modify|].
    apply Hf; auto; [|intros ?; respects].
    eapply wf_run; [exact Hs| |apply runs_modify]. by apply resp_set_opsize; right.
  - apply Hf; try done. intros ?. respects.
  - apply Hf; try done. intros ?. respects.
Qed.

Lemma resp_other_handler exec h op : is_prefix h = false -> h <> H_int ->
  respects (guest_step (H:=H)) (call_handler exec call_0f h op).
Proof.
  intros Hp Hi. destruct h; try done; cbn [call_handler]; try exact (resp_call_plain _ _).
  unfold op_prefix_0f. apply respects_bind; [exact _|respects|].
  intros b. apply resp_call_plain.
Qed.

(** C10: isolation.  An instruction - any number of prefixes, then an opcode other than
    INT - leaves the kernel state (descriptors, heap, mmap and signal tables), the host
    and the size of guest memory as they were and keeps the machine well-formed, whatever
    its outcome: a guest that does not execute INT 0x80 cannot affect anything outside its
    registers and its own memory. *)
Theorem instruction_isolated fuel pre opc first rest s :
  Forall (fun p => is_prefix (zget opcode_table p) = true) pre ->
  is_prefix (zget opcode_table opc) = false -> zget opcode_table opc <> H_int ->
  pre ++ [opc] = first :: rest -> wf s -> code_at s rest ->
  match execute_opcode fuel first s with
  | Ret _ s' | Exited _ s' =>
      wf s' /\ kern s' = kern s /\ host s' = host s /\ g_size (mem s') = g_size (mem s)
  | Undef _ | NoFuel => True
  end.
Proof.
  intros Hpre Hopc Hint Hcode Hs Hc.
  assert (outcome_step s (execute_opcode fuel first s)) as Ho.
  { revert fuel first rest s Hcode Hs Hc.
    induction Hpre as [|p pre Hp _ IH]; intros fuel first rest s Hcode Hs Hc.
    - injection Hcode as <- <-. apply outcome_step_resp.
      destruct fuel; cbn [execute_opcode]; by apply resp_other_handler.
    - injection Hcode as <- <-.
      destruct (pre ++ [opc]) as [|b rest'] eqn:E; [by destruct pre|].
      apply (code_at_app s [b] rest') in Hc as [Hc1 Hc2]; [|done].
      destruct fuel; cbn [execute_opcode]; (eapply prefix_step; [done|done|exact Hc1|]);
        [done|].
      intros s1 W Em Ez Ee. eapply IH; [done|done|]. by eapply code_at_same, Hc2. }
  unfold outcome_step in Ho. destruct (execute_opcode fuel first s);
    [destruct Ho as [W K Hh Z]; auto|destruct Ho as [W K Hh Z]; auto|exact I|exact I].
Qed.
End isolation.

(** GS LOCK ADD [EBX], EAX. *)
Lemma instruction_isolated_witness :
  let s := toy_machine [7; 0; 0; 0x2000; 0; 0; 0; 0] 0x1001
             [(0x1000, [0x65; 0xF0; 0x01; 0x03])] in
  match execute_opcode 2 0x65 s with
  | Ret _ s' => kern s' = kern s /\ host s' = host s /\ rd32 (mem s') 0x2000 = 7
  | _ => False
  end.
Proof.
  intros s.
  pose proof (instruction_isolated 2 [0x65; 0xF0] 0x01 0x65 [0xF0; 0x01] s) as P.
  assert (rd32 (mem (match execute_opcode 2 0x65 s with Ret _ s' => s' | _ => s end)) 0x2000
          = 7) as E by (vm_compute; reflexivity).
  destruct (execute_opcode 2 0x65 s) as [u s'|st s'|u|] eqn:X.
  - destruct P as (_ & K & Ho & _); [| | |done|by apply wf_toy|by split|by split; [|split]].
    + by repeat constructor.
    + done.
    + done.
  - by vm_compute in E.
  - by vm_compute in E.
  - by vm_compute in E.
Defined.
