(* ===== verification/Total.v ===== *)
(** Termination: no computation of the emulator runs out of the model's fuel.

    The loops driven by guest counters (REP, REPNE, writev) and by file sizes (the loader)
    stay within the turns [c_loop] allows, and a chain of prefixes ends where guest memory
    ends. *)
From S2P Require Import Prelude CInt Machine Logic Loops Mem Flags ModRM OpsAlu OpsMove.
From S2P Require Import OpsGroup OpsSimd OpsFpu Backend Toy Syscall Dispatch Safety Exec.
From S2P Require Import Decode Alu Branch Isolation.

Section total.
Context {H : Type}.
Implicit Types s : machine H.

(** [m] terminates from every well-formed state, and its steps keep the machine so. *)
Definition total {A} (m : M H A) : Prop :=
  respects kernel_step m /\ forall s, wf s -> m s <> NoFuel.

Lemma total_bind {A B} (m : M H A) (k : A -> M H B) :
  total m -> (forall a, total (k a)) -> total (m ≫= k).
Proof.
  intros [Rm Tm] Hk. split; [apply respects_bind; [exact _|done|intros a; apply Hk]|].
  intros s Hs. unfold mbind, M_bind. specialize (Tm s Hs). specialize (Rm s).
  destruct (m s) as [a s1|st s1|u|]; try done. apply Hk. by apply Rm.
Qed.

Lemma total_if {A} (b : bool) (m1 m2 : M H A) :
  total m1 -> total m2 -> total (if b then m1 else m2).
Proof. by destruct b. Qed.

(** Primitive computations: they respect steps and never answer [NoFuel]. *)
Lemma total_prim {A} (m : M H A) :
  respects kernel_step m -> (forall s, m s <> NoFuel) -> total m.
Proof. by split. Qed.

Lemma total_ret {A} (a : A) : total (mret a).
Proof. by apply total_prim; [respects|]. Qed.
Lemma total_gets {A} (f : machine H -> A) : total (gets f).
Proof. by apply total_prim; [respects|]. Qed.
Lemma total_undef {A} u : total (undef (A:=A) u).
Proof. by apply total_prim; [respects|]. Qed.
Lemma total_exit {A} n : total (c_exit (A:=A) n).
Proof. by apply total_prim; [respects|]. Qed.
Lemma total_c_shl w v n : total (c_shl w v n).
Proof. apply total_prim; [respects|]. intros s. unfold c_shl. by case_match. Qed.
Lemma total_c_shr w v n : total (c_shr w v n).
Proof. apply total_prim; [respects|]. intros s. unfold c_shr. by case_match. Qed.
Lemma total_c_int v : total (c_int v).
Proof. apply total_prim; [respects|]. intros s. unfold c_int. by case_match. Qed.
Lemma total_modify f : respects kernel_step (modify f) -> total (modify f).
Proof. intros Hr. by apply total_prim. Qed.
Lemma total_set_reg i v : total (set_reg i v).
Proof. by apply total_prim; [respects|]. Qed.
Lemma total_set_eip v : total (set_eip v).
Proof. by apply total_prim; [respects|]. Qed.
Lemma total_halt : total halt.
Proof. by apply total_prim; [respects|]. Qed.
Lemma total_add_cycles k : total (add_cycles k).
Proof.
  apply total_prim; [respects|]. intros s. unfold add_cycles, mbind, M_bind, gets.
  by destruct (fits_int _).
Qed.
Lemma total_add_cycles_u k : total (add_cycles_u k).
Proof. by apply total_prim; [respects|]. Qed.
Lemma total_set_opsize v : v = 0 \/ v = 1 -> total (set_operand_size_16 v).
Proof. intros Hv. apply total_prim; [|done]. by apply resp_guest_kernel, resp_set_opsize. Qed.
Lemma total_set_seg v : total (set_seg_override v).
Proof. by apply total_prim; [respects|]. Qed.
Lemma total_set_mmx i v : total (set_mmx i v).
Proof. by apply total_prim; [respects|]. Qed.
Lemma total_set_xmm i v : total (set_xmm i v).
Proof. by apply total_prim; [respects|]. Qed.
Lemma total_set_fpu i v : total (set_fpu i v).
Proof. by apply total_prim; [respects|]. Qed.
Lemma total_move_top k : total (move_top k).
Proof. by apply total_prim; [respects|]. Qed.
Lemma total_host_load a : total (host_load a).
Proof. apply total_prim; [respects|]. intros s. unfold host_load. by case_match. Qed.
Lemma total_host_store a v : total (host_store a v).
Proof. apply total_prim; [respects|]. intros s. unfold host_store. by case_match. Qed.
Lemma total_host_store_bytes a bs : total (host_store_bytes a bs).
Proof. apply total_prim; [respects|]. intros s. unfold host_store_bytes. by case_match. Qed.
Lemma total_host_load_bytes a n : total (host_load_bytes a n).
Proof. apply total_prim; [respects|]. intros s. unfold host_load_bytes. by case_match. Qed.
Lemma total_host_memset a v n : total (host_memset a v n).
Proof. apply total_prim; [respects|]. intros s. unfold host_memset. by case_match. Qed.
End total.

Create HintDb total discriminated.
#[export] Hint Constants Opaque : total.
#[export] Hint Resolve total_ret total_gets total_undef total_exit total_c_shl total_c_shr
  total_c_int total_set_reg total_set_eip total_halt total_add_cycles total_add_cycles_u
  total_set_seg total_set_mmx total_set_xmm total_set_fpu total_move_top total_host_load
  total_host_store total_host_store_bytes total_host_load_bytes total_host_memset : total.
#[export] Hint Extern 1 (total (set_operand_size_16 _)) => apply total_set_opsize; auto : total.
#[export] Hint Extern 1 (total (reg _)) => apply total_gets : total.
#[export] Hint Extern 1 (total get_eip) => apply total_gets : total.
#[export] Hint Extern 1 (total get_eflags) => apply total_gets : total.
#[export] Hint Extern 1 (total (get_og _)) => apply total_gets : total.
#[export] Hint Extern 1 (total (get_kern _)) => apply total_gets : total.
#[export] Hint Extern 1 (total (fd_entry _)) => apply total_gets : total.
#[export] Hint Extern 1 (total mem_size) => apply total_gets : total.
#[export] Hint Extern 1 (total (mmx _)) => apply total_gets : total.
#[export] Hint Extern 1 (total (xmm _)) => apply total_gets : total.
#[export] Hint Extern 1 (total (fpu _)) => apply total_gets : total.
#[export] Hint Extern 1 (total (check_bounds _ _)) => apply total_gets : total.

(** Walk through a computation as [respects] does. *)
Ltac totals :=
  repeat first
    [ assumption
    | solve [eauto 2 with total nocore]
    | match goal with
      | |- total (mbind _ _) => apply total_bind; [|intros ?]
      | |- total (if _ then _ else _) => apply total_if
      | |- total (match ?x with _ => _ end) => destruct x
      | |- total (let '_ := ?x in _) => destruct x
      end ].

Section helpers.
Context {H : Type}.
Abbreviation total := (total (H:=H)).

Lemma total_mem_read8 a : total (mem_read8 a).
Proof. unfold mem_read8. totals. Qed.
Lemma total_mem_read16 a : total (mem_read16 a).
Proof. unfold mem_read16. totals. Qed.
Lemma total_mem_read32 a : total (mem_read32 a).
Proof. unfold mem_read32. totals. Qed.
Lemma total_mem_write8 a v : total (mem_write8 a v).
Proof. unfold mem_write8. totals. Qed.
Lemma total_mem_write16 a v : total (mem_write16 a v).
Proof. unfold mem_write16. totals. Qed.
Lemma total_mem_write32 a v : total (mem_write32 a v).
Proof. unfold mem_write32. totals. Qed.
Lemma total_guest_to_host a : total (guest_to_host a).
Proof. unfold guest_to_host. totals. Qed.
Lemma total_set_cf v : total (set_cf v).
Proof. apply total_prim; [respects|done]. Qed.
Lemma total_set_pf v : total (set_pf v).
Proof. apply total_prim; [respects|done]. Qed.
Lemma total_set_zf v : total (set_zf v).
Proof. apply total_prim; [respects|done]. Qed.
Lemma total_set_sf v : total (set_sf v).
Proof. apply total_prim; [respects|done]. Qed.
Lemma total_set_of_add a b v : total (set_of_add a b v).
Proof. apply total_prim; [respects|done]. Qed.
Lemma total_set_of_sub a b v : total (set_of_sub a b v).
Proof. apply total_prim; [respects|done]. Qed.
End helpers.
#[export] Hint Resolve total_mem_read8 total_mem_read16 total_mem_read32 total_mem_write8
  total_mem_write16 total_mem_write32 total_guest_to_host total_set_cf total_set_pf
  total_set_zf total_set_sf total_set_of_add total_set_of_sub : total.

#[export] Hint Unfold get_cf get_pf get_zf get_sf get_of : handlers.

Section operands.
Context {H : Type}.
Abbreviation total := (total (H:=H)).

Lemma total_get_cf : total get_cf.
Proof. unfold get_cf. totals. Qed.
Lemma total_fetch8 : total fetch8.
Proof. unfold fetch8. totals. Qed.
Lemma total_fetch16 : total fetch16.
Proof. unfold fetch16. totals. Qed.
Lemma total_fetch32 : total fetch32.
Proof. unfold fetch32. totals. Qed.
Lemma total_get_reg8 r : total (get_reg8 r).
Proof. unfold get_reg8. totals. Qed.
Lemma total_set_reg8 r v : total (set_reg8 r v).
Proof. unfold set_reg8. totals. Qed.
#[local] Hint Resolve total_fetch8 total_fetch16 total_fetch32 total_get_reg8
  total_set_reg8 : total.
Lemma total_parse_modrm : total parse_modrm.
Proof. unfold parse_modrm. cbv zeta. totals. Qed.
Lemma total_resolve m : total (resolve_rm_addr m).
Proof. unfold resolve_rm_addr. totals. Qed.
#[local] Hint Resolve total_parse_modrm total_resolve : total.
Lemma total_read_rm32 m : total (read_rm32 m).
Proof. unfold read_rm32. totals. Qed.
Lemma total_write_rm32 m v : total (write_rm32 m v).
Proof. unfold write_rm32. totals. Qed.
Lemma total_read_rm8 m : total (read_rm8 m).
Proof. unfold read_rm8. totals. Qed.
Lemma total_write_rm8 m v : total (write_rm8 m v).
Proof. unfold write_rm8. totals. Qed.
Lemma total_read_rm16 m : total (read_rm16 m).
Proof. unfold read_rm16. totals. Qed.
Lemma total_write_rm16 m v : total (write_rm16 m v).
Proof. unfold write_rm16. totals. Qed.
Lemma total_mem_read64 a : total (mem_read64 a).
Proof. unfold mem_read64. totals. Qed.
Lemma total_mem_write64 a v : total (mem_write64 a v).
Proof. unfold mem_write64. totals. Qed.
#[local] Hint Resolve total_mem_read64 total_mem_write64 : total.
Lemma total_read_xmm_src m : total (read_xmm_src m).
Proof. unfold read_xmm_src. totals. Qed.
Lemma total_write_xmm_dst m v : total (write_xmm_dst m v).
Proof. unfold write_xmm_dst. totals. Qed.
Lemma total_read_mmx_src m : total (read_mmx_src m).
Proof. unfold read_mmx_src. totals. Qed.
Lemma total_condition c : total (condition c).
Proof. unfold condition. repeat autounfold with handlers. totals. Qed.
Lemma total_push32 v : total (push32 v).
Proof. unfold push32, bump_reg. totals. Qed.

(** ** The REP loops *)

(** An element operation that terminates and does not touch ECX. *)
Lemma total_rep_while elem :
  total elem -> (forall s s', elem s = Ret tt s' -> rget s' REG_ECX = rget s REG_ECX) ->
  total (c_while (rep_body elem)).
Proof.
  intros [Re Te] Hcx. split.
  { apply respects_c_while; [exact _|]. unfold rep_body, bump_reg. respects. }
  intros s Hs.
  apply (c_while_total _ wf (fun s => rget s REG_ECX)); [| |done|].
  - intros s1 H1. unfold rep_body, mbind, M_bind. simpl. specialize (Te s1 H1).
    destruct (0 <? _); [|done]. by destruct (elem s1).
  - intros s1 s2 H1. unfold rep_body, mbind, M_bind. simpl.
    destruct (0 <? zget (regs (cpu s1)) REG_ECX) eqn:Hp; [|done].
    pose proof (fun s3 => respects_run kernel_step elem s1 tt s3 Re) as Hw.
    specialize (Hcx s1).
    destruct (elem s1) as [[] s3|st s3|u|] eqn:E; try done.
    specialize (Hw s3 E) as [Hw _]. specialize (Hw H1). specialize (Hcx s3 eq_refl).
    intros [= <-]. fold (rget s3 REG_ECX). fold (rset REG_ECX (rget s3 REG_ECX + -1) s3).
    split; [by apply wf_rset|].
    rewrite rget_rset_eq by (done || (unfold REG_ECX; lia)). rewrite Hcx.
    fold (rget s1 REG_ECX) in Hp. pose proof (rget_u32 s1 REG_ECX H1 ltac:(unfold REG_ECX; lia)).
    rewrite u32_small by (unfold is_u32 in *; lia). lia.
  - pose proof (rget_u32 s REG_ECX Hs ltac:(unfold REG_ECX; lia)). unfold is_u32 in *. lia.
Qed.

(** ** REPNE SCASB *)

(** One turn with ECX > 0, as a state change. *)
Definition scasb_turn (s : machine H) : machine H :=
  let a := u8 (rget s REG_EAX) in
  let b := rd8 (mem s) (rget s REG_EDI) in
  let s1 := rset REG_EDI (rget s REG_EDI + 1) s in
  let s2 := rset REG_ECX (rget s1 REG_ECX - 1) s1 in
  let r := u8 (a - b) in
  put_flag_st 11 (xorb (Z.testbit a 31) (Z.testbit b 31) &&
                  xorb (Z.testbit a 31) (Z.testbit r 31))
    (put_flag_st 7 (Z.testbit r 31) (put_flag_st 6 (r =? 0) (put_flag_st 0 (a <? b) s2))).

Lemma runs_repne_turn s : wf s -> 0 < rget s REG_ECX ->
  runs repne_scasb_body s
    (negb (u8 (u8 (rget s REG_EAX) - rd8 (mem s) (rget s REG_EDI)) =? 0)) (scasb_turn s).
Proof.
  intros Hs Hcx. unfold repne_scasb_body.
  pose proof (rget_u32 s REG_EDI Hs ltac:(unfold REG_EDI; lia)) as Hdi. unfold is_u32 in Hdi.
  pose proof (rd8_range (mem s) (rget s REG_EDI) (wf_m_mem _ Hs)) as Hb.
  eapply runs_bind; [apply runs_reg|]. btest (0 <? rget s REG_ECX).
  eapply runs_bind; [apply runs_reg|]. cbv zeta.
  eapply runs_bind; [apply runs_reg|].
  eapply runs_bind; [apply runs_mem_read8; lia|].
  eapply runs_bind; [eapply runs_bind; [apply runs_reg|apply runs_set_reg]|].
  eapply runs_bind; [eapply runs_bind; [apply runs_reg|apply runs_set_reg]|].
  do 3 (eapply runs_bind; [solve [eauto with run]|]).
  eapply runs_bind; [apply runs_set_of_sub; [apply u8_u32_range|]|].
  { unfold is_u8, is_u32 in *. lia. }
  eapply runs_bind; [apply runs_get_zf|]. rewrite b2z_neq0.
  eapply runs_eq; [apply runs_ret| |done].
  set (r := u8 (_ - _)). unfold flag. cbn [eflags cpu put_flag_st upd_cpu upd_eflags].
  rewrite !testbit_put_bit by lia. simpl (6 =? _). cbn [Z.eqb Pos.eqb].
  by destruct (r =? 0).
Qed.

Lemma scasb_turn_ecx s : wf s -> 0 < rget s REG_ECX ->
  wf (scasb_turn s) /\ rget (scasb_turn s) REG_ECX = rget s REG_ECX - 1.
Proof.
  intros Hs Hcx. split.
  - unfold scasb_turn. repeat (apply wf_put_flag; [lia|lia|done|]). auto with wf.
  - unfold scasb_turn. cbv zeta.
    change (rget (rset REG_EDI ?v s) REG_ECX) with (rget (rset REG_EDI v s) REG_ECX).
    pose proof (rget_u32 s REG_ECX Hs ltac:(unfold REG_ECX; lia)). unfold is_u32 in *.
    assert (forall v, rget (rset REG_EDI v s) REG_ECX = rget s REG_ECX) as E
      by (intros v; by apply rget_rset_ne).
    transitivity (rget (rset REG_ECX (rget s REG_ECX - 1) (rset REG_EDI (rget s REG_EDI + 1) s))
      REG_ECX); [by rewrite E|].
    rewrite rget_rset_eq by (auto with wf; unfold REG_ECX; lia). apply u32_small.
    unfold is_u32. lia.
Qed.

Lemma total_repne_while : total (c_while repne_scasb_body).
Proof.
  split.
  { apply respects_c_while; [exact _|]. unfold repne_scasb_body, bump_reg. respects. }
  intros s Hs.
  apply (c_while_total _ wf (fun s => rget s REG_ECX)); [| |done|].
  - intros s1 H1. destruct (Z.ltb_spec 0 (rget s1 REG_ECX)) as [Hp|Hp].
    + by rewrite (runs_repne_turn s1 H1 Hp).
    + unfold repne_scasb_body, mbind, M_bind, reg, gets. fold (rget s1 REG_ECX).
      by btest (0 <? rget s1 REG_ECX).
  - intros s1 s2 H1 E. destruct (Z.ltb_spec 0 (rget s1 REG_ECX)) as [Hp|Hp].
    + rewrite (runs_repne_turn s1 H1 Hp) in E. injection E as _ <-.
      destruct (scasb_turn_ecx s1 H1 Hp) as [Hw ->]. split; [done|lia].
    + unfold repne_scasb_body, mbind, M_bind, reg, gets in E. fold (rget s1 REG_ECX) in E.
      assert ((0 <? rget s1 REG_ECX) = false) as X by lia. by rewrite X in E.
  - pose proof (rget_u32 s REG_ECX Hs ltac:(unfold REG_ECX; lia)). unfold is_u32 in *. lia.
Qed.
End operands.
#[export] Hint Resolve total_get_cf total_fetch8 total_fetch16 total_fetch32 total_get_reg8
  total_set_reg8 total_parse_modrm total_resolve total_read_rm32 total_write_rm32
  total_read_rm8 total_write_rm8 total_read_rm16 total_write_rm16 total_mem_read64
  total_mem_write64 total_read_xmm_src total_write_xmm_dst total_read_mmx_src
  total_condition total_push32 total_repne_while : total.

(** ** The handlers *)

Section handlers.
Context {H : Type}.
Implicit Types s : machine H.

Definition keep_ecx s s' : Prop := rget s' REG_ECX = rget s REG_ECX.
#[export] Instance keep_ecx_preorder : PreOrder keep_ecx.
Proof. split; [done|]. intros s1 s2 s3 E1 E2. unfold keep_ecx in *. congruence. Qed.

Lemma keep_host_load a : respects keep_ecx (host_load a).
Proof. intros s. unfold host_load. by destruct (_ && _). Qed.
Lemma keep_host_store a v : respects keep_ecx (host_store a v).
Proof. intros s. unfold host_store. by destruct (_ && _). Qed.
Lemma keep_check_bounds a w : respects keep_ecx (check_bounds a w).
Proof. by intros s. Qed.
Lemma keep_reg r : respects keep_ecx (reg r).
Proof. by intros s. Qed.
Lemma keep_set_esi v : respects keep_ecx (set_reg REG_ESI v).
Proof. intros s. by apply rget_rset_ne. Qed.
Lemma keep_set_edi v : respects keep_ecx (set_reg REG_EDI v).
Proof. intros s. by apply rget_rset_ne. Qed.
#[local] Hint Resolve keep_host_load keep_host_store keep_check_bounds keep_reg
  keep_set_esi keep_set_edi : resp.

Lemma total_rep_loop elem :
  total elem -> respects keep_ecx elem -> total (rep_loop (H:=H) elem).
Proof.
  intros Ht Hk.
  assert (total (c_while (rep_body elem))).
  { apply total_rep_while; [done|]. intros s s' E. specialize (Hk s). by rewrite E in Hk. }
  unfold rep_loop. totals.
Qed.

Lemma total_rep_movs8 : total (rep_loop (H:=H) movs8).
Proof.
  apply total_rep_loop; unfold movs8, bump_reg; [totals|].
  unfold mem_read8, mem_write8. respects.
Qed.
Lemma total_rep_movs32 : total (rep_loop (H:=H) movs32).
Proof.
  apply total_rep_loop; unfold movs32, bump_reg; [totals|].
  unfold mem_read32, mem_write32. respects.
Qed.
Lemma total_rep_stos8 : total (rep_loop (H:=H) stos8).
Proof.
  apply total_rep_loop; unfold stos8, bump_reg; [totals|]. unfold mem_write8. respects.
Qed.
Lemma total_rep_stos32 : total (rep_loop (H:=H) stos32).
Proof.
  apply total_rep_loop; unfold stos32, bump_reg; [totals|]. unfold mem_write32. respects.
Qed.
#[local] Hint Resolve total_rep_movs8 total_rep_movs32 total_rep_stos8 total_rep_stos32 : total.

Lemma total_op_rep op : total (op_rep (H:=H) op).
Proof. unfold op_rep, set_xmm_lo, set_xmm_hi, read_xmm_lo. totals. Qed.
Lemma total_op_repne op : total (op_repne (H:=H) op).
Proof. unfold op_repne, set_xmm_lo, set_xmm_hi, read_xmm_lo. totals. Qed.
#[local] Hint Resolve total_op_rep total_op_repne : total.

Lemma total_call_plain `{FloatOps} h op : total (call_plain (H:=H) h op).
Proof.
  destruct h; unfold call_plain;
    try (solve [eauto 2 with total nocore]); repeat autounfold with handlers; totals.
Qed.
End handlers.
#[export] Hint Resolve total_call_plain : total.

(** ** System calls *)

Section kernel.
Context {H : Type} `{HostOS H}.
Abbreviation total := (total (H:=H)).
Implicit Types s : machine H.

Lemma total_os {A} (f : H -> A * H) : total (os f).
Proof.
  split; [apply resp_os|]. intros s _. unfold os. by destruct (f (host s)).
Qed.
Lemma total_set_fd_entry fd e : total (set_fd_entry fd e).
Proof. by apply total_prim; [respects|]. Qed.
Lemma total_set_brk v : total (set_brk v).
Proof. by apply total_prim; [respects|]. Qed.
Lemma total_set_mmap_ptr v : total (set_mmap_ptr v).
Proof. apply total_prim; [apply resp_set_mmap_ptr|done]. Qed.
Lemma total_set_gs_base v : total (set_gs_base v).
Proof. by apply total_prim; [respects|]. Qed.
Lemma total_host_string p : total (host_string p).
Proof.
  apply total_prim; [apply resp_host_string|]. intros s. unfold host_string.
  destruct (scan2 _ _ _); [|done]. by case_match.
Qed.
#[local] Hint Resolve total_os total_set_fd_entry total_set_brk total_set_mmap_ptr
  total_set_gs_base total_host_string : total.

Lemma total_bad_fd fd : total (bad_fd fd).
Proof. unfold bad_fd. totals. Qed.
Lemma total_sys_exit {A} st : total (sys_exit (A:=A) st).
Proof. unfold sys_exit. totals. Qed.
Lemma total_host_load32 p : total (host_load32 p).
Proof. unfold host_load32. totals. Qed.
Lemma total_host_store32 p v : total (host_store32 p v).
Proof. unfold host_store32. totals. Qed.
#[local] Hint Resolve total_bad_fd total_sys_exit total_host_load32 total_host_store32 : total.

Lemma total_sys_write fd a n : total (sys_write fd a n).
Proof. unfold sys_write. totals. Qed.
Lemma total_sys_read fd a n : total (sys_read fd a n).
Proof. unfold sys_read. totals. Qed.
Lemma total_sys_open p f m : total (sys_open p f m).
Proof. unfold sys_open, alloc_fd. totals. Qed.
Lemma total_sys_close fd : total (sys_close fd).
Proof. unfold sys_close. totals. Qed.
Lemma total_sys_lseek fd o w : total (sys_lseek fd o w).
Proof. unfold sys_lseek. totals. Qed.
Lemma total_sys_mmap2 a l p f fd o : total (sys_mmap2 a l p f fd o).
Proof. unfold sys_mmap2. totals. Qed.
Lemma total_sys_brk b : total (sys_brk b).
Proof. unfold sys_brk. totals. Qed.
Lemma total_store_fields p fs : total (store_fields p fs).
Proof. induction fs as [|[[]]]; simpl; totals. Qed.
#[local] Hint Resolve total_sys_write total_sys_lseek total_store_fields : total.
Lemma total_sys_fstat64 fd a : total (sys_fstat64 fd a).
Proof. unfold sys_fstat64. totals. Qed.

Lemma total_sys_sigaction sig a o n : total (sys_rt_sigaction sig a o n).
Proof.
  split; [apply resp_sys_sigaction|]. intros s Hs.
  unfold sys_rt_sigaction, guest_to_host, check_bounds, host_load_bytes, host_store_bytes,
    mbind, M_bind, gets, modify, mret, M_ret.
  repeat (case_match; try discriminate).
Qed.
Lemma total_sys_sigprocmask h a o n : total (sys_rt_sigprocmask h a o n).
Proof. unfold sys_rt_sigprocmask. totals. Qed.
Lemma total_sys_set_tid t : total (sys_set_tid_address t).
Proof. unfold sys_set_tid_address. totals. Qed.
Lemma total_sys_set_thread_area a : total (sys_set_thread_area a).
Proof. unfold sys_set_thread_area. totals. Qed.
Lemma total_write_words n a v : total (write_words n a v).
Proof. revert a. induction n; intros a; simpl; totals. Qed.

Lemma total_writev_body fd a n st : total (writev_body fd a n st).
Proof. unfold writev_body. totals. Qed.

(** A turn of the loop of [sys_writev] that goes on advances the index below the count. *)
Lemma writev_body_next fd a n i t s i' t' s' :
  writev_body fd a n (i, t) s = Ret (inl (i', t')) s' -> i < n /\ i' = i + 1.
Proof.
  unfold writev_body. destruct (Z.ltb_spec i n) as [Hi|Hi]; [|done].
  unfold mbind, M_bind. intros E. split; [done|].
  repeat (case_match; try discriminate);
    unfold c_int, mret, M_ret, undef in *; simplify_eq; try done;
    repeat (case_match; simplify_eq); done.
Qed.

Lemma total_sys_writev fd a n : n < 2 ^ 31 -> total (sys_writev fd a n).
Proof.
  intros Hn. split; [apply resp_sys_writev|]. intros s Hs. unfold sys_writev.
  apply (c_loop_total _ (fun st s => wf s /\ 0 <= st.1) (fun st _ => Z.max 0 (n - st.1))).
  - intros st s1 [H1 _]. by apply total_writev_body.
  - intros [i t] s1 [i' t'] s2 [H1 Hi] E. destruct (writev_body_next _ _ _ _ _ _ _ _ _ E) as [? ->].
    pose proof (respects_run _ _ _ _ _ (proj1 (total_writev_body fd a n (i, t))) E) as [Hw _].
    simpl in *. split; [split; [auto|lia]|lia].
  - done.
  - simpl. change (2 ^ 31) with 2147483648 in Hn. lia.
Qed.

#[local] Hint Resolve total_write_words total_sys_read total_sys_open total_sys_close
  total_sys_mmap2 total_sys_brk total_sys_fstat64 total_sys_sigaction total_sys_sigprocmask
  total_sys_set_tid total_sys_set_thread_area : total.

Lemma total_dispatch_syscall : total dispatch_syscall.
Proof.
  unfold dispatch_syscall.
  do 7 (apply total_bind; [apply total_gets|intros ?]).
  apply switch_Forall.
  - unfold syscall_cases, ret_eax, fill_words, sys_uname, strncpy, sys_llseek,
      sys_tgkill, sys_getrandom, sys_munmap, sys_mprotect.
    repeat first [apply Forall_nil_2
      | apply Forall_cons_2;
        [simpl snd; totals; try (apply total_sys_writev; apply s32_range)|]].
  - unfold ret_eax. totals.
Qed.
End kernel.
#[export] Hint Resolve total_dispatch_syscall : total.

(** ** Prefix chains *)

Section execute.
Context {H : Type} `{HostOS H} `{FloatOps}.
Implicit Types s : machine H.

(** Bytes of guest memory from EIP on, an upper bound of the prefixes still to come. *)
Definition code_left s : Z := Z.max 0 (g_size (mem s) - eip (cpu s)).

Lemma total_other_handler exec h op : is_prefix h = false ->
  total (call_handler (H:=H) exec call_0f h op).
Proof.
  intros Hp. destruct h; try done; cbn [call_handler];
    try (solve [eauto 2 with total nocore]).
  - unfold op_prefix_0f, call_0f. totals.
  - unfold op_int. totals.
Qed.

Lemma bind_total {A B} (m : M H A) (k : A -> M H B) s :
  wf s -> respects kernel_step m -> m s <> NoFuel -> (forall a, total (k a)) ->
  (m ≫= k) s <> NoFuel.
Proof.
  intros Hs Hr Hm Hk. unfold mbind, M_bind. specialize (Hr s).
  destruct (m s) as [a s1|st s1|u|]; try done. apply Hk. by apply Hr.
Qed.

Lemma prefix_total (exec : Z -> M H unit) h op s :
  wf s -> (forall o, respects kernel_step (exec o)) ->
  (forall s1, wf s1 -> mem s1 = mem s -> cpu s1 = cpu s ->
     exec (rd8 (mem s) (eip (cpu s))) (with_eip (eip (cpu s) + 1) s1) <> NoFuel) ->
  call_handler exec call_0f h op s <> NoFuel.
Proof.
  intros Hs Hr Hx.
  assert (forall s1 B (k : unit -> M H B), wf s1 -> mem s1 = mem s -> cpu s1 = cpu s ->
    (forall a, total (k a)) -> (fetch8 ≫= fun b => exec b ≫= k) s1 <> NoFuel) as Hf.
  { intros s1 B k W1 Em Ec Hk. rewrite (bind_Ret _ _ _ _ _ (runs_fetch8 s1 W1)).
    apply bind_total; [auto with wf|done| |done]. rewrite Em, Ec. by apply Hx. }
  destruct (is_prefix h) eqn:Hp; [|by apply total_other_handler].
  destruct h; try done; cbn [call_handler].
  - apply Hf; try done. intros ?. totals.
  - apply (Hf (with_seg (g_gs_base (og s)) s)); auto with wf. intros ?. totals.
  - unfold op_prefix_66.
    assert (wf (upd_og (upd_operand_size_16 1) s)) as W1.
    { eapply wf_run; [exact Hs| |apply runs_modify]. by apply resp_set_opsize; right. }
    apply (Hf (upd_og (upd_operand_size_16 1) s)); auto. intros ?. totals.
  - apply Hf; try done. intros ?. totals.
  - apply Hf; try done. intros ?. totals.
Qed.

Lemma execute_total fuel op s : wf s ->
  1 + code_left s <= Z.of_nat fuel \/ is_prefix (zget opcode_table op) = false ->
  execute_opcode fuel op s <> NoFuel.
Proof.
  revert op s. induction fuel as [|fuel IH]; intros op s Hs Hf; cbn [execute_opcode].
  - destruct Hf as [Hf|Hf]; [unfold code_left in Hf; lia|by apply total_other_handler].
  - destruct Hf as [Hf|Hf]; [|by apply total_other_handler].
    apply prefix_total; [done|intros o; apply resp_execute_opcode|].
    intros s1 W1 Em Ec. apply IH; [auto with wf|].
    pose proof (wf_size _ (wf_m_mem _ Hs)). pose proof (wf_eip _ (wf_m_cpu _ Hs)) as He.
    unfold is_u32 in He. unfold code_left, rd8, in_range in *.
    destruct (Z.leb_spec (eip (cpu s) + 1) (g_size (mem s))); [left|by right].
    simpl. rewrite Em. rewrite u32_small by (unfold is_u32; lia). lia.
Qed.

(** C11: termination of an instruction.  From every well-formed machine, executing any
    opcode terminates: with the fuel [prefix_fuel], two more than the size of guest memory,
    [execute_opcode] never runs out of it, however long the chain of prefixes, and neither
    the REP and REPNE loops nor those of the system calls run out of the turns the model
    gives them.  The instruction returns, exits, or reaches undefined behaviour. *)
Theorem execute_terminates op s :
  wf s -> execute_opcode (prefix_fuel s) op s <> NoFuel.
Proof.
  intros Hs. apply execute_total; [done|]. left.
  pose proof (wf_size _ (wf_m_mem _ Hs)). pose proof (wf_eip _ (wf_m_cpu _ Hs)) as He.
  unfold is_u32 in He. unfold prefix_fuel, code_left. lia.
Qed.
End execute.

(** A machine whose memory ends in LOCK prefixes. *)
Lemma execute_terminates_witness :
  let s := toy_machine (replicate 8 0) 0xFFF1 [(0xFFF0, replicate 16 0xF0)] in
  execute_opcode (prefix_fuel s) 0xF0 s <> NoFuel.
Proof. intros s. apply (execute_terminates 0xF0 s). by apply wf_toy. Defined.
