(* ===== verification/Strings.v ===== *)
(** The repeated string instructions: REP STOSB is memset, REP MOVSB is memcpy, REPNE SCASB
    is memchr. *)
From S2P Require Import Prelude CInt Machine Logic Loops Mem Flags ModRM OpsMove OpsSimd.
From S2P Require Import Backend Toy Exec Decode Total.

(** * Register files *)

Section registers.
Context {H : Type}.
Implicit Types s : machine H.

Lemma rset_same s r : wf s -> 0 <= r < 8 -> rset r (rget s r) s = s.
Proof.
  intros Hs Hr. pose proof (rget_u32 s r Hs Hr) as Hu.
  pose proof (wf_regs_length _ (wf_m_cpu _ Hs)) as Hl.
  destruct s as [c m o k h], c as [l e f t y]. unfold rset, rget, upd_cpu, upd_regs in *.
  cbn [cpu regs mem og kern host eip eflags halted cycles] in *.
  rewrite u32_small by done. unfold zset, zget. rewrite list_insert_id; [done|].
  apply list_lookup_lookup_total_lt. lia.
Qed.

Lemma rset_rset_eq s r v w : rset r v (rset r w s) = rset r v s.
Proof.
  destruct s as [[]]. unfold rset, upd_cpu, upd_regs. simpl. unfold zset.
  by rewrite list_insert_insert_eq.
Qed.

Lemma rset_comm s r r' v w : 0 <= r -> 0 <= r' -> r <> r' ->
  rset r v (rset r' w s) = rset r' w (rset r v s).
Proof.
  intros Hr Hr' Hne. destruct s as [[]]. unfold rset, upd_cpu, upd_regs. simpl. unfold zset.
  by rewrite list_insert_insert_ne by lia.
Qed.

Lemma rset3 s a b c a' b' c' :
  rset REG_ECX a (rset REG_EDI b (rset REG_ESI c
    (rset REG_ECX a' (rset REG_EDI b' (rset REG_ESI c' s)))))
  = rset REG_ECX a (rset REG_EDI b (rset REG_ESI c s)).
Proof.
  rewrite (rset_comm _ REG_ESI REG_ECX), (rset_comm _ REG_EDI REG_ECX) by done.
  rewrite rset_rset_eq. f_equal.
  rewrite (rset_comm _ REG_ESI REG_EDI) by done. by rewrite !rset_rset_eq.
Qed.

Lemma rset_u32 s r v : rset r (u32 v) s = rset r v s.
Proof. unfold rset. by rewrite u32_idem. Qed.

Lemma rset_u32_add s r v k : rset r (u32 v + k) s = rset r (v + k) s.
Proof. unfold rset. by rewrite u32_add_l. Qed.
End registers.

Lemma store_bytes_snoc off bs b m :
  store_bytes off (bs ++ [b]) m = <[off + Z.of_nat (length bs) := b]> (store_bytes off bs m).
Proof. apply store_bytes_app. Qed.

Lemma wr8_in m a v : 0 <= a -> a + 1 <= g_size m -> wr8 a v m = upd_bytes <[a := u8 v]> m.
Proof. intros Ha Hr. unfold wr8, wr_bytes, in_range. simpl. by bif. Qed.

Section rep.
Context {H : Type}.
Implicit Types s : machine H.

(** The machine after [k] of the elements [bs] have been stored at EDI; [inc] is what ESI
    advances by with each. *)
Definition rep_state (inc : Z) (bs : list Z) s (k : nat) : machine H :=
  upd_mem (upd_bytes (store_bytes (rget s REG_EDI) (take k bs)))
    (rset REG_ECX (rget s REG_ECX - Z.of_nat k)
      (rset REG_EDI (rget s REG_EDI + Z.of_nat k)
        (rset REG_ESI (rget s REG_ESI + inc * Z.of_nat k) s))).
(** The cycles REP counts: unsigned, and converted back to [int]. *)
Definition charge (n : Z) s : machine H :=
  upd_cpu (upd_cycles (fun c => s32 (u32 c + u32 (n + 1)))) s.

Lemma rep_state_0 inc bs s : wf s -> rep_state inc bs s 0 = s.
Proof.
  intros Hs. unfold rep_state. simpl take. cbn [store_bytes Z.of_nat].
  rewrite Z.mul_0_r, !Z.add_0_r, Z.sub_0_r.
  rewrite (rset_same s REG_ESI) by (done || (unfold REG_ESI; lia)).
  rewrite (rset_same s REG_EDI) by (done || (unfold REG_EDI; lia)).
  rewrite (rset_same s REG_ECX) by (done || (unfold REG_ECX; lia)).
  by destruct s as [? []].
Qed.

Lemma ecx_range s : wf s -> 0 <= rget s REG_ECX < 0x100000000.
Proof. intros Hs. apply (rget_u32 s REG_ECX Hs). unfold REG_ECX. lia. Qed.
Lemma edi_range s : wf s -> 0 <= rget s REG_EDI < 0x100000000.
Proof. intros Hs. apply (rget_u32 s REG_EDI Hs). unfold REG_EDI. lia. Qed.

Section loop.
Context (inc : Z) (bs : list Z) s (Hs : wf s) (Hbs : Forall is_u8 bs).
Context (Hlen : Z.of_nat (length bs) = rget s REG_ECX).
Context (Hroom : rget s REG_EDI + rget s REG_ECX <= g_size (mem s)).

Lemma wf_rep_state k : (k <= length bs)%nat -> wf (rep_state inc bs s k).
Proof.
  intros Hk. pose proof (ecx_range s Hs). pose proof (edi_range s Hs).
  assert (wf (rset REG_ECX (rget s REG_ECX - Z.of_nat k)
      (rset REG_EDI (rget s REG_EDI + Z.of_nat k)
        (rset REG_ESI (rget s REG_ESI + inc * Z.of_nat k) s)))) as [Wc Wm Wo Wk]
    by auto with wf.
  unfold rep_state. constructor; try done. apply wf_store_bytes; [done|lia| |by apply Forall_take].
  rewrite length_take. simpl. lia.
Qed.

Lemma rep_state_ecx k : (k <= length bs)%nat ->
  rget (rep_state inc bs s k) REG_ECX = rget s REG_ECX - Z.of_nat k.
Proof.
  intros Hk. pose proof (ecx_range s Hs).
  etrans; [apply rget_rset_eq; [auto with wf|unfold REG_ECX; lia]|].
  apply u32_small. unfold is_u32. lia.
Qed.

Lemma rep_state_edi k : (k <= length bs)%nat ->
  rget (rep_state inc bs s k) REG_EDI = u32 (rget s REG_EDI + Z.of_nat k).
Proof.
  intros Hk. etrans; [by apply rget_rset_ne|].
  apply rget_rset_eq; [auto with wf|unfold REG_EDI; lia].
Qed.

Lemma rep_state_esi k :
  rget (rep_state inc bs s k) REG_ESI = u32 (rget s REG_ESI + inc * Z.of_nat k).
Proof.
  etrans; [by apply rget_rset_ne|]. etrans; [by apply rget_rset_ne|].
  apply rget_rset_eq; [auto with wf|unfold REG_ESI; lia].
Qed.

Lemma rep_state_other k r : 0 <= r -> r <> REG_ECX -> r <> REG_EDI -> r <> REG_ESI ->
  rget (rep_state inc bs s k) r = rget s r.
Proof.
  intros Hr H1 H2 H3. unfold REG_ECX, REG_EDI, REG_ESI in *.
  etrans; [apply rget_rset_ne; unfold REG_ECX; lia|].
  etrans; [apply rget_rset_ne; unfold REG_EDI; lia|].
  apply rget_rset_ne; unfold REG_ESI; lia.
Qed.

(** One more element: the memory cell, then the three registers. *)
Lemma rep_state_S k b : bs !! k = Some b ->
  rep_state inc bs s (S k) =
  rset REG_ECX (rget s REG_ECX - Z.of_nat k - 1)
    (rset REG_EDI (rget s REG_EDI + Z.of_nat k + 1)
      (rset REG_ESI (rget s REG_ESI + inc * Z.of_nat k + inc)
        (upd_mem (upd_bytes <[rget s REG_EDI + Z.of_nat k := b]>) (rep_state inc bs s k)))).
Proof.
  intros Hb. pose proof (lookup_lt_Some _ _ _ Hb) as Hk. unfold rep_state.
  set (m1 := upd_bytes (store_bytes (rget s REG_EDI) (take (S k) bs))).
  set (m0 := upd_bytes (store_bytes (rget s REG_EDI) (take k bs))).
  assert (forall m, upd_bytes <[rget s REG_EDI + Z.of_nat k := b]> (m0 m) = m1 m) as E.
  { intros m. unfold m0, m1, upd_bytes. cbn [g_mem g_size g_last_eip].
    rewrite (take_S_r _ _ b) by done. rewrite store_bytes_snoc, length_take.
    by rewrite Nat.min_l by lia. }
  assert (forall r v (f : guest_mem -> guest_mem) t,
    rset r v (upd_mem f t) = upd_mem f (rset (H:=H) r v t)) as Er by done.
  rewrite !Er, rset3. clearbody m0.
  replace (rget s REG_ECX - Z.of_nat k - 1) with (rget s REG_ECX - Z.of_nat (S k)) by lia.
  replace (rget s REG_EDI + Z.of_nat k + 1) with (rget s REG_EDI + Z.of_nat (S k)) by lia.
  replace (rget s REG_ESI + inc * Z.of_nat k + inc)
    with (rget s REG_ESI + inc * Z.of_nat (S k)) by lia.
  set (t := rset _ _ _). change (upd_mem m1 t = upd_mem (fun m => upd_bytes
    <[rget s REG_EDI + Z.of_nat k := b]> (m0 m)) t).
  unfold upd_mem. by rewrite E.
Qed.

(** What the element operation sees and does at turn [k]. *)
Lemma rep_state_edi_small k : (k < length bs)%nat ->
  rget (rep_state inc bs s k) REG_EDI = rget s REG_EDI + Z.of_nat k.
Proof.
  intros Hk. pose proof (edi_range s Hs). pose proof (wf_size _ (wf_m_mem _ Hs)).
  rewrite rep_state_edi by lia. apply u32_small. unfold is_u32. lia.
Qed.

Lemma rep_write8 k b : bs !! k = Some b ->
  runs (mem_write8 (rget s REG_EDI + Z.of_nat k) b) (rep_state inc bs s k) tt
    (upd_mem (upd_bytes <[rget s REG_EDI + Z.of_nat k := b]>) (rep_state inc bs s k)).
Proof.
  intros Hb. pose proof (lookup_lt_Some _ _ _ Hb) as Hk. pose proof (edi_range s Hs).
  eapply runs_eq; [apply runs_mem_write8; lia|done|].
  unfold upd_mem. rewrite wr8_in; [|lia|simpl; lia].
  by rewrite u8_small by (by eapply Forall_lookup_1).
Qed.

Lemma wf_rep_write k b : bs !! k = Some b ->
  wf (upd_mem (upd_bytes <[rget s REG_EDI + Z.of_nat k := b]>) (rep_state inc bs s k)).
Proof.
  intros Hb. pose proof (lookup_lt_Some _ _ _ Hb) as Hk. pose proof (edi_range s Hs).
  destruct (wf_rep_state k ltac:(lia)) as [Wc Wm Wo Wk]. constructor; try done.
  apply (wf_store_bytes _ [b]); [done|lia|simpl; lia|].
  apply Forall_singleton. by eapply Forall_lookup_1.
Qed.

(** The loop, given that the element operation stores the [k]-th element at EDI and moves
    EDI and ESI. *)
Lemma rep_loop_runs (elem : M H unit) :
  (forall k b, bs !! k = Some b ->
     runs elem (rep_state inc bs s k) tt
       (rset REG_EDI (rget s REG_EDI + Z.of_nat k + 1)
         (rset REG_ESI (rget s REG_ESI + inc * Z.of_nat k + inc)
           (upd_mem (upd_bytes <[rget s REG_EDI + Z.of_nat k := b]>)
              (rep_state inc bs s k))))) ->
  runs (rep_loop elem) s tt (charge (rget s REG_ECX) (rep_state inc bs s (length bs))).
Proof.
  intros Helem. pose proof (ecx_range s Hs) as Hcx. unfold rep_loop.
  eapply runs_bind; [apply runs_reg|].
  eapply runs_bind.
  { rewrite <- (rep_state_0 inc bs s Hs) at 1.
    apply (c_while_runs _ (rep_state inc bs s) (length bs)).
    - intros k Hk. destruct (lookup_lt_is_Some_2 bs k Hk) as [b Hb].
      rewrite (rep_state_S k b Hb). unfold rep_body.
      eapply runs_bind; [apply runs_reg|]. rewrite rep_state_ecx by lia.
      btest (0 <? rget s REG_ECX - Z.of_nat k).
      eapply runs_bind; [by apply Helem|].
      eapply runs_bind; [|apply runs_ret].
      eapply runs_bind; [apply runs_reg|]. rewrite !rget_rset_ne by done.
      change (rget (upd_mem ?f ?t) REG_ECX) with (rget t REG_ECX).
      rewrite rep_state_ecx by lia. eapply runs_eq; [apply runs_set_reg|done|]. done.
    - unfold rep_body. eapply runs_bind; [apply runs_reg|]. rewrite rep_state_ecx by lia.
      btest (0 <? rget s REG_ECX - Z.of_nat (length bs)). apply runs_ret.
    - change (2 ^ 33) with 8589934592. lia. }
  apply runs_modify.
Qed.
End loop.
End rep.

Section instructions.
Context {H : Type}.
Implicit Types s : machine H.

(** What every REP string store leaves unchanged, and where its registers end. *)
Record rep_frame (inc : Z) s s' : Prop := {
  rf_ecx : rget s' REG_ECX = 0;
  rf_edi : rget s' REG_EDI = u32 (rget s REG_EDI + rget s REG_ECX);
  rf_esi : rget s' REG_ESI = u32 (rget s REG_ESI + inc * rget s REG_ECX);
  rf_regs : forall r, 0 <= r < 8 -> r <> REG_ECX -> r <> REG_EDI -> r <> REG_ESI ->
    rget s' r = rget s r;
  rf_eip : eip (cpu s') = u32 (eip (cpu s) + 1);
  rf_flags : eflags (cpu s') = eflags (cpu s);
  rf_size : g_size (mem s') = g_size (mem s);
  rf_kern : kern s' = kern s
}.

Lemma rep_state_frame inc bs s c : wf s -> Z.of_nat (length bs) = rget s REG_ECX ->
  rep_frame inc s (charge c (rep_state inc bs (advance 1 s) (length bs))).
Proof.
  intros Hs Hl.
  assert (wf (advance 1 s)) as Hs1 by auto with wf.
  assert (forall t r, rget (charge c t) r = rget (H:=H) t r) as E by done.
  assert (forall r, rget (advance 1 s) r = rget s r) as E1 by done.
  constructor; rewrite ?E.
  - rewrite rep_state_ecx, E1 by done. lia.
  - rewrite rep_state_edi, E1 by done. by rewrite Hl.
  - rewrite rep_state_esi, E1 by done. by rewrite Hl.
  - intros r Hr H1 H2 H3. rewrite E. by rewrite rep_state_other by lia.
  - done.
  - done.
  - done.
  - done.
Qed.

(** C15: REP STOSB is memset.  When the destination lies in guest memory it returns with
    the ECX bytes at EDI equal to AL and every other byte as it was, ECX zero, EDI past the
    block, and the other registers, the flags and the kernel unchanged. *)
Theorem rep_stosb_memset op s :
  wf s -> code_at s [0xAA] -> rget s REG_EDI + rget s REG_ECX <= g_size (mem s) ->
  exists s', runs (op_rep op) s tt s' /\ rep_frame 0 s s' /\
    forall a, byte_at (mem s') a =
      if (rget s REG_EDI <=? a) && (a <? rget s REG_EDI + rget s REG_ECX)
      then u8 (rget s REG_EAX) else byte_at (mem s) a.
Proof.
  intros Hs Hc Hr. set (bs := replicate (Z.to_nat (rget s REG_ECX)) (u8 (rget s REG_EAX))).
  assert (wf (advance 1 s)) as Hs1 by auto with wf.
  pose proof (ecx_range s Hs) as Hcx. pose proof (edi_range s Hs) as Hdi.
  pose proof (wf_size _ (wf_m_mem _ Hs)) as Hz.
  assert (Z.of_nat (length bs) = rget s REG_ECX) as Hl
    by (unfold bs; rewrite length_replicate; lia).
  assert (Forall is_u8 bs) as Hbs by apply Forall_replicate, u8_range.
  exists (charge (rget s REG_ECX) (rep_state 0 bs (advance 1 s) (length bs))).
  split; [|split; [by apply rep_state_frame|]].
  - unfold op_rep. eapply runs_bind; [by apply code_at_fetch8|].
    apply (rep_loop_runs 0 bs (advance 1 s)); try done. intros k b Hb.
    pose proof (lookup_lt_Some _ _ _ Hb) as Hk.
    pose proof (rep_state_edi_small 0 bs (advance 1 s) Hs1 Hl Hr k Hk) as Edi.
    pose proof (rep_state_esi 0 bs (advance 1 s) Hs1 k) as Esi.
    pose proof (rep_write8 0 bs (advance 1 s) Hs1 Hbs Hl Hr k b Hb) as Hw.
    pose proof (wf_rep_write 0 bs (advance 1 s) Hs1 Hbs Hl Hr k b Hb) as Ww.
    assert (u8 (rget (rep_state 0 bs (advance 1 s) k) REG_EAX) = b) as Eax.
    { rewrite rep_state_other by done. by apply lookup_replicate in Hb as [-> _]. }
    set (t := rep_state 0 bs (advance 1 s) k) in *. set (t1 := upd_mem _ t) in *.
    unfold stos8. eapply runs_bind; [apply runs_reg|]. eapply runs_bind; [apply runs_reg|].
    rewrite Edi, Eax. eapply runs_bind; [exact Hw|].
    eapply runs_bind; [apply runs_reg|].
    change (rget t1 REG_EDI) with (rget t REG_EDI). rewrite Edi.
    eapply runs_eq; [apply runs_set_reg|done|]. f_equal.
    rewrite Z.add_0_r, <- rset_u32, <- Esi. symmetry. by apply (rset_same t1 REG_ESI).
  - intros a. cbn [mem charge upd_cpu rep_state upd_mem]. rewrite byte_at_store.
    rewrite firstn_all. change (rget (advance 1 s) REG_EDI) with (rget s REG_EDI). rewrite Hl.
    destruct (_ && _) eqn:E; [|done]. unfold bs. rewrite lookup_replicate_2 by lia. done.
Qed.

(** C16: REP MOVSB is memcpy.  When both blocks lie in guest memory and the destination does
    not start inside the source, it returns with the ECX bytes at EDI equal to those that
    were at ESI and every other byte as it was, ECX zero, ESI and EDI past the blocks, and
    the other registers, the flags and the kernel unchanged. *)
Theorem rep_movsb_memcpy op s :
  wf s -> code_at s [0xA4] -> rget s REG_EDI + rget s REG_ECX <= g_size (mem s) ->
  rget s REG_ESI + rget s REG_ECX <= g_size (mem s) ->
  rget s REG_EDI <= rget s REG_ESI \/ rget s REG_ESI + rget s REG_ECX <= rget s REG_EDI ->
  exists s', runs (op_rep op) s tt s' /\ rep_frame 1 s s' /\
    forall a, byte_at (mem s') a =
      if (rget s REG_EDI <=? a) && (a <? rget s REG_EDI + rget s REG_ECX)
      then byte_at (mem s) (rget s REG_ESI + (a - rget s REG_EDI)) else byte_at (mem s) a.
Proof.
  intros Hs Hc Hr Hr2 Hov.
  set (bs := load_bytes (mem s) (rget s REG_ESI) (Z.to_nat (rget s REG_ECX))).
  assert (wf (advance 1 s)) as Hs1 by auto with wf.
  pose proof (ecx_range s Hs) as Hcx. pose proof (edi_range s Hs) as Hdi.
  pose proof (wf_size _ (wf_m_mem _ Hs)) as Hz.
  assert (0 <= rget s REG_ESI < 0x100000000) as Hsi
    by (apply (rget_u32 s REG_ESI Hs); unfold REG_ESI; lia).
  assert (Z.of_nat (length bs) = rget s REG_ECX) as Hl
    by (unfold bs; rewrite load_bytes_length; lia).
  assert (Forall is_u8 bs) as Hbs by (apply load_bytes_u8, Hs).
  exists (charge (rget s REG_ECX) (rep_state 1 bs (advance 1 s) (length bs))).
  split; [|split; [by apply rep_state_frame|]].
  - unfold op_rep. eapply runs_bind; [by apply code_at_fetch8|].
    apply (rep_loop_runs 1 bs (advance 1 s)); try done. intros k b Hb.
    pose proof (lookup_lt_Some _ _ _ Hb) as Hk.
    pose proof (rep_state_edi_small 1 bs (advance 1 s) Hs1 Hl Hr k Hk) as Edi.
    pose proof (rep_state_esi 1 bs (advance 1 s) Hs1 k) as Esi.
    pose proof (rep_write8 1 bs (advance 1 s) Hs1 Hbs Hl Hr k b Hb) as Hw.
    change (rget (advance 1 s) ?r) with (rget s r) in *. rewrite Z.mul_1_l in Esi.
    rewrite u32_small in Esi by (unfold is_u32; lia).
    assert (rd8 (mem (rep_state 1 bs (advance 1 s) k)) (rget s REG_ESI + Z.of_nat k) = b) as Erd.
    { unfold rd8, in_range. cbn [mem rep_state upd_mem]. simpl g_size.
      btest (rget s REG_ESI + Z.of_nat k + 1 <=? g_size (mem s)). rewrite byte_at_store.
      change (rget (advance 1 s) REG_EDI) with (rget s REG_EDI). rewrite length_take.
      rewrite Nat.min_l by lia. bif.
      unfold bs in Hb, Hk. rewrite load_bytes_length in Hk.
      rewrite load_bytes_lookup in Hb by lia. by injection Hb. }
    set (t := rep_state 1 bs (advance 1 s) k) in *. set (t1 := upd_mem _ t) in *.
    unfold movs8. eapply runs_bind; [apply runs_reg|]. rewrite Esi.
    eapply runs_bind; [apply runs_mem_read8; lia|]. rewrite Erd.
    eapply runs_bind; [apply runs_reg|]. rewrite Edi. eapply runs_bind; [exact Hw|].
    eapply runs_bind; [eapply runs_bind; [apply runs_reg|apply runs_set_reg]|].
    change (rget t1 REG_ESI) with (rget t REG_ESI). rewrite Esi.
    eapply runs_bind; [apply runs_reg|]. rewrite rget_rset_ne by done.
    change (rget t1 REG_EDI) with (rget t REG_EDI). rewrite Edi, Z.mul_1_l. apply runs_set_reg.
  - intros a. cbn [mem charge upd_cpu rep_state upd_mem]. rewrite byte_at_store.
    rewrite firstn_all. change (rget (advance 1 s) REG_EDI) with (rget s REG_EDI). rewrite Hl.
    destruct (_ && _) eqn:E; [|done]. unfold bs. rewrite load_bytes_lookup by lia.
    cbn. by rewrite Z2Nat.id by lia.
Qed.

(** ** REPNE SCASB *)

(** The machine after [k] unsuccessful turns. *)
Definition scan_state s (k : nat) : machine H := Nat.iter k scasb_turn s.

Lemma scasb_turn_regs s r : 0 <= r -> r <> REG_ECX -> r <> REG_EDI ->
  rget (scasb_turn s) r = rget s r.
Proof.
  intros Hr H1 H2. unfold scasb_turn. cbv zeta.
  transitivity (rget (rset REG_ECX (rget (rset REG_EDI (rget s REG_EDI + 1) s) REG_ECX - 1)
    (rset REG_EDI (rget s REG_EDI + 1) s)) r); [done|].
  unfold REG_ECX, REG_EDI in *. by rewrite !rget_rset_ne by lia.
Qed.

Lemma scasb_turn_edi s : wf s -> rget (scasb_turn s) REG_EDI = u32 (rget s REG_EDI + 1).
Proof.
  intros Hs. unfold scasb_turn. cbv zeta.
  transitivity (rget (rset REG_ECX (rget (rset REG_EDI (rget s REG_EDI + 1) s) REG_ECX - 1)
    (rset REG_EDI (rget s REG_EDI + 1) s)) REG_EDI); [done|].
  rewrite rget_rset_ne by done. apply rget_rset_eq; [done|]. unfold REG_EDI. lia.
Qed.

Lemma scan_state_S s k : scan_state s (S k) = scasb_turn (scan_state s k).
Proof. done. Qed.

Lemma scan_state_inv s k : wf s -> Z.of_nat k <= rget s REG_ECX ->
  wf (scan_state s k) /\ mem (scan_state s k) = mem s /\
  rget (scan_state s k) REG_EAX = rget s REG_EAX /\
  rget (scan_state s k) REG_ECX = rget s REG_ECX - Z.of_nat k /\
  rget (scan_state s k) REG_EDI = u32 (rget s REG_EDI + Z.of_nat k).
Proof.
  intros Hs. induction k as [|k IH]; intros Hk.
  - split; [done|]. split; [done|]. split; [done|]. split; [cbn; lia|]. cbn.
    rewrite Z.add_0_r, u32_small; [done|]. apply rget_u32; [done|]. unfold REG_EDI. lia.
  - destruct IH as (W & Em & Ea & Ec & Ed); [lia|]. rewrite scan_state_S.
    set (t := scan_state s k) in *. clearbody t.
    destruct (scasb_turn_ecx t W) as [W' Ec']; [lia|].
    split; [done|]. split; [by rewrite <- Em|]. split; [by rewrite scasb_turn_regs|].
    split; [rewrite Ec'; lia|]. rewrite scasb_turn_edi, Ed, u32_add_l by done. f_equal. lia.
Qed.

Lemma scasb_turn_zf s :
  Z.testbit (eflags (cpu (scasb_turn s))) 6 =
  (u8 (u8 (rget s REG_EAX) - rd8 (mem s) (rget s REG_EDI)) =? 0).
Proof.
  unfold scasb_turn, put_flag_st. cbv zeta. cbn [cpu upd_cpu upd_eflags eflags].
  rewrite !testbit_put_bit by lia. done.
Qed.

Lemma u8_sub_eqb a b : is_u8 a -> is_u8 b -> (u8 (a - b) =? 0) = (b =? a).
Proof.
  intros Ha Hb. apply Bool.eq_iff_eq_true. rewrite !Z.eqb_eq. split; [|intros ->; cint].
  intros E. unfold u8 in E. apply Z.mod_divide in E as [q Hq]; [|done].
  unfold is_u8 in *. lia.
Qed.

Section scan.
Context s (Hs : wf s) (Hroom : rget s REG_EDI + rget s REG_ECX <= g_size (mem s)).

Lemma scan_turn_sub j : Z.of_nat j < rget s REG_ECX ->
  (u8 (u8 (rget (scan_state s j) REG_EAX) -
       rd8 (mem (scan_state s j)) (rget (scan_state s j) REG_EDI)) =? 0) =
  (byte_at (mem s) (rget s REG_EDI + Z.of_nat j) =? u8 (rget s REG_EAX)).
Proof.
  intros Hj. destruct (scan_state_inv s j Hs) as (W & Em & Ea & Ec & Ed); [lia|].
  pose proof (edi_range s Hs) as Hdi. pose proof (wf_size _ (wf_m_mem _ Hs)) as Hz.
  rewrite Em, Ea, Ed, u32_small by (unfold is_u32; lia).
  unfold rd8, in_range. bif. apply u8_sub_eqb; [apply u8_range|].
  apply byte_at_u8, Hs.
Qed.

Lemma scan_turn_runs j : Z.of_nat j < rget s REG_ECX ->
  runs repne_scasb_body (scan_state s j)
    (negb (byte_at (mem s) (rget s REG_EDI + Z.of_nat j) =? u8 (rget s REG_EAX)))
    (scan_state s (S j)).
Proof.
  intros Hj. destruct (scan_state_inv s j Hs) as (W & Em & Ea & Ec & Ed); [lia|].
  rewrite <- (scan_turn_sub j Hj). apply (runs_repne_turn (scan_state s j)); [done|rewrite Ec; lia].
Qed.

Lemma scan_end_runs j : Z.of_nat j = rget s REG_ECX ->
  runs repne_scasb_body (scan_state s j) false (scan_state s j).
Proof.
  intros Hj. destruct (scan_state_inv s j Hs) as (W & Em & Ea & Ec & Ed); [lia|].
  unfold repne_scasb_body. eapply runs_bind; [apply runs_reg|]. rewrite Ec.
  btest (0 <? rget s REG_ECX - Z.of_nat j). apply runs_ret.
Qed.

Lemma scan_zf j : Z.of_nat j < rget s REG_ECX ->
  Z.testbit (eflags (cpu (scan_state s (S j)))) 6 =
  (byte_at (mem s) (rget s REG_EDI + Z.of_nat j) =? u8 (rget s REG_EAX)).
Proof. intros Hj. rewrite scan_state_S, scasb_turn_zf. by apply scan_turn_sub. Qed.
End scan.

(** C17: REPNE SCASB is memchr.  Scanning a non-empty block inside guest memory, where the
    byte AL occurs first at offset [k] (or nowhere, [k] being the length), it stops just
    after the occurrence with ECX holding what is left of the count and ZF set, or at the
    end of the block with ECX zero and ZF clear; memory is untouched. *)
Theorem repne_scasb_memchr op s k :
  wf s -> code_at s [0xAE] -> rget s REG_EDI + rget s REG_ECX <= g_size (mem s) ->
  0 < rget s REG_ECX -> Z.of_nat k <= rget s REG_ECX ->
  (forall j, (j < k)%nat ->
     byte_at (mem s) (rget s REG_EDI + Z.of_nat j) <> u8 (rget s REG_EAX)) ->
  (Z.of_nat k < rget s REG_ECX ->
     byte_at (mem s) (rget s REG_EDI + Z.of_nat k) = u8 (rget s REG_EAX)) ->
  let found := Z.of_nat k <? rget s REG_ECX in
  let n := if found then Z.of_nat k + 1 else rget s REG_ECX in
  exists s', runs (op_repne op) s tt s' /\ mem s' = mem s /\
    rget s' REG_ECX = rget s REG_ECX - n /\ rget s' REG_EDI = u32 (rget s REG_EDI + n) /\
    Z.testbit (eflags (cpu s')) 6 = found.
Proof.
  intros Hs Hc Hr Hpos Hk Hne Heq found n.
  set (s1 := advance 1 s). assert (wf s1) as Hs1 by (unfold s1; auto with wf).
  change (rget s) with (rget s1) in *. change (mem s) with (mem s1) in *.
  pose proof (ecx_range s1 Hs1) as Hcx.
  assert (forall j, (j < k)%nat -> runs repne_scasb_body (scan_state s1 j) true
    (scan_state s1 (S j))) as Hturn.
  { intros j Hj. eapply runs_eq; [apply scan_turn_runs; try done; lia| |done].
    by rewrite (proj2 (Z.eqb_neq _ _)) by auto. }
  assert (runs (c_while repne_scasb_body) s1 tt (scan_state s1 (Z.to_nat n))) as Hloop.
  { apply (c_while_runs _ (scan_state s1) k); [done| |change (2 ^ 33) with 8589934592; lia].
    unfold n, found. destruct (Z.ltb_spec (Z.of_nat k) (rget s1 REG_ECX)) as [Hlt|Hge].
    - replace (Z.to_nat (Z.of_nat k + 1)) with (S k) by lia.
      eapply runs_eq; [apply scan_turn_runs; try done; lia| |done].
      by rewrite Heq, Z.eqb_refl.
    - replace (Z.to_nat (rget s1 REG_ECX)) with k by lia. apply scan_end_runs; [done|lia]. }
  assert (0 < n <= rget s1 REG_ECX) as Hn by (unfold n, found; destruct (Z.ltb_spec
    (Z.of_nat k) (rget s1 REG_ECX)); lia).
  destruct (scan_state_inv s1 (Z.to_nat n) Hs1) as (W & Em & Ea & Ec & Ed); [lia|].
  assert (Z.testbit (eflags (cpu (scan_state s1 (Z.to_nat n)))) 6 = found) as Ez.
  { replace (Z.to_nat n) with (S (Z.to_nat (n - 1))) by lia. rewrite scan_zf by (done || lia).
    rewrite Z2Nat.id by lia. unfold n, found in *.
    destruct (Z.ltb_spec (Z.of_nat k) (rget s1 REG_ECX)) as [Hlt|Hge].
    - rewrite Z.add_simpl_r. rewrite Heq by done. apply Z.eqb_refl.
    - apply Z.eqb_neq. assert (Z.of_nat (pred k) = rget s1 REG_ECX - 1) as <- by lia.
      apply Hne. lia. }
  rewrite Z2Nat.id in Ec, Ed by lia.
  set (t := scan_state s1 (Z.to_nat n)) in *. clearbody t.
  exists (upd_cpu (upd_cycles (fun c => s32 (u32 c + u32 (rget t REG_ECX + 1)))) t).
  split; [|done]. unfold op_repne. eapply runs_bind; [by apply code_at_fetch8|].
  eapply runs_bind; [exact Hloop|]. eapply runs_bind; [apply runs_reg|]. apply runs_modify.
Qed.
End instructions.

(** [memset(0x2000, 0x41, 3)]. *)
Lemma rep_stosb_memset_witness :
  let s := toy_machine [0x41; 3; 0; 0; 0; 0; 0; 0x2000] 0x1000 [(0x1000, [0xAA])] in
  exists s', runs (op_rep 0xF3) s tt s' /\ rget s' REG_EDI = 0x2003 /\
    load_bytes (mem s') 0x2000 4 = [0x41; 0x41; 0x41; 0].
Proof.
  intros s. destruct (rep_stosb_memset 0xF3 s) as (s' & Hr & Hf & Hm).
  - by apply wf_toy.
  - by split.
  - done.
  - exists s'. split; [exact Hr|]. split; [by rewrite (rf_edi _ _ _ Hf)|].
    cbn [load_bytes]. by rewrite !Hm.
Defined.

(** [memcpy(0x2000, 0x2001, 2)], overlapping from above. *)
Lemma rep_movsb_memcpy_witness :
  let s := toy_machine [0; 2; 0; 0; 0; 0; 0x2001; 0x2000] 0x1000
             [(0x1000, [0xA4]); (0x2000, [1; 2; 3])] in
  exists s', runs (op_rep 0xF3) s tt s' /\ rget s' REG_ESI = 0x2003 /\
    load_bytes (mem s') 0x2000 3 = [2; 3; 3].
Proof.
  intros s. destruct (rep_movsb_memcpy 0xF3 s) as (s' & Hr & Hf & Hm).
  - by apply wf_toy.
  - by split.
  - done.
  - done.
  - by left.
  - exists s'. split; [exact Hr|]. split; [by rewrite (rf_esi _ _ _ Hf)|].
    cbn [load_bytes]. by rewrite !Hm.
Defined.

(** [memchr(0x2000, 0, 10)] of the string ["ab"]. *)
Lemma repne_scasb_memchr_witness :
  let s := toy_machine [0; 10; 0; 0; 0; 0; 0; 0x2000] 0x1000
             [(0x1000, [0xAE]); (0x2000, [0x61; 0x62; 0])] in
  exists s', runs (op_repne 0xF2) s tt s' /\ rget s' REG_ECX = 7 /\
    rget s' REG_EDI = 0x2003 /\ Z.testbit (eflags (cpu s')) 6 = true.
Proof.
  intros s. destruct (repne_scasb_memchr 0xF2 s 2) as (s' & Hr & _ & Hc & Hd & Hz).
  - by apply wf_toy.
  - by split.
  - done.
  - done.
  - done.
  - intros [|[|j]] Hj; [done|done|lia].
  - done.
  - exists s'. split; [exact Hr|]. split; [by rewrite Hc|].
    split; [by rewrite Hd|exact Hz].
Defined.
