(* ===== verification/Files.v ===== *)
(** File descriptors: the guest's descriptor table as a partial map to host descriptors, and
    what the file system calls do to it, to guest memory and to the host. *)
From S2P Require Import Prelude CInt Machine Logic Loops Mem Backend Toy Exec.

Section prims.
Context {H : Type} `{HostOS H}.
Implicit Types s : machine H.

(** * Accesses through a host pointer *)

Lemma runs_guest_to_host s a : 0 <= a ->
  runs (guest_to_host a) s (if a <? g_size (mem s) then Some a else None) s.
Proof.
  intros Ha. unfold guest_to_host. eapply runs_bind; [apply runs_check_bounds|].
  unfold in_range. destruct (Z.ltb_spec a (g_size (mem s)));
    destruct (Z.leb_spec (a + 1) (g_size (mem s))); (apply runs_ret || lia).
Qed.

Lemma runs_host_load_bytes s p n : 0 <= p -> p + n <= g_size (mem s) ->
  runs (host_load_bytes p n) s (load_bytes (mem s) p (Z.to_nat n)) s.
Proof. intros. unfold runs, host_load_bytes. by bif. Qed.

Lemma runs_host_store_bytes s p bs : 0 <= p -> p + Z.of_nat (length bs) <= g_size (mem s) ->
  runs (host_store_bytes p bs) s tt (upd_mem (upd_bytes (store_bytes p (u8 <$> bs))) s).
Proof. intros. unfold runs, host_store_bytes. by bif. Qed.

Lemma runs_host_memset s p v n : 0 <= p -> p + n <= g_size (mem s) ->
  runs (host_memset p v n) s tt
    (upd_mem (upd_bytes (store_bytes p (replicate (Z.to_nat n) (u8 v)))) s).
Proof. intros. unfold runs, host_memset. by bif. Qed.

Lemma runs_os {A} (f : H -> A * H) s :
  runs (os f) s (f (host s)).1 (upd_host (fun _ => (f (host s)).2) s).
Proof. unfold runs, os. by destruct (f (host s)). Qed.

Lemma runs_get_kern {A} (f : kernel -> A) s : runs (get_kern f) s (f (kern s)) s.
Proof. done. Qed.

Lemma runs_mem_size s : runs mem_size s (g_size (mem s)) s.
Proof. done. Qed.

Lemma fmap_u8_id bs : Forall is_u8 bs -> u8 <$> bs = bs.
Proof.
  induction 1 as [|b bs Hb _ IH]; [done|]. rewrite fmap_cons, IH. by rewrite u8_small.
Qed.

(** * The descriptor table *)

(** The host descriptor behind guest descriptor [fd], when it is open. *)
Definition fd_host (k : kernel) (fd : Z) : option Z :=
  if (0 <=? fd) && (fd <? MAX_FDS) && negb (used (zget (fd_table k) fd) =? 0)
  then Some (host_fd (zget (fd_table k) fd)) else None.

Definition set_fd (fd : Z) (e : GuestFd) s : machine H :=
  upd_kern (upd_fd_table (fun t => zset t fd e)) s.

Lemma runs_bad_fd s fd : runs (bad_fd fd) s (bool_decide (fd_host (kern s) fd = None)) s.
Proof.
  unfold bad_fd, fd_host. destruct (Z.ltb_spec fd 0), (Z.leb_spec MAX_FDS fd); cbn [orb].
  1-3: by repeat bif.
  repeat btest (0 <=? fd). btest (fd <? MAX_FDS). eapply runs_bind; [apply runs_gets|].
  eapply runs_eq; [apply runs_ret| |done].
  by destruct (used (zget (fd_table (kern s)) fd) =? 0).
Qed.

Lemma runs_fd_entry s fd h : fd_host (kern s) fd = Some h ->
  runs (fd_entry fd) s (mk_fd (used (zget (fd_table (kern s)) fd)) h) s.
Proof.
  unfold fd_host. case_match; [|done]. intros [= <-].
  eapply runs_eq; [apply runs_gets| |done]. by destruct (zget _ _).
Qed.

Lemma fd_host_range k fd h : fd_host k fd = Some h -> 0 <= fd < MAX_FDS.
Proof. unfold fd_host. case_match eqn:E; [|done]. lia. Qed.

Lemma fd_host_set s fd e fd' : wf s -> 0 <= fd < MAX_FDS ->
  fd_host (kern (set_fd fd e s)) fd' =
  if fd' =? fd then (if used e =? 0 then None else Some (host_fd e))
  else fd_host (kern s) fd'.
Proof.
  intros Hs Hfd. pose proof (wf_fd_length _ (wf_m_kern _ Hs)) as Hl. unfold MAX_FDS in Hfd.
  unfold fd_host, set_fd. cbn [kern upd_kern upd_fd_table fd_table].
  destruct (Z.eqb_spec fd' fd) as [->|Hne].
  - rewrite zget_zset_eq by lia. unfold MAX_FDS. btest (0 <=? fd). btest (fd <? 256).
    by destruct (used e =? 0).
  - destruct ((0 <=? fd') && (fd' <? MAX_FDS)) eqn:E; [|done]. cbn [andb].
    by rewrite zget_zset_ne by lia.
Qed.

(** [alloc_fd] finds the lowest closed descriptor from 3 on, or none. *)
Definition lowest_free (k : kernel) (o : option Z) : Prop :=
  match o with
  | Some n => 3 <= n < MAX_FDS /\ fd_host k n = None /\
              forall j, 3 <= j < n -> fd_host k j <> None
  | None => forall j, 3 <= j < MAX_FDS -> fd_host k j <> None
  end.

Lemma first_free_spec k n i : 0 <= i -> i + Z.of_nat n = MAX_FDS ->
  let r := first_free n i (fd_table k) in
  (r = -1 /\ forall j, i <= j < MAX_FDS -> fd_host k j <> None) \/
  (i <= r < MAX_FDS /\ fd_host k r = None /\ forall j, i <= j < r -> fd_host k j <> None).
Proof.
  revert i. induction n as [|n IH]; intros i Hi Hn; cbn [first_free].
  { left. split; [done|]. intros j Hj. lia. }
  assert (fd_host k i = if used (zget (fd_table k) i) =? 0 then None
                        else Some (host_fd (zget (fd_table k) i))) as Ei.
  { unfold fd_host. btest (0 <=? i). btest (i <? MAX_FDS). by destruct (used _ =? 0). }
  destruct (used (zget (fd_table k) i) =? 0).
  { right. split; [lia|]. split; [done|]. intros j Hj. lia. }
  destruct (IH (i + 1)) as [[E Hall]|(Hr & Ef & Hall)]; [lia|lia| |].
  - left. split; [done|]. intros j Hj. destruct (decide (j = i)) as [->|]; [by rewrite Ei|].
    apply Hall. lia.
  - right. split; [lia|]. split; [done|]. intros j Hj.
    destruct (decide (j = i)) as [->|]; [by rewrite Ei|]. apply Hall. lia.
Qed.

Lemma runs_alloc_fd s : exists o, lowest_free (kern s) o /\
  runs alloc_fd s (default (-1) o) s.
Proof.
  assert (runs alloc_fd s (first_free 253 3 (fd_table (kern s))) s) as Hr by done.
  destruct (first_free_spec (kern s) 253 3) as [[E Hall]|Hf]; [done|done|..].
  - exists None. split; [done|]. by rewrite E in Hr.
  - by exists (Some (first_free 253 3 (fd_table (kern s)))).
Qed.

Lemma lowest_free_det k o o' : lowest_free k o -> lowest_free k o' -> o = o'.
Proof.
  destruct o as [n|], o' as [n'|]; cbn; try done.
  - intros (Hn & E & Ha) (Hn' & E' & Ha'). f_equal.
    destruct (Z.lt_trichotomy n n') as [Hl|[?|Hl]]; [|done|].
    + by destruct (Ha' n ltac:(lia)).
    + by destruct (Ha n' ltac:(lia)).
  - intros (Hn & E & _) Ha. by destruct (Ha n ltac:(lia)).
  - intros Ha (Hn & E & _). by destruct (Ha n' ltac:(lia)).
Qed.
End prims.

#[export] Hint Resolve runs_os runs_get_kern runs_mem_size runs_bad_fd : run.

(** * C strings *)

Section strings.

(** The string [str] with its terminator, inside the memory. *)
Definition cstring_at (m : guest_mem) (p : Z) (str : list Z) : Prop :=
  0 <= p /\ p + Z.of_nat (length str) < g_size m /\ Forall (fun b => b <> 0) str /\
  load_bytes m p (length str) = str /\ byte_at m (p + Z.of_nat (length str)) = 0.

Lemma scan2_first d f i j : i <= j < i + 2 ^ Z.of_nat d -> f j = true ->
  (forall k, i <= k < j -> f k = false) -> scan2 d f i = Some j.
Proof.
  revert i. induction d as [|d IH]; intros i Hj Hf Hk; cbn [scan2].
  - assert (j = i) as -> by (cbn in Hj; lia). by rewrite Hf.
  - rewrite Nat2Z.inj_succ, Z.pow_succ_r in Hj by lia.
    destruct (Z.lt_ge_cases j (i + 2 ^ Z.of_nat d)).
    + rewrite (IH i); [done|lia|done|done].
    + assert (scan2 d f i = None) as ->.
      { assert (forall k, i <= k < i + 2 ^ Z.of_nat d -> f k = false) as Hn
          by (intros k ?; apply Hk; lia).
        clear IH Hj Hk. revert i H Hn. induction d as [|d IH]; intros i H Hn; cbn [scan2].
        - by rewrite Hn by (cbn; lia).
        - rewrite Nat2Z.inj_succ, Z.pow_succ_r in * by lia.
          rewrite IH; [|lia|intros k ?; apply Hn; lia].
          apply IH; [lia|intros k ?; apply Hn; lia]. }
      apply IH; [lia|done|]. intros k ?. apply Hk. lia.
Qed.

Lemma runs_host_string {H} (s : machine H) p str : wf_mem (mem s) ->
  cstring_at (mem s) p str -> runs (host_string p) s str s.
Proof.
  intros Hm (Hp & Hl & Hnz & Hb & Hz). pose proof (wf_size _ Hm) as Hsz.
  unfold runs, host_string.
  rewrite (scan2_first 32 _ p (p + Z.of_nat (length str))).
  - bif. replace (Z.to_nat (p + Z.of_nat (length str) - p)) with (length str) by lia.
    by rewrite Hb.
  - change (2 ^ Z.of_nat 32) with 0x100000000. lia.
  - by rewrite Hz, orb_true_r.
  - intros k Hk. btest (g_size (mem s) <=? k). apply Z.eqb_neq.
    assert (str !! Z.to_nat (k - p) = Some (byte_at (mem s) k)) as E.
    { rewrite <- Hb, load_bytes_lookup by lia. do 2 f_equal. lia. }
    by apply (Forall_lookup_1 _ _ _ _ Hnz E).
Qed.
End strings.

Section calls.
Context {H : Type} `{HostOS H}.
Implicit Types s : machine H.

(** The libc convention: a count, or [-errno]. *)
Definition int_result (r : Z + Z) : Z := match r with inl e => - s32 e | inr n => s32 n end.

(** A write that reaches the host. *)
Lemma runs_sys_write s fd p n hfd : 0 <= p -> 0 < n -> p + n <= g_size (mem s) ->
  fd_host (kern s) fd = Some hfd ->
  let r := os_write hfd (load_bytes (mem s) p (Z.to_nat n)) (host s) in
  runs (sys_write fd p n) s (int_result r.1) (upd_host (fun _ => r.2) s).
Proof.
  intros Hp Hn Hr Ef r. unfold sys_write. btest (n =? 0).
  eapply runs_bind; [apply runs_bad_fd|]. rewrite Ef. cbv beta iota.
  eapply runs_bind; [by apply runs_guest_to_host|]. btest (p <? g_size (mem s)). cbv iota.
  eapply runs_bind; [by apply runs_host_load_bytes|].
  eapply runs_bind; [by apply runs_fd_entry|]. cbn [host_fd].
  eapply runs_bind; [apply runs_os|]. fold r. by destruct r as [[] ?].
Qed.

(** C30: [write] on every path.  An empty write answers 0; a closed descriptor EBADF; a
    buffer that starts outside guest memory EFAULT, all without reaching the host.
    Otherwise the host is given, on the descriptor behind [fd], exactly the [n] bytes of
    guest memory at [p], its answer is passed on, and nothing else in the machine changes; a
    buffer that starts inside guest memory and runs past its end makes the host read outside
    the allocation. *)
Theorem sys_write_spec s fd p n : 0 <= p -> 0 <= n ->
  sys_write fd p n s =
  if n =? 0 then Ret 0 s else
  match fd_host (kern s) fd with
  | None => Ret (- EBADF) s
  | Some hfd =>
      if g_size (mem s) <=? p then Ret (- EFAULT) s
      else if g_size (mem s) <? p + n then Undef UB_oob
      else let r := os_write hfd (load_bytes (mem s) p (Z.to_nat n)) (host s) in
           Ret (int_result r.1) (upd_host (fun _ => r.2) s)
  end.
Proof.
  intros Hp Hn. unfold sys_write. destruct (n =? 0); [done|].
  rewrite (bind_Ret _ _ _ _ _ (runs_bad_fd s fd)). case_bool_decide as E.
  { by rewrite E. }
  destruct (fd_host (kern s) fd) as [hfd|] eqn:Ef; [|done].
  rewrite (bind_Ret _ _ _ _ _ (runs_guest_to_host s p Hp)).
  destruct (Z.ltb_spec p (g_size (mem s))); [|by bif]. btest (g_size (mem s) <=? p).
  destruct (Z.ltb_spec (g_size (mem s)) (p + n)).
  { apply bind_Undef. unfold host_load_bytes. by bif. }
  rewrite (bind_Ret _ _ _ _ _ (runs_host_load_bytes s p n Hp ltac:(lia))).
  rewrite (bind_Ret _ _ _ _ _ (runs_fd_entry s fd hfd Ef)). cbn [host_fd].
  rewrite (bind_Ret _ _ _ _ _ (runs_os _ s)). by destruct (os_write _ _ _) as [[] ?].
Qed.

(** C31: [read] on every path.  As for [write]; when the host answers with bytes that fit
    between [p] and the end of guest memory they are stored at [p] and their number is
    returned, and when they do not fit the host writes outside the allocation. *)
Theorem sys_read_spec s fd p n : 0 <= p ->
  sys_read fd p n s =
  if n =? 0 then Ret 0 s else
  match fd_host (kern s) fd with
  | None => Ret (- EBADF) s
  | Some hfd =>
      if g_size (mem s) <=? p then Ret (- EFAULT) s
      else let r := os_read hfd n (host s) in
           let s1 := upd_host (fun _ => r.2) s in
           match r.1 with
           | inl e => Ret (- s32 e) s1
           | inr bs =>
               if g_size (mem s) <? p + Z.of_nat (length bs) then Undef UB_oob
               else Ret (s32 (Z.of_nat (length bs)))
                      (upd_mem (upd_bytes (store_bytes p (u8 <$> bs))) s1)
           end
  end.
Proof.
  intros Hp. unfold sys_read. destruct (n =? 0); [done|].
  rewrite (bind_Ret _ _ _ _ _ (runs_bad_fd s fd)). case_bool_decide as E.
  { by rewrite E. }
  destruct (fd_host (kern s) fd) as [hfd|] eqn:Ef; [|done].
  rewrite (bind_Ret _ _ _ _ _ (runs_guest_to_host s p Hp)).
  destruct (Z.ltb_spec p (g_size (mem s))); [|by bif]. btest (g_size (mem s) <=? p).
  rewrite (bind_Ret _ _ _ _ _ (runs_fd_entry s fd hfd Ef)). cbn [host_fd].
  rewrite (bind_Ret _ _ _ _ _ (runs_os _ s)).
  destruct (os_read hfd n (host s)) as [[e|bs] h]; [done|]. cbn [fst snd]. cbv zeta.
  destruct (Z.ltb_spec (g_size (mem s)) (p + Z.of_nat (length bs))).
  { apply bind_Undef. unfold host_store_bytes. cbn [mem upd_host]. by bif. }
  by rewrite (bind_Ret _ _ _ _ _ (runs_host_store_bytes (upd_host _ s) p bs Hp ltac:(simpl; lia))).
Qed.

(** C32: [open] allocates the lowest closed descriptor.  With [o] the lowest closed guest
    descriptor from 3 on and [str] the string at [p]: if there is none it answers EMFILE and
    changes nothing; otherwise the host is asked to open [str] with the translated flags; its
    error is passed on with the table unchanged, its descriptor [hfd] is entered at [o],
    every other descriptor staying as it was, and [o] is returned. *)
Theorem sys_open_lowest s p flags mode str o :
  wf s -> cstring_at (mem s) p str -> lowest_free (kern s) o ->
  match o with
  | None => runs (sys_open p flags mode) s (- EMFILE) s
  | Some n =>
      let r := os_open str (host_open_flags flags) mode (host s) in
      let s1 := upd_host (fun _ => r.2) s in
      match r.1 with
      | inl e => runs (sys_open p flags mode) s (- s32 e) s1
      | inr hfd => exists s2, runs (sys_open p flags mode) s n s2 /\
          (forall fd, fd_host (kern s2) fd =
             if fd =? n then Some hfd else fd_host (kern s) fd) /\
          cpu s2 = cpu s /\ mem s2 = mem s /\ og s2 = og s /\ host s2 = r.2
      end
  end.
Proof.
  intros Hs Hstr Ho. pose proof Hstr as (Hp & Hl & _).
  pose proof (runs_guest_to_host s p Hp) as Hg.
  replace (p <? g_size (mem s)) with true in Hg by lia.
  destruct (runs_alloc_fd s) as (o' & Ho' & Ha). rewrite (lowest_free_det _ _ _ Ho' Ho) in Ha.
  destruct o as [n|].
  2: { unfold sys_open. eapply runs_bind; [exact Hg|]. cbv iota.
       eapply runs_bind; [exact Ha|]. apply runs_ret. }
  change (default (-1) (Some n)) with n in Ha. destruct Ho as (Hn & _). cbv zeta.
  pose proof (runs_host_string s p str (wf_m_mem _ Hs) Hstr) as Hst.
  pose proof (runs_os (os_open str (host_open_flags flags) mode) s) as Hos.
  unfold sys_open. destruct (os_open str (host_open_flags flags) mode (host s)) as [[e|hfd] h];
    cbn [fst snd] in *.
  - eapply runs_bind; [exact Hg|]. cbv iota. eapply runs_bind; [exact Ha|]. cbv beta iota.
    btest (n <? 0). eapply runs_bind; [exact Hst|]. eapply runs_bind; [exact Hos|].
    apply runs_ret.
  - eexists. split.
    { eapply runs_bind; [exact Hg|]. cbv iota. eapply runs_bind; [exact Ha|]. cbv beta iota.
      btest (n <? 0). eapply runs_bind; [exact Hst|]. eapply runs_bind; [exact Hos|].
      eapply runs_bind; [apply runs_modify|apply runs_ret]. }
    split; [|done]. intros fd.
    etrans; [apply (fd_host_set (upd_host (fun _ => h) s) n (mk_fd 1 hfd) fd)|done].
    + by destruct Hs; constructor.
    + lia.
Qed.

(** [close].  A closed descriptor is EBADF; the three standard descriptors are never
    closed; any other one is closed on the host and in the table, which otherwise keeps its
    entries. *)
Theorem sys_close_spec s fd : wf s ->
  match fd_host (kern s) fd with
  | None => runs (sys_close fd) s (- EBADF) s
  | Some hfd =>
      if fd <=? 2 then runs (sys_close fd) s 0 s
      else exists s', runs (sys_close fd) s 0 s' /\
        (forall fd', fd_host (kern s') fd' =
           if fd' =? fd then None else fd_host (kern s) fd') /\
        cpu s' = cpu s /\ mem s' = mem s /\ og s' = og s /\
        host s' = os_close hfd (host s)
  end.
Proof.
  intros Hs. pose proof (runs_bad_fd s fd) as Hb.
  destruct (fd_host (kern s) fd) as [hfd|] eqn:E; rewrite ?E in Hb.
  2: { unfold sys_close. eapply runs_bind; [exact Hb|]. apply runs_ret. }
  pose proof (fd_host_range _ _ _ E) as Hr.
  destruct (Z.leb_spec fd 2).
  { unfold sys_close. eapply runs_bind; [exact Hb|]. cbv beta iota. btest (fd <=? 2).
    apply runs_ret. }
  eexists. split.
  { unfold sys_close. eapply runs_bind; [exact Hb|]. cbv beta iota. btest (fd <=? 2).
    eapply runs_bind; [by apply runs_fd_entry|]. eapply runs_bind; [apply runs_os|].
    eapply runs_bind; [apply runs_modify|apply runs_ret]. }
  split; [|done]. intros fd'.
  etrans; [apply (fd_host_set (upd_host (fun _ => os_close hfd (host s)) s) fd)|done].
  - by destruct Hs; constructor.
  - done.
Qed.

(** ** writev *)

(** The iovec array: pairs of base and length, eight bytes each. *)
Definition iov_at (m : guest_mem) (a : Z) (iovs : list (Z * Z)) : Prop :=
  0 <= a /\ a + 8 * Z.of_nat (length iovs) <= g_size m /\
  forall i b l, iovs !! i = Some (b, l) ->
    load_bytes m (a + 8 * Z.of_nat i) 4 = le_bytes 4 b /\ is_u32 b /\
    load_bytes m (a + 8 * Z.of_nat i + 4) 4 = le_bytes 4 l /\ is_u32 l /\
    b + l <= g_size m.

(** The bytes the array gathers. *)
Definition gather (m : guest_mem) (iovs : list (Z * Z)) : list Z :=
  concat ((fun v => load_bytes m v.1 (Z.to_nat v.2)) <$> iovs).

Lemma gather_length_nonneg m iovs : 0 <= Z.of_nat (length (gather m iovs)).
Proof. lia. Qed.

Lemma runs_host_load32 s p v : 0 <= p -> p + 4 <= g_size (mem s) -> is_u32 v ->
  load_bytes (mem s) p 4 = le_bytes 4 v -> runs (host_load32 p) s v s.
Proof.
  intros Hp Hl Hv Hb. unfold host_load32.
  eapply runs_bind; [by apply runs_host_load_bytes|].
  change (Z.to_nat 4) with 4%nat. rewrite Hb, le_value_bytes.
  eapply runs_eq; [apply runs_ret|by apply u32_small|done].
Qed.

Lemma gather_cons m b l iovs :
  gather m ((b, l) :: iovs) = load_bytes m b (Z.to_nat l) ++ gather m iovs.
Proof. done. Qed.

(** What [write(2)] promises: a positive error number, or a count of at most the bytes given. *)
Definition write_documented (hfd : Z) : Prop := forall bs h,
  match (os_write hfd bs h).1 with
  | inl e => 0 < e <= INT_MAX
  | inr n => 0 <= n <= Z.of_nat (length bs)
  end.

(** The buffers as [writev] offers them to the host: each that is not empty once, in order,
    adding up the counts; the first error is the answer. *)
Fixpoint writev_ref (o : option Z) (m : guest_mem) (iovs : list (Z * Z)) (total : Z) (h : H)
    : Z * H :=
  match iovs with
  | [] => (total, h)
  | (b, l) :: iovs =>
      if l =? 0 then writev_ref o m iovs total h
      else match o with
           | None => (- EBADF, h)
           | Some hfd =>
               match os_write hfd (load_bytes m b (Z.to_nat l)) h with
               | (inl e, h') => (- e, h')
               | (inr n, h') => writev_ref o m iovs (total + n) h'
               end
           end
  end.

(** On a host that takes every byte, this is one write of all of them. *)
Lemma writev_ref_full hfd m iovs (put : list Z -> H -> H) total h :
  (forall bs h, os_write hfd bs h = (inr (Z.of_nat (length bs)), put bs h)) ->
  (forall bs cs h, put (bs ++ cs) h = put cs (put bs h)) -> (forall h, put [] h = h) ->
  Forall (fun v => 0 <= v.2) iovs ->
  writev_ref (Some hfd) m iovs total h =
    (total + Z.of_nat (length (gather m iovs)), put (gather m iovs) h).
Proof.
  intros Hput Hcat Hnil Hall. revert total h.
  induction Hall as [|[b l] iovs Hl _ IH]; intros total h; cbn [writev_ref].
  { by rewrite Hnil, Z.add_0_r. }
  rewrite gather_cons, length_app, load_bytes_length. cbn [snd] in Hl.
  destruct (Z.eqb_spec l 0) as [->|Hne]; [by rewrite IH|].
  rewrite Hput, IH, Hcat, load_bytes_length. f_equal. lia.
Qed.

(** One turn of the loop on an empty buffer, and the [write] of another one. *)
Lemma runs_writev_iov s fd a iovs k b l : wf s -> iov_at (mem s) a iovs ->
  iovs !! k = Some (b, l) ->
  runs (guest_to_host (u32 (a + u32 (u32 (Z.of_nat k) * 8)))) s
    (Some (a + 8 * Z.of_nat k)) s /\
  runs (host_load32 (a + 8 * Z.of_nat k + 4)) s l s /\
  runs (host_load32 (a + 8 * Z.of_nat k)) s b s /\
  is_u32 b /\ is_u32 l /\ b + l <= g_size (mem s) /\
  (l <> 0 -> runs (sys_write fd b l) s
     (match fd_host (kern s) fd with
      | None => - EBADF
      | Some hfd => int_result (os_write hfd (load_bytes (mem s) b (Z.to_nat l)) (host s)).1
      end)
     (match fd_host (kern s) fd with
      | None => s
      | Some hfd =>
          upd_host (fun _ => (os_write hfd (load_bytes (mem s) b (Z.to_nat l)) (host s)).2) s
      end)).
Proof.
  intros Hs (Ha & Hl & Hiov) E. pose proof (wf_size _ (wf_m_mem _ Hs)) as Hz.
  assert (k < length iovs)%nat as Hk by by eapply lookup_lt_Some.
  destruct (Hiov _ _ _ E) as (Eb & Hb & El & Hll & Hr).
  rewrite (u32_small (Z.of_nat k)), (u32_small (Z.of_nat k * 8)), u32_small
    by (unfold is_u32; lia).
  replace (a + Z.of_nat k * 8) with (a + 8 * Z.of_nat k) by lia.
  split.
  { pose proof (runs_guest_to_host s (a + 8 * Z.of_nat k)) as Hg.
    revert Hg. btest (a + 8 * Z.of_nat k <? g_size (mem s)). intros Hg. apply Hg. lia. }
  split; [apply runs_host_load32; (done || lia)|].
  split; [apply runs_host_load32; (done || lia)|].
  do 3 (split; [done|]). unfold is_u32 in *. intros Hne.
  destruct (fd_host (kern s) fd) as [hfd|] eqn:Ef; [apply runs_sys_write; (done || lia)|].
  unfold sys_write. btest (l =? 0). eapply runs_bind; [apply runs_bad_fd|]. rewrite Ef.
  apply runs_ret.
Qed.

Lemma upd_host_id s : upd_host (fun _ => host s) s = s.
Proof. by destruct s. Qed.

(** One turn of the loop. *)
Lemma runs_writev_turn s fd a iovs k b l total : wf s -> iov_at (mem s) a iovs ->
  (forall hfd, fd_host (kern s) fd = Some hfd -> write_documented hfd) ->
  iovs !! k = Some (b, l) -> 0 <= total -> total + l <= INT_MAX ->
  let body := writev_body fd a (Z.of_nat (length iovs)) (Z.of_nat k, total) in
  if l =? 0 then runs body s (inl (Z.of_nat (S k), total)) s
  else match fd_host (kern s) fd with
       | None => runs body s (inr (- EBADF)) s
       | Some hfd =>
           match os_write hfd (load_bytes (mem s) b (Z.to_nat l)) (host s) with
           | (inl e, h') => runs body s (inr (- e)) (upd_host (fun _ => h') s)
           | (inr n, h') =>
               runs body s (inl (Z.of_nat (S k), total + n)) (upd_host (fun _ => h') s) /\
               0 <= n <= l
           end
       end.
Proof.
  intros Hs Hat Hw E Ht Hm body.
  destruct (runs_writev_iov s fd a iovs k b l Hs Hat E)
    as (Rg & Rl & Rb & Hb & Hl & Hr & Rw). unfold is_u32 in Hb, Hl.
  assert (k < length iovs)%nat as Hk by by eapply lookup_lt_Some.
  unfold body, writev_body. btest (Z.of_nat k <? Z.of_nat (length iovs)).
  replace (Z.of_nat k + 1) with (Z.of_nat (S k)) by lia.
  destruct (Z.eqb_spec l 0) as [->|Hne].
  { eapply runs_bind; [exact Rg|]. eapply runs_bind; [exact Rl|]. apply runs_ret. }
  specialize (Rw Hne). apply Z.eqb_neq in Hne.
  destruct (fd_host (kern s) fd) as [hfd|] eqn:Ef.
  2: { eapply runs_bind; [exact Rg|]. eapply runs_bind; [exact Rl|]. rewrite Hne.
       eapply runs_bind; [exact Rb|]. eapply runs_bind; [exact Rw|]. apply runs_ret. }
  pose proof (Hw hfd eq_refl (load_bytes (mem s) b (Z.to_nat l)) (host s)) as Hdoc.
  rewrite load_bytes_length, Z2Nat.id in Hdoc by lia.
  destruct (os_write hfd _ (host s)) as [[e|n] h']; cbn [fst snd int_result] in Rw, Hdoc.
  - rewrite s32_small in Rw by (unfold INT_MAX in Hdoc; lia).
    eapply runs_bind; [exact Rg|]. eapply runs_bind; [exact Rl|]. rewrite Hne.
    eapply runs_bind; [exact Rb|]. eapply runs_bind; [exact Rw|]. btest (- e <? 0). apply runs_ret.
  - split; [|done]. rewrite s32_small in Rw by (unfold INT_MAX in Hm; lia).
    eapply runs_bind; [exact Rg|]. eapply runs_bind; [exact Rl|]. rewrite Hne.
    eapply runs_bind; [exact Rb|]. eapply runs_bind; [exact Rw|]. btest (n <? 0).
    eapply runs_bind; [|apply runs_ret]. unfold c_int.
    replace (fits_int (total + n)) with true by (unfold fits_int, INT_MIN; lia). apply runs_ret.
Qed.

Lemma writev_turns s fd a iovs k rest total :
  wf s -> iov_at (mem s) a iovs ->
  (forall hfd, fd_host (kern s) fd = Some hfd -> write_documented hfd) ->
  drop k iovs = rest -> (k + length rest)%nat = length iovs ->
  0 <= total -> total + Z.of_nat (length (gather (mem s) rest)) <= INT_MAX ->
  let w := writev_ref (fd_host (kern s) fd) (mem s) rest total (host s) in
  turns (S (length rest)) (writev_body fd a (Z.of_nat (length iovs))) (Z.of_nat k, total) s
    = Ret (inr w.1) (upd_host (fun _ => w.2) s).
Proof.
  revert s k total. induction rest as [|[b l] rest IH]; intros s k total Hs Hat Hw Hd Hk Ht Hm w.
  { cbn [length] in Hk |- *. cbn [turns]. unfold writev_body.
    btest (Z.of_nat k <? Z.of_nat (length iovs)).
    unfold w. cbn [writev_ref fst snd]. by rewrite upd_host_id. }
  assert (iovs !! k = Some (b, l)) as E.
  { rewrite <- (Nat.add_0_r k), <- lookup_drop, Hd. done. }
  assert (drop (S k) iovs = rest) as Hd' by by rewrite <- Nat.add_1_r, <- drop_drop, Hd.
  rewrite gather_cons, length_app, load_bytes_length in Hm. cbn [length] in Hk.
  destruct (proj2 (proj2 Hat) _ _ _ E) as (_ & _ & _ & Hl & _). unfold is_u32 in Hl.
  pose proof (runs_writev_turn s fd a iovs k b l total Hs Hat Hw E Ht ltac:(lia)) as Hr.
  cbv zeta in Hr. unfold w. cbn [writev_ref].
  set (body := writev_body fd a (Z.of_nat (length iovs))) in *.
  change (turns (S (length ((b, l) :: rest))) body (Z.of_nat k, total)) with
    (body (Z.of_nat k, total) ≫= fun r =>
       match r with inl st => turns (S (length rest)) body st | inr x => mret (inr x) end).
  destruct (Z.eqb_spec l 0) as [->|Hne].
  { rewrite (bind_Ret _ _ _ _ _ Hr). apply IH; (done || lia). }
  destruct (fd_host (kern s) fd) as [hfd|] eqn:Ef.
  2: { rewrite (bind_Ret _ _ _ _ _ Hr). cbn [fst snd]. by rewrite upd_host_id. }
  destruct (os_write hfd _ (host s)) as [[e|n] h'].
  { by rewrite (bind_Ret _ _ _ _ _ Hr). }
  destruct Hr as [Hr Hn]. rewrite (bind_Ret _ _ _ _ _ Hr).
  pose proof (IH (upd_host (fun _ => h') s) (S k) (total + n)) as IH'.
  cbn [mem kern host upd_host] in IH'. rewrite Ef in IH'.
  apply IH'; try done; try lia. by destruct Hs.
Qed.

(** C33: [writev] offers every buffer that is not empty to the host once, in order, and adds up
    the counts ([writev_ref]); nothing changes but the host.  A closed descriptor is EBADF at
    the first such buffer; the first error of the host is the answer, also when earlier buffers
    were written; and a short count does not stop the loop: the next buffer follows, without
    the rest of the one that was cut short.  On a host that takes every byte, this is one write
    of the concatenation of the buffers. *)
Theorem sys_writev_gathers s fd a iovs :
  wf s -> iov_at (mem s) a iovs ->
  Z.of_nat (length iovs) < 2 ^ 31 -> Z.of_nat (length (gather (mem s) iovs)) <= INT_MAX ->
  (forall hfd, fd_host (kern s) fd = Some hfd -> write_documented hfd) ->
  let w := writev_ref (fd_host (kern s) fd) (mem s) iovs 0 (host s) in
  runs (sys_writev fd a (Z.of_nat (length iovs))) s w.1 (upd_host (fun _ => w.2) s) /\
  (forall hfd (put : list Z -> H -> H), fd_host (kern s) fd = Some hfd ->
     (forall bs h, os_write hfd bs h = (inr (Z.of_nat (length bs)), put bs h)) ->
     (forall bs cs h, put (bs ++ cs) h = put cs (put bs h)) -> (forall h, put [] h = h) ->
     w = (Z.of_nat (length (gather (mem s) iovs)), put (gather (mem s) iovs) (host s))).
Proof.
  intros Hs Hat Hn Hm Hw w. split.
  - unfold runs, sys_writev. eapply (c_loop_turns (S (length iovs))).
    + by apply (writev_turns s fd a iovs 0 iovs 0).
    + change (2 ^ 33) with 8589934592. change (2 ^ 31) with 2147483648 in Hn. lia.
  - intros hfd put Ef Hput Hcat Hnil. unfold w. rewrite Ef.
    rewrite (writev_ref_full hfd _ _ put); [done..|]. apply Forall_lookup. intros i [b l] E.
    destruct (proj2 (proj2 Hat) _ _ _ E) as (_ & _ & _ & Hl & _). apply Hl.
Qed.
End calls.

(** [write(1, "Hi", 2)], [write(5, ...)] and a buffer across the end of memory. *)
Lemma sys_write_spec_witness :
  let s := toy_machine (replicate 8 0) 0x1000 [(0x2000, [0x48; 0x69])] in
  sys_write 1 0x2000 2 s = Ret 2 (upd_host (fun _ => [0x48; 0x69]) s) /\
  sys_write 5 0x2000 2 s = Ret (-9) s /\ sys_write 1 0xFFFF 2 s = Undef UB_oob.
Proof.
  intros s. split; [|split].
  - rewrite (sys_write_spec s 1 0x2000 2) by lia. vm_compute. reflexivity.
  - rewrite (sys_write_spec s 5 0x2000 2) by lia. reflexivity.
  - rewrite (sys_write_spec s 1 0xFFFF 2) by lia. reflexivity.
Defined.

(** [read(0, 0x2000, 4)] at the end of the input, and of a closed descriptor. *)
Lemma sys_read_spec_witness :
  let s := toy_machine (replicate 8 0) 0x1000 [] in
  sys_read 0 0x2000 4 s = Ret 0 s /\ sys_read 3 0x2000 4 s = Ret (-9) s.
Proof.
  intros s. split.
  - rewrite (sys_read_spec s 0 0x2000 4) by lia. reflexivity.
  - rewrite (sys_read_spec s 3 0x2000 4) by lia. reflexivity.
Defined.

Lemma lowest_free_toy rs ip image : lowest_free (kern (toy_machine rs ip image)) (Some 3).
Proof. split; [done|]. split; [done|]. intros j Hj. lia. Qed.

(** [open("a")] gives descriptor 3. *)
Lemma sys_open_lowest_witness :
  let s := toy_machine (replicate 8 0) 0x1000 [(0x2000, [0x61; 0])] in
  exists s', runs (sys_open 0x2000 0 0) s 3 s' /\ fd_host (kern s') 3 = Some 7.
Proof.
  intros s. destruct (sys_open_lowest s 0x2000 0 0 [0x61] (Some 3)) as (s' & Hr & Ht & _).
  - by apply wf_toy.
  - split; [done|]. split; [done|]. split; [by repeat constructor|]. by split.
  - apply lowest_free_toy.
  - exists s'. split; [exact Hr|]. by rewrite Ht.
Defined.

(** [close(1)] answers 0 and keeps the descriptor. *)
Lemma sys_close_spec_witness :
  let s := toy_machine (replicate 8 0) 0x1000 [] in runs (sys_close 1) s 0 s.
Proof. intros s. apply (sys_close_spec s 1). by apply wf_toy. Defined.

(** [writev(1, {"Hi", "", "!"}, 3)]. *)
Lemma sys_writev_gathers_witness :
  let iovs := [(0x2000, 2); (0, 0); (0x2002, 1)] in
  let s := toy_machine (replicate 8 0) 0x1000
    [(0x2000, [0x48; 0x69; 0x21]);
     (0x3000, le_bytes 4 0x2000 ++ le_bytes 4 2 ++ le_bytes 4 0 ++ le_bytes 4 0 ++
              le_bytes 4 0x2002 ++ le_bytes 4 1)] in
  runs (sys_writev 1 0x3000 3) s 3 (upd_host (fun out => out ++ [0x48; 0x69; 0x21]) s).
Proof.
  intros iovs s.
  destruct (sys_writev_gathers s 1 0x3000 iovs) as [Hr Hw].
  - by apply wf_toy.
  - split; [done|]. split; [done|]. intros [|[|[|i]]] b l; [by intros [= <- <-]..|done].
  - done.
  - done.
  - intros hfd _ bs out. cbn. lia.
  - rewrite (Hw 1 (fun bs out => out ++ bs)) in Hr.
    + exact Hr.
    + done.
    + done.
    + intros bs cs out. by rewrite app_assoc.
    + intros out. apply app_nil_r.
Defined.
