(* ===== verification/Arena.v ===== *)
(** Memory management and thread state of the kernel: [brk], [mmap2] on every path,
    [set_thread_area] and [rt_sigaction].  That the blocks of a whole run do not overlap is in
    [Mappings]. *)
From S2P Require Import Prelude CInt Machine Logic Mem Backend Toy Exec Files.

(** Rounding up to pages, without the wrap-around at 4 GiB. *)
Lemma page_align_spec len : 0 <= len -> len + 0xFFF < 0x100000000 ->
  len <= page_align len < len + 0x1000 /\ page_align len mod 0x1000 = 0.
Proof.
  intros H0 H1. unfold page_align. rewrite u32_small by (unfold is_u32; lia).
  rewrite (land_clear 12) by (unfold is_u32; lia). change (2 ^ 12) with 0x1000.
  Z.div_mod_to_equations. lia.
Qed.

(** Above that, the rounded length is truncated to zero. *)
Lemma page_align_wraps len : 0xFFFFF000 < len < 0x100000000 -> page_align len = 0.
Proof.
  intros Hl. unfold page_align.
  replace (u32 (len + 0xFFF)) with (len + 0xFFF - 0x100000000) by cint.
  apply Z.bits_inj'. intros i Hi. rewrite Z.land_spec, Z.bits_0, testbit_u32 by done.
  rewrite Z.lnot_spec by done. change 0xFFF with (Z.ones 12) at 2.
  destruct (Z.ltb_spec i 12).
  - rewrite Z.ones_spec_low by lia. by rewrite !andb_false_r.
  - by rewrite (testbit_word_high 12) by (done || (change (2 ^ 12) with 0x1000; lia)).
Qed.

(** The rounded length in both cases. *)
Lemma page_align_mult len : is_u32 len ->
  0 <= page_align len < 0x100000000 /\ page_align len mod 0x1000 = 0.
Proof.
  intros Hl. split; [apply land_u32, u32_range|]. unfold is_u32 in Hl.
  destruct (Z.leb_spec len 0xFFFFF000).
  - apply page_align_spec; lia.
  - by rewrite page_align_wraps by lia.
Qed.
Lemma page_align_le len : is_u32 len -> page_align len <> 0 -> len <= page_align len.
Proof.
  intros Hl Hne. unfold is_u32 in Hl. destruct (Z.leb_spec len 0xFFFFF000).
  - apply page_align_spec; lia.
  - destruct Hne. apply page_align_wraps. lia.
Qed.

Section brk.
Context {H : Type} `{HostOS H}.
Implicit Types s : machine H.

Lemma upd_mem_id s : upd_mem (fun m => m) s = s.
Proof. by destruct s. Qed.

(** C34: [brk].  The heap end moves exactly when the request is not below it and lies inside
    guest memory, and the answer is the heap end afterwards; it never decreases.  A growth
    of 8 bytes or more writes a chunk header (a zero word and the size with the in-use bit)
    at the old end and nothing else. *)
Theorem sys_brk_spec s n : wf s -> is_u32 n ->
  let b := g_brk (kern s) in
  let moves := negb (n =? 0) && (b <=? n) && (n <? g_size (mem s)) in
  exists s', runs (sys_brk n) s (if moves then n else b) s' /\
    kern s' = (if moves then upd_brk n (kern s) else kern s) /\
    cpu s' = cpu s /\ og s' = og s /\ host s' = host s /\
    g_size (mem s') = g_size (mem s) /\
    forall a, byte_at (mem s') a =
      if moves && (8 <=? n - b) && (b <=? a) && (a <? b + 8)
      then default 0 ((le_bytes 4 0 ++ le_bytes 4 (Z.lor (n - b) 1)) !! Z.to_nat (a - b))
      else byte_at (mem s) a.
Proof.
  intros Hs Hn b moves. pose proof (wf_brk _ (wf_m_kern _ Hs)) as Hb. fold b in Hb.
  pose proof (wf_size _ (wf_m_mem _ Hs)) as Hz. unfold is_u32 in *.
  unfold sys_brk, moves.
  destruct (Z.eqb_spec n 0) as [->|Hn0]; cbn [negb andb].
  { exists s. split; [|by repeat split]. do 2 (eapply runs_bind; [solve [auto with run]|]).
    apply runs_ret. }
  destruct (Z.leb_spec b n) as [Hbn|Hbn]; cbn [andb].
  2: { exists s. split; [|by repeat split]. do 2 (eapply runs_bind; [solve [auto with run]|]).
    cbv beta. fold b. btest (n <? b). apply runs_ret. }
  destruct (Z.ltb_spec n (g_size (mem s))) as [Hsz|Hsz]; cbn [andb].
  2: { exists s. split; [|by repeat split]. do 2 (eapply runs_bind; [solve [auto with run]|]).
    cbv beta. fold b. btest (n <? b). btest (g_size (mem s) <=? n).
    apply runs_ret. }
  set (hdr := if 8 <=? n - b then
    fun m => wr32 (b + 4) (Z.lor (n - b) 1) (wr32 b 0 m) else fun m => m).
  exists (upd_kern (upd_brk n) (upd_mem hdr s)). split.
  - do 2 (eapply runs_bind; [solve [auto with run]|]). cbv beta zeta. fold b.
    btest (n <? b). btest (g_size (mem s) <=? n).
    rewrite (u32_small (n - b)) by (unfold is_u32; lia).
    eapply (runs_bind _ _ _ tt (upd_mem hdr s)).
    + unfold hdr. destruct (Z.leb_spec 8 (n - b)).
      * rewrite !u32_small, Z.add_0_r by (unfold is_u32; lia).
        eapply runs_bind; [apply runs_mem_write32; [apply Hs|lia]|].
        eapply runs_eq; [apply runs_mem_write32; [apply (wf_wr32 b 0 s); [done|lia]|lia]|done|done].
      * eapply runs_eq; [apply runs_ret|done|by rewrite upd_mem_id].
    + eapply runs_bind; [apply runs_modify|]. rewrite u32_small by done. apply runs_get_kern.
  - do 4 (split; [done|]). unfold hdr. cbn [mem upd_kern upd_mem].
    destruct (Z.leb_spec 8 (n - b)); cbn [andb]; [|done].
    rewrite (wr32_in b), wr32_in by (simpl; lia). split; [done|]. intros a.
    change (upd_bytes ?f (upd_bytes ?g ?m)) with (upd_bytes (fun x => f (g x)) m).
    rewrite <- (byte_at_store b (le_bytes 4 0 ++ le_bytes 4 (Z.lor (n - b) 1))).
    f_equal. unfold upd_bytes. by rewrite store_bytes_app.
Qed.
End brk.

(** * Mappings *)

Section mmap.
Context {H : Type} `{HostOS H}.
Implicit Types s : machine H.

(** The arena: the next mapping starts on a page, below the last MiB of guest memory. *)
Definition arena_ok s : Prop :=
  wf s /\ 0x100000 <= g_size (mem s) /\ 0 < g_mmap_ptr (kern s) /\
  g_mmap_ptr (kern s) mod 0x1000 = 0 /\ g_mmap_ptr (kern s) <= g_size (mem s) - 0x100000.

(** What a mapping of [al] bytes at [ptr] does to the machine. *)
Definition mapped (ptr al : Z) s : machine H :=
  upd_mem (upd_bytes (store_bytes ptr (replicate (Z.to_nat al) 0)))
    (upd_kern (upd_mmap (g_mmap_base (kern s)) (ptr + al)) s).

Lemma wf_mapped ptr al s : wf s -> 0 <= ptr -> 0 <= al -> ptr + al <= g_size (mem s) ->
  wf (mapped ptr al s).
Proof.
  intros [Wc Wm Wo Wk] Hp Ha Hr. pose proof (wf_size _ Wm). constructor; try done.
  - apply wf_store_bytes; [done|done|rewrite length_replicate; simpl; lia|].
    by apply Forall_replicate.
  - destruct Wk. constructor; try done. simpl. unfold is_u32. lia.
Qed.

(** Requests served from the arena: not of a file, and without MAP_FIXED. *)
Definition from_arena (fd flags : Z) : Prop :=
  (fd = -1 \/ Z.land flags LINUX_MAP_ANONYMOUS <> 0) /\ Z.land flags LINUX_MAP_FIXED = 0.

(** The beginning of [sys_mmap2] for such a request. *)
Lemma mmap2_from_arena s addr len prot flags fd off :
  from_arena fd flags -> len <> 0 -> g_mmap_ptr (kern s) <> 0 ->
  sys_mmap2 addr len prot flags fd off s =
  (let ptr := g_mmap_ptr (kern s) in let al := page_align len in
   if u64 (g_size (mem s) - 0x100000) <? u32 (ptr + al) then Ret (u32 (- ENOMEM)) s
   else (host ← guest_to_host ptr;
         match host with
         | None => mret (u32 (- EFAULT))
         | Some p => host_memset p 0 al;; mret ptr
         end) (upd_kern (upd_mmap (g_mmap_base (kern s)) (u32 (ptr + al))) s)).
Proof.
  intros [Ha Hf] Hl Hp. unfold sys_mmap2. btest (len =? 0). cbv zeta.
  replace (negb (fd =? -1) && (Z.land flags LINUX_MAP_ANONYMOUS =? 0)) with false by lia.
  rewrite Hf. cbn [Z.eqb negb].
  unfold mbind, M_bind, mem_size, get_kern, gets, set_mmap_ptr, modify, mret, M_ret.
  btest (g_mmap_ptr (kern s) =? 0). by destruct (_ <? _).
Qed.

(** A block that fits leaves the arena sound. *)
Lemma arena_mapped s al : arena_ok s -> 0 <= al -> al mod 0x1000 = 0 ->
  g_mmap_ptr (kern s) + al <= g_size (mem s) - 0x100000 ->
  arena_ok (mapped (g_mmap_ptr (kern s)) al s).
Proof.
  intros (Hs & Hz & Hp & Hm & Hlim) Ha Hmod Hr. split; [by apply wf_mapped; try lia|].
  cbn [kern mapped mem upd_mem upd_kern upd_mmap g_mmap_ptr upd_bytes g_size].
  split; [done|]. split; [lia|]. split; [|done]. rewrite Z.add_mod by done. by rewrite Hm, Hmod.
Qed.

Lemma runs_mmap2 s addr len prot flags fd off :
  arena_ok s -> from_arena fd flags -> 0 < len -> g_size (mem s) + len <= 0x100000000 ->
  let ptr := g_mmap_ptr (kern s) in let al := page_align len in
  if ptr + al <=? g_size (mem s) - 0x100000
  then runs (sys_mmap2 addr len prot flags fd off) s ptr (mapped ptr al s)
  else runs (sys_mmap2 addr len prot flags fd off) s (u32 (- ENOMEM)) s.
Proof.
  intros (Hs & Hz & Hp & Hm & Hlim) Han Hl Hw ptr al. fold ptr in Hp, Hm, Hlim.
  destruct (page_align_spec len) as [Hal Hmod]; [lia|lia|]. fold al in Hal, Hmod.
  pose proof (wf_size _ (wf_m_mem _ Hs)).
  unfold runs. rewrite mmap2_from_arena by (done || lia). cbv zeta. fold ptr al.
  unfold u64. rewrite Z.mod_small by lia. rewrite u32_small by (unfold is_u32; lia).
  destruct (Z.leb_spec (ptr + al) (g_size (mem s) - 0x100000)); [|by bif].
  btest (g_size (mem s) - 0x100000 <? ptr + al).
  eapply runs_bind; [apply runs_guest_to_host; lia|]. cbn [mem upd_kern].
  btest (ptr <? g_size (mem s)). cbv iota.
  eapply runs_bind; [apply runs_host_memset; cbn [mem upd_kern]; lia|]. apply runs_ret.
Qed.

(** A block of guest memory cleared, and nothing else of memory changed. *)
Definition block_cleared (p n : Z) s s' : Prop :=
  forall a, byte_at (mem s') a = if (p <=? a) && (a <? p + n) then 0 else byte_at (mem s) a.

Lemma block_cleared_store p n s s' : 0 <= n -> g_mem (mem s') =
    g_mem (upd_bytes (store_bytes p (replicate (Z.to_nat n) 0)) (mem s)) ->
  block_cleared p n s s'.
Proof.
  intros Hn E a. unfold byte_at at 1. rewrite E. fold (byte_at (upd_bytes
    (store_bytes p (replicate (Z.to_nat n) 0)) (mem s)) a).
  rewrite byte_at_store, length_replicate, Z2Nat.id by done.
  destruct (_ && _) eqn:E'; [|done]. by rewrite lookup_replicate_2 by lia.
Qed.

(** The whole of a MAP_FIXED request. *)
Lemma runs_mmap2_fixed s addr len prot flags fd off :
  wf s -> is_u32 addr -> 0 < len -> len + 0xFFF < 0x100000000 ->
  negb (fd =? -1) && (Z.land flags LINUX_MAP_ANONYMOUS =? 0) = false ->
  Z.land flags LINUX_MAP_FIXED <> 0 ->
  let al := page_align len in
  if addr + al <=? g_size (mem s)
  then runs (sys_mmap2 addr len prot flags fd off) s addr
         (upd_mem (upd_bytes (store_bytes addr (replicate (Z.to_nat al) 0))) s)
  else runs (sys_mmap2 addr len prot flags fd off) s (u32 (- ENOMEM)) s.
Proof.
  intros Hs Ha Hl Hw Hfile Hfix al.
  destruct (page_align_spec len) as [Hal _]; [lia|lia|]. fold al in Hal. unfold is_u32 in Ha.
  destruct (Z.leb_spec (addr + al) (g_size (mem s))); unfold sys_mmap2; cbv zeta; fold al;
    btest (len =? 0); rewrite Hfile; (eapply runs_bind; [apply runs_mem_size|]);
    rewrite (proj2 (Z.eqb_neq _ _) Hfix); cbn [negb].
  - btest (g_size (mem s) <? addr + al). eapply runs_bind; [apply runs_ret|].
    eapply runs_bind; [apply runs_guest_to_host; lia|]. btest (addr <? g_size (mem s)).
    eapply runs_bind; [apply runs_host_memset; lia|apply runs_ret].
  - btest (g_size (mem s) <? addr + al). eapply runs_bind; [apply runs_ret|apply runs_ret].
Qed.


(** C37: the 32-bit wrap-around of [mmap2].  From a sound arena, a length that carries the
    arena pointer past 4 GiB passes the size check, because the sum is truncated to 32 bits
    first.  If the rounded length is itself truncated to zero, the call succeeds without
    reserving anything; otherwise the memory is cleared past the end of the allocation. *)
Theorem mmap2_wraps s addr len prot flags fd off :
  arena_ok s -> from_arena fd flags -> 0 < len < 0x100000000 ->
  0x100000000 <= g_mmap_ptr (kern s) + len ->
  if 0xFFFFF000 <? len
  then runs (sys_mmap2 addr len prot flags fd off) s (g_mmap_ptr (kern s)) s
  else sys_mmap2 addr len prot flags fd off s = Undef UB_oob.
Proof.
  intros (Hs & Hz & Hp & Hm & Hlim) Han Hl Hw. set (ptr := g_mmap_ptr (kern s)) in *.
  pose proof (wf_size _ (wf_m_mem _ Hs)) as Hsz.
  unfold runs. rewrite mmap2_from_arena by (done || lia). cbv zeta. fold ptr.
  destruct (Z.ltb_spec 0xFFFFF000 len).
  - rewrite page_align_wraps by lia.
    rewrite Z.add_0_r, u32_small by (unfold is_u32; lia).
    unfold u64. rewrite Z.mod_small by lia. btest (g_size (mem s) - 0x100000 <? ptr).
    eapply runs_bind; [apply runs_guest_to_host; lia|]. cbn [mem upd_kern].
    btest (ptr <? g_size (mem s)). cbv iota.
    eapply runs_bind; [apply runs_host_memset; cbn [mem upd_kern]; lia|].
    eapply runs_eq; [apply runs_ret|done|]. unfold ptr. by destruct s as [c [] o [] h].
  - destruct (page_align_spec len) as [Hal Hmod]; [lia|lia|].
    replace (u32 (ptr + page_align len)) with (ptr + page_align len - 0x100000000) by cint.
    unfold u64. rewrite Z.mod_small by lia.
    btest (g_size (mem s) - 0x100000 <? ptr + page_align len - 0x100000000).
    rewrite (bind_Ret _ _ _ _ _ (runs_guest_to_host _ ptr ltac:(lia))). cbn [mem upd_kern].
    btest (ptr <? g_size (mem s)). apply bind_Undef. unfold host_memset.
    cbn [mem upd_kern]. by bif.
Qed.
End mmap.

(** * Signal actions and the thread area *)

Section threads.
Context {H : Type} `{HostOS H}.
Implicit Types s : machine H.

(** C38: signal actions are stored and given back.  Registering the 20-byte action at [act]
    for a signal and asking for it again copies those bytes to [oact]; guest memory is
    otherwise unchanged, and so are the actions of the other signals. *)
Theorem sigaction_roundtrip s sig act oact n n' :
  wf s -> 1 <= sig < SIGMAX -> act <> 0 -> oact <> 0 -> 0 <= act -> 0 <= oact ->
  act + 20 <= g_size (mem s) -> oact + 20 <= g_size (mem s) ->
  exists s', runs (sys_rt_sigaction sig act 0 n;; sys_rt_sigaction sig 0 oact n') s 0 s' /\
    load_bytes (mem s') oact 20 = load_bytes (mem s) act 20 /\
    (forall a, a < oact \/ oact + 20 <= a -> byte_at (mem s') a = byte_at (mem s) a) /\
    (forall g, 0 <= g -> g <> sig ->
       zget (g_sigactions (kern s')) g = zget (g_sigactions (kern s)) g) /\
    cpu s' = cpu s /\ og s' = og s /\ host s' = host s.
Proof.
  intros Hs Hsig Ha Ho Ha0 Ho0 Har Hor. unfold SIGMAX in Hsig.
  pose proof (wf_sig_length _ (wf_m_kern _ Hs)) as Hl.
  set (bs := load_bytes (mem s) act 20).
  assert (length bs = 20%nat) as Hbl by apply load_bytes_length.
  set (s1 := upd_kern (upd_sigactions (fun t => zset t sig bs)) s).
  assert (runs (sys_rt_sigaction sig act 0 n) s 0 s1) as R1.
  { unfold sys_rt_sigaction, SIGMAX. replace ((sig <? 1) || (64 <=? sig)) with false by lia.
    cbv zeta. cbn [Z.eqb negb]. btest (act =? 0).
    eapply runs_bind; [by apply runs_guest_to_host|]. btest (act <? g_size (mem s)). cbv iota.
    eapply runs_bind; [apply runs_host_load_bytes; (done || simpl; lia)|].
    eapply runs_bind; [apply runs_modify|apply runs_ret]. }
  set (s2 := upd_mem (upd_bytes (store_bytes oact bs)) s1).
  assert (runs (sys_rt_sigaction sig 0 oact n') s1 0 s2) as R2.
  { unfold sys_rt_sigaction, SIGMAX. replace ((sig <? 1) || (64 <=? sig)) with false by lia.
    cbv zeta. btest (oact =? 0). change (0 =? 0) with true. cbn [negb].
    eapply runs_bind; [by apply runs_guest_to_host|]. cbn [mem s1 upd_kern].
    btest (oact <? g_size (mem s)). cbv iota.
    eapply runs_bind; [apply runs_gets|]. cbn [kern s1 upd_kern upd_sigactions g_sigactions].
    rewrite zget_zset_eq by lia.
    eapply runs_bind; [apply runs_host_store_bytes; [done|rewrite Hbl; simpl; lia]|].
    eapply runs_eq; [apply runs_ret|done|]. unfold s2.
    by rewrite fmap_u8_id by apply load_bytes_u8, Hs. }
  exists s2. split; [by eapply runs_bind|]. split.
  { rewrite <- Hbl at 1. apply load_store_same. }
  split.
  { intros a Ha'. cbn [mem s2 s1 upd_mem upd_kern]. rewrite byte_at_store, Hbl. by bif. }
  split; [|done]. intros g Hg Hne. apply zget_zset_ne; lia.
Qed.

(** The descriptor at [p] once its entry number is filled in. *)
Definition area_header (p e : Z) (m : guest_mem) : guest_mem :=
  if e =? 0xFFFFFFFF then wr32 p 0 m else m.
(** The state after the call. *)
Definition area_set (p e b : Z) s : machine H :=
  upd_mem (fun m => wr32 (b - 4) 0x91 (wr32 (b - 8) 0 (wr32 (b + 0x10) 0x1000 m)))
    (upd_og (upd_gs_base b) (upd_mem (area_header p e) s)).

Lemma area_header_spec p e m : wf_mem m -> 0 <= p -> p + 4 <= g_size m ->
  load_bytes m p 4 = le_bytes 4 e -> let m' := area_header p e m in
  wf_mem m' /\ g_size m' = g_size m /\
  (forall a, a < p \/ p + 4 <= a -> byte_at m' a = byte_at m a) /\
  load_bytes m' p 4 = le_bytes 4 (if e =? 0xFFFFFFFF then 0 else e).
Proof.
  intros Hm Hp Hr Hd. unfold area_header. destruct (Z.eqb_spec e 0xFFFFFFFF); [|done].
  split; [by apply wf_mem_wr32|]. split; [apply wr32_size|].
  split; [intros; by apply byte_at_wr32_ne|]. rewrite wr32_in by lia. apply load_store_same.
Qed.

(** The writes that follow do not touch the descriptor. *)
Lemma area_set_other p e b s a : a < b - 8 \/ b + 0x14 <= a ->
  byte_at (mem (area_set p e b s)) a = byte_at (area_header p e (mem s)) a.
Proof. intros Ha. cbn [mem area_set upd_mem upd_og]. by rewrite !byte_at_wr32_ne by lia. Qed.

Lemma runs_set_thread_area s p e b : wf s -> 0 <= p -> p + 8 <= g_size (mem s) ->
  is_u32 e -> is_u32 b -> load_bytes (mem s) p 4 = le_bytes 4 e ->
  load_bytes (mem s) (p + 4) 4 = le_bytes 4 b ->
  8 <= b -> b + 0x14 <= g_size (mem s) -> p + 8 <= b - 8 \/ b + 0x14 <= p ->
  runs (sys_set_thread_area p) s 0 (area_set p e b s).
Proof.
  intros Hs Hp Hpr He Hb Hd1 Hd2 Hb8 Hbr Hsep. pose proof (wf_size _ (wf_m_mem _ Hs)) as Hz.
  unfold is_u32 in Hb.
  destruct (area_header_spec p e (mem s)) as (W1 & Z1 & B1 & _); [apply Hs|lia|lia|done|].
  set (t1 := upd_mem (area_header p e) s). set (t2 := upd_og (upd_gs_base b) t1).
  set (t3 := upd_mem (wr32 (b + 0x10) 0x1000) t2). set (t4 := upd_mem (wr32 (b - 8) 0) t3).
  assert (wf_mem (mem t3)) as W3 by (apply wf_mem_wr32; [exact W1|lia]).
  assert (wf_mem (mem t4)) as W4 by (apply wf_mem_wr32; [exact W3|lia]).
  assert (forall t : machine H, (forall a, p + 4 <= a < p + 8 -> byte_at (mem t) a = byte_at (mem s) a) ->
    g_size (mem t) = g_size (mem s) -> runs (host_load32 (p + 4)) t b t) as Hbase.
  { intros t Hm Hsz. apply runs_host_load32; [lia|lia|done|]. rewrite <- Hd2.
    apply load_bytes_ext. intros x Hx. apply Hm. lia. }
  unfold sys_set_thread_area. eapply runs_bind; [by apply runs_guest_to_host|].
  btest (p <? g_size (mem s)). cbv iota zeta.
  eapply runs_bind; [by apply (runs_host_load32 s p e); (done || lia)|].
  eapply (runs_bind _ _ _ tt t1).
  { unfold t1, area_header. change (u32 (-1)) with 0xFFFFFFFF. destruct (e =? 0xFFFFFFFF).
    - unfold host_store32. eapply runs_eq; [apply runs_host_store_bytes; [done|simpl; lia]|done|].
      unfold upd_mem. rewrite wr32_in by lia. by rewrite fmap_u8_id by apply le_bytes_u8.
    - eapply runs_eq; [apply runs_ret|done|by rewrite upd_mem_id]. }
  eapply runs_bind; [apply Hbase; [intros; apply B1; lia|exact Z1]|].
  eapply (runs_bind _ _ _ tt t2).
  { unfold set_gs_base. rewrite u32_small by done. apply runs_modify. }
  eapply runs_bind; [apply Hbase; [intros; apply B1; lia|exact Z1]|].
  rewrite (u32_small (b + 0x10)) by (unfold is_u32; lia).
  eapply runs_bind; [apply runs_mem_write32; [exact W1|lia]|]. fold t3.
  eapply runs_bind; [apply Hbase; [|etrans; [apply wr32_size|exact Z1]]|].
  { intros a Ha. cbn [mem t3 upd_mem]. rewrite byte_at_wr32_ne by lia. apply B1. lia. }
  rewrite (u32_small (b - 8)) by (unfold is_u32; lia).
  eapply runs_bind; [apply runs_mem_write32; [exact W3|lia]|]. fold t4.
  eapply runs_bind; [apply Hbase; [|do 2 (etrans; [apply wr32_size|]); exact Z1]|].
  { intros a Ha. cbn [mem t4 t3 upd_mem]. rewrite !byte_at_wr32_ne by lia. apply B1. lia. }
  rewrite (u32_small (b - 4)) by (unfold is_u32; lia).
  eapply runs_bind; [apply runs_mem_write32; [exact W4|lia]|]. apply runs_ret.
Qed.

(** C39: [set_thread_area] makes the fake thread block reachable.  For a descriptor at [p]
    whose base [b] has room below and above and does not overlap it, the call succeeds,
    leaves [b] in the GS base, puts the address of the system-call trampoline at offset 0x10
    of the block, and fills in entry number 0 when the guest asked for any. *)
Theorem set_thread_area_spec s p e b :
  wf s -> 0 <= p -> p + 8 <= g_size (mem s) -> is_u32 e -> is_u32 b ->
  load_bytes (mem s) p 8 = le_bytes 4 e ++ le_bytes 4 b ->
  8 <= b -> b + 0x14 <= g_size (mem s) -> p + 8 <= b - 8 \/ b + 0x14 <= p ->
  exists s', runs (sys_set_thread_area p) s 0 s' /\
    g_gs_base (og s') = b /\ rd32 (mem s') (b + 0x10) = 0x1000 /\
    load_bytes (mem s') p 8 = le_bytes 4 (if e =? 0xFFFFFFFF then 0 else e) ++ le_bytes 4 b /\
    (forall a, (a < p \/ p + 8 <= a) -> (a < b - 8 \/ b + 0x14 <= a) ->
       byte_at (mem s') a = byte_at (mem s) a) /\
    cpu s' = cpu s /\ kern s' = kern s /\ host s' = host s.
Proof.
  intros Hs Hp Hpr He Hb Hd Hb8 Hbr Hsep. change 8%nat with (4 + 4)%nat in Hd.
  rewrite load_bytes_app in Hd.
  apply app_inj_1 in Hd as [Hd1 Hd2]; [|by rewrite load_bytes_length, le_bytes_length].
  change (Z.of_nat 4) with 4 in Hd2.
  destruct (area_header_spec p e (mem s)) as (W1 & Z1 & B1 & D1); [apply Hs|lia|lia|done|].
  exists (area_set p e b s). split; [by apply runs_set_thread_area|]. split; [done|]. split.
  { cbn [mem area_set upd_mem upd_og]. do 2 rewrite rd32_wr32_ne by lia.
    by rewrite rd32_wr32 by lia. }
  split; [|split; [|done]].
  - change 8%nat with (4 + 4)%nat. rewrite load_bytes_app, <- D1, <- Hd2.
    change (Z.of_nat 4) with 4.
    f_equal; apply load_bytes_ext; intros x Hx; rewrite area_set_other by lia;
      [done|apply B1; lia].
  - intros a Ha1 Ha2. rewrite area_set_other by lia. apply B1. lia.
Qed.
End threads.

(** * Examples *)

(** The heap grows from 0x4000 to 0x4010, with a chunk header. *)
Lemma sys_brk_spec_witness :
  let s := toy_machine (replicate 8 0) 0x1000 [] in
  exists s', runs (sys_brk 0x4010) s 0x4010 s' /\ g_brk (kern s') = 0x4010 /\
    load_bytes (mem s') 0x4000 9 = [0; 0; 0; 0; 0x11; 0; 0; 0; 0].
Proof.
  intros s. destruct (sys_brk_spec s 0x4010) as (s' & Hr & Hk & _ & _ & _ & _ & Hm).
  - by apply wf_toy.
  - done.
  - exists s'. split; [exact Hr|]. split; [by rewrite Hk|]. cbn [load_bytes]. by rewrite !Hm.
Defined.

(** A machine with 4 MiB of memory and an arena from 1 MiB up. *)
Definition toy_arena : machine (list Z) :=
  mk_machine (cpu (toy_machine (replicate 8 0) 0x1000 [])) (mk_guest_mem ∅ 0x400000 0)
    toy_og (upd_mmap 0x100000 0x100000 toy_kernel) [].

Lemma arena_ok_toy : arena_ok toy_arena.
Proof.
  split; [|done]. constructor.
  - apply (wf_m_cpu _ (wf_toy (replicate 8 0) 0x1000 [] eq_refl)).
  - by constructor.
  - apply wf_toy_og.
  - by apply wf_kern_zeros.
Qed.

Lemma toy_from_arena : from_arena (-1) 0x22.
Proof. split; [by left|done]. Qed.


(** A length of 4 GiB less one byte "succeeds"; one of 4 GiB less one MiB runs out of the
    allocation. *)
Lemma mmap2_wraps_witness :
  runs (sys_mmap2 0 0xFFFFFFFF 3 0x22 (-1) 0) toy_arena 0x100000 toy_arena /\
  sys_mmap2 0 0xFFF00000 3 0x22 (-1) 0 toy_arena = Undef UB_oob.
Proof.
  split.
  - apply (mmap2_wraps toy_arena 0 0xFFFFFFFF 3 0x22 (-1) 0).
    + apply arena_ok_toy.
    + apply toy_from_arena.
    + done.
    + done.
  - apply (mmap2_wraps toy_arena 0 0xFFF00000 3 0x22 (-1) 0).
    + apply arena_ok_toy.
    + apply toy_from_arena.
    + done.
    + done.
Defined.

(** The action of signal 2, from 0x2000 to 0x3000. *)
Lemma sigaction_roundtrip_witness :
  let s := toy_machine (replicate 8 0) 0x1000 [(0x2000, [1; 2; 3])] in
  exists s', runs (sys_rt_sigaction 2 0x2000 0 8;; sys_rt_sigaction 2 0 0x3000 8) s 0 s' /\
    load_bytes (mem s') 0x3000 20 = [1; 2; 3] ++ replicate 17 0.
Proof.
  intros s. destruct (sigaction_roundtrip s 2 0x2000 0x3000 8 8) as (s' & Hr & Hb & _);
    [by apply wf_toy|done..|].
  exists s'. split; [exact Hr|]. by rewrite Hb.
Defined.

(** A thread block at 0x3000. *)
Lemma set_thread_area_spec_witness :
  let s := toy_machine (replicate 8 0) 0x1000
             [(0x2000, le_bytes 4 0xFFFFFFFF ++ le_bytes 4 0x3000)] in
  exists s', runs (sys_set_thread_area 0x2000) s 0 s' /\ g_gs_base (og s') = 0x3000 /\
    rd32 (mem s') 0x3010 = 0x1000.
Proof.
  intros s. destruct (set_thread_area_spec s 0x2000 0xFFFFFFFF 0x3000)
    as (s' & Hr & Hg & Hb & _); [by apply wf_toy|done..|lia|].
  exists s'. split; [exact Hr|]. split; [exact Hg|exact Hb].
Defined.
