(* ===== verification/Calls.v ===== *)
(** System-call dispatch: which registers a call may change, the calls that only answer a
    constant, unknown numbers, and the calls that end the process. *)
From S2P Require Import Prelude CInt Machine Logic Mem Backend Toy Syscall Exec Files.

(** * What a system call leaves alone *)

(** Every register but EAX, EIP, the flags and the cycle count. *)
Record eax_only {H} (s s' : machine H) : Prop := {
  eo_regs : forall r, 0 <= r -> r <> REG_EAX -> rget s' r = rget s r;
  eo_eip : eip (cpu s') = eip (cpu s);
  eo_flags : eflags (cpu s') = eflags (cpu s);
  eo_cycles : cycles (cpu s') = cycles (cpu s)
}.

#[export] Instance eax_only_preorder {H} : PreOrder (eax_only (H:=H)).
Proof.
  split; [by constructor|]. intros s1 s2 s3 [R1 E1 F1 C1] [R2 E2 F2 C2].
  constructor; [|congruence..]. intros r H0 Hr. by rewrite R2, R1.
Qed.

(** A relation that system calls other than [mmap2] stay in, whatever they do to guest memory,
    the host, the descriptors, the heap and the signal table. *)
Class SyscallFrame {H} (R : machine H -> machine H -> Prop) := {
  sf_preorder : PreOrder R;
  sf_eax v s : R s (rset REG_EAX v s);
  sf_halt s : R s (upd_cpu (upd_halted (fun _ => 1)) s);
  sf_mem f s : R s (upd_mem f s);
  sf_og f s : R s (upd_og f s);
  sf_host f s : R s (upd_host f s);
  sf_fd_table f s : R s (upd_kern (upd_fd_table f) s);
  sf_brk b s : R s (upd_kern (upd_brk b) s);
  sf_sigactions f s : R s (upd_kern (upd_sigactions f) s)
}.

Section frame.
Context {H : Type} `{HostOS H} (R : machine H -> machine H -> Prop) `{!SyscallFrame R}.
#[local] Instance sf_pre : PreOrder R := sf_preorder.

Lemma sf_gets {A} (f : machine H -> A) : respects R (gets f).
Proof. apply respects_gets. exact _. Qed.
Lemma sf_os {A} (f : H -> A * H) : respects R (os f).
Proof. intros s. unfold os. destruct (f (host s)). apply sf_host. Qed.

(** Accesses to guest memory. *)
Lemma sf_host_store a v : respects R (host_store a v).
Proof. intros s. unfold host_store. destruct (_ && _); [apply sf_mem|done]. Qed.
Lemma sf_host_load a : respects R (host_load a).
Proof. intros s. unfold host_load. destruct (_ && _); [reflexivity|done]. Qed.
Lemma sf_host_store_bytes a bs : respects R (host_store_bytes a bs).
Proof. intros s. unfold host_store_bytes. destruct (_ && _); [apply sf_mem|done]. Qed.
Lemma sf_host_load_bytes a n : respects R (host_load_bytes a n).
Proof. intros s. unfold host_load_bytes. destruct (_ && _); [reflexivity|done]. Qed.
Lemma sf_host_memset a v n : respects R (host_memset a v n).
Proof. intros s. unfold host_memset. destruct (_ && _); [apply sf_mem|done]. Qed.
Lemma sf_host_string a : respects R (host_string a).
Proof. intros s. unfold host_string. repeat case_match; simplify_eq; (reflexivity || done). Qed.

(** The writes to the state. *)
Lemma sf_set_eax v : respects R (set_reg REG_EAX v).
Proof. apply respects_modify. apply sf_eax. Qed.
Lemma sf_set_halted : respects R halt.
Proof. apply respects_modify. apply sf_halt. Qed.
Lemma sf_set_fd_entry fd e : respects R (set_fd_entry fd e).
Proof. apply respects_modify. intros s. apply sf_fd_table. Qed.
Lemma sf_set_brk v : respects R (set_brk v).
Proof. apply respects_modify. intros s. apply sf_brk. Qed.
Lemma sf_upd_sigactions f : respects R (modify (upd_kern (upd_sigactions f))).
Proof. apply respects_modify. intros s. apply sf_sigactions. Qed.
Lemma sf_set_gs_base v : respects R (set_gs_base v).
Proof. apply respects_modify. intros s. apply sf_og. Qed.

#[local] Hint Resolve sf_gets sf_os sf_host_store sf_host_load sf_host_store_bytes
  sf_host_load_bytes sf_host_memset sf_host_string sf_set_eax sf_set_halted sf_set_fd_entry
  sf_set_brk sf_upd_sigactions sf_set_gs_base : resp.
#[local] Hint Extern 1 (respects R (check_bounds _ _)) => apply sf_gets : resp.
#[local] Hint Extern 1 (respects R (fd_entry _)) => apply sf_gets : resp.
#[local] Hint Extern 1 (respects R (get_kern _)) => apply sf_gets : resp.
#[local] Hint Extern 1 (respects R mem_size) => apply sf_gets : resp.
#[local] Hint Extern 1 (respects R (reg _)) => apply sf_gets : resp.

Lemma sf_guest_to_host a : respects R (guest_to_host a).
Proof. unfold guest_to_host. respects. Qed.
Lemma sf_mem_write32 a v : respects R (mem_write32 a v).
Proof. unfold mem_write32. respects. Qed.
Lemma sf_bad_fd fd : respects R (bad_fd fd).
Proof. unfold bad_fd. respects. Qed.
#[local] Hint Resolve sf_guest_to_host sf_mem_write32 sf_bad_fd : resp.
Lemma sf_sys_exit {A} v : respects R (sys_exit (A:=A) v).
Proof. unfold sys_exit. respects. Qed.
Lemma sf_sys_write fd p n : respects R (sys_write fd p n).
Proof. unfold sys_write. respects. Qed.
Lemma sf_sys_lseek fd o w : respects R (sys_lseek fd o w).
Proof. unfold sys_lseek. respects. Qed.
Lemma sf_write_words n a v : respects R (write_words n a v).
Proof. revert a. induction n; intros a; simpl; respects. Qed.
Lemma sf_store_fields p fs : respects R (store_fields p fs).
Proof. induction fs as [|[[o n] v] fs IH]; simpl; respects. Qed.
#[local] Hint Resolve sf_sys_exit sf_sys_write sf_sys_lseek sf_write_words
  sf_store_fields : resp.

Lemma sf_default : respects R (ret_eax (mret (- ENOSYS))).
Proof. unfold ret_eax. respects. Qed.

(** Every case of the dispatcher but [mmap2]. *)
Lemma sf_cases ebx ecx edx esi edi ebp :
  Forall (fun c => c.1 <> LINUX_SYS_MMAP2 -> respects R c.2)
    (syscall_cases ebx ecx edx esi edi ebp).
Proof.
  unfold syscall_cases, ret_eax, fill_words, sys_uname, strncpy, sys_llseek,
    sys_tgkill, sys_getrandom, sys_munmap, sys_mprotect, sys_read, sys_open, alloc_fd,
    sys_close, sys_brk, sys_rt_sigaction, sys_rt_sigprocmask,
    sys_fstat64, sys_set_thread_area,
    sys_set_tid_address, sys_writev, writev_body, host_load32, host_store32.
  repeat first [apply Forall_nil_2
    |apply Forall_cons_2; [simpl fst; simpl snd; intros ?; first [done|respects]|]].
Qed.

(** An [mmap2] that does not take its block from the arena; or any, when the relation lets
    the arena pointer move. *)
Lemma sf_mmap2_fixed addr len prot flags fd off :
  Z.land flags LINUX_MAP_FIXED <> 0 -> respects R (sys_mmap2 addr len prot flags fd off).
Proof.
  intros Hf. unfold sys_mmap2. rewrite (proj2 (Z.eqb_neq _ _) Hf). cbn [negb]. respects.
Qed.
Lemma sf_mmap2 addr len prot flags fd off :
  (forall v, respects R (set_mmap_ptr v)) -> respects R (sys_mmap2 addr len prot flags fd off).
Proof. intros Hp. unfold sys_mmap2. respects. Qed.
End frame.

(** ** The registers *)

Lemma eo_same_cpu {H} (f : machine H -> machine H) :
  (forall s, cpu (f s) = cpu s) -> forall s, eax_only s (f s).
Proof. intros Hf s. constructor; unfold rget; by rewrite ?Hf. Qed.

#[export] Instance eax_only_frame {H} : SyscallFrame (eax_only (H:=H)).
Proof.
  split; try exact _; try by constructor.
  intros v s. constructor; [|done..]. intros r H1 H2. by apply rget_rset_ne.
Qed.

Lemma eo_dispatch {H} `{HostOS H} : respects (eax_only (H:=H)) dispatch_syscall.
Proof.
  unfold dispatch_syscall.
  do 7 (apply respects_bind; [exact _|apply sf_gets; exact _|intros ?]).
  destruct (decide (a = LINUX_SYS_MMAP2)) as [->|Hne].
  - change (respects (eax_only (H:=H)) (ret_eax (sys_mmap2 a0 a1 (s32 a2) (s32 a3) (s32 a4) a5))).
    apply respects_bind; [exact _| |intros v; apply sf_set_eax; exact _].
    apply sf_mmap2; [exact _|]. intros v s. by apply (eo_same_cpu (upd_kern _)).
  - apply (switch_Forall_but _ LINUX_SYS_MMAP2); [done|apply sf_cases; exact _|].
    apply sf_default. exact _.
Qed.

Section calls.
Context {H : Type} `{HostOS H}.

(** C40: a system call changes no register but EAX.  Whatever the call and its arguments,
    and also when it ends the process, the other seven registers, EIP, the flags and the
    cycle count are those at the call. *)
Theorem syscall_clobbers_eax s :
  match dispatch_syscall s with
  | Ret _ s' | Exited _ s' =>
      (forall r, 0 <= r -> r <> REG_EAX -> rget s' r = rget s r) /\
      eip (cpu s') = eip (cpu s) /\ eflags (cpu s') = eflags (cpu s) /\
      cycles (cpu s') = cycles (cpu s)
  | Undef _ | NoFuel => True
  end.
Proof. pose proof (eo_dispatch s) as Hs. destruct (dispatch_syscall s); try done; by destruct Hs. Qed.

(** * Constant answers *)

(** The calls with an effect or an answer that depends on the state. *)
Definition effectful_calls : list Z :=
  [1; 3; 4; 5; 6; 19; 45; 122; 140; 146; 174; 175; 191; 192; 197; 243; 252; 258; 265; 270;
   295; 355; 403].
(** The calls that only answer a constant. *)
Definition constant_calls : list (Z * Z) :=
  [(20, 1); (37, 0); (91, 0); (125, 0); (172, 0); (173, 0); (180, - ENOSYS);
   (195, - ENOENT); (196, - ENOENT); (199, 1000); (200, 1000); (201, 1000); (202, 1000);
   (219, 0); (224, 1); (240, 0); (300, 0); (305, - ENOENT); (311, 0); (383, - ENOSYS);
   (386, 0)].

(** The calls without effect.  A call that is not one of the effectful ones writes a
    constant to EAX and changes nothing else: the listed constant when it is in the table,
    and -ENOSYS for every other number, known or not. *)
Theorem syscall_constant s : rget s REG_EAX ∉ effectful_calls ->
  runs dispatch_syscall s tt
    (rset REG_EAX (switch (rget s REG_EAX) constant_calls (- ENOSYS)) s).
Proof.
  intros Hn. unfold effectful_calls in Hn. rewrite !not_elem_of_cons in Hn.
  decompose [and] Hn. clear Hn. unfold dispatch_syscall.
  do 7 (eapply runs_bind; [apply runs_reg|]).
  cbn [switch syscall_cases constant_calls].
  unfold LINUX_SYS_EXIT, LINUX_SYS_READ, LINUX_SYS_WRITE, LINUX_SYS_OPEN, LINUX_SYS_CLOSE,
    LINUX_SYS_LSEEK, LINUX_SYS_GETPID, LINUX_SYS_KILL, LINUX_SYS_BRK, LINUX_SYS_MUNMAP,
    LINUX_SYS_UNAME, LINUX_SYS_MPROTECT, LINUX_SYS_LLSEEK, LINUX_SYS_RT_SIGRETURN,
    LINUX_SYS_RT_SIGACTION, LINUX_SYS_RT_SIGPROCMASK, LINUX_SYS_MMAP2, LINUX_SYS_FSTAT64,
    LINUX_SYS_FUTEX, LINUX_SYS_SET_THREAD_AREA, LINUX_SYS_EXIT_GROUP,
    LINUX_SYS_SET_TID_ADDRESS, LINUX_SYS_CLOCK_GETTIME, LINUX_SYS_RSEQ.
  set (nr := rget s REG_EAX) in *.
  repeat match goal with
  | |- context [nr =? ?k] =>
      destruct (Z.eqb_spec nr k) as [E|]; [first [done|by rewrite E]|]
  end.
  done.
Qed.

(** [exit] and [exit_group] end the process with the status in EBX, a signed [int], and
    leave the machine halted and otherwise as it was. *)
Lemma dispatch_exit s : rget s REG_EAX = 1 \/ rget s REG_EAX = 252 ->
  dispatch_syscall s =
  Exited (s32 (rget s REG_EBX)) (upd_cpu (upd_halted (fun _ => 1)) s).
Proof.
  intros [E|E]; unfold dispatch_syscall;
    do 7 (erewrite bind_Ret by apply runs_reg); by rewrite E.
Qed.
End calls.

(** Number 4000, and [getuid32]. *)
Lemma syscall_constant_witness :
  let s k := toy_machine [k; 0; 0; 0; 0; 0; 0; 0] 0x1000 [] in
  runs dispatch_syscall (s 4000) tt (rset REG_EAX (-38) (s 4000)) /\
  runs dispatch_syscall (s 199) tt (rset REG_EAX 1000 (s 199)).
Proof.
  intros s. split.
  - apply (syscall_constant (s 4000)). apply (bool_decide_unpack _). vm_compute. reflexivity.
  - apply (syscall_constant (s 199)). apply (bool_decide_unpack _). vm_compute. reflexivity.
Defined.
