(* ===== verification/Mappings.v ===== *)
(** The mmap arena along real runs of the emulator: whatever the guest executes, blocks that
    [mmap2] takes from the arena never overlap.

    A turn of the loop of [emulate] either leaves the arena pointer where it is, or is an
    [mmap2] call that answers the old pointer and moves it past the block
    ([estep_reserves]). *)
From Stdlib Require Import Sorted.
From S2P Require Import Prelude CInt Machine Logic Mem Flags ModRM OpsFpu Backend Toy.
From S2P Require Import Syscall Dispatch Safety Invariant Exec Files Isolation Arena Calls.

Section turns.
Context {H : Type} `{HostOS H} `{FloatOps}.
Implicit Types s : machine H.

Definition arena_ptr s : Z := g_mmap_ptr (kern s).

(** The call made with the registers of [s] took a block from the arena: the answer is the old
    arena pointer, and the new one is past the page-rounded length, still below the last MiB
    of guest memory. *)
Definition reserves s s' : Prop :=
  let al := page_align (rget s REG_ECX) in
  rget s REG_EAX = LINUX_SYS_MMAP2 /\ rget s' REG_EAX = arena_ptr s /\
  arena_ptr s' = arena_ptr s + al /\ arena_ptr s + al <= g_size (mem s) - 0x100000 /\
  block_cleared (arena_ptr s) al s s'.

(** ** What comes before and after the call *)

(** Fetching and prefixes: an ordinary guest step that keeps the general registers and the
    contents of memory. *)
Record before s s' : Prop := {
  bf_step : guest_step s s';
  bf_regs : regs (cpu s') = regs (cpu s);
  bf_mem : g_mem (mem s') = g_mem (mem s)
}.
(** Cycle counts and the end of prefixes. *)
Record after s s' : Prop := {
  af_regs : regs (cpu s') = regs (cpu s);
  af_mem : mem s' = mem s;
  af_kern : kern s' = kern s
}.
#[local] Instance before_preorder : PreOrder before.
Proof.
  split; [by split|]. intros s t u [G1 R1 M1] [G2 R2 M2]. split; [by etrans|congruence..].
Qed.
#[local] Instance after_preorder : PreOrder after.
Proof. split; [by split|]. intros s t u [] []. split; congruence. Qed.

Lemma before_intro {A} (m : M H A) :
  respects guest_step m ->
  (forall s, match m s with
             | Ret _ s' | Exited _ s' =>
                 regs (cpu s') = regs (cpu s) /\ g_mem (mem s') = g_mem (mem s)
             | Undef _ | NoFuel => True
             end) -> respects before m.
Proof.
  intros Hg Hm s. specialize (Hg s). specialize (Hm s).
  by destruct (m s); try done; destruct Hm; split.
Qed.

Lemma before_gets {A} (f : machine H -> A) : respects before (gets f).
Proof. apply respects_gets. exact _. Qed.
Lemma before_set_eip v : respects before (set_eip v).
Proof. apply before_intro; [eauto with resp|done]. Qed.
Lemma before_set_seg v : respects before (set_seg_override v).
Proof. apply before_intro; [eauto with resp|done]. Qed.
Lemma before_set_opsize : respects before (set_operand_size_16 1).
Proof. apply before_intro; [apply resp_set_opsize; by right|done]. Qed.
Lemma before_mem_read8 a : respects before (mem_read8 a).
Proof.
  apply before_intro; [eauto with resp|]. intros s.
  unfold mem_read8, check_bounds, mbind, M_bind, gets. destruct (negb (negb _)); [done|].
  unfold host_load. by destruct (_ && _).
Qed.
#[local] Hint Resolve before_gets before_set_eip before_set_seg before_set_opsize
  before_mem_read8 : resp.
Lemma before_fetch8 : respects before fetch8.
Proof. unfold fetch8, get_eip. respects. Qed.
#[local] Hint Resolve before_fetch8 : resp.

Lemma after_modify f : (forall s, after s (f s)) -> respects after (modify f).
Proof. apply respects_modify. Qed.
Lemma after_add_cycles k : respects after (add_cycles k).
Proof.
  unfold add_cycles. apply respects_bind; [exact _|by apply respects_gets; exact _|intros c].
  apply respects_if; [by apply after_modify|by apply respects_undef].
Qed.
Lemma after_set_seg v : respects after (set_seg_override v).
Proof. by apply after_modify. Qed.
Lemma after_set_opsize v : respects after (set_operand_size_16 v).
Proof. by apply after_modify. Qed.
#[local] Hint Resolve after_add_cycles after_set_seg after_set_opsize : resp.

(** ** The outcome of a computation, seen from the arena *)

Definition outcome_reserves {A} s (o : outcome H A) : Prop :=
  match o with
  | Ret _ s' => arena_ptr s' = arena_ptr s \/ reserves s s'
  | Exited _ _ | Undef _ | NoFuel => True
  end.

Lemma reserves_before s s1 s' : before s s1 -> reserves s1 s' -> reserves s s'.
Proof.
  intros [[_ K _ Z] R M] (Ea & Er & Ep & El & Hb).
  unfold reserves, arena_ptr, rget in *. rewrite R in Ea, Ep, El, Hb.
  rewrite K in Er, Ep, El, Hb. rewrite Z in El.
  do 4 (split; [done|]). intros a. rewrite Hb. unfold byte_at. by rewrite M.
Qed.
Lemma reserves_after s s1 s' : after s1 s' -> reserves s s1 -> reserves s s'.
Proof.
  intros [R M K] (Ea & Er & Ep & El & Hb). unfold reserves, arena_ptr, rget in *.
  rewrite R, K. do 4 (split; [done|]). intros a. by rewrite M.
Qed.

Lemma arena_before s s1 : before s s1 -> arena_ok s -> arena_ok s1.
Proof. intros [[W K _ Z] _ _] [Hs Ha]. unfold arena_ok. rewrite K, Z. split; [by apply W|done]. Qed.

Lemma reserves_bind_before {A B} (m : M H A) (k : A -> M H B) s :
  respects before m -> arena_ok s ->
  (forall a s1, arena_ok s1 -> outcome_reserves s1 (k a s1)) ->
  outcome_reserves s ((m ≫= k) s).
Proof.
  intros Hm Ha Hk. specialize (Hm s). unfold mbind, M_bind.
  destruct (m s) as [a s1|?|?|] eqn:E; try done.
  specialize (Hk a s1 (arena_before _ _ Hm Ha)). destruct (k a s1) as [b s2| | |]; try done.
  destruct Hk as [Hk|Hk]; [left|right; by eapply reserves_before].
  rewrite Hk. unfold arena_ptr. by rewrite (gs_kern _ _ (bf_step _ _ Hm)).
Qed.
Lemma reserves_bind_after {A B} (m : M H A) (k : A -> M H B) s :
  outcome_reserves s (m s) -> (forall a, respects after (k a)) ->
  outcome_reserves s ((m ≫= k) s).
Proof.
  intros Hm Hk. unfold mbind, M_bind. destruct (m s) as [a s1| | |]; try done.
  specialize (Hk a s1). destruct (k a s1) as [b s2| | |]; try done.
  destruct Hm as [Hm|Hm]; [left|right; by eapply reserves_after].
  rewrite <- Hm. unfold arena_ptr. by rewrite (af_kern _ _ Hk).
Qed.

(** ** System calls *)

(** The arena pointer stays where it is. *)
Definition arena_kept s s' : Prop := arena_ptr s' = arena_ptr s.
#[local] Instance arena_kept_frame : SyscallFrame arena_kept.
Proof. split; try done. split; [done|]. intros s t u E1 E2. by etrans. Qed.

#[local] Instance arena_kept_preorder : PreOrder arena_kept := sf_preorder.

Lemma reserves_kept {A} (m : M H A) s : respects arena_kept m -> outcome_reserves s (m s).
Proof. intros Hm. specialize (Hm s). destruct (m s); try done. by left. Qed.

(** [mmap2], answering in EAX. *)
Lemma reserves_mmap2 s addr prot flags fd off :
  arena_ok s -> is_u32 (rget s REG_ECX) -> rget s REG_EAX = LINUX_SYS_MMAP2 ->
  outcome_reserves s (ret_eax (sys_mmap2 addr (rget s REG_ECX) prot flags fd off) s).
Proof.
  intros Ha Hl Hnr. set (len := rget s REG_ECX) in *.
  assert (forall m, respects arena_kept m -> outcome_reserves s (ret_eax m s)) as Hkept.
  { intros m Hm. apply reserves_kept. apply respects_bind; [exact _|done|].
    intros v. apply sf_set_eax. exact _. }
  destruct (Z.eq_dec (Z.land flags LINUX_MAP_FIXED) 0) as [Hfix|Hfix];
    [|apply Hkept, sf_mmap2_fixed; [exact _|done]].
  destruct (Z.eq_dec len 0) as [Hz|Hz].
  { unfold sys_mmap2. rewrite Hz. apply Hkept, respects_ret. exact _. }
  destruct (negb (fd =? -1) && (Z.land flags LINUX_MAP_ANONYMOUS =? 0)) eqn:Hfile.
  { unfold sys_mmap2. rewrite (proj2 (Z.eqb_neq _ _) Hz), Hfile.
    apply Hkept, respects_ret. exact _. }
  pose proof Ha as (Hs & Hsz & Hp & Hm & Hlim). pose proof (wf_size _ (wf_m_mem _ Hs)) as Hw.
  unfold ret_eax, mbind, M_bind.
  rewrite mmap2_from_arena; [|split; [lia|done]|done|lia]. cbv zeta.
  unfold arena_ptr in *. set (ptr := g_mmap_ptr (kern s)) in *. set (al := page_align len).
  destruct (page_align_mult len Hl) as [Hal _]. fold al in Hal.
  unfold u64. rewrite Z.mod_small by lia.
  destruct (Z.ltb_spec (g_size (mem s) - 0x100000) (u32 (ptr + al))) as [Hbig|Hfits]; [by left|].
  rewrite (bind_Ret _ _ _ _ _ (runs_guest_to_host _ ptr ltac:(lia))). cbn [mem upd_kern].
  btest (ptr <? g_size (mem s)). unfold mbind, M_bind, host_memset. cbn [mem upd_kern].
  destruct (Z.leb_spec (ptr + al) (g_size (mem s))) as [Hin|]; [|by rewrite andb_false_r].
  rewrite u32_small in Hfits |- * by (unfold is_u32; lia). btest (0 <=? ptr). cbn [andb].
  right. split; [done|]. split; [|split; [done|split; [done|]]].
  - change (zget (zset (regs (cpu s)) REG_EAX (u32 ptr)) REG_EAX = ptr).
    rewrite zget_zset_eq, u32_small; [done|unfold is_u32; lia|].
    rewrite (wf_regs_length _ (wf_m_cpu _ Hs)). unfold REG_EAX. lia.
  - apply block_cleared_store; [exact (proj1 Hal)|reflexivity].
Qed.

Lemma reserves_dispatch s : arena_ok s -> outcome_reserves s (dispatch_syscall s).
Proof.
  intros Ha. change (dispatch_syscall s) with
    (switch (rget s REG_EAX) (syscall_cases (rget s REG_EBX) (rget s REG_ECX) (rget s REG_EDX)
       (rget s REG_ESI) (rget s REG_EDI) (rget s REG_EBP)) (ret_eax (mret (- ENOSYS))) s).
  destruct (decide (rget s REG_EAX = LINUX_SYS_MMAP2)) as [E|Hne].
  - rewrite E. apply (reserves_mmap2 s); [done| |done].
    apply rget_u32; [apply Ha|]. unfold REG_ECX. lia.
  - apply reserves_kept, (switch_Forall_but _ LINUX_SYS_MMAP2);
      [done|apply sf_cases|apply sf_default]; exact _.
Qed.

(** ** Turns *)

Lemma reserves_guest {A} (m : M H A) s : respects guest_step m -> outcome_reserves s (m s).
Proof.
  intros Hm. specialize (Hm s). destruct (m s); try done. left.
  unfold arena_ptr. by rewrite (gs_kern _ _ Hm).
Qed.

Lemma reserves_handler exec h op s : arena_ok s ->
  (forall b s1, arena_ok s1 -> outcome_reserves s1 (exec b s1)) ->
  outcome_reserves s (call_handler exec call_0f h op s).
Proof.
  intros Ha Hx.
  assert (forall (k : unit -> M H unit) s1, arena_ok s1 -> (forall u, respects after (k u)) ->
    outcome_reserves s1 ((next ← fetch8; exec next ≫= k) s1)) as Hf.
  { intros k s1 Ha1 Hk. apply reserves_bind_before; [eauto with resp|done|].
    intros b s2 Ha2. apply reserves_bind_after; auto. }
  destruct (is_prefix h) eqn:Hp.
  - destruct h; try done; cbn [call_handler].
    + apply Hf; [done|]. intros ?. respects.
    + unfold op_prefix_gs. apply reserves_bind_before; [apply before_gets|done|].
      intros b s1 Ha1. apply reserves_bind_before; [apply before_set_seg|done|].
      intros u s2 Ha2. apply Hf; [done|]. intros ?. respects.
    + unfold op_prefix_66. apply reserves_bind_before; [apply before_set_opsize|done|].
      intros u s1 Ha1. apply Hf; [done|]. intros ?. respects.
    + apply Hf; [done|]. intros ?. respects.
    + apply Hf; [done|]. intros ?. respects.
  - assert (h = H_int \/ h <> H_int) as [->|Hi] by (destruct h; (by left) || by right);
    [|by apply reserves_guest, resp_other_handler].
    cbn [call_handler]. unfold op_int. apply reserves_bind_before; [apply before_fetch8|done|].
    intros v s1 Ha1. apply reserves_bind_after; [|intros ?; apply after_add_cycles].
    destruct (v =? 0x80); [by apply reserves_dispatch|]. apply reserves_guest. eauto with resp.
Qed.

Lemma reserves_execute fuel op s : arena_ok s -> outcome_reserves s (execute_opcode fuel op s).
Proof.
  revert op s. induction fuel as [|fuel IH]; intros op s Ha; cbn [execute_opcode];
    (apply reserves_handler; [exact Ha|intros b s1 Ha1]); [exact I|by apply IH].
Qed.

Lemma estep_reserves pf s s' : arena_ok s -> estep pf s s' ->
  arena_ptr s' = arena_ptr s \/ reserves s s'.
Proof.
  intros Ha E. cut (outcome_reserves s (emulate_body pf s)); [by rewrite E|].
  unfold emulate_body. apply reserves_bind_before; [apply before_gets|done|].
  intros h s1 Ha1. destruct (negb (h =? 0)); [by left|].
  apply reserves_bind_before; [apply before_gets|done|]. intros e s2 Ha2.
  apply reserves_bind_before; [|done|].
  { apply before_intro; [apply resp_set_last_eip|done]. }
  intros u s3 Ha3. apply reserves_bind_before; [apply before_mem_read8|done|].
  intros opc s4 Ha4. apply reserves_bind_before; [apply before_set_eip|done|].
  intros v s5 Ha5. apply reserves_bind_after; [by apply reserves_execute|].
  intros ?. apply respects_ret. exact _.
Qed.

Lemma arena_estep pf s s' : arena_ok s -> estep pf s s' ->
  arena_ok s' /\ arena_ptr s <= arena_ptr s'.
Proof.
  intros Ha E. pose proof (respects_run _ _ _ _ _ (resp_emulate_body pf) E) as [W Z].
  pose proof Ha as (Hs & Hz & Hp & Hm & Hlim). fold (arena_ptr s) in Hp, Hm, Hlim.
  unfold arena_ok. fold (arena_ptr s'). rewrite Z.
  destruct (estep_reserves pf s s' Ha E) as [Ep|(_ & _ & Ep & Hl & _)].
  - rewrite Ep. split; [|lia]. split; [by apply W|done].
  - destruct (page_align_mult (rget s REG_ECX)) as [Hal Hmod].
    { apply rget_u32; [done|]. unfold REG_ECX. lia. }
    rewrite Ep. split; [|lia]. split; [by apply W|]. split; [done|]. split; [lia|]. split; [|lia].
    rewrite Z.add_mod by done. by rewrite Hm, Hmod.
Qed.

(** ** Runs *)

(** A run of the emulator, by turns of the loop of [emulate], with the blocks taken from the
    arena along it: for each turn that moves the arena pointer, the address the guest finds in
    EAX after it and the length it asked for in ECX. *)
Inductive arena_run (pf : nat) : machine H -> list (Z * Z) -> machine H -> Prop :=
| run_done s : arena_run pf s [] s
| run_quiet s t bs u : estep pf s t -> arena_ptr t = arena_ptr s ->
    arena_run pf t bs u -> arena_run pf s bs u
| run_block s t bs u : estep pf s t -> arena_ptr t <> arena_ptr s ->
    arena_run pf t bs u -> arena_run pf s ((rget t REG_EAX, rget s REG_ECX) :: bs) u.

(** Every run is one. *)
Lemma arena_run_exists pf s u : rtc (estep pf) s u -> exists bs, arena_run pf s bs u.
Proof.
  induction 1 as [s|s t u E _ [bs Hr]]; [by exists []; constructor|].
  destruct (decide (arena_ptr t = arena_ptr s)); [exists bs; by eapply run_quiet|].
  eexists. by eapply run_block.
Qed.

End turns.

(** A guest that asks for one byte, twice: INT 0x80; MOV EAX, 192; INT 0x80. *)
Definition toy_mapper : machine (list Z) :=
  mk_machine (cpu (toy_machine [192; 1; 3; 0; 0; 0; 0x22; 0xFFFFFFFF] 0x1000 []))
    (mk_guest_mem (toy_image [(0x1000, [0xCD; 0x80; 0xB8; 192; 0; 0; 0; 0xCD; 0x80])])
       0x400000 0)
    toy_og (upd_mmap 0x100000 0x100000 toy_kernel) [].
Definition toy_turn (s : machine (list Z)) : machine (list Z) :=
  state_of (emulate_body 8 s) s.

Lemma arena_ok_mapper : arena_ok toy_mapper.
Proof.
  split; [|done]. constructor.
  - apply (wf_m_cpu _ (wf_toy [192; 1; 3; 0; 0; 0; 0x22; 0xFFFFFFFF] 0x1000 [] eq_refl)).
  - pose proof (wf_toy_image [(0x1000, [0xCD; 0x80; 0xB8; 192; 0; 0; 0; 0xCD; 0x80])] eq_refl)
      as [_ Hb]. constructor; [done|]. intros a v E. destruct (Hb a v E) as [Ha Hv].
    cbn in *. by split; [lia|].
  - apply wf_toy_og.
  - by apply wf_kern_zeros.
Qed.

Lemma toy_mapper_run :
  arena_run 8 toy_mapper [(0x100000, 1); (0x101000, 1)]
    (toy_turn (toy_turn (toy_turn toy_mapper))).
Proof.
  set (s1 := toy_turn toy_mapper). set (s2 := toy_turn s1). set (s3 := toy_turn s2).
  replace [(0x100000, 1); (0x101000, 1)] with
    [(rget s1 REG_EAX, rget toy_mapper REG_ECX); (rget s3 REG_EAX, rget s2 REG_ECX)]
    by by vm_compute.
  apply run_block; [apply runs_state_of; by vm_compute|by vm_compute|].
  apply (run_quiet _ s1 s2); [apply runs_state_of; by vm_compute|by vm_compute|].
  apply run_block; [apply runs_state_of; by vm_compute|by vm_compute|apply run_done].
Qed.

