(* ===== verification/Arith.v ===== *)
(** More of the integer instructions against the architecture: AND, OR, XOR and TEST,
    INC and DEC, and the immediate forms of ADD, SUB and CMP.  Where the handlers leave a
    flag of the architecture alone, the specification says so. *)
From S2P Require Import Prelude CInt Machine Logic Mem Flags ModRM OpsAlu OpsMove OpsFpu.
From S2P Require Import Backend Toy Dispatch Exec Decode Alu.

(** * EFLAGS by its status *)

Definition old_status {H} (s : machine H) : status := status_of (eflags (cpu s)).

(** Two ways of writing flags agree when every bit does. *)
Lemma eflags_ext e e' : is_u32 e -> is_u32 e' ->
  (forall i, 0 <= i < 32 -> Z.testbit e i = Z.testbit e' i) -> e = e'.
Proof.
  intros He He' Hb. apply Z.bits_inj'. intros i Hi. destruct (decide (i < 32)); [by apply Hb|].
  rewrite (proj2 (proj1 (is_u32_bits e) He)), (proj2 (proj1 (is_u32_bits e') He')) by lia. done.
Qed.

Lemma put_bit_u32 n c e : is_u32 (put_bit n c e).
Proof. apply u32_range. Qed.

(** Close an equation between two ways of writing flags. *)
Ltac flags_eq s :=
  destruct s as [[l ip fl hl cy] m o k h];
  unfold put_flag_st, set_status, upd_cpu, upd_eflags, old_status;
  cbn [cpu eflags regs eip halted cycles mem og kern host]; do 2 f_equal;
  apply eflags_ext; [apply put_bit_u32..|]; intros i Hi; unfold with_status, status_of;
  cbn [CF PF ZF SF OF]; rewrite !testbit_put_bit by lia; zcases; by subst.

Section flags.
Context {H : Type}.
Implicit Types s : machine H.

(** The flags a handler leaves in the order it writes them: ZF, SF, PF and CF, without OF;
    the same without CF; ZF, SF, PF and OF, without CF; CF, OF, ZF and SF, without PF. *)
Lemma put_flags_logic s cf zf sf pf :
  put_flag_st 0 cf (put_flag_st 2 pf (put_flag_st 7 sf (put_flag_st 6 zf s)))
  = set_status (mk_status cf pf zf sf (OF (old_status s))) s.
Proof. flags_eq s. Qed.
Lemma put_flags_logic' s cf zf sf pf :
  put_flag_st 2 pf (put_flag_st 0 cf (put_flag_st 7 sf (put_flag_st 6 zf s)))
  = set_status (mk_status cf pf zf sf (OF (old_status s))) s.
Proof. flags_eq s. Qed.
Lemma put_flags_logic_keep s zf sf pf :
  put_flag_st 2 pf (put_flag_st 7 sf (put_flag_st 6 zf s))
  = set_status (mk_status (CF (old_status s)) pf zf sf (OF (old_status s))) s.
Proof. flags_eq s. Qed.
Lemma put_flags_inc s zf sf pf ov :
  put_flag_st 11 ov (put_flag_st 2 pf (put_flag_st 7 sf (put_flag_st 6 zf s)))
  = set_status (mk_status (CF (old_status s)) pf zf sf ov) s.
Proof. flags_eq s. Qed.
Lemma put_flags_imm s cf ov zf sf :
  put_flag_st 7 sf (put_flag_st 6 zf (put_flag_st 11 ov (put_flag_st 0 cf s)))
  = set_status (mk_status cf (PF (old_status s)) zf sf ov) s.
Proof. flags_eq s. Qed.
End flags.

(** * AND, OR, XOR, TEST *)

Inductive logic_op := AND | OR | XOR | TEST.
Definition logic_eval (op : logic_op) (a b : Z) : Z :=
  match op with AND | TEST => Z.land a b | OR => Z.lor a b | XOR => Z.lxor a b end.

(** The opcodes with a ModR/M byte: operation, whether the register field is the
    destination, and whether CF is left alone. *)
Definition logic32_forms : list (Z * (logic_op * bool * bool)) :=
  [ (0x09, (OR, false, false)); (0x0B, (OR, true, false)); (0x21, (AND, false, false));
    (0x23, (AND, true, false)); (0x31, (XOR, false, true)); (0x33, (XOR, true, false));
    (0x85, (TEST, false, true)) ].

Section logic32.
Context {H : Type} `{HostOS H} `{FloatOps}.
Implicit Types s : machine H.

(** CF cleared or kept; PF, ZF and SF of the result; OF kept. *)
Definition logic_status (keep_cf : bool) (r : Z) s : status :=
  mk_status (keep_cf && CF (old_status s)) (parity8 r) (r =? 0) (Z.testbit r 31)
    (OF (old_status s)).

Definition logic_step (op : logic_op) (to_reg keep_cf : bool) (rg : Z) (o : operand) s
    : machine H :=
  let dst := if to_reg then OReg rg else o in
  let src := if to_reg then o else OReg rg in
  let r := logic_eval op (rd_opd s dst) (rd_opd s src) in
  retire 2 (set_status (logic_status keep_cf r s)
              (match op with TEST => s | _ => wr_opd dst r s end)).

Lemma old_status_wr_opd o v s : old_status (wr_opd o v s) = old_status s.
Proof. by destruct o. Qed.

(** The common tails of the handlers, from a state whose flags are those of [s]. *)
#[local] Ltac logic_tail eq :=
  intros Hs Hk Hc E; unfold logic_status; rewrite <- E; cbn [andb];
  repeat (eapply runs_bind; [solve [eauto with run]|]);
  eapply runs_eq; [apply runs_retire; [repeat (apply wf_put_flag; [lia|lia|done|])|..]; done
                  |done|by rewrite eq].

Lemma runs_logic_tail k r s s' : wf s' -> 0 <= k -> cycles_ok k s' ->
  old_status s' = old_status s ->
  runs (set_zf r;; set_sf r;; set_pf r;; set_cf 0;; add_cycles k) s' tt
    (retire k (set_status (logic_status false r s) s')).
Proof. logic_tail (@put_flags_logic H). Qed.
Lemma runs_logic_tail' k r s s' : wf s' -> 0 <= k -> cycles_ok k s' ->
  old_status s' = old_status s ->
  runs (set_zf r;; set_sf r;; set_cf 0;; set_pf r;; add_cycles k) s' tt
    (retire k (set_status (logic_status false r s) s')).
Proof. logic_tail (@put_flags_logic' H). Qed.
Lemma runs_logic_keep k r s s' : wf s' -> 0 <= k -> cycles_ok k s' ->
  old_status s' = old_status s ->
  runs (set_zf r;; set_sf r;; set_pf r;; add_cycles k) s' tt
    (retire k (set_status (logic_status true r s) s')).
Proof. logic_tail (@put_flags_logic_keep H). Qed.

#[local] Ltac logic_case D Hp Hc tail :=
  cbn [call_plain]; autounfold with handlers;
  eapply runs_bind; [exact Hp|]; cbv beta; repeat dc_step D;
  unfold logic_step; cbv zeta; cbn [logic_eval]; apply tail;
  [first [exact (dc_wf _ _ _ _ D)|exact (dc_wf_wr _ _ _ _ D _ _)]|lia
  |first [exact Hc|apply cycles_ok_wr_opd; exact Hc]
  |first [reflexivity|apply old_status_wr_opd]].

(** C2: the seven 32-bit AND, OR, XOR and TEST instructions with a ModR/M byte.  The
    destination holds the bitwise result, ZF, SF and PF describe it, and nothing else
    changes.  CF is cleared, as the architecture says, except by XOR r/m32, r32 and TEST
    r/m32, r32, which leave it; OF, which the architecture clears, is always left as it
    was. *)
Theorem logic32_refines fuel opc op to_reg keep_cf rg o s :
  (opc, (op, to_reg, keep_cf)) ∈ logic32_forms ->
  wf s -> seg s = 0 -> cycles_ok 2 s -> 0 <= rg < 8 -> operand_ok o ->
  code_at s (encode rg o) ->
  runs (execute_opcode fuel opc) s tt
    (logic_step op to_reg keep_cf rg o (advance (length (encode rg o)) s)).
Proof.
  intros Hin Hs Hg Hc Hrg Ho Hcode.
  destruct (decode_instruction s rg o) as (m & D & Hp); [done..|].
  assert (cycles_ok 2 (advance (length (encode rg o)) s)) as Hc1 by exact Hc.
  set (s1 := advance _ s) in *. clearbody s1.
  unfold logic32_forms in Hin. rewrite !elem_of_cons in Hin.
  destruct Hin as [E|[E|[E|[E|[E|[E|[E|E]]]]]]]; [..|by apply elem_of_nil in E];
    injection E as -> -> -> ->.
  - rewrite (execute_plain fuel 0x09 H_or_rm32_r32) by done.
    logic_case D Hp Hc1 runs_logic_tail.
  - rewrite (execute_plain fuel 0x0B H_or_r32_rm32) by done.
    logic_case D Hp Hc1 runs_logic_tail'.
  - rewrite (execute_plain fuel 0x21 H_and_rm32_r32) by done.
    logic_case D Hp Hc1 runs_logic_tail.
  - rewrite (execute_plain fuel 0x23 H_and_r32_rm32) by done.
    logic_case D Hp Hc1 runs_logic_tail.
  - rewrite (execute_plain fuel 0x31 H_xor_rm32_r32) by done.
    logic_case D Hp Hc1 runs_logic_keep.
  - rewrite (execute_plain fuel 0x33 H_xor_r32_rm32) by done.
    logic_case D Hp Hc1 runs_logic_tail.
  - rewrite (execute_plain fuel 0x85 H_test_rm32_r32) by done.
    logic_case D Hp Hc1 runs_logic_keep.
Qed.
End logic32.

(** * INC, DEC *)

Section inc_dec.
Context {H : Type} `{HostOS H} `{FloatOps}.
Implicit Types s : machine H.

(** Register [r] incremented or decremented: the flags of ADD r, 1 or SUB r, 1 with CF
    kept. *)
Definition inc_dec_step (dec : bool) (r : Z) s : machine H :=
  let e := if dec then alu_sub 32 (rget s r) 1 0 else alu_add 32 (rget s r) 1 0 in
  retire 1 (set_status (mk_status (CF (old_status s)) (PF e.2) (ZF e.2) (SF e.2) (OF e.2))
              (rset r e.1 s)).

Lemma reg_of_opcode base r : 0 <= r < 8 -> base mod 8 = 0 -> Z.land (base + r) 7 = r.
Proof.
  intros Hr Hb. change 7 with (Z.ones 3). rewrite Z.land_ones by done.
  change (2 ^ 3) with 8. rewrite Z.add_mod, Hb by done. Z.div_mod_to_equations. lia.
Qed.

Lemma execute_reg_form fuel base h r s : 0 <= r < 8 ->
  (forall k, 0 <= k < 8 -> zget opcode_table (base + k) = h) ->
  (forall exec op, call_handler exec call_0f h op = call_plain (H:=H) h op) ->
  execute_opcode fuel (base + r) s = call_plain h (base + r) s.
Proof. intros Hr Ht Hc. by rewrite (execute_plain fuel (base + r) h) by auto. Qed.

Lemma table_row base h :
  Forall (fun k => zget opcode_table (base + k) = h) [0; 1; 2; 3; 4; 5; 6; 7] ->
  forall k, 0 <= k < 8 -> zget opcode_table (base + k) = h.
Proof.
  rewrite Forall_forall. intros Hall k Hk. apply Hall. cbn [In]. lia.
Qed.

(** C4: INC r32 and DEC r32.  The register is incremented or decremented modulo 2^32, PF,
    ZF, SF and OF are those of adding or subtracting one, CF is kept, and nothing else
    changes. *)
Theorem inc_dec_refines fuel (dec : bool) r s :
  wf s -> 0 <= r < 8 -> cycles_ok 1 s ->
  runs (execute_opcode fuel ((if dec then 0x48 else 0x40) + r)) s tt (inc_dec_step dec r s).
Proof.
  intros Hs Hr Hc. pose proof (rget_u32 s r Hs Hr) as Hu.
  assert (is_u32 1) as Hone by done. unfold inc_dec_step. destruct dec.
  - unfold runs. rewrite (execute_reg_form fuel 0x48 H_dec_r32)
      by (first [done|apply table_row; by repeat constructor]).
    cbn [call_plain]. unfold op_dec_r32. rewrite (reg_of_opcode 0x48) by done. cbv zeta.
    eapply runs_bind; [apply runs_reg|]. change (alu_sub 32 (rget s r) 1 0).1 with
      (u32 (rget s r - 1 - 0)). rewrite Z.sub_0_r.
    do 4 (eapply runs_bind; [solve [eauto with run]|]).
    eapply runs_bind; [by apply runs_set_of_sub|].
    eapply runs_eq; [apply runs_retire; [repeat (apply wf_put_flag; [lia|lia|done|]);
      by apply wf_rset|done|done]|done|].
    f_equal. pose proof (overflow_sub (rget s r) 1 0 Hu Hone ltac:(lia)) as Eo.
    rewrite Z.sub_0_r in Eo. rewrite put_flags_inc, Eo. cbn [alu_sub snd PF ZF SF OF].
    rewrite !Z.sub_0_r. done.
  - unfold runs. rewrite (execute_reg_form fuel 0x40 H_inc_r32)
      by (first [done|apply table_row; by repeat constructor]).
    cbn [call_plain]. unfold op_inc_r32. rewrite (reg_of_opcode 0x40) by done. cbv zeta.
    eapply runs_bind; [apply runs_reg|]. change (alu_add 32 (rget s r) 1 0).1 with
      (u32 (rget s r + 1 + 0)). rewrite Z.add_0_r.
    do 5 (eapply runs_bind; [solve [eauto with run]|]).
    eapply runs_eq; [apply runs_retire; [repeat (apply wf_put_flag; [lia|lia|done|]);
      by apply wf_rset|done|done]|done|].
    f_equal. pose proof (overflow_add (rget s r) 1 0 Hu Hone ltac:(lia)) as Eo.
    rewrite Z.add_0_r in Eo. rewrite put_flags_inc, Eo. cbn [alu_add snd PF ZF SF OF].
    rewrite !Z.add_0_r. done.
Qed.
End inc_dec.

(** * Immediate operands *)

Section immediate.
Context {H : Type} `{HostOS H} `{FloatOps}.
Implicit Types s : machine H.

(** The operations of the groups, by the register field of the ModR/M byte. *)
Definition imm_forms : list (Z * alu_op) := [(0, ADD); (5, SUB); (7, CMP)].

(** The operand combined with [imm]: architectural CF, ZF, SF and OF, and PF kept. *)
Definition imm_step (op : alu_op) (o : operand) (imm : Z) s : machine H :=
  let e := alu_eval op (rd_opd s o) imm (carry s) in
  retire 2 (set_status (mk_status (CF e.2) (PF (old_status s)) (ZF e.2) (SF e.2) (OF e.2))
              (match op with CMP => s | _ => wr_opd o e.1 s end)).

(** The opcode and the immediate bytes that stand for [imm]: 0x81 has four bytes, 0x83 one
    byte to be sign-extended. *)
Definition imm_encoding (opc imm : Z) (bs : list Z) : Prop :=
  (opc = 0x81 /\ is_u32 imm /\ bs = le_bytes 4 imm) \/
  (opc = 0x83 /\ exists b, is_u8 b /\ imm = u32 (s8 b) /\ bs = [b]).

(** The tails of the ADD and of the SUB and CMP arms. *)
Lemma runs_imm_add s s' a b cf : wf s' -> cycles_ok 2 s' -> old_status s' = old_status s ->
  is_u32 a -> is_u32 b ->
  let e := alu_eval ADD a b cf in
  runs (set_cf (Z.b2z (u32 (a + b) <? a));; set_of_add a b (u32 (a + b));;
        set_zf (u32 (a + b));; set_sf (u32 (a + b));; add_cycles 2) s' tt
    (retire 2 (set_status
       (mk_status (CF e.2) (PF (old_status s)) (ZF e.2) (SF e.2) (OF e.2)) s')).
Proof.
  intros Hs Hc E Ha Hb. destruct (alu_eval_add a b cf Ha Hb) as [Er Ec].
  do 4 (eapply runs_bind; [solve [eauto with run]|]).
  eapply runs_eq; [apply runs_retire; [repeat (apply wf_put_flag; [lia|lia|done|])|..]; done
                  |done|].
  f_equal. rewrite put_flags_imm, E, Ec. pose proof (overflow_add a b 0 Ha Hb ltac:(lia)) as Eo.
  rewrite Z.add_0_r in Eo. rewrite Eo, Er. done.
Qed.

Lemma runs_imm_sub op s s' a b cf : wf s' -> cycles_ok 2 s' -> old_status s' = old_status s ->
  is_u32 a -> is_u32 b -> op = SUB \/ op = CMP ->
  let e := alu_eval op a b cf in
  runs (set_cf (Z.b2z (a <? b));; set_of_sub a b (u32 (a - b));;
        set_zf (u32 (a - b));; set_sf (u32 (a - b));; add_cycles 2) s' tt
    (retire 2 (set_status
       (mk_status (CF e.2) (PF (old_status s)) (ZF e.2) (SF e.2) (OF e.2)) s')).
Proof.
  intros Hs Hc E Ha Hb Hop.
  destruct (alu_eval_sub op a b cf Ha Hb) as [Er Ec]; [by destruct Hop as [-> | ->]|].
  eapply runs_bind; [solve [eauto with run]|]. eapply runs_bind; [by apply runs_set_of_sub|].
  do 2 (eapply runs_bind; [solve [eauto with run]|]).
  eapply runs_eq; [apply runs_retire; [repeat (apply wf_put_flag; [lia|lia|done|])|..]; done
                  |done|].
  f_equal. rewrite put_flags_imm, E, Ec. pose proof (overflow_sub a b 0 Ha Hb ltac:(lia)) as Eo.
  rewrite Z.sub_0_r in Eo. rewrite Eo, Er. by destruct Hop as [-> | ->].
Qed.

(** The arms of the two groups, once the immediate is known. *)
#[local] Ltac imm_arms D Hc Hin :=
  let E := fresh "Ein" in
  unfold imm_forms in Hin; rewrite !elem_of_cons in Hin;
  pose proof (dc_opd_u32 _ _ _ _ D);
  destruct Hin as [E|[E|[E|E]]]; [..|by apply elem_of_nil in E]; injection E as E1 E2;
  subst; rewrite (dc_reg _ _ _ _ D); unfold imm_step; cbv zeta;
  [ eapply runs_bind; [exact (dc_write _ _ _ _ D _)|];
    match goal with |- context [alu_eval ADD ?a ?b ?c] =>
      rewrite <- (proj1 (alu_eval_add a b c ltac:(assumption) ltac:(assumption))) end;
    apply runs_imm_add;
    [exact (dc_wf_wr _ _ _ _ D _ _)|apply cycles_ok_wr_opd; exact Hc
    |apply old_status_wr_opd|assumption|assumption]
  | eapply runs_bind; [exact (dc_write _ _ _ _ D _)|];
    match goal with |- context [alu_eval SUB ?a ?b ?c] =>
      rewrite <- (proj1 (alu_eval_sub SUB a b c ltac:(assumption) ltac:(assumption) I)) end;
    apply runs_imm_sub;
    [exact (dc_wf_wr _ _ _ _ D _ _)|apply cycles_ok_wr_opd; exact Hc
    |apply old_status_wr_opd|assumption|assumption|by left]
  | apply runs_imm_sub;
    [exact (dc_wf _ _ _ _ D)|exact Hc|reflexivity|assumption|assumption|by right] ].

Lemma decoded_advance m rg o n s : decoded m rg o s -> decoded m rg o (advance n s).
Proof. intros []. constructor; auto with wf. Qed.

(** C3: ADD, SUB and CMP of a 32-bit operand with an immediate (digits 0, 5 and 7 of 0x81 and
    0x83, without the operand-size prefix; the other digits are not claimed here).  The operand is combined with the immediate, sign-extended from a
    byte under 0x83; the result is written back except by CMP; CF, ZF, SF and OF are the
    architecture's, PF is left as it was, EIP is past the immediate, and nothing else
    changes. *)
Theorem imm_group_refines fuel opc op rg o imm bs s :
  (rg, op) ∈ imm_forms -> imm_encoding opc imm bs ->
  wf s -> seg s = 0 -> g_operand_size_16 (og s) = 0 -> cycles_ok 2 s -> operand_ok o ->
  code_at s (encode rg o ++ bs) ->
  runs (execute_opcode fuel opc) s tt
    (imm_step op o imm (advance (length (encode rg o ++ bs)) s)).
Proof.
  intros Hin Henc Hs Hg Hsz Hc Ho Hcode.
  assert (0 <= rg < 8) as Hrg.
  { unfold imm_forms in Hin. rewrite !elem_of_cons in Hin.
    destruct Hin as [E|[E|[E|E]]]; [..|by apply elem_of_nil in E]; injection E as -> _; lia. }
  apply code_at_app in Hcode as [Hc1 Hc2]; [|done].
  destruct (decode_instruction s rg o) as (m & D & Hp); [done..|].
  rewrite length_app, <- advance_advance. set (s1 := advance (length (encode rg o)) s) in *.
  assert (wf s1) as Hs1 by apply (dc_wf _ _ _ _ D).
  apply (decoded_advance m rg o (length bs)) in D.
  assert (cycles_ok 2 (advance (length bs) s1)) as Hcy by exact Hc.
  assert (g_operand_size_16 (og s1) = 0) as Hsz1 by exact Hsz.
  destruct Henc as [(-> & Hu & ->)|(-> & b & Hb & -> & ->)].
  - rewrite (execute_plain fuel 0x81 H_81) by done. cbn [call_plain]. unfold op_81.
    eapply runs_bind; [exact Hp|]. eapply runs_bind; [apply runs_get_og|].
    rewrite Hsz1. cbn [Z.eqb negb].
    eapply runs_bind; [by apply code_at_fetch32|]. rewrite le_bytes_length in *.
    eapply runs_bind; [exact (dc_read _ _ _ _ D)|]. cbv zeta.
    set (s2 := advance 4 s1) in *. clearbody s2. imm_arms D Hcy Hin.
  - rewrite (execute_plain fuel 0x83 H_83) by done. cbn [call_plain]. unfold op_83.
    eapply runs_bind; [exact Hp|]. eapply runs_bind; [by apply code_at_fetch8|]. cbv zeta.
    eapply runs_bind; [apply runs_get_og|].
    change (g_operand_size_16 (og (advance 1 s1))) with (g_operand_size_16 (og s1)).
    rewrite Hsz1. cbn [Z.eqb negb length] in *.
    eapply runs_bind; [exact (dc_read _ _ _ _ D)|].
    assert (is_u32 (u32 (s8 b))) as Hu by apply u32_range.
    set (s2 := advance 1 s1) in *. clearbody s2. set (imm := u32 (s8 b)) in *. clearbody imm.
    imm_arms D Hcy Hin.
Qed.
End immediate.

(** XOR EAX, EAX (0x31): zero, ZF and PF set, CF and OF as they were. *)
Lemma logic32_refines_witness :
  let s := toy_machine [5; 0; 0; 0; 0; 0; 0; 0] 0x1000 [(0x1000, encode 0 (OReg 0))] in
  let s' := logic_step XOR false true 0 (OReg 0) (advance 1 s) in
  runs (execute_opcode 0 0x31) s tt s' /\ rget s' REG_EAX = 0 /\
  status_of (eflags (cpu s')) = mk_status false true true false false.
Proof.
  intros s s'. split; [|split; vm_compute; reflexivity].
  apply (logic32_refines 0 0x31 XOR false true 0 (OReg 0) s).
  - unfold logic32_forms. rewrite !elem_of_cons. do 4 right. by left.
  - by apply wf_toy.
  - done.
  - done.
  - lia.
  - unfold operand_ok. lia.
  - by split.
Defined.

(** DEC of zero sets SF but not CF. *)
Lemma inc_dec_refines_witness :
  let s := toy_machine [0; 0; 0; 0; 0; 0; 0; 0] 0x1000 [] in
  let s' := inc_dec_step true REG_EDX s in
  runs (execute_opcode 0 0x4A) s tt s' /\ rget s' REG_EDX = 0xFFFFFFFF /\
  status_of (eflags (cpu s')) = mk_status false true false true false.
Proof.
  intros s s'. split; [|split; vm_compute; reflexivity].
  apply (inc_dec_refines 0 true REG_EDX s).
  - by apply wf_toy.
  - unfold REG_EDX. lia.
  - done.
Defined.

(** SUB dword [EBX+8], -1 (0x83 /5): 5 becomes 6, with a borrow. *)
Lemma imm_group_refines_witness :
  let o := OMem (Some REG_EBX) None 8 in
  let s := toy_machine [0; 0; 0; 0x2000; 0; 0; 0; 0] 0x1000
             [(0x1000, encode 5 o ++ [0xFF]); (0x2008, [5; 0; 0; 0])] in
  let s' := imm_step SUB o 0xFFFFFFFF (advance 3 s) in
  runs (execute_opcode 0 0x83) s tt s' /\ rd32 (mem s') 0x2008 = 6 /\
  CF (status_of (eflags (cpu s'))) = true.
Proof.
  intros o s s'. split; [|split; vm_compute; reflexivity].
  apply (imm_group_refines 0 0x83 SUB 5 o 0xFFFFFFFF [0xFF] s).
  - unfold imm_forms. rewrite !elem_of_cons. right. by left.
  - right. split; [done|]. by exists 0xFF.
  - by apply wf_toy.
  - done.
  - done.
  - done.
  - split; [by intros r [= <-]|]. split; [by intros r k [=]|done].
  - by split.
Defined.
