(* ===== verification/Stack.v ===== *)
(** The stack: PUSH and POP, CALL and RET, and the system-call trampoline that the C library
    of the guest enters through [call gs:[0x10]]. *)
From S2P Require Import Prelude CInt Machine Logic Mem Flags ModRM OpsMove OpsGroup OpsFpu.
From S2P Require Import Backend Toy Syscall Dispatch Safety Invariant Exec Decode Alu.
From S2P Require Import Branch Files Calls Arith.

Section stack.
Context {H : Type} `{HostOS H} `{FloatOps}.
Implicit Types s : machine H.

(** ESP moved down by 4, and [v] stored there. *)
Definition pushed (v : Z) s : machine H :=
  upd_mem (wr32 (u32 (rget s REG_ESP - 4)) v) (rset REG_ESP (rget s REG_ESP - 4) s).
(** ESP moved up by [k]. *)
Definition popped (k : Z) s : machine H := rset REG_ESP (rget s REG_ESP + k) s.

Lemma esp_range s : wf s -> is_u32 (rget s REG_ESP).
Proof. intros Hs. apply rget_u32; [done|unfold REG_ESP; lia]. Qed.

Lemma rget_esp_rset v s : wf s -> rget (rset REG_ESP v s) REG_ESP = u32 v.
Proof. intros Hs. apply rget_rset_eq; [done|unfold REG_ESP; lia]. Qed.

Lemma runs_bump r k s : runs (bump_reg r k) s tt (rset r (rget s r + k) s).
Proof. eapply runs_bind; [apply runs_reg|apply runs_set_reg]. Qed.

Lemma runs_push32 v s : wf s -> runs (push32 v) s tt (pushed v s).
Proof.
  intros Hs. unfold push32. eapply runs_bind; [apply runs_bump|].
  eapply runs_bind; [apply runs_reg|]. rewrite rget_esp_rset by done.
  apply runs_mem_write32; [apply Hs|apply u32_range].
Qed.

Lemma wf_pushed v s : wf s -> wf (pushed v s).
Proof. intros Hs. apply wf_wr32; [by apply wf_rset|apply u32_range]. Qed.

(** A push with room below ESP. *)
Definition stack_room s : Prop := 4 <= rget s REG_ESP <= g_size (mem s).

Lemma esp_pushed v s : wf s -> stack_room s -> rget (pushed v s) REG_ESP = rget s REG_ESP - 4.
Proof.
  intros Hs Hr. etrans; [by apply rget_esp_rset|]. pose proof (esp_range s Hs) as Hu.
  unfold stack_room, is_u32 in *. apply u32_small. unfold is_u32. lia.
Qed.

Lemma reg_pushed v s r : 0 <= r -> r <> REG_ESP -> rget (pushed v s) r = rget s r.
Proof. intros Hr Hne. by apply rget_rset_ne. Qed.

Lemma slot_small s : wf s -> stack_room s -> u32 (rget s REG_ESP - 4) = rget s REG_ESP - 4.
Proof.
  intros Hs Hr. pose proof (esp_range s Hs) as Hu. unfold stack_room, is_u32 in *.
  apply u32_small. unfold is_u32. lia.
Qed.

Lemma slot_pushed v s : wf s -> stack_room s ->
  rd32 (mem (pushed v s)) (rget s REG_ESP - 4) = u32 v.
Proof.
  intros Hs Hr. unfold pushed. cbn [mem upd_mem]. rewrite slot_small by done.
  unfold stack_room in Hr. apply rd32_wr32. cbn [mem rset upd_cpu]. lia.
Qed.

Lemma byte_pushed v s a : wf s -> stack_room s ->
  a < rget s REG_ESP - 4 \/ rget s REG_ESP <= a ->
  byte_at (mem (pushed v s)) a = byte_at (mem s) a.
Proof.
  intros Hs Hr Ha. unfold pushed. cbn [mem upd_mem]. rewrite slot_small by done.
  apply byte_at_wr32_ne. lia.
Qed.

(** ** PUSH, POP *)

Lemma runs_push_r32 fuel r s : wf s -> 0 <= r < 8 -> cycles_ok 1 s ->
  runs (execute_opcode fuel (0x50 + r)) s tt
    (retire 1 (pushed (if r =? REG_ESP then u32 (rget s REG_ESP - 4) else rget s r) s)).
Proof.
  intros Hs Hr Hc. unfold runs. rewrite (execute_reg_form fuel 0x50 H_push_r32)
    by (first [done|apply table_row; by repeat constructor]).
  cbn [call_plain]. unfold op_push_r32. rewrite (reg_of_opcode 0x50) by done. cbv zeta.
  eapply runs_bind; [apply runs_bump|]. eapply runs_bind; [apply runs_reg|].
  rewrite rget_esp_rset by done. eapply runs_bind; [apply runs_reg|].
  replace (rget (rset REG_ESP _ s) r) with
    (if r =? REG_ESP then u32 (rget s REG_ESP - 4) else rget s r).
  - eapply runs_bind; [apply runs_mem_write32; [apply Hs|apply u32_range]|].
    apply runs_retire; [by apply wf_pushed|lia|done].
  - destruct (Z.eqb_spec r REG_ESP) as [->|]; [by rewrite rget_esp_rset|].
    by rewrite rget_rset_ne by (done || lia).
Qed.

Lemma runs_pop_r32 fuel r s : wf s -> 0 <= r < 8 -> cycles_ok 1 s ->
  runs (execute_opcode fuel (0x58 + r)) s tt
    (retire 1 (popped 4 (rset r (rd32 (mem s) (rget s REG_ESP)) s))).
Proof.
  intros Hs Hr Hc. pose proof (esp_range s Hs) as Hu. unfold is_u32 in Hu.
  unfold runs. rewrite (execute_reg_form fuel 0x58 H_pop_r32)
    by (first [done|apply table_row; by repeat constructor]).
  cbn [call_plain]. unfold op_pop_r32. rewrite (reg_of_opcode 0x58) by done. cbv zeta.
  eapply runs_bind; [apply runs_reg|].
  eapply runs_bind; [apply runs_mem_read32; [apply Hs|lia]|].
  eapply runs_bind; [apply runs_set_reg|]. eapply runs_bind; [apply runs_bump|].
  apply runs_retire; [by apply wf_rset, wf_rset|lia|done].
Qed.

(** PUSH then POP moves a register.  With room on the stack, PUSH of register [r] and
    POP into register [q] other than ESP put the value of [r] into [q] - for ESP itself the
    already decremented value, not the one the architecture pushes - restore ESP, and leave
    every other register, EIP, the flags and all memory but the stack slot as they were. *)
Theorem push_pop_moves fuel s r q :
  wf s -> stack_room s -> cycles_ok 2 s -> 0 <= r < 8 -> 0 <= q < 8 -> q <> REG_ESP ->
  exists s', runs (execute_opcode fuel (0x50 + r);; execute_opcode fuel (0x58 + q)) s tt s' /\
    rget s' q = (if r =? REG_ESP then rget s REG_ESP - 4 else rget s r) /\
    (forall p, 0 <= p < 8 -> p <> q -> rget s' p = rget s p) /\
    (forall a, a < rget s REG_ESP - 4 \/ rget s REG_ESP <= a ->
       byte_at (mem s') a = byte_at (mem s) a) /\
    eip (cpu s') = eip (cpu s) /\ eflags (cpu s') = eflags (cpu s) /\ kern s' = kern s.
Proof.
  intros Hs Hroom Hc Hr Hq Hne.
  set (v := if r =? REG_ESP then u32 (rget s REG_ESP - 4) else rget s r).
  assert (is_u32 v) as Hv
    by (unfold v; destruct (r =? REG_ESP); [apply u32_range|by apply rget_u32]).
  set (s1 := retire 1 (pushed v s)).
  assert (wf s1) as Hs1.
  { apply wf_retire; [by apply wf_pushed|lia|unfold cycles_ok in *; simpl; lia]. }
  assert (rget s1 REG_ESP = rget s REG_ESP - 4) as E1 by by apply esp_pushed.
  assert (rd32 (mem s1) (rget s REG_ESP - 4) = v) as E2
    by (etrans; [by apply slot_pushed|by apply u32_small]).
  eexists. split; [eapply runs_bind|].
  - apply runs_push_r32; [done|done|unfold cycles_ok in *; lia].
  - fold v. fold s1. apply runs_pop_r32; [done|done|unfold cycles_ok in *; simpl; lia].
  - rewrite E1, E2. unfold popped. change (rget (retire 1 ?t) ?x) with (rget t x).
    assert (rget (rset q v s1) REG_ESP = rget s REG_ESP - 4) as E3
      by (rewrite rget_rset_ne by (done || lia); exact E1).
    rewrite E3. split; [|split; [|split; [|done]]].
    + rewrite rget_rset_ne, rget_rset_eq by (done || lia). rewrite u32_small by done.
      unfold v. destruct (r =? REG_ESP); [by apply slot_small|done].
    + intros p Hp Hpq. change (rget (retire 1 ?t) ?x) with (rget t x).
      destruct (decide (p = REG_ESP)) as [->|Hpe].
      * rewrite rget_esp_rset by by apply wf_rset. rewrite Z.sub_add.
        apply u32_small, esp_range. done.
      * rewrite rget_rset_ne, rget_rset_ne by (done || lia). by apply reg_pushed; [lia|].
    + intros a Ha. by apply byte_pushed.
Qed.
(** ** CALL, RET *)

Lemma eip_range s : wf s -> 0 <= eip (cpu s) < 0x100000000.
Proof. intros Hs. apply (wf_eip _ (wf_m_cpu _ Hs)). Qed.

Lemma runs_call_rel32 fuel off s : wf s -> cycles_ok 5 s -> is_u32 off ->
  code_at s (le_bytes 4 off) ->
  runs (execute_opcode fuel 0xE8) s tt
    (retire 5 (with_eip (eip (cpu s) + 4 + s32 off)
       (pushed (eip (cpu s) + 4) (advance 4 s)))).
Proof.
  intros Hs Hc Ho Hcode. pose proof (code_at_eip_small _ _ Hs Hcode) as E.
  rewrite le_bytes_length in E. change (Z.of_nat 4) with 4 in E.
  rewrite (execute_plain fuel 0xE8 H_call_rel32) by done. cbn [call_plain].
  unfold op_call_rel32. eapply runs_bind; [by apply code_at_fetch32|]. cbv zeta.
  eapply runs_bind; [apply runs_get_eip|].
  change (eip (cpu (advance 4 s))) with (u32 (eip (cpu s) + 4)). rewrite E.
  eapply runs_bind; [apply runs_push32; auto with wf|].
  eapply runs_bind.
  { unfold jump_by. eapply runs_bind; [apply runs_get_eip|apply runs_set_eip]. }
  change (eip (cpu (pushed ?v (advance 4 s)))) with (u32 (eip (cpu s) + 4)). rewrite E.
  apply runs_retire; [|lia|done]. by apply wf_with_eip, wf_pushed, wf_advance.
Qed.

Lemma runs_ret_near fuel s : wf s -> cycles_ok 5 s ->
  runs (execute_opcode fuel 0xC3) s tt
    (retire 5 (popped 4 (with_eip (rd32 (mem s) (rget s REG_ESP)) s))).
Proof.
  intros Hs Hc. pose proof (esp_range s Hs) as Hu. unfold is_u32 in Hu.
  rewrite (execute_plain fuel 0xC3 H_ret) by done. cbn [call_plain]. unfold op_ret.
  eapply runs_bind; [apply runs_reg|].
  eapply runs_bind; [apply runs_mem_read32; [apply Hs|lia]|].
  eapply runs_bind; [apply runs_set_eip|]. eapply runs_bind; [apply runs_bump|].
  apply runs_retire; [by apply wf_rset, wf_with_eip|lia|done].
Qed.

(** RET to an address put in the slot below the old ESP. *)
Lemma runs_ret_to fuel s s2 v : wf s -> stack_room s -> wf s2 -> cycles_ok 5 s2 -> is_u32 v ->
  rget s2 REG_ESP = rget s REG_ESP - 4 -> rd32 (mem s2) (rget s REG_ESP - 4) = v ->
  exists s3, runs (execute_opcode fuel 0xC3) s2 tt s3 /\ eip (cpu s3) = v /\
    rget s3 REG_ESP = rget s REG_ESP /\
    (forall r, 0 <= r < 8 -> r <> REG_ESP -> rget s3 r = rget s2 r) /\ mem s3 = mem s2 /\
    halted (cpu s3) = halted (cpu s2).
Proof.
  intros Hs Hr H2 Hc Hv Esp Eslot. eexists. split; [by apply runs_ret_near|].
  rewrite Esp, Eslot. split; [by apply u32_small|].
  unfold popped. change (rget (with_eip ?x ?t) ?r) with (rget t r). rewrite Esp.
  split; [|split; [|done]].
  - etrans; [apply rget_esp_rset; by apply wf_with_eip|]. rewrite Z.sub_add.
    apply u32_small, esp_range. done.
  - intros r Hr1 Hr2. etrans; [apply rget_rset_ne; (done || lia)|done].
Qed.

(** C23: CALL and RET match.  CALL rel32 with room on the stack jumps by the displacement
    from the following instruction and saves that instruction's address; and from any later
    state in which ESP is the one after the call and the saved word is intact, RET continues
    at the instruction after the call with ESP as before it, changing no other register and
    no memory. *)
Theorem call_ret_returns fuel s off :
  wf s -> stack_room s -> cycles_ok 5 s -> is_u32 off -> code_at s (le_bytes 4 off) ->
  exists s1, runs (execute_opcode fuel 0xE8) s tt s1 /\
    eip (cpu s1) = u32 (eip (cpu s) + 4 + s32 off) /\
    (forall r, 0 <= r < 8 -> r <> REG_ESP -> rget s1 r = rget s r) /\
    (forall a, a < rget s REG_ESP - 4 \/ rget s REG_ESP <= a ->
       byte_at (mem s1) a = byte_at (mem s) a) /\
    forall s2, wf s2 -> cycles_ok 5 s2 -> rget s2 REG_ESP = rget s1 REG_ESP ->
      g_size (mem s2) = g_size (mem s1) ->
      (forall a, rget s1 REG_ESP <= a < rget s1 REG_ESP + 4 ->
         byte_at (mem s2) a = byte_at (mem s1) a) ->
      exists s3, runs (execute_opcode fuel 0xC3) s2 tt s3 /\
        eip (cpu s3) = eip (cpu s) + 4 /\ rget s3 REG_ESP = rget s REG_ESP /\
        (forall r, 0 <= r < 8 -> r <> REG_ESP -> rget s3 r = rget s2 r) /\
        mem s3 = mem s2.
Proof.
  intros Hs Hroom Hc Ho Hcode.
  pose proof (code_at_eip_small _ _ Hs Hcode) as E. rewrite le_bytes_length in E.
  change (Z.of_nat 4) with 4 in E. assert (is_u32 (eip (cpu s) + 4)) as Hra
    by (rewrite <- E; apply u32_range).
  assert (wf (advance 4 s)) as Hs4 by auto with wf.
  assert (stack_room (advance 4 s)) as Hr4 by exact Hroom.
  eexists. split; [by apply (runs_call_rel32 fuel off)|]. split; [done|].
  set (s1 := retire 5 _). assert (rget s1 REG_ESP = rget s REG_ESP - 4) as E1
    by by apply (esp_pushed (eip (cpu s) + 4) (advance 4 s)).
  split; [|split].
  - intros r Hr Hne. apply (reg_pushed (eip (cpu s) + 4) (advance 4 s)); [lia|done].
  - intros a Ha. by apply (byte_pushed (eip (cpu s) + 4) (advance 4 s)).
  - intros s2 H2 Hc2 Esp Esz Eb. rewrite E1 in Esp, Eb.
    destruct (runs_ret_to fuel s s2 (eip (cpu s) + 4)) as (s3 & R & A & B & C & D & _);
      [done..| |by exists s3].
    rewrite (rd32_same (mem s1)) by (done || (intros x Hx; apply Eb; lia)).
    etrans; [by apply (slot_pushed (eip (cpu s) + 4) (advance 4 s))|]. by apply u32_small.
Qed.
(** ** The system-call trampoline *)

(** [call gs:[0x10]], and [int 0x80; ret]. *)
Definition gs_call : list Z := [0x65; 0xFF] ++ encode 2 (OMem None None 0x10).
Definition stub : list Z := [0xCD; 0x80; 0xC3].

Lemma runs_prefix_gs fuel s next s' :
  wf s -> code_at s [next] ->
  runs (execute_opcode fuel next) (advance 1 (with_seg (g_gs_base (og s)) s)) tt s' ->
  wf s' -> cycles_ok 1 s' ->
  runs (execute_opcode (S fuel) 0x65) s tt (retire 1 (with_seg 0 s')).
Proof.
  intros Hs Hc Hr Hs' Hk. change (execute_opcode (S fuel) 0x65) with
    (op_prefix_gs (execute_opcode (H:=H) fuel) 0x65). unfold op_prefix_gs.
  eapply runs_bind; [apply runs_get_og|]. eapply runs_bind; [apply runs_set_seg|].
  eapply runs_bind; [apply code_at_fetch8; [by apply wf_with_seg|exact Hc]|].
  eapply runs_bind; [exact Hr|]. eapply runs_bind; [apply runs_set_seg|].
  apply runs_retire; [by apply wf_with_seg|lia|done].
Qed.

(** CALL r/m32 through memory. *)
Lemma runs_call_rm32 fuel s b ix d :
  wf s -> cycles_ok 5 s -> operand_ok (OMem b ix d) -> code_at s (encode 2 (OMem b ix d)) ->
  let s1 := advance (length (encode 2 (OMem b ix d))) s in
  runs (execute_opcode fuel 0xFF) s tt
    (retire 5 (with_eip (rd_opd s1 (OMem b ix d)) (pushed (eip (cpu s1)) (with_seg 0 s1)))).
Proof.
  intros Hs Hc Ho Hcode s1. destruct (parse_encode s 2 (OMem b ix d)) as (m & Hr & Hm & Hp);
    [done|lia|done|done|].
  assert (wf s1) as Hs1 by by apply wf_advance.
  rewrite (execute_plain fuel 0xFF H_ff_group) by done. cbn [call_plain]. unfold op_ff_group.
  eapply runs_bind; [exact Hp|]. rewrite Hr. fold s1.
  eapply runs_bind; [by apply (runs_read_rm32 s1 m (OMem b ix d))|].
  eapply runs_bind; [apply runs_get_eip|].
  eapply runs_bind; [apply runs_push32; by apply wf_with_seg|].
  eapply runs_bind; [apply runs_set_eip|].
  apply runs_retire; [by apply wf_with_eip, wf_pushed, wf_with_seg|lia|exact Hc].
Qed.

(** The first turn: from the call to the trampoline. *)
Lemma gs_call_turn pf s tgt : wf s -> halted (cpu s) = 0 -> stack_room s -> cycles_ok 6 s ->
  code_at s gs_call -> rd32 (mem s) (u32 (0x10 + g_gs_base (og s))) = tgt -> is_u32 tgt ->
  exists s1, estep (S pf) s s1 /\ wf s1 /\ eip (cpu s1) = tgt /\
    rget s1 REG_ESP = rget s REG_ESP - 4 /\
    (forall r, 0 <= r < 8 -> r <> REG_ESP -> rget s1 r = rget s r) /\
    rd32 (mem s1) (rget s REG_ESP - 4) = eip (cpu s) + 7 /\
    (forall a, a < rget s REG_ESP - 4 \/ rget s REG_ESP <= a ->
       byte_at (mem s1) a = byte_at (mem s) a) /\
    g_size (mem s1) = g_size (mem s) /\ kern s1 = kern s /\ host s1 = host s /\
    halted (cpu s1) = 0 /\ cycles (cpu s1) = cycles (cpu s) + 6.
Proof.
  intros Hs Hh Hroom Hc Hcode Htgt Hut.
  pose proof (code_at_eip_small _ _ Hs Hcode) as E. change (Z.of_nat (length gs_call)) with 7 in E.
  assert (is_u32 (eip (cpu s) + 7)) as Hra by (rewrite <- E; apply u32_range).
  apply (code_at_app s [0x65] (0xFF :: encode 2 (OMem None None 0x10))) in Hcode as [C1 C2]; [|done].
  apply (code_at_app _ [0xFF]) in C2 as [C2 C3]; [|by apply wf_advance].
  set (t0 := advance 1 (note_eip s)) in *.
  assert (wf t0) as W0 by (apply wf_advance, wf_note_eip; done).
  set (t1 := advance 1 (with_seg (g_gs_base (og t0)) t0)).
  assert (wf t1) as W1 by (apply wf_advance, wf_with_seg; done).
  assert (code_at t1 (encode 2 (OMem None None 0x10))) as C4 by exact C3.
  assert (cycles_ok 5 t1) as K1 by (unfold cycles_ok in *; simpl; lia).
  pose proof (runs_call_rm32 pf t1 None None 0x10 W1 K1) as Rc. cbv zeta in Rc.
  change (length (encode 2 (OMem None None 0x10))) with 5%nat in Rc.
  set (t2 := advance 5 t1) in *.
  assert (eip (cpu t2) = eip (cpu s) + 7) as Et2.
  { change (eip (cpu t2)) with (u32 (u32 (u32 (eip (cpu s) + 1) + 1) + 5)).
    rewrite !u32_add_l, <- Z.add_assoc, u32_add_l, <- E. f_equal. lia. }
  assert (rd_opd t2 (OMem None None 0x10) = tgt) as Eo.
  { cbn [rd_opd]. change (opd_addr t2 None None 0x10) with
      (u32 (u32 (0 + 0 + 0x10) + u32 (g_gs_base (og s)))).
    rewrite u32_add_r. change (u32 (0 + 0 + 0x10)) with 0x10. exact Htgt. }
  rewrite Et2, Eo in Rc.
  set (t3 := with_seg 0 t2) in *. assert (wf t3) as W3 by (apply wf_with_seg, wf_advance; done).
  set (t4 := retire 5 (with_eip tgt (pushed (eip (cpu s) + 7) t3))) in *.
  assert (wf t4) as W4 by (apply wf_retire; [by apply wf_with_eip, wf_pushed|lia|
    unfold cycles_ok in *; simpl; lia]).
  assert (stack_room t3) as R3 by exact Hroom.
  exists (retire 1 (with_seg 0 t4)). split.
  { eapply runs_emulate_body; [done|done|exact C1|]. fold t0.
    apply (runs_prefix_gs pf t0 0xFF); [done|exact C2| |done|unfold cycles_ok in *; simpl; lia].
    apply Rc; [|exact C4]. split; [done|]. by split. }
  split.
  { apply wf_retire; [by apply wf_with_seg|lia|unfold cycles_ok in *; simpl; lia]. }
  split; [by apply u32_small|].
  split; [by apply (esp_pushed (eip (cpu s) + 7) t3)|].
  split; [intros r Hr Hne; by apply (reg_pushed (eip (cpu s) + 7) t3); [lia|]|].
  split.
  { etrans; [by apply (slot_pushed (eip (cpu s) + 7) t3)|]. by apply u32_small. }
  split; [intros a Ha; by apply (byte_pushed (eip (cpu s) + 7) t3)|].
  split; [etrans; [apply wr32_size|done]|]. do 3 (split; [done|]). simpl. lia.
Qed.
(** The second turn: the system call. *)
Definition entering_kernel s : machine H := advance 1 (advance 1 (note_eip s)).

Lemma execute_int pf s : execute_opcode pf 0xCD s = op_int (H:=H) 0xCD s.
Proof. by destruct pf. Qed.

Lemma int80_turn pf s1 s2 : wf s1 -> halted (cpu s1) = 0 -> code_at s1 [0xCD; 0x80] ->
  runs dispatch_syscall (entering_kernel s1) tt s2 -> wf s2 -> cycles_ok 50 s2 ->
  estep pf s1 (retire 50 s2).
Proof.
  intros Hs Hh Hcode Hr H2 Hc. apply (code_at_app s1 [0xCD] [0x80]) in Hcode as [C1 C2]; [|done].
  eapply runs_emulate_body; [done|done|exact C1|].
  unfold runs. rewrite execute_int. unfold op_int.
  eapply runs_bind; [apply code_at_fetch8; [by apply wf_advance, wf_note_eip|exact C2]|].
  eapply runs_bind; [exact Hr|]. apply runs_retire; [done|lia|done].
Qed.

(** The third turn: back to the caller. *)
Lemma ret_turn pf s s2 v : wf s -> stack_room s -> wf s2 -> halted (cpu s2) = 0 ->
  cycles_ok 5 s2 -> is_u32 v -> code_at s2 [0xC3] ->
  rget s2 REG_ESP = rget s REG_ESP - 4 -> rd32 (mem s2) (rget s REG_ESP - 4) = v ->
  exists s3, estep pf s2 s3 /\ eip (cpu s3) = v /\ rget s3 REG_ESP = rget s REG_ESP /\
    (forall r, 0 <= r < 8 -> r <> REG_ESP -> rget s3 r = rget s2 r) /\
    (forall a, byte_at (mem s3) a = byte_at (mem s2) a).
Proof.
  intros Hs Hroom H2 Hh Hc Hv Hcode Esp Eslot.
  assert (rd32 (mem (advance 1 (note_eip s2))) (rget s REG_ESP - 4) = v) as E2
    by (by rewrite (rd32_same (mem s2))).
  destruct (runs_ret_to pf s (advance 1 (note_eip s2)) v) as (s3 & R & A & B & C & D & _);
    try done; [by apply wf_advance, wf_note_eip|].
  exists s3. split; [by eapply runs_emulate_body|]. split; [done|]. split; [done|].
  split; [done|]. intros a. by rewrite D.
Qed.

(** C24: the system-call trampoline.  Three turns of the emulator's loop over [call
    gs:[0x10]], with the address of the trampoline [int 0x80; ret] in the thread block, are
    one system call: the kernel is entered with the registers of the caller (ESP apart) and
    memory as it was outside the stack slot, and whatever the call does, provided it returns
    and leaves the trampoline and the return address alone, execution continues after the
    [call] instruction with the registers of the caller, EAX being the kernel's answer, and
    with the memory the kernel left. *)
Theorem vsyscall_returns pf s :
  wf s -> halted (cpu s) = 0 -> stack_room s -> cycles_ok 61 s -> code_at s gs_call ->
  rd32 (mem s) (u32 (0x10 + g_gs_base (og s))) = 0x1000 ->
  load_bytes (mem s) 0x1000 3 = stub -> 0x1003 <= g_size (mem s) ->
  rget s REG_ESP <= 0x1000 \/ 0x1003 <= rget s REG_ESP - 4 ->
  exists t, wf t /\ (forall r, 0 <= r < 8 -> r <> REG_ESP -> rget t r = rget s r) /\
    kern t = kern s /\ host t = host s /\ halted (cpu t) = 0 /\
    (forall a, a < rget s REG_ESP - 4 \/ rget s REG_ESP <= a ->
       byte_at (mem t) a = byte_at (mem s) a) /\
    forall s2, runs dispatch_syscall t tt s2 -> halted (cpu s2) = 0 ->
      (forall a, 0x1000 <= a < 0x1003 \/ rget s REG_ESP - 4 <= a < rget s REG_ESP ->
         byte_at (mem s2) a = byte_at (mem t) a) ->
      exists s3, nsteps (estep (S pf)) 3 s s3 /\ eip (cpu s3) = eip (cpu s) + 7 /\
        (forall r, 0 <= r < 8 -> r <> REG_EAX -> rget s3 r = rget s r) /\
        rget s3 REG_EAX = rget s2 REG_EAX /\
        (forall a, byte_at (mem s3) a = byte_at (mem s2) a).
Proof.
  intros Hs Hh Hroom Hc Hcode Hgs Hstub Hsz Hsep.
  destruct (gs_call_turn pf s 0x1000) as (s1 & T1 & W1 & Eip & Esp & Er & Es & Eb & Ez & Ek &
    Eh & Hh1 & Ec); try done; [unfold cycles_ok in *; lia|].
  assert (code_at s1 stub) as Cs.
  { split; rewrite Eip; [|simpl; lia]. rewrite <- Hstub at 2. apply load_bytes_ext.
    simpl. intros x Hx. apply Eb. lia. }
  set (t := entering_kernel s1). exists t.
  split; [by apply wf_advance, wf_advance, wf_note_eip|].
  do 5 (split; [done|]). intros s2 Hr Hh2 Em.
  pose proof (respects_run _ _ _ _ _ resp_dispatch_syscall Hr) as [W2 Z2].
  specialize (W2 ltac:(by apply wf_advance, wf_advance, wf_note_eip)).
  pose proof (respects_run _ _ _ _ _ eo_dispatch Hr) as [Q1 Q2 Q3 Q4].
  change (cycles (cpu t)) with (cycles (cpu s1)) in Q4.
  assert (cycles_ok 55 s2) as K2 by (unfold cycles_ok in *; lia).
  assert (eip (cpu s2) = 0x1002) as Eip2.
  { rewrite Q2. change (eip (cpu t)) with (u32 (u32 (eip (cpu s1) + 1) + 1)). by rewrite Eip. }
  pose proof (code_at_eip_small _ _ Hs Hcode) as E. change (Z.of_nat (length gs_call)) with 7 in E.
  destruct (ret_turn (S pf) s (retire 50 s2) (eip (cpu s) + 7)) as (s3 & T3 & A & B & C & D).
  - done.
  - done.
  - apply wf_retire; [done|lia|unfold cycles_ok in *; lia].
  - done.
  - unfold cycles_ok in *. simpl. lia.
  - rewrite <- E. apply u32_range.
  - destruct Cs as [Cs _]. rewrite Eip in Cs. cbn [load_bytes length stub] in Cs.
    split; change (eip (cpu (retire 50 s2))) with (eip (cpu s2)); rewrite Eip2.
    + cbn [load_bytes length]. change (mem (retire 50 s2)) with (mem s2).
      rewrite Em by lia. change (byte_at (mem t) 0x1002) with (byte_at (mem s1) 0x1002).
      injection Cs as _ _ Cs. exact (f_equal (fun b => [b]) Cs).
    + change (mem (retire 50 s2)) with (mem s2). rewrite Z2. simpl. lia.
  - change (rget (retire 50 s2) REG_ESP) with (rget s2 REG_ESP). by rewrite Q1.
  - change (mem (retire 50 s2)) with (mem s2). rewrite <- Es. apply rd32_same; [done|].
    intros x Hx. apply Em. lia.
  - exists s3. split; [|split; [done|split; [|split; [|exact D]]]].
    + eapply nsteps_l; [exact T1|]. eapply nsteps_l; [|apply nsteps_once; exact T3].
      apply int80_turn; [done|done|by apply (code_at_app s1 [0xCD; 0x80] [0xC3])|done|done|].
      unfold cycles_ok in *. lia.
    + intros r Hr1 Hr2. destruct (decide (r = REG_ESP)) as [->|Hne]; [done|].
      rewrite C by done. change (rget (retire 50 s2) r) with (rget s2 r).
      rewrite Q1 by (done || lia). by apply Er.
    + apply C; [unfold REG_EAX; lia|done].
Qed.
End stack.

(** PUSH ESP; POP EAX. *)
Lemma push_pop_moves_witness :
  let s := toy_machine [1; 0; 0; 0; 0x8000; 0; 0; 0] 0x1000 [] in
  exists s', runs (execute_opcode 0 0x54;; execute_opcode 0 0x58) s tt s' /\
    rget s' REG_EAX = 0x7FFC /\ rget s' REG_ESP = 0x8000.
Proof.
  intros s. destruct (push_pop_moves 0 s REG_ESP REG_EAX) as (s' & Hr & Hq & Ho & _).
  - by apply wf_toy.
  - split; [done|]. by apply Z.leb_le.
  - done.
  - unfold REG_ESP. lia.
  - unfold REG_EAX. lia.
  - done.
  - exists s'. split; [exact Hr|]. split; [exact Hq|].
    apply (Ho REG_ESP); [unfold REG_ESP; lia|done].
Defined.

(** CALL +0x100 at 0x1000, with the displacement bytes at 0x1001. *)
Lemma call_ret_returns_witness :
  let s := toy_machine [0; 0; 0; 0; 0x8000; 0; 0; 0] 0x1001
             [(0x1001, le_bytes 4 0x100)] in
  exists s1 s3, runs (execute_opcode 0 0xE8) s tt s1 /\ eip (cpu s1) = 0x1105 /\
    runs (execute_opcode 0 0xC3) (retire 0 s1) tt s3 /\ eip (cpu s3) = 0x1005.
Proof.
  intros s. pose proof (wf_toy [0; 0; 0; 0; 0x8000; 0; 0; 0] 0x1001
    [(0x1001, le_bytes 4 0x100)] eq_refl) as Hs.
  assert (code_at s (le_bytes 4 0x100)) as Hc by by split.
  destruct (call_ret_returns 0 s 0x100) as (s1 & R1 & E1 & _ & _ & Hret).
  - exact Hs.
  - split; [done|]. by apply Z.leb_le.
  - done.
  - done.
  - exact Hc.
  - assert (cycles_ok 5 s) as K by done. assert (is_u32 0x100) as U by (unfold is_u32; lia).
    pose proof (runs_call_rel32 0 0x100 s Hs K U Hc) as R.
    destruct (runs_det _ _ _ _ _ _ R1 R) as [_ Es1].
    destruct (Hret (retire 0 s1)) as (s3 & R3 & E3 & _).
    + rewrite Es1. apply wf_retire; [|lia|done].
      apply wf_retire; [by apply wf_with_eip, wf_pushed, wf_advance|lia|done].
    + by rewrite Es1.
    + done.
    + done.
    + done.
    + exists s1, s3. split; [exact R1|]. split; [rewrite E1; reflexivity|].
      split; [exact R3|rewrite E3; reflexivity].
Defined.

(** [getpid] through the trampoline. *)
Lemma vsyscall_returns_witness :
  let s := upd_og (upd_gs_base 0x3000) (toy_machine [20; 0; 0; 0; 0x8000; 0; 0; 0] 0x2000
    [(0x1000, stub); (0x2000, gs_call); (0x3010, le_bytes 4 0x1000)]) in
  exists s3, nsteps (estep 1) 3 s s3 /\ eip (cpu s3) = 0x2007 /\ rget s3 REG_EAX = 1.
Proof.
  intros s. assert (wf s) as Hs.
  { destruct (wf_toy [20; 0; 0; 0; 0x8000; 0; 0; 0] 0x2000
      [(0x1000, stub); (0x2000, gs_call); (0x3010, le_bytes 4 0x1000)] eq_refl)
      as [W1 W2 [] W4]. by constructor. }
  destruct (vsyscall_returns 0 s) as (t & Wt & Er & _ & _ & Eh & _ & Hret).
  - exact Hs.
  - done.
  - split; [done|]. by apply Z.leb_le.
  - done.
  - by split.
  - done.
  - done.
  - done.
  - right. by apply Z.leb_le.
  - assert (rget t REG_EAX = 20) as Ea by (apply Er; [unfold REG_EAX; lia|done]).
    assert (runs dispatch_syscall t tt (rset REG_EAX 1 t)) as Rd.
    { unfold dispatch_syscall. do 7 (eapply runs_bind; [apply runs_reg|]). by rewrite Ea. }
    destruct (Hret (rset REG_EAX 1 t) Rd Eh) as (s3 & R & E & _ & A & _); [done|].
    exists s3. split; [exact R|]. split; [rewrite E; reflexivity|]. rewrite A.
    apply (rget_rset_eq t REG_EAX 1 Wt). unfold REG_EAX. lia.
Defined.
