(* ===== verification/Shifts.v ===== *)
(** Shifts, rotations, and the 64-bit multiplications and divisions. *)
From S2P Require Import Prelude CInt Machine Logic Mem Flags ModRM OpsMove OpsGroup OpsFpu.
From S2P Require Import Backend Toy Dispatch Exec Decode Alu Arith.

Section shifts.
Context {H : Type} `{HostOS H} `{FloatOps}.
Implicit Types s : machine H.

Inductive shift_op := SHL | SHR | SAR.
(** The register fields of the group; /6 is an alias of SHL. *)
Definition shift_forms : list (Z * shift_op) := [(4, SHL); (6, SHL); (5, SHR); (7, SAR)].

(** A 32-bit word shifted by [n], and the last bit shifted out (none when [n] is 0). *)
Definition shift_eval (op : shift_op) (v n : Z) : Z * bool :=
  match op with
  | SHL => (v * 2 ^ n mod 0x100000000, (0 <? n) && Z.testbit v (32 - n))
  | SHR => (v / 2 ^ n, (0 <? n) && Z.testbit v (n - 1))
  | SAR => (u32 (s32 v / 2 ^ n), (0 <? n) && Z.testbit v (n - 1))
  end.

(** The operand shifted: CF, ZF and SF are written, PF and OF kept. *)
Definition shift_step (op : shift_op) (o : operand) (n : Z) s : machine H :=
  let e := shift_eval op (rd_opd s o) n in
  let old := old_status s in
  retire 2 (wr_opd o e.1
    (set_status (mk_status e.2 (PF old) (e.1 =? 0) (Z.testbit e.1 31) (OF old)) s)).

Lemma put_flags_shift s cf zf sf :
  put_flag_st 7 sf (put_flag_st 6 zf (put_flag_st 0 cf s))
  = set_status (mk_status cf (PF (old_status s)) zf sf (OF (old_status s))) s.
Proof. flags_eq s. Qed.

Lemma runs_bit_if n v k s : 0 <= n < 32 -> (0 < n -> 0 <= k < 32) ->
  runs (bit_if n v k) s (Z.b2z ((0 <? n) && Z.testbit v k)) s.
Proof.
  intros Hn Hk. unfold bit_if. destruct (Z.eqb_spec n 0) as [->|Hne]; cbn [negb].
  - apply runs_ret.
  - eapply runs_bind; [apply runs_c_shr; lia|]. btest (0 <? n).
    eapply runs_eq; [apply runs_ret|apply shiftr_land1; lia|done].
Qed.

(** The common end of the arms. *)
Lemma runs_shift_tail m rg o s cf r : decoded m rg o s -> cycles_ok 2 s ->
  runs (set_cf (Z.b2z cf);; set_zf r;; set_sf r;; write_rm32 m r;; add_cycles 2) s tt
    (retire 2 (wr_opd o r (set_status
       (mk_status cf (PF (old_status s)) (r =? 0) (Z.testbit r 31) (OF (old_status s))) s))).
Proof.
  intros D Hc. pose proof (dc_wf _ _ _ _ D) as Hs.
  do 3 (eapply runs_bind; [solve [eauto with run]|]).
  rewrite b2z_neq0, put_flags_shift. set (s1 := set_status _ s).
  assert (decoded m rg o s1) as D1 by (destruct D; constructor; [by apply wf_set_status|done..]).
  eapply runs_bind; [exact (dc_write _ _ _ _ D1 _)|].
  apply runs_retire; [exact (dc_wf_wr _ _ _ _ D1 _ _)|lia|by apply cycles_ok_wr_opd].
Qed.

(** The shift arms of the group, for a known operand and count. *)
Lemma runs_shift32 op rg m o n s : (rg, op) ∈ shift_forms -> decoded m rg o s ->
  cycles_ok 2 s -> 0 <= n < 32 -> runs (shift32_group m n) s tt (shift_step op o n s).
Proof.
  intros Hin D Hc Hn. pose proof (dc_opd_u32 _ _ _ _ D) as Hu. unfold is_u32 in Hu.
  unfold shift32_group, shift_step. eapply runs_bind; [exact (dc_read _ _ _ _ D)|].
  rewrite (dc_reg _ _ _ _ D). cbv zeta. set (v := rd_opd s o) in *.
  unfold shift_forms in Hin. rewrite !elem_of_cons in Hin.
  destruct Hin as [E|[E|[E|[E|E]]]]; [..|by apply elem_of_nil in E]; injection E as -> ->.
  1-2: eapply runs_bind; [by apply runs_c_shl|];
    eapply runs_bind; [apply runs_bit_if; lia|];
    rewrite Z.shiftl_mul_pow2 by lia; by eapply (runs_shift_tail m _ o s).
  - eapply runs_bind; [by apply runs_c_shr|].
    eapply runs_bind; [apply runs_bit_if; lia|].
    rewrite Z.shiftr_div_pow2 by lia. by eapply (runs_shift_tail m _ o s).
  - eapply runs_bind; [by apply runs_c_shr|].
    eapply runs_bind; [apply runs_bit_if; lia|].
    rewrite Z.shiftr_div_pow2 by lia. by eapply (runs_shift_tail m _ o s).
Qed.

Lemma land31 b : Z.land b 0x1F = b mod 32.
Proof. change 0x1F with (Z.ones 5). by rewrite Z.land_ones. Qed.

(** The two opcodes: a count byte after the operand, or CL. *)
Definition count_of (opc : Z) (bs : list Z) s (n : Z) : Prop :=
  (opc = 0xC1 /\ exists b, bs = [b] /\ n = b mod 32) \/
  (opc = 0xD3 /\ bs = [] /\ n = rget s REG_ECX mod 32).

(** From the instruction bytes to the body of the group. *)
Lemma execute_group32 fuel opc rg o bs n s :
  count_of opc bs s n -> wf s -> seg s = 0 -> 0 <= rg < 8 -> operand_ok o ->
  code_at s (encode rg o ++ bs) ->
  let s1 := advance (length (encode rg o ++ bs)) s in
  exists m, decoded m rg o s1 /\ execute_opcode fuel opc s = shift32_group m n s1.
Proof.
  intros Hn Hs Hg Hrg Ho Hcode.
  apply code_at_app in Hcode as [Hc1 Hc2]; [|done].
  destruct (decode_instruction s rg o) as (m & D & Hp); [done..|].
  rewrite length_app, <- advance_advance. set (s1 := advance (length (encode rg o)) s) in *.
  assert (wf s1) as Hs1 by apply (dc_wf _ _ _ _ D).
  exists m. split; [by apply decoded_advance|].
  destruct Hn as [(-> & b & -> & ->)|(-> & -> & ->)].
  - rewrite (execute_plain fuel 0xC1 H_c1_group) by done. cbn [call_plain].
    unfold op_c1_group. rewrite (bind_Ret _ _ _ _ _ Hp).
    rewrite (bind_Ret _ _ _ _ _ (code_at_fetch8 _ _ Hs1 Hc2)). by rewrite land31.
  - rewrite (execute_plain fuel 0xD3 H_d3_group) by done. cbn [call_plain].
    unfold op_d3_group. rewrite (bind_Ret _ _ _ _ _ Hp).
    rewrite (bind_Ret _ _ _ _ _ (runs_reg REG_ECX s1)). rewrite land31.
    by rewrite advance_0.
Qed.

Lemma count_range opc bs s n : count_of opc bs s n -> 0 <= n < 32.
Proof. intros [(_ & b & _ & ->)|(_ & _ & ->)]; by apply Z.mod_pos_bound. Qed.

(** C27: SHL, SHR and SAR of a 32-bit operand by an immediate or by CL.  The count is taken
    modulo 32; the operand is multiplied by 2^n modulo 2^32, divided by 2^n, or divided by
    2^n as a signed number; CF is the last bit shifted out, ZF and SF describe the result,
    PF and OF are left as they were.  A count of zero leaves the operand, but unlike the
    architecture clears CF and writes ZF and SF. *)
Theorem shift32_refines fuel opc op rg o bs n s :
  (rg, op) ∈ shift_forms -> count_of opc bs s n -> wf s -> seg s = 0 -> cycles_ok 2 s ->
  operand_ok o -> code_at s (encode rg o ++ bs) ->
  runs (execute_opcode fuel opc) s tt
    (shift_step op o n (advance (length (encode rg o ++ bs)) s)).
Proof.
  intros Hin Hn Hs Hg Hc Ho Hcode.
  pose proof (count_range _ _ _ _ Hn) as Hn32.
  assert (0 <= rg < 8) as Hrg.
  { unfold shift_forms in Hin. rewrite !elem_of_cons in Hin.
    destruct Hin as [E|[E|[E|[E|E]]]]; [..|by apply elem_of_nil in E]; injection E as -> _; lia. }
  destruct (execute_group32 fuel opc rg o bs n s) as (m & D & E); [done..|].
  unfold runs. rewrite E. by apply (runs_shift32 op rg).
Qed.

(** ** Rotations *)

(** The bits of the two halves a rotation combines. *)
Lemma rotate_bits v n i : is_u32 v -> 0 < n < 32 -> 0 <= i < 32 ->
  Z.testbit (Z.lor (u32 (Z.shiftl v n)) (Z.shiftr v (32 - n))) i
  = Z.testbit v ((i - n) mod 32).
Proof.
  intros Hv Hn Hi. rewrite Z.lor_spec, testbit_u32, Z.shiftl_spec, Z.shiftr_spec by lia.
  btest (i <? 32). destruct (Z.lt_ge_cases i n).
  - rewrite (Z.testbit_neg_r v (i - n)) by lia. cbn [orb]. f_equal.
    apply (Z.mod_unique _ _ (-1)); lia.
  - rewrite (proj2 (proj1 (is_u32_bits v) Hv) (i + (32 - n))) by lia. rewrite orb_false_r.
    f_equal. symmetry. apply Z.mod_small. lia.
Qed.

Lemma shiftr_u32 v n : is_u32 v -> 0 <= n -> is_u32 (Z.shiftr v n).
Proof.
  intros Hv Hn. apply is_u32_bits in Hv as [H0' Hv]. apply is_u32_bits.
  split; [by apply Z.shiftr_nonneg|]. intros i Hi. rewrite Z.shiftr_spec by lia. apply Hv. lia.
Qed.

(** C28: ROL and ROR of a 32-bit operand by an immediate or by CL.  For a count of 1 to 31
    modulo 32, bit [i] of the result is bit [i - n] (ROL) or [i + n] (ROR) modulo 32 of the
    operand, CF is the bit rotated around, and the other flags are kept.  For a count that
    is a multiple of 32, which the architecture makes a no-operation, the handler shifts a
    32-bit word by 32, which C leaves undefined. *)
Theorem rotate32_refines fuel opc (right : bool) o bs n s :
  let rg := if right then 1 else 0 in
  count_of opc bs s n -> wf s -> seg s = 0 -> cycles_ok 2 s ->
  operand_ok o -> code_at s (encode rg o ++ bs) ->
  let s1 := advance (length (encode rg o ++ bs)) s in
  if n =? 0 then execute_opcode fuel opc s = Undef UB_shift
  else exists r, is_u32 r /\
    (forall i, 0 <= i < 32 -> Z.testbit r i =
       Z.testbit (rd_opd s1 o) ((if right then i + n else i - n) mod 32)) /\
    runs (execute_opcode fuel opc) s tt (retire 2 (wr_opd o r
      (put_flag_st 0 (Z.testbit r (if right then 31 else 0)) s1))).
Proof.
  intros rg Hn Hs Hg Hc Ho Hcode s1. pose proof (count_range _ _ _ _ Hn) as Hn32.
  assert (0 <= rg < 8) as Hrg by (unfold rg; destruct right; lia).
  destruct (execute_group32 fuel opc rg o bs n s) as (m & D & E); [done..|].
  fold s1 in D, E. unfold runs. rewrite E. clear E Hn.
  assert (cycles_ok 2 s1) as Hc1 by exact Hc. clearbody s1.
  pose proof (dc_opd_u32 _ _ _ _ D) as Hu. pose proof (dc_reg _ _ _ _ D) as Er.
  unfold shift32_group. rewrite (bind_Ret _ _ _ _ _ (dc_read _ _ _ _ D)), Er. cbv zeta.
  set (v := rd_opd s1 o) in *. unfold rg in *.
  destruct (Z.eqb_spec n 0) as [->|Hn0].
  { by destruct right. }
  assert (forall c r, decoded m rg o (put_flag_st 0 c s1) ->
    runs (write_rm32 m r;; add_cycles 2) (put_flag_st 0 c s1) tt
      (retire 2 (wr_opd o r (put_flag_st 0 c s1)))) as Hfin.
  { intros c r D1. eapply runs_bind; [exact (dc_write _ _ _ _ D1 _)|].
    apply runs_retire; [exact (dc_wf_wr _ _ _ _ D1 _ _)|lia|by apply cycles_ok_wr_opd]. }
  assert (forall c, decoded m rg o (put_flag_st 0 c s1)) as D1.
  { intros c. destruct D. constructor; [apply wf_put_flag; [lia|lia|done|done]|done..]. }
  destruct right.
  - exists (Z.lor (Z.shiftr v n) (u32 (Z.shiftl v (32 - n)))). rewrite Z.lor_comm.
    split; [apply lor_u32; [apply u32_range|apply shiftr_u32; (done || lia)]|]. split.
    + intros i Hi. replace n with (32 - (32 - n)) at 2 by lia. rewrite rotate_bits by (done || lia).
      replace (i - (32 - n)) with (i + n + (-1) * 32) by lia. by rewrite Z.mod_add.
    + eapply runs_bind; [apply runs_c_shr; lia|]. eapply runs_bind; [apply runs_c_shl; lia|].
      rewrite Z.lor_comm. rewrite shiftr_land1 by lia.
      eapply runs_bind; [apply runs_set_cf|]. rewrite b2z_neq0. apply Hfin, D1.
  - exists (Z.lor (u32 (Z.shiftl v n)) (Z.shiftr v (32 - n))).
    split; [apply lor_u32; [apply u32_range|apply shiftr_u32; (done || lia)]|].
    split; [intros i Hi; apply rotate_bits; (done || lia)|].
    eapply runs_bind; [apply runs_c_shl; lia|]. eapply runs_bind; [apply runs_c_shr; lia|].
    rewrite <- (Z.shiftr_0_r (Z.lor _ _)) at 1. rewrite shiftr_land1 by lia.
    eapply runs_bind; [apply runs_set_cf|]. rewrite b2z_neq0. apply Hfin, D1.
Qed.
End shifts.

(** * Multiplication and division to and from EDX:EAX *)

Section wide.
Context {H : Type} `{HostOS H} `{FloatOps}.
Implicit Types s : machine H.

(** The 64-bit number in EDX:EAX. *)
Definition edx_eax s : Z := rget s REG_EDX * 0x100000000 + rget s REG_EAX.
(** EAX and EDX replaced. *)
Definition set_edx_eax (hi lo : Z) s : machine H := rset REG_EDX hi (rset REG_EAX lo s).

Lemma edx_eax_set hi lo s : wf s -> is_u32 hi -> is_u32 lo ->
  rget (set_edx_eax hi lo s) REG_EDX = hi /\ rget (set_edx_eax hi lo s) REG_EAX = lo /\
  forall r, 0 <= r < 8 -> r <> REG_EAX -> r <> REG_EDX -> rget (set_edx_eax hi lo s) r = rget s r.
Proof.
  intros Hs Hh Hl. unfold set_edx_eax. assert (wf (rset REG_EAX lo s)) as H1' by by apply wf_rset.
  split; [rewrite rget_rset_eq by (done || (unfold REG_EDX; lia)); by apply u32_small|].
  split.
  - rewrite rget_rset_ne, rget_rset_eq by (done || (unfold REG_EAX; lia)). by apply u32_small.
  - intros r Hr H2 H3. unfold REG_EAX, REG_EDX in *. by rewrite !rget_rset_ne by lia.
Qed.

Lemma land_low32 x : Z.land x 0xFFFFFFFF = u32 x.
Proof. change 0xFFFFFFFF with (Z.ones 32). by rewrite Z.land_ones. Qed.

(** C25: MUL r/m32 and IMUL r/m32 (one operand).  EDX:EAX receives the 64-bit product of EAX
    and the operand - of the unsigned values, or of the signed ones as a two's complement
    number - and nothing else changes but CF, which is set when EDX is not zero (for IMUL
    the architecture sets it when EDX is not the sign extension of EAX). *)
Theorem mul32_refines fuel (sgn : bool) o s :
  let rg := if sgn then 5 else 4 in
  wf s -> seg s = 0 -> cycles_ok 10 s -> operand_ok o -> code_at s (encode rg o) ->
  let s1 := advance (length (encode rg o)) s in
  exists hi lo, is_u32 hi /\ is_u32 lo /\
    (if sgn then s64 (hi * 0x100000000 + lo) = s32 (rget s1 REG_EAX) * s32 (rd_opd s1 o)
     else hi * 0x100000000 + lo = rget s1 REG_EAX * rd_opd s1 o) /\
    runs (execute_opcode fuel 0xF7) s tt
      (retire 10 (put_flag_st 0 (negb (hi =? 0)) (set_edx_eax hi lo s1))).
Proof.
  intros rg Hs Hg Hc Ho Hcode s1.
  destruct (decode_instruction s rg o) as (m & D & Hp);
    [done|done|unfold rg; destruct sgn; lia|done|done|]. fold s1 in D, Hp.
  pose proof (dc_wf _ _ _ _ D) as Hs1. pose proof (dc_opd_u32 _ _ _ _ D) as Hb.
  assert (is_u32 (rget s1 REG_EAX)) as Ha by (apply rget_u32; [done|unfold REG_EAX; lia]).
  set (a := rget s1 REG_EAX) in *. set (b := rd_opd s1 o) in *.
  set (p := if sgn then u64 (s32 a * s32 b) else a * b).
  assert (0 <= p < 0x10000000000000000) as Hpr.
  { unfold p, is_u32 in *. destruct sgn; [apply Z.mod_pos_bound; lia|nia]. }
  exists (p / 0x100000000), (p mod 0x100000000).
  assert (is_u32 (p / 0x100000000)) as Hhi
    by (unfold is_u32; Z.div_mod_to_equations; lia).
  assert (is_u32 (p mod 0x100000000)) as Hlo by apply u32_range.
  split; [done|]. split; [done|].
  assert (p / 0x100000000 * 0x100000000 + p mod 0x100000000 = p) as Ep
    by (pose proof (Z.div_mod p 0x100000000 ltac:(lia)); lia).
  split.
  { rewrite Ep. unfold p. destruct sgn; [|done].
    pose proof (s32_range a). pose proof (s32_range b). unfold s64, u64.
    assert (- 0x8000000000000000 <= s32 a * s32 b < 0x8000000000000000) by nia.
    revert H4. generalize (s32 a * s32 b). intros z Hz. Z.div_mod_to_equations. lia. }
  rewrite (execute_plain fuel 0xF7 H_f7_group) by done. cbn [call_plain]. unfold op_f7_group.
  eapply runs_bind; [exact Hp|]. rewrite (dc_reg _ _ _ _ D). unfold rg.
  assert (cycles_ok 10 s1) as Hc1 by exact Hc.
  assert (forall hi lo, wf (set_edx_eax hi lo s1)) as Hw
    by (intros; by apply wf_rset, wf_rset).
  destruct sgn; (eapply runs_bind; [apply runs_reg|]);
    (eapply runs_bind; [exact (dc_read _ _ _ _ D)|]); fold a b; cbv zeta;
    (eapply runs_bind; [apply runs_set_reg|]); (eapply runs_bind; [apply runs_set_reg|]);
    (eapply runs_bind; [apply runs_reg|]);
    rewrite land_low32, Z.shiftr_div_pow2 by lia; change (2 ^ 32) with 0x100000000.
  - replace (u32 (s32 a * s32 b)) with (p mod 0x100000000).
    2: { unfold p, u64, u32. symmetry. rewrite Z.mod_mod_divide; [done|]. by exists 0x100000000. }
    fold p. change (rset REG_EDX ?h (rset REG_EAX ?l s1)) with (set_edx_eax h l s1).
    rewrite (proj1 (edx_eax_set _ _ s1 Hs1 Hhi Hlo)).
    eapply runs_bind; [apply runs_set_cf|]. rewrite b2z_neq0.
    apply runs_retire; [apply wf_put_flag; [lia|lia|done|done]|lia|done].
  - replace (u64 (a * b)) with p by (symmetry; apply u64_small; exact Hpr).
    change (u32 p) with (p mod 0x100000000).
    change (rset REG_EDX ?h (rset REG_EAX ?l s1)) with (set_edx_eax h l s1).
    rewrite (proj1 (edx_eax_set _ _ s1 Hs1 Hhi Hlo)).
    eapply runs_bind; [apply runs_set_cf|]. rewrite b2z_neq0.
    apply runs_retire; [apply wf_put_flag; [lia|lia|done|done]|lia|done].
Qed.
Lemma edx_eax_lor s : wf s ->
  Z.lor (u64 (Z.shiftl (rget s REG_EDX) 32)) (rget s REG_EAX) = edx_eax s.
Proof.
  intros Hs. assert (is_u32 (rget s REG_EAX)) as Ha
    by (apply rget_u32; [done|unfold REG_EAX; lia]).
  assert (is_u32 (rget s REG_EDX)) as Hd by (apply rget_u32; [done|unfold REG_EDX; lia]).
  unfold edx_eax. generalize dependent (rget s REG_EAX). generalize dependent (rget s REG_EDX).
  intros d Hd a Ha. unfold is_u32 in Hd.
  rewrite Z.shiftl_mul_pow2, u64_small by (try (unfold is_u64; change (2 ^ 32) with 0x100000000; lia); lia).
  assert (Z.land (d * 2 ^ 32) a = 0) as Hl.
  { apply Z.bits_inj'. intros i Hi. rewrite Z.land_spec, Z.bits_0.
    rewrite <- Z.shiftl_mul_pow2 by lia. destruct (Z.lt_ge_cases i 32).
    - by rewrite Z.shiftl_spec_low.
    - rewrite (proj2 (proj1 (is_u32_bits a) Ha)) by lia. apply andb_false_r. }
  by rewrite <- Z.lxor_lor, <- Z.add_nocarry_lxor.
Qed.

(** C26: DIV r/m32 and IDIV r/m32.  For a non-zero operand, EDX:EAX (unsigned, or as a signed
    64-bit number) is divided, rounding towards zero: EAX receives the quotient modulo 2^32
    and EDX the remainder, and nothing else changes; the architecture raises an exception
    when the quotient does not fit.  The one signed quotient that does not fit 64 bits is
    undefined in C.  A zero divisor does not raise an exception either: IDIV halts the
    machine and DIV does nothing. *)
Theorem div32_refines fuel (sgn : bool) o s :
  let rg := if sgn then 7 else 6 in
  wf s -> seg s = 0 -> cycles_ok 20 s -> operand_ok o -> code_at s (encode rg o) ->
  let s1 := advance (length (encode rg o)) s in
  let n := if sgn then s64 (edx_eax s1) else edx_eax s1 in
  let d := if sgn then s32 (rd_opd s1 o) else rd_opd s1 o in
  if d =? 0 then
    runs (execute_opcode fuel 0xF7) s tt
      (if sgn then upd_cpu (upd_halted (fun _ => 1)) s1 else retire 20 s1)
  else if sgn && (n =? - 2 ^ 63) && (d =? -1) then
    execute_opcode fuel 0xF7 s = Undef UB_overflow
  else
    runs (execute_opcode fuel 0xF7) s tt
      (retire 20 (set_edx_eax (Z.rem n d) (Z.quot n d) s1)).
Proof.
  intros rg Hs Hg Hc Ho Hcode s1.
  destruct (decode_instruction s rg o) as (m & D & Hp);
    [done|done|unfold rg; destruct sgn; lia|done|done|]. fold s1 in D, Hp.
  pose proof (dc_wf _ _ _ _ D) as Hs1. pose proof (dc_opd_u32 _ _ _ _ D) as Hb.
  assert (cycles_ok 20 s1) as Hc1 by exact Hc.
  pose proof (edx_eax_lor s1 Hs1) as El.
  assert (0 <= edx_eax s1) as Hn.
  { rewrite <- El. apply Z.lor_nonneg. split; [apply u64_range|].
    apply (rget_u32 s1 REG_EAX Hs1). unfold REG_EAX. lia. }
  assert (forall hi lo, wf (set_edx_eax hi lo s1)) as Hw
    by (intros; by apply wf_rset, wf_rset).
  rewrite (execute_plain fuel 0xF7 H_f7_group) by done. cbn [call_plain]. unfold op_f7_group, runs.
  rewrite (bind_Ret _ _ _ _ _ Hp), (dc_reg _ _ _ _ D). clearbody s1.
  unfold is_u32 in Hb. unfold rg. destruct sgn; cbn [andb].
  - rewrite (bind_Ret _ _ _ _ _ (dc_read _ _ _ _ D)). cbv zeta.
    set (d := s32 (rd_opd s1 o)). destruct (d =? 0); [done|].
    rewrite (bind_Ret _ _ _ _ _ (runs_reg REG_EDX s1)).
    rewrite (bind_Ret _ _ _ _ _ (runs_reg REG_EAX s1)), El. cbv zeta.
    change (- 2 ^ 63) with (- 0x8000000000000000).
    destruct ((s64 (edx_eax s1) =? - 0x8000000000000000) && (d =? -1)); [done|].
    eapply runs_bind; [apply runs_set_reg|]. eapply runs_bind; [apply runs_set_reg|].
    apply runs_retire; [apply Hw|lia|done].
  - rewrite (bind_Ret _ _ _ _ _ (dc_read _ _ _ _ D)). set (d := rd_opd s1 o) in *.
    destruct (Z.eqb_spec d 0); [apply runs_retire; (done || lia)|].
    rewrite (bind_Ret _ _ _ _ _ (runs_reg REG_EDX s1)).
    rewrite (bind_Ret _ _ _ _ _ (runs_reg REG_EAX s1)), El. cbv zeta.
    rewrite Z.quot_div_nonneg, Z.rem_mod_nonneg by lia.
    eapply runs_bind; [apply runs_set_reg|]. eapply runs_bind; [apply runs_set_reg|].
    apply runs_retire; [apply Hw|lia|done].
Qed.
End wide.

(** SAR EAX, 4 of a negative number, and a shift by CL. *)
Lemma shift32_refines_witness :
  let s := toy_machine [0xFFFFFF80; 0; 0; 0; 0; 0; 0; 0] 0x1000
             [(0x1000, encode 7 (OReg 0) ++ [4])] in
  let s' := shift_step SAR (OReg 0) 4 (advance 2 s) in
  runs (execute_opcode 0 0xC1) s tt s' /\ rget s' REG_EAX = 0xFFFFFFF8.
Proof.
  intros s s'. split; [|vm_compute; reflexivity].
  apply (shift32_refines 0 0xC1 SAR 7 (OReg 0) [4] 4 s).
  - unfold shift_forms. rewrite !elem_of_cons. do 3 right. by left.
  - left. split; [done|]. by exists 4.
  - by apply wf_toy.
  - done.
  - done.
  - unfold operand_ok. lia.
  - by split.
Defined.

(** ROL EAX, 8, and the undefined ROL EAX, 32. *)
Lemma rotate32_refines_witness :
  let s k := toy_machine [0x12345678; 0; 0; 0; 0; 0; 0; 0] 0x1000
               [(0x1000, encode 0 (OReg 0) ++ [k])] in
  (exists s', runs (execute_opcode 0 0xC1) (s 8) tt s') /\
  execute_opcode 0 0xC1 (s 32) = Undef UB_shift.
Proof.
  intros s. split.
  - destruct (rotate32_refines 0 0xC1 false (OReg 0) [8] 8 (s 8)) as (r & _ & _ & R).
    + left. split; [done|]. by exists 8.
    + by apply wf_toy.
    + done.
    + done.
    + unfold operand_ok. lia.
    + by split.
    + eexists. exact R.
  - apply (rotate32_refines 0 0xC1 false (OReg 0) [32] 0 (s 32)).
    + left. split; [done|]. by exists 32.
    + by apply wf_toy.
    + done.
    + done.
    + unfold operand_ok. lia.
    + by split.
Defined.

(** MUL ECX: 0x80000000 * 6. *)
Lemma mul32_refines_witness :
  let s := toy_machine [0x80000000; 6; 0; 0; 0; 0; 0; 0] 0x1000
             [(0x1000, encode 4 (OReg 1))] in
  exists hi lo, hi * 0x100000000 + lo = 0x300000000 /\
    runs (execute_opcode 0 0xF7) s tt
      (retire 10 (put_flag_st 0 (negb (hi =? 0)) (set_edx_eax hi lo (advance 1 s)))).
Proof.
  intros s. destruct (mul32_refines 0 false (OReg 1) s) as (hi & lo & _ & _ & E & R).
  - by apply wf_toy.
  - done.
  - done.
  - unfold operand_ok. lia.
  - by split.
  - exists hi, lo. split; [exact E|exact R].
Defined.

(** IDIV ECX: -7 / 2. *)
Lemma div32_refines_witness :
  let s := toy_machine [0xFFFFFFF9; 2; 0xFFFFFFFF; 0; 0; 0; 0; 0] 0x1000
             [(0x1000, encode 7 (OReg 1))] in
  runs (execute_opcode 0 0xF7) s tt (retire 20 (set_edx_eax (-1) (-3) (advance 1 s))).
Proof.
  intros s. apply (div32_refines 0 true (OReg 1) s).
  - by apply wf_toy.
  - done.
  - done.
  - unfold operand_ok. lia.
  - by split.
Defined.
