(* ===== verification/Load.v ===== *)
(** The loader: what [load_elf] puts in memory.  Segments are the file's bytes followed by
    zeros; the initial stack is the block of words the i386 ABI prescribes, with the argument
    strings above it. *)
From S2P Require Import Prelude CInt Machine Logic Loops Mem Backend Toy Loader Exec Files.

Section segments.
Context {H : Type}.
Implicit Types s : machine H.

(** A run of bytes put in memory. *)
Definition stored (off : Z) (bs : list Z) s : machine H :=
  upd_mem (upd_bytes (store_bytes off bs)) s.

Lemma stored_app off bs cs s :
  stored off (bs ++ cs) s = stored (off + Z.of_nat (length bs)) cs (stored off bs s).
Proof.
  destruct s as [c [b z e] o k h]. unfold stored, upd_mem, upd_bytes. simpl.
  by rewrite store_bytes_app.
Qed.

Lemma stored_nil off s : stored off [] s = s.
Proof. by destruct s as [c [] o k h]. Qed.

Lemma size_stored off bs s : g_size (mem (stored off bs s)) = g_size (mem s).
Proof. done. Qed.

Lemma byte_stored off bs s a : byte_at (mem (stored off bs s)) a =
  if (off <=? a) && (a <? off + Z.of_nat (length bs))
  then default 0 (bs !! Z.to_nat (a - off)) else byte_at (mem s) a.
Proof. apply byte_at_store. Qed.

(** ** Zeroing *)

Lemma runs_zero_segment s vaddr memsz : 0 <= vaddr -> 0 <= memsz ->
  vaddr + memsz <= g_size (mem s) -> g_size (mem s) < 0x100000000 ->
  runs (zero_segment vaddr memsz) s tt (stored vaddr (replicate (Z.to_nat memsz) 0) s).
Proof.
  intros Hv Hm Hr Hz. rewrite <- (stored_nil vaddr s) at 1.
  change [] with (replicate 0 0). unfold zero_segment.
  change (c_loop (zero_body vaddr memsz) 0) with
    (c_loop (H:=H) (zero_body vaddr memsz) (Z.of_nat 0)).
  apply (c_loop_runs _ Z.of_nat (fun k => stored vaddr (replicate k 0) s) (Z.to_nat memsz)).
  - intros k Hk. unfold zero_body. btest (Z.of_nat k <? memsz).
    rewrite (u32_small (vaddr + Z.of_nat k)) by (unfold is_u32; lia).
    eapply runs_bind; [apply runs_mem_write8; lia|].
    eapply runs_eq; [apply runs_ret| |].
    + rewrite (u32_small (Z.of_nat k + 1)) by (unfold is_u32; lia). f_equal. lia.
    + rewrite replicate_S_end, stored_app, length_replicate. unfold stored, upd_mem.
      cbn [cpu mem og kern host]. f_equal. unfold wr8, wr_bytes, in_range.
      cbn [g_size upd_bytes length le_bytes]. by bif.
  - unfold zero_body. rewrite Z2Nat.id by lia. btest (memsz <? memsz). apply runs_ret.
  - change (2 ^ 33) with 8589934592. lia.
Qed.

(** ** Copying *)

Lemma runs_mem_copy_in s a bs : 0 <= a -> a + Z.of_nat (length bs) <= g_size (mem s) ->
  Forall is_u8 bs -> runs (mem_copy_in a bs) s tt (stored a bs s).
Proof.
  intros Ha Hr Hb. unfold mem_copy_in. eapply runs_bind; [apply runs_check_bounds|].
  unfold in_range. btest (a + Z.of_nat (length bs) <=? g_size (mem s)).
  eapply runs_eq; [by apply runs_host_store_bytes|done|]. by rewrite fmap_u8_id.
Qed.

(** The bytes of a file from an offset. *)
Definition file_bytes (c : list Z) (off n : Z) : list Z :=
  take (Z.to_nat n) (drop (Z.to_nat off) c).

Lemma file_bytes_length c off n : 0 <= off -> 0 <= n ->
  off + n <= Z.of_nat (length c) -> Z.of_nat (length (file_bytes c off n)) = n.
Proof. intros. unfold file_bytes. rewrite length_take, length_drop. lia. Qed.

Lemma file_bytes_split c off m n : 0 <= off -> 0 <= m -> 0 <= n ->
  file_bytes c off (m + n) = file_bytes c off m ++ file_bytes c (off + m) n.
Proof.
  intros. unfold file_bytes. rewrite !Z2Nat.inj_add by lia.
  by rewrite <- drop_drop, take_take_drop.
Qed.

(** Bytes copied after [k] chunks. *)
Definition copied (filesz : Z) (k : nat) : Z := Z.min filesz (CHUNK * Z.of_nat k).

(** One chunk. *)
Lemma runs_copy_body s c off filesz vaddr d :
  let t := Z.min (filesz - d) CHUNK in
  0 <= off -> 0 <= d < filesz -> off + d + t <= Z.of_nat (length c) -> Forall is_u8 c ->
  0 <= vaddr -> vaddr + filesz <= g_size (mem s) -> g_size (mem s) < 0x100000000 ->
  runs (copy_body (mk_file c (off + d), filesz - d, vaddr + d))
    (stored vaddr (file_bytes c off d) s)
    (inl (mk_file c (off + (d + t)), filesz - (d + t), vaddr + (d + t)))
    (stored vaddr (file_bytes c off (d + t)) s).
Proof.
  intros t Ho Hd Hc Hb Hv Hr Hz. assert (0 < t) as Ht by (unfold t, CHUNK; lia).
  assert (d + t <= filesz) as He by (unfold t; lia).
  assert ((if filesz - d <? CHUNK then filesz - d else CHUNK) = t) as Et
    by (unfold t; destruct (Z.ltb_spec (filesz - d) CHUNK); lia).
  unfold copy_body. btest (0 <? filesz - d). rewrite Et. unfold fread.
  cbn [pos contents]. btest (off + d + t <=? Z.of_nat (length c)).
  fold (file_bytes c (off + d) t).
  eapply runs_bind; [apply runs_mem_copy_in|].
  - lia.
  - rewrite size_stored, file_bytes_length by lia. lia.
  - by apply Forall_take, Forall_drop.
  - rewrite (u32_small (filesz - d - t)), (u32_small (vaddr + d + t)) by (unfold is_u32; lia).
    rewrite file_bytes_split, stored_app, file_bytes_length by lia.
    eapply runs_eq; [apply runs_ret|by rewrite !Z.add_assoc, Z.sub_add_distr|done].
Qed.

Lemma runs_copy_segment s c off filesz vaddr :
  0 <= off -> 0 <= filesz -> off + filesz <= Z.of_nat (length c) -> Forall is_u8 c ->
  0 <= vaddr -> vaddr + filesz <= g_size (mem s) -> g_size (mem s) < 0x100000000 ->
  runs (copy_segment (mk_file c off) filesz vaddr) s (Some (mk_file c (off + filesz)))
    (stored vaddr (file_bytes c off filesz) s).
Proof.
  intros Ho Hf Hc Hb Hv Hr Hz. unfold copy_segment.
  set (st k := stored vaddr (file_bytes c off (copied filesz k)) s).
  set (a k := (mk_file c (off + copied filesz k), filesz - copied filesz k,
               vaddr + copied filesz k)).
  set (n := Z.to_nat ((filesz + 4095) / 4096)).
  assert (copied filesz n = filesz) as En
    by (unfold copied, n, CHUNK; Z.div_mod_to_equations; lia).
  assert (copied filesz 0 = 0) as E0 by (unfold copied, CHUNK; lia).
  assert (runs (c_loop copy_body (a 0%nat)) (st 0%nat) (Some (mk_file c (off + filesz)))
            (st n)) as Hloop.
  { apply (c_loop_runs _ a st n).
    - intros k Hk. unfold a, st.
      replace (copied filesz (S k)) with
        (copied filesz k + Z.min (filesz - copied filesz k) CHUNK)
        by (unfold copied, n, CHUNK in *; lia).
      apply runs_copy_body; try done; unfold copied, n, CHUNK in *; Z.div_mod_to_equations; lia.
    - unfold a, st. rewrite En. unfold copy_body. btest (0 <? filesz - filesz). apply runs_ret.
    - unfold n. change (2 ^ 33) with 8589934592. Z.div_mod_to_equations. lia. }
  unfold a, st in Hloop. rewrite En, E0, Z.add_0_r, Z.sub_0_r, Z.add_0_r in Hloop.
  change (file_bytes c off 0) with (@nil Z) in Hloop. by rewrite stored_nil in Hloop.
Qed.

(** A file that ends before its segment does. *)
Lemma runs_copy_short s c off filesz vaddr :
  0 <= off -> 0 < filesz -> Z.of_nat (length c) < off + filesz -> Forall is_u8 c ->
  0 <= vaddr -> vaddr + filesz <= g_size (mem s) -> g_size (mem s) < 0x100000000 ->
  exists bs, runs (copy_segment (mk_file c off) filesz vaddr) s None (stored vaddr bs s).
Proof.
  intros Ho Hf Hc Hb Hv Hr Hz. unfold copy_segment.
  set (n := Z.to_nat (Z.min ((Z.of_nat (length c) - off) / 4096) (filesz / 4096))).
  assert (0 < filesz - 4096 * Z.of_nat n) as Hrem by (unfold n; Z.div_mod_to_equations; lia).
  assert (Z.of_nat (length c) < off + 4096 * Z.of_nat n +
    (if filesz - 4096 * Z.of_nat n <? CHUNK then filesz - 4096 * Z.of_nat n else CHUNK)) as Hend.
  { unfold n, CHUNK in *.
    match goal with |- context [?x <? 4096] => destruct (Z.ltb_spec x 4096) end;
      Z.div_mod_to_equations; lia. }
  assert (n = 0%nat \/ off + 4096 * Z.of_nat n <= Z.of_nat (length c)) as Hn
    by (unfold n; Z.div_mod_to_equations; lia).
  exists (file_bytes c off (4096 * Z.of_nat n)).
  pose proof (stored_nil vaddr s) as E0. change [] with (file_bytes c off 0) in E0.
  rewrite <- E0 at 1. clear E0.
  replace (mk_file c off, filesz, vaddr) with
    (mk_file c (off + 4096 * Z.of_nat 0), filesz - 4096 * Z.of_nat 0, vaddr + 4096 * Z.of_nat 0)
    by (rewrite Z.mul_0_r, !Z.add_0_r, Z.sub_0_r; done).
  change 0 with (4096 * Z.of_nat 0) at 1.
  apply (c_loop_runs copy_body
    (fun k => (mk_file c (off + 4096 * Z.of_nat k), filesz - 4096 * Z.of_nat k,
               vaddr + 4096 * Z.of_nat k))
    (fun k => stored vaddr (file_bytes c off (4096 * Z.of_nat k)) s) n).
  - intros k Hk. assert (4096 = Z.min (filesz - 4096 * Z.of_nat k) CHUNK) as Et
      by (unfold CHUNK; lia).
    replace (4096 * Z.of_nat (S k)) with
      (4096 * Z.of_nat k + Z.min (filesz - 4096 * Z.of_nat k) CHUNK) by lia.
    apply runs_copy_body; try done; rewrite <- ?Et; lia.
  - unfold copy_body. btest (0 <? filesz - 4096 * Z.of_nat n). unfold fread. cbn [pos contents].
    match goal with |- context [?x <=? Z.of_nat (length c)] =>
      replace (x <=? Z.of_nat (length c)) with false by lia end.
    apply runs_ret.
  - change (2 ^ 33) with 8589934592. unfold n. Z.div_mod_to_equations. lia.
Qed.
End segments.

(** * One program header *)

Section load_segment.
Context {H : Type}.
Implicit Types s : machine H.

(** The bytes of a loadable segment: what the file has of it, then zeros. *)
Definition segment_bytes (c : list Z) (p : Elf32_Phdr) : list Z :=
  file_bytes c (p_offset p) (p_filesz p) ++
  replicate (Z.to_nat (p_memsz p - p_filesz p)) 0.

(** Program header [i] of a file. *)
Definition phdr_at (c : list Z) (e : Elf32_Ehdr) (i : Z) : Elf32_Phdr :=
  phdr_of_bytes (file_bytes c (u32 (e_phoff e + u32 (i * e_phentsize e))) SIZEOF_PHDR).

(** Storing over a block that was just stored. *)
Lemma stored_over off bs cs s : (length bs <= length cs)%nat ->
  stored off bs (stored off cs s) = stored off (bs ++ drop (length bs) cs) s.
Proof.
  intros Hl. destruct s as [cp [b z e] o k h]. unfold stored, upd_mem, upd_bytes. simpl.
  do 2 f_equal. apply map_eq. intros a. rewrite !store_bytes_lookup, length_app, length_drop.
  replace (length bs + (length cs - length bs))%nat with (length cs) by lia.
  destruct (decide (off <= a < off + Z.of_nat (length bs))) as [Ha|Ha].
  - replace ((off <=? a) && (a <? off + Z.of_nat (length bs))) with true by lia.
    replace ((off <=? a) && (a <? off + Z.of_nat (length cs))) with true by lia. by rewrite lookup_app_l by lia.
  - replace ((off <=? a) && (a <? off + Z.of_nat (length bs))) with false by lia.
    destruct (_ && _) eqn:E; [|done].
    rewrite lookup_app_r, lookup_drop by lia. f_equal. lia.
Qed.

(** A program header that can be read and whose segment the file can fill. *)
Record phdr_ok (c : list Z) (e : Elf32_Ehdr) (i size : Z) : Prop := {
  po_entry : u32 (e_phoff e + u32 (i * e_phentsize e)) + SIZEOF_PHDR <= Z.of_nat (length c);
  po_filesz : p_filesz (phdr_at c e i) <= p_memsz (phdr_at c e i);
  po_file : p_offset (phdr_at c e i) + p_filesz (phdr_at c e i) <= Z.of_nat (length c);
  po_mem : p_vaddr (phdr_at c e i) + p_memsz (phdr_at c e i) <= size
}.

Lemma field_range bs off n : Forall is_u8 bs -> 0 <= field bs off n < 2 ^ (8 * Z.of_nat n).
Proof.
  intros Hb. unfold field. assert (Forall is_u8 (take n (drop off bs))) as Hf
    by by apply Forall_take, Forall_drop.
  pose proof (le_value_range _ Hf) as Hr. split; [apply Hr|].
  eapply Z.lt_le_trans; [apply Hr|]. apply Z.pow_le_mono_r; [lia|]. rewrite length_take. lia.
Qed.

Lemma phdr_range c e i : Forall is_u8 c ->
  0 <= p_vaddr (phdr_at c e i) /\ 0 <= p_memsz (phdr_at c e i) /\
  0 <= p_filesz (phdr_at c e i) /\ 0 <= p_offset (phdr_at c e i).
Proof.
  intros Hc. assert (Forall is_u8 (file_bytes c (u32 (e_phoff e + u32 (i * e_phentsize e)))
    SIZEOF_PHDR)) as Hf by by apply Forall_take, Forall_drop.
  unfold phdr_at, phdr_of_bytes. cbn [p_vaddr p_memsz p_filesz p_offset].
  repeat split; apply field_range; done.
Qed.

(** The state of the loop after a segment was loaded, or skipped. *)
Definition after_segment (p : Elf32_Phdr) (st : seg_state) : seg_state -> Prop := fun st' =>
  contents (sg_file st') = contents (sg_file st) /\
  sg_load_end st' = (if sg_load_end st <? u32 (p_vaddr p + p_memsz p)
                     then u32 (p_vaddr p + p_memsz p) else sg_load_end st) /\
  sg_load_addr st' = (if sg_first st then p_vaddr p else sg_load_addr st) /\
  sg_first st' = false.

Lemma runs_load_segment s e i st : wf s ->
  let c := contents (sg_file st) in let p := phdr_at c e i in
  Forall is_u8 c -> p_type p = PT_LOAD -> p_memsz p <> 0 -> phdr_ok c e i (g_size (mem s)) ->
  exists st', after_segment p st st' /\
    runs (load_segment e i st) s (Some st') (stored (p_vaddr p) (segment_bytes c p) s).
Proof.
  intros Hs c p Hc Ht Hm [Pe Pf Pl Pm]. fold p in Pf, Pl, Pm.
  pose proof (wf_size _ (wf_m_mem _ Hs)) as Hz.
  destruct (phdr_range c e i Hc) as (Rv & Rm & Rf & Ro). fold p in Rv, Rm, Rf, Ro.
  set (off := u32 (e_phoff e + u32 (i * e_phentsize e))) in *.
  assert (0 <= off) as Hoff by apply u32_range.
  assert (fread (mk_file c off) SIZEOF_PHDR =
    Some (file_bytes c off SIZEOF_PHDR, mk_file c (off + SIZEOF_PHDR))) as Er.
  { unfold fread. cbn [pos contents]. by bif. }
  set (z := stored (p_vaddr p) (replicate (Z.to_nat (p_memsz p)) 0) s).
  pose proof (runs_zero_segment s (p_vaddr p) (p_memsz p) Rv Rm Pm ltac:(lia)) as Rz. fold z in Rz.
  assert (stored (p_vaddr p) (file_bytes c (p_offset p) (p_filesz p)) z =
          stored (p_vaddr p) (segment_bytes c p) s) as Ez.
  { pose proof (file_bytes_length c (p_offset p) (p_filesz p) Ro Rf Pl) as El.
    unfold z, segment_bytes. rewrite stored_over by (rewrite length_replicate; lia).
    do 2 f_equal. rewrite drop_replicate. f_equal. lia. }
  set (f' := if 0 <? p_filesz p then mk_file c (p_offset p + p_filesz p)
             else mk_file c (off + SIZEOF_PHDR)).
  eexists (mk_seg f' _ _ false). split.
  { split; [unfold f'; by destruct (_ <? _)|]. by split. }
  unfold load_segment. fold off. unfold fseek at 1. btest (off <? 0). fold c. rewrite Er.
  cbv zeta. change (phdr_of_bytes (file_bytes c off SIZEOF_PHDR)) with p.
  rewrite Ht. change (negb (PT_LOAD =? PT_LOAD)) with false. cbv iota.
  btest (p_memsz p =? 0). eapply runs_bind; [apply runs_mem_size|].
  btest (g_size (mem s) <? p_vaddr p + p_memsz p). eapply runs_bind; [exact Rz|].
  eapply (runs_bind _ _ _ (Some f') (stored (p_vaddr p) (segment_bytes c p) s)).
  - rewrite <- Ez. unfold f'. destruct (Z.ltb_spec 0 (p_filesz p)).
    + unfold fseek. btest (p_offset p <? 0). apply runs_copy_segment; try done;
        change (g_size (mem z)) with (g_size (mem s)); lia.
    + replace (p_filesz p) with 0 by lia. change (file_bytes c (p_offset p) 0) with (@nil Z).
      rewrite stored_nil. apply runs_ret.
  - apply runs_ret.
Qed.
(** ** All program headers *)

Definition loadable (p : Elf32_Phdr) : Prop := p_type p = PT_LOAD /\ p_memsz p <> 0.
#[export] Instance loadable_dec p : Decision (loadable p).
Proof. unfold loadable. apply _. Defined.

(** The segments put in memory in the order of their headers. *)
Definition image (c : list Z) (ps : list Elf32_Phdr) s : machine H :=
  foldl (fun s p => stored (p_vaddr p) (segment_bytes c p) s) s ps.
(** The highest end of a segment, and the address of the first one. *)
Definition image_end (ps : list Elf32_Phdr) (m : Z) : Z :=
  foldl (fun m p => Z.max m (p_vaddr p + p_memsz p)) m ps.
Definition image_start (ps : list Elf32_Phdr) : Z := from_option p_vaddr 0 (head ps).

(** The loadable headers among the [n] from index [i] on. *)
Fixpoint segments (c : list Z) (e : Elf32_Ehdr) (n : nat) (i : Z) : list Elf32_Phdr :=
  match n with
  | O => []
  | S n => let p := phdr_at c e i in
           if decide (loadable p) then p :: segments c e n (i + 1) else segments c e n (i + 1)
  end.

(** Header [i] can be read, and its segment loaded when it is loadable. *)
Definition header_ok (c : list Z) (e : Elf32_Ehdr) (size i : Z) : Prop :=
  u32 (e_phoff e + u32 (i * e_phentsize e)) + SIZEOF_PHDR <= Z.of_nat (length c) /\
  (loadable (phdr_at c e i) -> phdr_ok c e i size).

Lemma runs_skip_segment s e i st :
  let c := contents (sg_file st) in
  u32 (e_phoff e + u32 (i * e_phentsize e)) + SIZEOF_PHDR <= Z.of_nat (length c) ->
  ~ loadable (phdr_at c e i) ->
  exists f, contents f = c /\
    runs (load_segment e i st) s
      (Some (mk_seg f (sg_load_end st) (sg_load_addr st) (sg_first st))) s.
Proof.
  intros c Pe Hn. set (off := u32 (e_phoff e + u32 (i * e_phentsize e))) in *.
  assert (0 <= off) as Hoff by apply u32_range.
  exists (mk_file c (off + SIZEOF_PHDR)). split; [done|].
  unfold load_segment. fold off. unfold fseek at 1. btest (off <? 0). fold c.
  unfold fread. cbn [pos contents]. btest (off + SIZEOF_PHDR <=? Z.of_nat (length c)). cbv zeta.
  change (phdr_of_bytes _) with (phdr_at c e i).
  destruct (Z.eqb_spec (p_type (phdr_at c e i)) PT_LOAD) as [Et|_]; cbn [negb]; [|apply runs_ret].
  destruct (Z.eqb_spec (p_memsz (phdr_at c e i)) 0) as [_|Em]; [apply runs_ret|].
  by destruct Hn.
Qed.

Lemma wf_stored off bs s : wf s -> 0 <= off -> off + Z.of_nat (length bs) <= g_size (mem s) ->
  Forall is_u8 bs -> wf (stored off bs s).
Proof. intros [Wc Wm Wo Wk] H0 Hl Hb. constructor; try done. by apply wf_store_bytes. Qed.

Lemma segment_bytes_u8 c p : Forall is_u8 c -> Forall is_u8 (segment_bytes c p).
Proof.
  intros Hc. apply Forall_app_2; [by apply Forall_take, Forall_drop|by apply Forall_replicate].
Qed.

Lemma segment_bytes_length c p : 0 <= p_offset p -> 0 <= p_filesz p -> p_filesz p <= p_memsz p ->
  p_offset p + p_filesz p <= Z.of_nat (length c) ->
  Z.of_nat (length (segment_bytes c p)) = p_memsz p.
Proof.
  intros. unfold segment_bytes. rewrite length_app, length_replicate, Nat2Z.inj_add.
  rewrite file_bytes_length by done. lia.
Qed.

Lemma runs_load_segments n s e i st : wf s ->
  let c := contents (sg_file st) in Forall is_u8 c ->
  (forall j, i <= j < i + Z.of_nat n -> header_ok c e (g_size (mem s)) j) ->
  exists st', runs (load_segments n e i st) s (Some st') (image c (segments c e n i) s) /\
    wf (image c (segments c e n i) s) /\
    sg_load_end st' = image_end (segments c e n i) (sg_load_end st) /\
    sg_load_addr st' = (if sg_first st then from_option p_vaddr (sg_load_addr st)
                                             (head (segments c e n i))
                        else sg_load_addr st).
Proof.
  revert s i st. induction n as [|n IH]; intros s i st Hs c Hc Hok.
  { exists st. split; [apply runs_ret|]. split; [done|]. split; [done|]. by destruct (sg_first st). }
  destruct (Hok i) as [Pe Po]; [lia|]. cbn [load_segments segments].
  destruct (decide (loadable (phdr_at c e i))) as [Hl|Hl].
  - specialize (Po Hl). destruct Hl as [Ht Hm]. set (p := phdr_at c e i) in *.
    destruct (runs_load_segment s e i st Hs Hc Ht Hm Po) as (st1 & (Ec & Ee & Ea & Ef) & R1).
    fold c p in Ec, Ee, Ea, R1. set (s1 := stored (p_vaddr p) (segment_bytes c p) s) in *.
    destruct (phdr_range c e i Hc) as (Rv & Rm & Rf & Ro). destruct Po as [_ Pf Pl Pm].
    fold p in Rv, Rm, Rf, Ro, Pf, Pl, Pm. pose proof (wf_size _ (wf_m_mem _ Hs)) as Hz.
    assert (wf s1) as Hs1.
    { apply wf_stored; [done|done| |by apply segment_bytes_u8].
      by rewrite segment_bytes_length by done. }
    destruct (IH s1 (i + 1) st1 Hs1) as (st' & R & W & E1 & E2).
    + by rewrite Ec.
    + intros j Hj. rewrite Ec. apply Hok. lia.
    + rewrite Ec in R, W, E1, E2. exists st'. split; [by eapply runs_bind|]. split; [done|].
      rewrite E1, E2, Ef, Ea, Ee, u32_small by (unfold is_u32; lia). split; [|by destruct (sg_first st)].
      change (image_end (p :: ?ps) ?m) with (image_end ps (Z.max m (p_vaddr p + p_memsz p))).
      f_equal. destruct (Z.ltb_spec (sg_load_end st) (p_vaddr p + p_memsz p)); lia.
  - destruct (runs_skip_segment s e i st Pe Hl) as (f & Ef & R1). fold c in Ef.
    destruct (IH s (i + 1) (mk_seg f (sg_load_end st) (sg_load_addr st) (sg_first st)) Hs)
      as (st' & R & W & E1 & E2).
    + cbn [sg_file]. by rewrite Ef.
    + intros j Hj. cbn [sg_file]. rewrite Ef. apply Hok. lia.
    + cbn [sg_file sg_load_end sg_load_addr sg_first] in *. rewrite Ef in R, W, E1, E2.
      exists st'. split; [by eapply runs_bind|]. by split.
Qed.
(** A header whose segment has the length it announces. *)
Definition full_segment (c : list Z) (p : Elf32_Phdr) : Prop :=
  Z.of_nat (length (segment_bytes c p)) = p_memsz p.

Lemma segments_full c e size n i : Forall is_u8 c ->
  (forall j, i <= j < i + Z.of_nat n -> header_ok c e size j) ->
  Forall (full_segment c) (segments c e n i).
Proof.
  intros Hc. revert i. induction n as [|n IH]; intros i Hok; cbn [segments]; [done|].
  assert (Forall (full_segment c) (segments c e n (i + 1))) as Hr
    by (apply IH; intros j ?; apply Hok; lia).
  destruct (decide (loadable (phdr_at c e i))) as [Hl|]; [|done].
  constructor; [|done]. destruct (Hok i) as [_ Po]; [lia|]. destruct (Po Hl) as [_ Pf Pl _].
  destruct (phdr_range c e i Hc) as (_ & _ & Rf & Ro). by apply segment_bytes_length.
Qed.

Lemma image_other c ps s a : Forall (full_segment c) ps ->
  (forall p, p ∈ ps -> a < p_vaddr p \/ p_vaddr p + p_memsz p <= a) ->
  byte_at (mem (image c ps s)) a = byte_at (mem s) a.
Proof.
  intros Hf. revert s. induction Hf as [|p ps Hp _ IH]; intros s Ha; [done|].
  change (image c (p :: ps) s) with (image c ps (stored (p_vaddr p) (segment_bytes c p) s)).
  rewrite IH by (intros q Hq; apply Ha; by apply elem_of_cons; right).
  specialize (Ha p ltac:(apply elem_of_cons; by left)). rewrite byte_stored, Hp. by bif.
Qed.

Lemma image_frame c ps s : cpu (image c ps s) = cpu s /\ og (image c ps s) = og s /\
  kern (image c ps s) = kern s /\ g_size (mem (image c ps s)) = g_size (mem s).
Proof.
  revert s. induction ps as [|q ps IH]; intros s; [done|].
  apply (IH (stored (p_vaddr q) (segment_bytes c q) s)).
Qed.

Lemma image_host c ps s : host (image c ps s) = host s.
Proof.
  revert s. induction ps as [|q ps IH]; intros s; [done|].
  apply (IH (stored (p_vaddr q) (segment_bytes c q) s)).
Qed.

(** No two of the blocks share a byte. *)
Definition disjoint_segments (ps : list Elf32_Phdr) : Prop :=
  ForallOrdPairs (fun p q => p_vaddr p + p_memsz p <= p_vaddr q \/
                             p_vaddr q + p_memsz q <= p_vaddr p) ps.

Lemma image_segment c ps s p : Forall (full_segment c) ps -> disjoint_segments ps -> p ∈ ps ->
  load_bytes (mem (image c ps s)) (p_vaddr p) (length (segment_bytes c p)) = segment_bytes c p.
Proof.
  intros Hf Hd. revert s. induction Hd as [|q ps Hq _ IH]; intros s Hp;
    [by apply elem_of_nil in Hp|].
  apply Forall_cons_1 in Hf as [Hfq Hf].
  change (image c (q :: ps) s) with (image c ps (stored (p_vaddr q) (segment_bytes c q) s)).
  apply elem_of_cons in Hp as [->|Hp]; [|by apply IH].
  etrans; [|apply (load_store_same (p_vaddr q) (segment_bytes c q) (mem s))].
  apply load_bytes_ext. intros x Hx. rewrite Hfq in Hx. apply image_other; [done|].
  intros r Hr. rewrite List.Forall_forall in Hq. apply list_elem_of_In in Hr.
  specialize (Hq r Hr). cbv beta in Hq. lia.
Qed.

(** The loader's copy of the executable.  When every program header can be read and every
    loadable segment lies inside the file and inside guest memory, the loop over the headers
    succeeds; no byte outside the loadable segments changes; if the segments do not overlap
    each holds its bytes of the file followed by zeros up to its size in memory; and the loop
    ends with the highest end of a segment and the address of the first one. *)
Theorem load_segments_image s e f :
  wf s -> let c := contents f in Forall is_u8 c ->
  (forall i, 0 <= i < e_phnum e -> header_ok c e (g_size (mem s)) i) ->
  let n := Z.to_nat (e_phnum e) in let ps := segments c e n 0 in
  exists st s', runs (load_segments n e 0 (mk_seg f 0 0 true)) s (Some st) s' /\
    wf s' /\ sg_load_end st = image_end ps 0 /\ sg_load_addr st = image_start ps /\
    cpu s' = cpu s /\ og s' = og s /\ kern s' = kern s /\ g_size (mem s') = g_size (mem s) /\
    (forall a, (forall p, p ∈ ps -> a < p_vaddr p \/ p_vaddr p + p_memsz p <= a) ->
       byte_at (mem s') a = byte_at (mem s) a) /\
    (disjoint_segments ps -> forall p, p ∈ ps ->
       load_bytes (mem s') (p_vaddr p) (Z.to_nat (p_memsz p)) = segment_bytes c p).
Proof.
  intros Hs c Hc Hok n ps.
  assert (forall j, 0 <= j < 0 + Z.of_nat n -> header_ok c e (g_size (mem s)) j) as Hok'
    by (intros j Hj; apply Hok; lia).
  destruct (runs_load_segments n s e 0 (mk_seg f 0 0 true) Hs Hc Hok') as (st & R & W & E1 & E2).
  pose proof (segments_full c e (g_size (mem s)) n 0 Hc Hok') as Hf.
  change (segments (contents (sg_file (mk_seg f 0 0 true))) e n 0) with ps in *.
  fold ps in Hf.
  destruct (image_frame c ps s) as (F1 & F2 & F3 & F4).
  exists st, (image c ps s). split; [exact R|]. split; [exact W|].
  split; [exact E1|]. split; [exact E2|]. do 4 (split; [done|]). split.
  - intros a Ha. by apply image_other.
  - intros Hd p Hp. assert (full_segment c p) as Hfp by (rewrite List.Forall_forall in Hf; apply Hf; by apply list_elem_of_In).
    rewrite <- Hfp, Nat2Z.id. by apply image_segment.
Qed.
End load_segment.

(** The segment of the small executable: its 37 bytes, then four zeros. *)
Lemma load_segments_image_witness :
  let s := toy_machine (replicate 8 0) 0 [(0x1FF0, replicate 0x100 0xAA)] in
  let e := ehdr_of_bytes (take 52 hello_elf) in
  exists st s', runs (load_segments 1 e 0 (mk_seg (mk_file hello_elf 52) 0 0 true)) s
                  (Some st) s' /\
    sg_load_end st = 0x2029 /\ sg_load_addr st = 0x2000 /\
    load_bytes (mem s') 0x2000 41 = hello_code ++ [0; 0; 0; 0] /\
    byte_at (mem s') 0x1FFF = 0xAA /\ byte_at (mem s') 0x2029 = 0xAA.
Proof.
  intros s e.
  assert (wf s) as Hs by (apply wf_toy; vm_compute; reflexivity).
  assert (forall i, 0 <= i < e_phnum e -> header_ok hello_elf e (g_size (mem s)) i) as Hok.
  { change (e_phnum e) with 1. intros i Hi. replace i with 0 by lia.
    assert (file_ok : u32 (e_phoff e + u32 (0 * e_phentsize e)) + SIZEOF_PHDR
      <= Z.of_nat (length hello_elf)) by (vm_compute; discriminate).
    split; [exact file_ok|]. intros _. split; [exact file_ok|..]; vm_compute; discriminate. }
  destruct (load_segments_image s e (mk_file hello_elf 52) Hs) as
    (st & s' & R & _ & E1 & E2 & _ & _ & _ & _ & Ho & Hd); [|exact Hok|].
  { apply (forallb_range 256). vm_compute. reflexivity. }
  set (ps := segments (contents (mk_file hello_elf 52)) e (Z.to_nat (e_phnum e)) 0) in *.
  assert (ps = [mk_phdr 1 84 0x2000 0x2000 37 41 7 0x1000]) as Eps by (vm_compute; reflexivity).
  rewrite Eps in *.
  exists st, s'. split; [exact R|]. split; [exact E1|]. split; [exact E2|]. split; [|split].
  - apply (Hd ltac:(repeat constructor) (mk_phdr 1 84 0x2000 0x2000 37 41 7 0x1000)).
    apply elem_of_cons. by left.
  - rewrite Ho; [vm_compute; reflexivity|]. intros p Hp.
    apply list_elem_of_singleton in Hp as ->. left. vm_compute. reflexivity.
  - rewrite Ho; [vm_compute; reflexivity|]. intros p Hp.
    apply list_elem_of_singleton in Hp as ->. right. vm_compute. discriminate.
Defined.
