(* ===== verification/Start.v ===== *)
(** The start of a program: the stack [load_elf] builds is the one the i386 ABI promises to
    [_start], and a well-formed executable is loaded, entered at its entry point, and given
    that stack. *)
From S2P Require Import Prelude CInt Machine Logic Loops Mem Backend Toy Loader Exec Files Load.

(** * Blocks of strings and of words *)

Section blocks.
Context {H : Type}.
Implicit Types s : machine H.

Definition string_block (strs : list (list Z)) : list Z :=
  concat ((fun x => x ++ [0]) <$> strs).
Definition word_block (ws : list Z) : list Z := concat (le_bytes 4 <$> ws).

Fixpoint string_addrs (sptr : Z) (strs : list (list Z)) : list Z :=
  match strs with
  | [] => []
  | x :: strs => sptr :: string_addrs (sptr + Z.of_nat (length x) + 1) strs
  end.

Lemma word_block_length ws : length (word_block ws) = (4 * length ws)%nat.
Proof. induction ws as [|w ws IH]; [done|]. cbn [word_block fmap list_fmap concat].
  rewrite length_app, le_bytes_length. unfold word_block in IH. rewrite IH. simpl. lia. Qed.

Lemma word_block_u8 ws : Forall is_u8 (word_block ws).
Proof.
  induction ws as [|w ws IH]; [done|]. cbn [word_block fmap list_fmap concat].
  apply Forall_app_2; [apply le_bytes_u8|exact IH].
Qed.

Lemma string_block_u8 strs : Forall (Forall is_u8) strs -> Forall is_u8 (string_block strs).
Proof.
  induction 1 as [|x strs Hx _ IH]; [done|]. cbn [string_block fmap list_fmap concat].
  apply Forall_app_2; [|exact IH]. apply Forall_app_2; [done|].
  constructor; [|done]. unfold is_u8. lia.
Qed.

Lemma string_addrs_length sptr strs : length (string_addrs sptr strs) = length strs.
Proof. revert sptr. induction strs as [|x strs IH]; intros; [done|]. simpl. by rewrite IH. Qed.

Lemma string_addrs_lookup sptr strs i : (i < length strs)%nat ->
  string_addrs sptr strs !! i = Some (sptr + Z.of_nat (length (string_block (take i strs)))).
Proof.
  revert sptr i. induction strs as [|x strs IH]; intros sptr i Hi; [simpl in Hi; lia|].
  destruct i as [|i]; simpl; [f_equal; lia|]. rewrite IH by (simpl in Hi; lia).
  unfold string_block. cbn [take fmap list_fmap concat]. rewrite !length_app. simpl. f_equal. lia.
Qed.

Lemma string_addrs_range sptr strs : 0 <= sptr ->
  sptr + Z.of_nat (length (string_block strs)) < 0x100000000 ->
  Forall is_u32 (string_addrs sptr strs).
Proof.
  revert sptr. induction strs as [|x strs IH]; intros sptr Hp Hl; [done|].
  unfold string_block in Hl. cbn [fmap list_fmap concat] in Hl. rewrite !length_app in Hl.
  simpl in Hl. constructor; [unfold is_u32; lia|]. apply IH; [lia|]. unfold string_block. lia.
Qed.

(** An entry of a block. *)
Lemma word_block_split ws i w : ws !! i = Some w ->
  word_block ws = word_block (take i ws) ++ le_bytes 4 w ++ word_block (drop (S i) ws).
Proof.
  intros Hw. rewrite <- (take_drop_middle ws i w Hw) at 1. unfold word_block.
  rewrite fmap_app, concat_app. done.
Qed.
Lemma string_block_split strs i x : strs !! i = Some x ->
  string_block strs =
  string_block (take i strs) ++ (x ++ [0]) ++ string_block (drop (S i) strs).
Proof.
  intros Hx. rewrite <- (take_drop_middle strs i x Hx) at 1. unfold string_block.
  rewrite fmap_app, concat_app. done.
Qed.

Lemma load_stored_sub off xs ys zs s :
  load_bytes (mem (stored off (xs ++ ys ++ zs) s)) (off + Z.of_nat (length xs)) (length ys) = ys.
Proof.
  rewrite !stored_app. unfold stored. cbn [mem upd_mem].
  rewrite load_store_other by lia. apply (load_store_same (off + _) ys).
Qed.

Lemma load_stored_other off bs s a n : a + Z.of_nat n <= off \/ off + Z.of_nat (length bs) <= a ->
  load_bytes (mem (stored off bs s)) a n = load_bytes (mem s) a n.
Proof. apply load_store_other. Qed.

Lemma rd32_stored off ws i w s : 0 <= off ->
  off + 4 * Z.of_nat (length ws) <= g_size (mem s) -> ws !! i = Some w ->
  rd32 (mem (stored off (word_block ws) s)) (off + 4 * Z.of_nat i) = u32 w.
Proof.
  intros Ho Hr Hw. pose proof (lookup_lt_Some _ _ _ Hw) as Hi.
  unfold rd32, in_range. rewrite size_stored. btest (off + 4 * Z.of_nat i + 4 <=? g_size (mem s)).
  rewrite (word_block_split ws i w Hw).
  replace (4 * Z.of_nat i) with (Z.of_nat (length (word_block (take i ws))))
    by (rewrite word_block_length, length_take; lia).
  change 4%nat with (length (le_bytes 4 w)) at 2. by rewrite load_stored_sub, le_value_bytes.
Qed.

(** ** The loops that write them *)

Lemma runs_copy_strings s sptr strs : 0 <= sptr ->
  sptr + Z.of_nat (length (string_block strs)) <= g_size (mem s) ->
  g_size (mem s) < 0x100000000 -> Forall (Forall is_u8) strs ->
  runs (copy_strings sptr strs) s
    (string_addrs sptr strs, sptr + Z.of_nat (length (string_block strs)))
    (stored sptr (string_block strs) s).
Proof.
  intros Hp Hr Hz Hb. revert s sptr Hp Hr Hz. induction Hb as [|x strs Hx _ IH]; intros s sptr Hp Hr Hz.
  { rewrite stored_nil. cbn [string_block fmap list_fmap concat length].
    rewrite Z.add_0_r. apply runs_ret. }
  change (string_block (x :: strs)) with ((x ++ [0]) ++ string_block strs) in *.
  rewrite length_app, Nat2Z.inj_add in Hr |- *. rewrite stored_app. cbn [copy_strings string_addrs].
  assert (Z.of_nat (length (x ++ [0])) = Z.of_nat (length x) + 1) as El
    by (rewrite length_app; simpl; lia).
  eapply runs_bind; [apply runs_mem_copy_in; [done|lia|]|].
  { apply Forall_app_2; [done|]. constructor; [unfold is_u8; lia|done]. }
  rewrite u32_small by (unfold is_u32; lia).
  eapply runs_bind; [apply IH; [lia|rewrite size_stored; lia|by rewrite size_stored]|].
  rewrite El, !Z.add_assoc. apply runs_ret.
Qed.

Lemma runs_store8 s a v : 0 <= a -> a + 1 <= g_size (mem s) ->
  runs (mem_write8 a v) s tt (stored a (le_bytes 1 v) s).
Proof.
  intros Ha Hr. eapply runs_eq; [by apply runs_mem_write8|done|].
  unfold stored, upd_mem, wr8, wr_bytes, in_range. f_equal. rewrite le_bytes_length. by bif.
Qed.

Lemma runs_store32 s a v : wf_mem (mem s) -> 0 <= a -> a + 4 <= g_size (mem s) ->
  runs (mem_write32 a v) s tt (stored a (le_bytes 4 v) s).
Proof.
  intros Hm Ha Hr. eapply runs_eq; [by apply runs_mem_write32|done|].
  unfold stored, upd_mem. f_equal. by apply wr32_in.
Qed.

Lemma runs_put_words s w vs : wf s -> 0 <= w ->
  w + 4 * Z.of_nat (length vs) <= g_size (mem s) ->
  runs (put_words w vs) s (w + 4 * Z.of_nat (length vs)) (stored w (word_block vs) s).
Proof.
  revert s w. induction vs as [|v vs IH]; intros s w Hs Hw Hr.
  { rewrite stored_nil. cbn [length]. rewrite Z.add_0_r. apply runs_ret. }
  pose proof (wf_size _ (wf_m_mem _ Hs)) as Hz.
  change (word_block (v :: vs)) with (le_bytes 4 v ++ word_block vs). cbn [length] in *.
  rewrite stored_app, le_bytes_length. change (Z.of_nat 4) with 4. cbn [put_words].
  eapply runs_bind.
  - unfold put32. eapply runs_bind; [apply runs_store32; [apply Hs|lia..]|apply runs_ret].
  - rewrite (u32_small (w + 4)) by (unfold is_u32; lia).
    replace (w + 4 * Z.of_nat (S (length vs))) with (w + 4 + 4 * Z.of_nat (length vs)) by lia.
    apply IH; [apply wf_stored; [done..| |apply le_bytes_u8]|lia|rewrite size_stored; lia].
    rewrite le_bytes_length. lia.
Qed.

Lemma wf_stored_words s a ws : wf s -> 0 <= a -> a + 4 * Z.of_nat (length ws) <= g_size (mem s) ->
  wf (stored a (word_block ws) s).
Proof.
  intros Hs Ha Hr. apply wf_stored; [done..| |apply word_block_u8]. rewrite word_block_length. lia.
Qed.

Lemma runs_four_words {B} s a v0 v1 v2 v3 (k : M H B) b t :
  wf s -> 0 <= a -> a + 16 <= g_size (mem s) ->
  runs k (stored a (word_block [v0; v1; v2; v3]) s) b t ->
  runs (mem_write32 a v0;; mem_write32 (a + 4) v1;; mem_write32 (a + 8) v2;;
        mem_write32 (a + 12) v3;; k) s b t.
Proof.
  intros Hs Ha Hr Hk. assert (forall (t : machine H) x v, wf t -> 0 <= x -> x + 4 <= g_size (mem t) ->
    runs (mem_write32 x v) t tt (stored x (le_bytes 4 v) t) /\ wf (stored x (le_bytes 4 v) t)) as Hw.
  { intros t' x v Ht Hx Hl. split; [by apply runs_store32; [apply Ht|..]|].
    apply wf_stored; [done..| |apply le_bytes_u8]. by rewrite le_bytes_length. }
  destruct (Hw s a v0) as [R0 W0]; [done|lia..|].
  destruct (Hw _ (a + 4) v1 W0) as [R1 W1]; [lia|rewrite ?size_stored; lia|].
  destruct (Hw _ (a + 8) v2 W1) as [R2 W2]; [lia|rewrite ?size_stored; lia|].
  destruct (Hw _ (a + 12) v3 W2) as [R3 W3]; [lia|rewrite ?size_stored; lia|].
  eapply runs_bind; [exact R0|]. eapply runs_bind; [exact R1|].
  eapply runs_bind; [exact R2|]. eapply runs_bind; [exact R3|].
  replace (stored (a + 12) _ _) with (stored a (word_block [v0; v1; v2; v3]) s); [exact Hk|].
  change (word_block [v0; v1; v2; v3]) with
    (le_bytes 4 v0 ++ le_bytes 4 v1 ++ le_bytes 4 v2 ++ le_bytes 4 v3).
  rewrite !stored_app, !le_bytes_length, <- !Z.add_assoc. done.
Qed.
End blocks.

(** * The initial stack *)

(** What [_start] may rely on: at the 16-byte aligned [sp] the argument count, the addresses
    of the arguments as NUL-terminated strings above [sp], a null pointer, no environment, and the
    auxiliary vector. *)
Record abi_stack (m : guest_mem) (sp : Z) (args : list (list Z)) (aux : list (Z * Z))
    : Prop := {
  as_aligned : sp mod 16 = 0;
  as_argc : rd32 m sp = Z.of_nat (length args);
  as_argv : forall i x, args !! i = Some x ->
    sp <= rd32 m (sp + 4 + 4 * Z.of_nat i) /\
    load_bytes m (rd32 m (sp + 4 + 4 * Z.of_nat i)) (length x + 1) = x ++ [0];
  as_argv_end : rd32 m (sp + 4 + 4 * Z.of_nat (length args)) = 0;
  as_envp_end : rd32 m (sp + 8 + 4 * Z.of_nat (length args)) = 0;
  as_auxv : forall i t v, aux !! i = Some (t, v) ->
    rd32 m (sp + 12 + 4 * Z.of_nat (length args) + 8 * Z.of_nat i) = t /\
    rd32 m (sp + 16 + 4 * Z.of_nat (length args) + 8 * Z.of_nat i) = v
}.

(** It does not depend on what is below it. *)
Lemma abi_stack_above m m' sp args aux : 0 <= sp -> g_size m' = g_size m ->
  (forall a, sp <= a -> byte_at m' a = byte_at m a) ->
  abi_stack m sp args aux -> abi_stack m' sp args aux.
Proof.
  intros Hp Hz Hb [A1 A2 A3 A4 A5 A6].
  assert (forall a, sp <= a -> rd32 m' a = rd32 m a) as Hw
    by (intros a Ha; apply rd32_same; [done|intros x Hx; apply Hb; lia]).
  split; [done|by rewrite Hw by lia| |by rewrite Hw by lia|by rewrite Hw by lia|].
  - intros i x Hi. rewrite Hw by lia. destruct (A3 i x Hi) as [Hl E]. split; [done|].
    rewrite <- E. apply load_bytes_ext. intros y Hy. apply Hb. lia.
  - intros i t v Hi. rewrite !Hw by lia. by apply A6.
Qed.

(** The auxiliary vector of a static executable, tags of <elf.h>: AT_PHDR, AT_PHENT, AT_PHNUM,
    AT_PAGESZ, AT_BASE, AT_FLAGS, AT_ENTRY, the four ids, AT_HWCAP, AT_CLKTCK, AT_SECURE,
    AT_RANDOM, AT_NULL. *)
Definition abi_auxv (e : Elf32_Ehdr) (at_phdr random : Z) : list (Z * Z) :=
  [(3, at_phdr); (4, e_phentsize e); (5, e_phnum e); (6, 4096); (7, 0); (8, 0);
   (9, e_entry e); (11, 1000); (12, 1000); (13, 1000); (14, 1000); (16, 0x8910);
   (17, 100); (23, 0); (25, random); (0, 0)].

Definition random_words : list Z := [0xDEADBEEF; 0xCAFEBABE; 0x13371337; 0xABCDEF01].

Section stack.
Context {H : Type}.
Implicit Types s : machine H.

Definition args_size (args : list (list Z)) : Z := Z.of_nat (length (string_block args)).
(** Where the two blocks are, without the wrap-around. *)
Definition strings_at (size : Z) (args : list (list Z)) : Z :=
  let top := size - 20 - args_size args in top - top mod 16.
Definition stack_at (size : Z) (args : list (list Z)) : Z :=
  let top := strings_at size args - (140 + 4 * Z.of_nat (length args)) in top - top mod 16.
(** Room for the strings, the pointers to them and the auxiliary vector. *)
Definition stack_fits (size : Z) (args : list (list Z)) : Prop :=
  args_size args + 4 * Z.of_nat (length args) + 190 <= size.

Lemma align16_spec x : is_u32 x -> align16 x = x - x mod 16.
Proof. apply (land_clear 4). lia. Qed.

Lemma string_bytes_spec args : args_size args + 16 < 0x100000000 ->
  string_bytes args = 16 + args_size args.
Proof.
  unfold string_bytes, args_size. assert (forall n, 0 <= n ->
    n + Z.of_nat (length (string_block args)) < 0x100000000 ->
    foldl (fun n x => u32 (n + (Z.of_nat (length x) + 1))) n args =
    n + Z.of_nat (length (string_block args))) as E.
  { induction args as [|x args IH]; intros n Hn Hl; [cbn; lia|].
    change (string_block (x :: args)) with ((x ++ [0]) ++ string_block args) in *.
    rewrite !length_app in *. simpl length in *. cbn [foldl].
    rewrite u32_small by (unfold is_u32; lia). rewrite IH by lia. lia. }
  intros Hs. rewrite E by lia. lia.
Qed.

Lemma blocks_placed size args : size < 0x100000000 -> stack_fits size args ->
  str_area_base size args = strings_at size args /\ esp_base size args = stack_at size args /\
  0 <= stack_at size args /\ stack_at size args mod 16 = 0 /\
  stack_at size args + 4 * (35 + Z.of_nat (length args)) <= strings_at size args /\
  strings_at size args + args_size args + 16 <= size.
Proof.
  unfold stack_fits. intros Hz Hr.
  assert (0 <= args_size args) as Ha by (unfold args_size; lia).
  assert (str_area_base size args = strings_at size args) as Es.
  { unfold str_area_base. rewrite string_bytes_spec by lia.
    rewrite (u32_small size), (u32_small (size - 4)), u32_small by (unfold is_u32; lia).
    rewrite align16_spec by (unfold is_u32; lia). unfold strings_at. cbv zeta.
    replace (size - 4 - (16 + args_size args)) with (size - 20 - args_size args) by lia. done. }
  assert (header_bytes args = 140 + 4 * Z.of_nat (length args)) as Eh.
  { unfold header_bytes, N_AUXV_ENTRIES. rewrite u32_small by (unfold is_u32; lia). lia. }
  assert (size - 20 - args_size args - 15 <= strings_at size args <= size - 20 - args_size args)
    as Hs by (unfold strings_at; cbv zeta; Z.div_mod_to_equations; lia).
  split; [done|]. split; [|unfold stack_at; cbv zeta; Z.div_mod_to_equations; lia].
  unfold esp_base, stack_at. cbv zeta. rewrite Es, Eh.
  rewrite (u32_small (strings_at size args - _)) by (unfold is_u32; lia).
  apply align16_spec. unfold is_u32. lia.
Qed.

(** The words below the strings. *)
Definition start_words (e : Elf32_Ehdr) (at_phdr : Z) (args : list (list Z)) (size : Z)
    : list Z :=
  let random := strings_at size args + args_size args in
  [Z.of_nat (length args)] ++ string_addrs (strings_at size args) args ++ [0; 0] ++
  concat ((fun p => [p.1; p.2]) <$> abi_auxv e at_phdr random).

(** Guest memory with the two blocks in it. *)
Definition with_stack (e : Elf32_Ehdr) (at_phdr : Z) (args : list (list Z)) s : machine H :=
  let size := g_size (mem s) in
  stored (stack_at size args) (word_block (start_words e at_phdr args size))
    (stored (strings_at size args) (string_block args ++ word_block random_words) s).

Lemma start_words_length e at_phdr args size :
  length (start_words e at_phdr args size) = (35 + length args)%nat.
Proof. unfold start_words. rewrite !length_app, string_addrs_length. simpl. lia. Qed.

Lemma runs_build_stack s e at_phdr argv : wf s ->
  let args := guest_args argv in let size := g_size (mem s) in
  Forall (Forall is_u8) args -> stack_fits size args ->
  runs (build_stack e at_phdr argv) s tt
    (rset REG_ESP (stack_at size args) (with_stack e at_phdr args s)).
Proof.
  intros Hs args size Hb Hf. pose proof (wf_size _ (wf_m_mem _ Hs)) as Hz. fold size in Hz.
  destruct (blocks_placed size args) as (Es & Ee & H0 & _ & Hw & Ht); [lia|done|].
  set (sa := strings_at size args) in *. set (sp := stack_at size args) in *.
  unfold args_size in Ht. set (b := string_block args) in *.
  set (rnd := sa + Z.of_nat (length b)).
  assert (wf (stored sa b s)) as W1
    by (apply wf_stored; [done|lia|fold size; lia|by apply string_block_u8]).
  set (s2 := stored rnd (word_block random_words) (stored sa b s)).
  assert (wf s2) as W2
    by (apply wf_stored_words; [done|lia|rewrite size_stored; fold size; simpl length; lia]).
  unfold build_stack. eapply runs_bind; [apply runs_mem_size|]. fold args size. cbv zeta.
  rewrite Es, Ee. eapply runs_bind; [apply runs_copy_strings; fold b size; [lia..|done]|].
  cbv beta iota. fold b rnd. rewrite (u32_small (rnd + 0)), (u32_small (rnd + 4)),
    (u32_small (rnd + 8)), (u32_small (rnd + 12)), Z.add_0_r by (unfold is_u32; lia).
  apply runs_four_words; [done|lia|rewrite size_stored; fold size; lia|].
  fold s2. change [0xDEADBEEF; 0xCAFEBABE; 0x13371337; 0xABCDEF01] with random_words. fold s2.
  change (Z.of_nat (length args) :: _) with (start_words e at_phdr args size).
  eapply runs_bind; [apply runs_put_words; [done|done|]|].
  { rewrite start_words_length. unfold s2. rewrite !size_stored. fold size. lia. }
  eapply runs_eq; [apply runs_set_reg|done|]. unfold with_stack. fold size sp sa b.
  by rewrite stored_app.
Qed.

Lemma pairs_lookup (ps : list (Z * Z)) i t v : ps !! i = Some (t, v) ->
  concat ((fun p => [p.1; p.2]) <$> ps) !! (2 * i)%nat = Some t /\
  concat ((fun p => [p.1; p.2]) <$> ps) !! (2 * i + 1)%nat = Some v.
Proof.
  revert i. induction ps as [|p ps IH]; intros i Hi; [done|].
  destruct i as [|i]; [by injection Hi as ->|]. destruct (IH i Hi) as [E1 E2].
  replace (2 * S i)%nat with (S (S (2 * i))) by lia. by split.
Qed.

Definition ehdr_fits (e : Elf32_Ehdr) (at_phdr : Z) : Prop :=
  is_u32 at_phdr /\ is_u32 (e_phentsize e) /\ is_u32 (e_phnum e) /\ is_u32 (e_entry e).

Lemma start_words_lookup e at_phdr args size :
  let ws := start_words e at_phdr args size in
  let n := length args in
  let random := strings_at size args + args_size args in
  ws !! 0%nat = Some (Z.of_nat n) /\
  (forall i a, string_addrs (strings_at size args) args !! i = Some a ->
     ws !! (1 + i)%nat = Some a) /\
  ws !! (1 + n)%nat = Some 0 /\ ws !! (2 + n)%nat = Some 0 /\
  (forall i t v, abi_auxv e at_phdr random !! i = Some (t, v) ->
     ws !! (3 + n + 2 * i)%nat = Some t /\ ws !! (4 + n + 2 * i)%nat = Some v).
Proof.
  intros ws n random. unfold ws, start_words. fold n random.
  set (sa := string_addrs _ _). assert (length sa = n) as El by apply string_addrs_length.
  split; [done|]. split; [|split; [|split]].
  - intros i a Hi. rewrite lookup_app_r by (simpl; lia). apply lookup_app_l_Some.
    rewrite <- Hi. f_equal. simpl. lia.
  - rewrite !lookup_app_r, El by (rewrite ?El; simpl; lia).
    by replace (1 + n - length [Z.of_nat n] - n)%nat with 0%nat by (simpl; lia).
  - rewrite !lookup_app_r, El by (rewrite ?El; simpl; lia).
    by replace (2 + n - length [Z.of_nat n] - n)%nat with 1%nat by (simpl; lia).
  - intros i t v Hi. destruct (pairs_lookup _ i t v Hi) as [E1 E2].
    rewrite !lookup_app_r, !El by (rewrite ?El; simpl; lia).
    rewrite <- E1, <- E2. split; f_equal; simpl; lia.
Qed.

Lemma abi_auxv_u32 e at_phdr random : ehdr_fits e at_phdr -> is_u32 random ->
  Forall (fun p => is_u32 p.1 /\ is_u32 p.2) (abi_auxv e at_phdr random).
Proof.
  intros (H1 & H2 & H3 & H4) Hr. unfold is_u32 in *.
  repeat (apply Forall_cons_2; [cbn [fst snd]; lia|]). by apply Forall_nil.
Qed.

(** The memory left by [build_stack] is a stack in the sense of the ABI. *)
Lemma with_stack_abi s e at_phdr args : wf s -> let size := g_size (mem s) in
  let m := mem (with_stack e at_phdr args s) in
  let random := strings_at size args + args_size args in
  ehdr_fits e at_phdr -> stack_fits size args ->
  abi_stack m (stack_at size args) args (abi_auxv e at_phdr random) /\
  load_bytes m random 16 = word_block random_words /\
  (forall a, a < stack_at size args -> byte_at m a = byte_at (mem s) a).
Proof.
  intros Hs size m random He Hf. pose proof (wf_size _ (wf_m_mem _ Hs)) as Hz. fold size in Hz.
  destruct (blocks_placed size args) as (_ & _ & H0 & Hal & Hw & Ht); [lia|done|].
  destruct (start_words_lookup e at_phdr args size) as (W0 & Wa & Wn & We & Wx).
  fold random in Wx.
  pose proof (start_words_length e at_phdr args size) as Lw.
  set (ws := start_words e at_phdr args size) in *.
  set (sp := stack_at size args) in *. set (sa := strings_at size args) in *.
  set (s1 := stored sa (string_block args ++ word_block random_words) s).
  assert (0 <= args_size args) as Ha by (unfold args_size; lia).
  assert (forall i w, ws !! i = Some w -> rd32 m (sp + 4 * Z.of_nat i) = u32 w) as Hrd.
  { intros i w Hi. apply (rd32_stored sp ws i w s1); [done| |done].
    change (g_size (mem s1)) with size. lia. }
  assert (forall a n, sa <= a -> load_bytes m a n = load_bytes (mem s1) a n) as Hup.
  { intros a n Hl. apply (load_stored_other sp (word_block ws) s1).
    rewrite word_block_length. lia. }
  split; [constructor|split].
  - exact Hal.
  - rewrite <- (Z.add_0_r sp). change 0 with (4 * Z.of_nat 0). rewrite (Hrd _ _ W0).
    apply u32_small. unfold is_u32, stack_fits in *. lia.
  - intros i x Hi. pose proof (lookup_lt_Some _ _ _ Hi) as Hlt.
    pose proof (string_addrs_lookup sa args i Hlt) as Hadr.
    replace (sp + 4 + 4 * Z.of_nat i) with (sp + 4 * Z.of_nat (1 + i)) by lia.
    rewrite (Hrd _ _ (Wa _ _ Hadr)).
    pose proof (string_block_split args i x Hi) as Eb.
    assert (length (string_block (take i args)) <= length (string_block args))%nat as Hle
      by (rewrite Eb, length_app; lia).
    rewrite u32_small by (unfold is_u32, args_size in *; lia).
    split; [lia|]. rewrite Hup by lia.
    replace (length x + 1)%nat with (length (x ++ [0])) by (rewrite length_app; done).
    unfold s1. rewrite Eb, <- !app_assoc, (app_assoc x [0]). apply load_stored_sub.
  - replace (sp + 4 + _) with (sp + 4 * Z.of_nat (1 + length args)) by lia. by rewrite (Hrd _ _ Wn).
  - replace (sp + 8 + _) with (sp + 4 * Z.of_nat (2 + length args)) by lia. by rewrite (Hrd _ _ We).
  - intros i t v Hi. destruct (Wx i t v Hi) as [E1 E2].
    destruct (Forall_lookup_1 _ _ _ _ (abi_auxv_u32 e at_phdr random He
      ltac:(unfold is_u32, random; lia)) Hi) as [U1 U2].
    replace (sp + 12 + _ + _) with (sp + 4 * Z.of_nat (3 + length args + 2 * i)) by lia.
    replace (sp + 16 + _ + _) with (sp + 4 * Z.of_nat (4 + length args + 2 * i)) by lia.
    by rewrite (Hrd _ _ E1), (Hrd _ _ E2), !u32_small.
  - rewrite Hup by (unfold random; lia). unfold s1, random, args_size.
    rewrite <- (app_nil_r (word_block random_words)).
    apply (load_stored_sub sa (string_block args) (word_block random_words) [] s).
  - intros a Hlt. unfold m, with_stack. fold size sp sa ws s1. rewrite byte_stored. bif.
    unfold s1. rewrite byte_stored. by bif.
Qed.
End stack.

(** * The whole loader *)

Lemma page_up_range x : is_u32 (page_up x).
Proof. apply land_u32, u32_range. Qed.

(** The header of a 32-bit little-endian i386 executable. *)
Record valid_ehdr (e : Elf32_Ehdr) : Prop := {
  ve_magic : take 4 (e_ident e) = [0x7F; 0x45; 0x4C; 0x46];
  ve_class : zget (e_ident e) 4 = 1;
  ve_data : zget (e_ident e) 5 = 1;
  ve_type : e_type e = 2;
  ve_machine : e_machine e = 3;
  ve_phentsize : 32 <= e_phentsize e
}.

Lemma ehdr_ok_spec e : ehdr_ok e = true <-> valid_ehdr e.
Proof.
  unfold ehdr_ok, ELF_MAGIC, ELFCLASS32, ELFDATA2LSB, ET_EXEC, EM_386, SIZEOF_PHDR.
  rewrite !andb_true_iff, bool_decide_eq_true, !Z.eqb_eq, Z.leb_le.
  split; [intros [[[[[]]]]]; by constructor|by intros []].
Qed.

(** The header of a file. *)
Definition file_ehdr (c : list Z) : Elf32_Ehdr := ehdr_of_bytes (file_bytes c 0 SIZEOF_EHDR).
(** Its loadable segments. *)
Definition file_segments (c : list Z) : list Elf32_Phdr :=
  segments c (file_ehdr c) (Z.to_nat (e_phnum (file_ehdr c))) 0.

Lemma file_ehdr_fits c a : Forall is_u8 c -> is_u32 a -> ehdr_fits (file_ehdr c) a.
Proof.
  intros Hc Ha. assert (Forall is_u8 (file_bytes c 0 SIZEOF_EHDR)) as Hb
    by by apply Forall_take, Forall_drop.
  assert (forall off n, (n <= 4)%nat -> is_u32 (field (file_bytes c 0 SIZEOF_EHDR) off n)) as Hf.
  { intros off n Hn. pose proof (field_range _ off n Hb) as Hr. unfold is_u32.
    assert (2 ^ (8 * Z.of_nat n) <= 2 ^ 32) by (apply Z.pow_le_mono_r; lia).
    change (2 ^ 32) with 0x100000000 in *. lia. }
  split; [exact Ha|]. split; [|split]; apply Hf; lia.
Qed.

Section load_elf.
Context {H : Type}.
Implicit Types s : machine H.

(** An executable that fits: each of its segments lies in the file and in memory, apart from
    the others and below the initial stack. *)
Record fits_memory (c : list Z) (args : list (list Z)) (size : Z) : Prop := {
  fm_headers : forall i, 0 <= i < e_phnum (file_ehdr c) -> header_ok c (file_ehdr c) size i;
  fm_disjoint : disjoint_segments (file_segments c);
  fm_stack : stack_fits size args;
  fm_below : forall p, p ∈ file_segments c -> p_vaddr p + p_memsz p <= stack_at size args
}.

Lemma runs_read_ehdr s c argv (k : option LoadInfo) t : SIZEOF_EHDR <= Z.of_nat (length c) ->
  runs (if negb (ehdr_ok (file_ehdr c)) then mret None else
        r ← load_segments (Z.to_nat (e_phnum (file_ehdr c))) (file_ehdr c) 0
              (mk_seg (mk_file c SIZEOF_EHDR) 0 0 true);
        match r with
        | None => mret None
        | Some st =>
            set_eip (e_entry (file_ehdr c));;
            build_stack (file_ehdr c) (u32 (sg_load_addr st + e_phoff (file_ehdr c))) argv;;
            mret (Some (mk_load_info (page_up (sg_load_end st))))
        end) s k t ->
  runs (load_elf (Some c) argv) s k t.
Proof.
  intros Hl Hk. unfold load_elf, fread. cbn [pos contents].
  btest (0 + SIZEOF_EHDR <=? Z.of_nat (length c)). exact Hk.
Qed.

(** The machine [load_elf] leaves. *)
Definition loaded (c : list Z) (args : list (list Z)) s : machine H :=
  let e := file_ehdr c in let ps := file_segments c in
  rset REG_ESP (stack_at (g_size (mem s)) args)
    (with_stack e (u32 (image_start ps + e_phoff e)) args
       (with_eip (e_entry e) (image c ps s))).

Lemma runs_load_elf s c argv : wf s -> Forall is_u8 c -> SIZEOF_EHDR <= Z.of_nat (length c) ->
  let args := guest_args argv in let ps := file_segments c in
  valid_ehdr (file_ehdr c) -> Forall (Forall is_u8) args ->
  fits_memory c args (g_size (mem s)) ->
  runs (load_elf (Some c) argv) s (Some (mk_load_info (page_up (image_end ps 0))))
    (loaded c args s) /\
  wf (image c ps s) /\ Forall (full_segment c) ps.
Proof.
  intros Hs Hc Hl args ps Hv Hb [Hh Hd Hf Hbl]. set (e := file_ehdr c) in *.
  set (n := Z.to_nat (e_phnum e)). set (st0 := mk_seg (mk_file c SIZEOF_EHDR) 0 0 true).
  assert (forall j, 0 <= j < 0 + Z.of_nat n -> header_ok c e (g_size (mem s)) j) as Hok
    by (intros j Hj; apply Hh; unfold n in Hj; lia).
  destruct (runs_load_segments n s e 0 st0 Hs Hc Hok) as (st & R & W & E1 & E2).
  pose proof (segments_full c e (g_size (mem s)) n 0 Hc Hok) as Hfull.
  change (segments (contents (sg_file st0)) e n 0) with ps in *.
  split; [|by split]. set (s2 := with_eip (e_entry e) (image c ps s)).
  assert (g_size (mem s2) = g_size (mem s)) as Ez by apply (image_frame c ps s).
  apply runs_read_ehdr; [done|]. fold e n st0. apply ehdr_ok_spec in Hv. rewrite Hv.
  cbn [negb]. eapply runs_bind; [exact R|]. cbv beta iota.
  eapply runs_bind; [apply runs_set_eip|]. change (contents (sg_file st0)) with c. fold s2.
  eapply runs_bind; [apply runs_build_stack; [by apply wf_with_eip|done|by rewrite Ez]|].
  eapply runs_eq; [apply runs_ret|by rewrite E1|]. unfold loaded. fold e ps s2 args.
  rewrite Ez, E2. done.
Qed.

Lemma loaded_frame s c args :
  cpu (loaded c args s) =
    cpu (rset REG_ESP (stack_at (g_size (mem s)) args) (with_eip (e_entry (file_ehdr c)) s)) /\
  og (loaded c args s) = og s /\ kern (loaded c args s) = kern s /\
  host (loaded c args s) = host s /\ g_size (mem (loaded c args s)) = g_size (mem s).
Proof.
  destruct (image_frame c (file_segments c) s) as (E1 & E2 & E3 & E4).
  pose proof (image_host c (file_segments c) s) as E5. unfold loaded.
  destruct (image c (file_segments c) s) as [c' m' o' k' h'], s as [c0 m0 o0 k0 h0].
  cbn in E1, E2, E3, E4, E5. subst. repeat split. exact E4.
Qed.

(** What it is: the program's memory, EIP and stack. *)
Lemma loaded_spec s c args : wf s -> Forall is_u8 c ->
  let size := g_size (mem s) in let sp := stack_at size args in
  let e := file_ehdr c in let ps := file_segments c in let s' := loaded c args s in
  let random := strings_at size args + args_size args in
  wf (image c ps s) -> Forall (full_segment c) ps -> fits_memory c args size ->
  eip (cpu s') = e_entry e /\ rget s' REG_ESP = sp /\
  abi_stack (mem s') sp args (abi_auxv e (u32 (image_start ps + e_phoff e)) random) /\
  load_bytes (mem s') random 16 = word_block random_words /\
  (forall p, p ∈ ps ->
     load_bytes (mem s') (p_vaddr p) (Z.to_nat (p_memsz p)) = segment_bytes c p) /\
  (forall a, a < sp -> (forall p, p ∈ ps -> a < p_vaddr p \/ p_vaddr p + p_memsz p <= a) ->
     byte_at (mem s') a = byte_at (mem s) a).
Proof.
  intros Hs Hc size sp e ps s' random W Hfull [_ Hd Hf Hbl].
  destruct (image_frame c ps s) as (_ & _ & _ & Ez). fold size in Ez.
  set (s2 := with_eip (e_entry e) (image c ps s)).
  set (ph := u32 (image_start ps + e_phoff e)).
  assert (wf s2) as W2 by by apply wf_with_eip.
  assert (ehdr_fits e ph) as He by (apply file_ehdr_fits; [done|apply u32_range]).
  pose proof (wf_size _ (wf_m_mem _ Hs)) as Hz. fold size in Hz.
  destruct (blocks_placed size args) as (_ & _ & P0 & _ & P1 & P2); [lia|done|]. fold sp in P0, P1.
  assert (g_size (mem s2) = size) as Ez2 by exact Ez.
  destruct (with_stack_abi s2 e ph args W2 He) as (Ab & Ar & Ao); rewrite Ez2 in *; [done|].
  fold sp in Ab, Ao. split; [apply u32_small, He|]. split.
  { etrans; [apply (rget_rset_eq s2 REG_ESP sp W2); done|].
    apply u32_small. unfold is_u32, args_size in *. lia. }
  split; [exact Ab|]. split; [exact Ar|]. split.
  - intros p Hp. assert (full_segment c p) as Hfp
      by (rewrite List.Forall_forall in Hfull; apply Hfull; by apply list_elem_of_In).
    specialize (Hbl p Hp). unfold full_segment in Hfp. rewrite <- Hfp, Nat2Z.id in *.
    etrans; [|by apply (image_segment c ps s p)].
    apply load_bytes_ext. intros x Hx. apply Ao. fold size sp in Hbl. lia.
  - intros a Ha Hp. etrans; [by apply Ao|]. by apply image_other.
Qed.

(** C5: loading an executable.  A file with a valid header, whose segments lie in the file and
    in guest memory, do not overlap and stay below the initial stack, is loaded: every segment
    is in memory, its bytes of the file followed by zeros; EIP is the entry point; ESP points
    to a stack as the i386 ABI prescribes it, with the arguments and an auxiliary vector that
    locates the program headers and 16 random bytes; and [load_end] is the end of the highest
    segment rounded up to a page.

    ESP is a multiple of 16, which is what the ABI asks for.  The comment at loader.c:256-259
    asks for 12 modulo 16 and is not what the code does: the assignment below it is commented
    out.  The hardware capabilities are 0x8910, the value in the code; its comment names MMX,
    whose bit 23 is clear, and does not name SEP, whose bit 11 is set. *)
Theorem load_elf_starts s c argv :
  wf s -> Forall is_u8 c -> SIZEOF_EHDR <= Z.of_nat (length c) ->
  let size := g_size (mem s) in let args := guest_args argv in
  let e := file_ehdr c in let ps := file_segments c in
  valid_ehdr e -> Forall (Forall is_u8) args -> fits_memory c args size ->
  exists s' random,
    runs (load_elf (Some c) argv) s (Some (mk_load_info (page_up (image_end ps 0)))) s' /\
    eip (cpu s') = e_entry e /\
    rget s' REG_ESP = stack_at size args /\
    abi_stack (mem s') (rget s' REG_ESP) args
      (abi_auxv e (u32 (image_start ps + e_phoff e)) random) /\
    load_bytes (mem s') random 16 = word_block random_words /\
    (forall p, p ∈ ps ->
       load_bytes (mem s') (p_vaddr p) (Z.to_nat (p_memsz p)) = segment_bytes c p) /\
    (forall a, a < rget s' REG_ESP ->
       (forall p, p ∈ ps -> a < p_vaddr p \/ p_vaddr p + p_memsz p <= a) ->
       byte_at (mem s') a = byte_at (mem s) a).
Proof.
  intros Hs Hc Hl size args e ps Hv Hb Hfit.
  destruct (runs_load_elf s c argv Hs Hc Hl Hv Hb Hfit) as (R & W & Hfull).
  destruct (loaded_spec s c args Hs Hc W Hfull Hfit) as (Ei & Ee & Ab & Ar & Hi & Ho).
  exists (loaded c args s), (strings_at size args + args_size args). by rewrite Ee.
Qed.
End load_elf.

(** ** The small executable *)

Lemma hello_bytes : Forall is_u8 hello_elf.
Proof. apply (forallb_range 256). vm_compute. reflexivity. Qed.
Lemma hello_args : Forall (Forall is_u8) (guest_args hello_argv).
Proof. repeat constructor; unfold is_u8; lia. Qed.
Lemma hello_segments : file_segments hello_elf = [mk_phdr 1 84 0x2000 0x2000 37 41 7 0x1000].
Proof. vm_compute. reflexivity. Qed.
Lemma hello_header : valid_ehdr (file_ehdr hello_elf).
Proof. apply ehdr_ok_spec. vm_compute. reflexivity. Qed.
Lemma hello_fits size : size = 0x10000 \/ size = 0x20000000 ->
  fits_memory hello_elf (guest_args hello_argv) size.
Proof.
  intros Hz. constructor.
  - change (e_phnum (file_ehdr hello_elf)) with 1. intros i Hi. replace i with 0 by lia.
    split; [vm_compute; discriminate|]. intros _.
    split; destruct Hz as [-> | ->]; vm_compute; discriminate.
  - rewrite hello_segments. repeat constructor.
  - unfold stack_fits. destruct Hz as [-> | ->]; vm_compute; discriminate.
  - rewrite hello_segments. intros p Hp. apply list_elem_of_singleton in Hp as ->.
    destruct Hz as [-> | ->]; vm_compute; discriminate.
Qed.

(** Run as [fake-kernel hello a], it is entered at 0x2000 with two arguments. *)
Lemma load_elf_starts_witness :
  let s := toy_machine (replicate 8 0) 0 [] in
  exists s' random, runs (load_elf (Some hello_elf) hello_argv) s (Some (mk_load_info 0x3000)) s' /\
    eip (cpu s') = 0x2000 /\ rget s' REG_ESP = 0xFF40 /\
    abi_stack (mem s') 0xFF40 [[0x68; 0x65; 0x6C; 0x6C; 0x6F]; [0x61]]
      (abi_auxv (file_ehdr hello_elf) 0x2034 random) /\
    load_bytes (mem s') 0x2000 41 = hello_code ++ [0; 0; 0; 0].
Proof.
  intros s. assert (wf s) as Hs by (apply wf_toy; vm_compute; reflexivity).
  assert (stack_at (g_size (mem s)) (guest_args hello_argv) = 0xFF40) as Esp
    by (vm_compute; reflexivity).
  destruct (load_elf_starts s hello_elf hello_argv Hs hello_bytes) as
    (s' & random & R & Ei & Ee & Ab & _ & Hd & _).
  - vm_compute. discriminate.
  - exact hello_header.
  - exact hello_args.
  - apply hello_fits. by left.
  - rewrite hello_segments in R, Ab, Hd. rewrite Esp in Ee. rewrite Ee in Ab. exists s', random.
    split; [exact R|]. split; [exact Ei|]. split; [exact Ee|]. split; [exact Ab|].
    apply (Hd (mk_phdr 1 84 0x2000 0x2000 37 41 7 0x1000)). by apply list_elem_of_singleton.
Defined.
