(* ===== verification/Reject.v ===== *)
(** The error paths of the loader: what makes [load_elf] fail, and what a failure leaves of
    the machine. *)
From S2P Require Import Prelude CInt Machine Logic Loops Mem Backend Toy Loader Exec Files.
From S2P Require Import Load Start.

Section reject.
Context {H : Type}.
Implicit Types s : machine H.

(** Everything but the bytes of guest memory. *)
Record same_but_bytes s s' : Prop := {
  sb_cpu : cpu s' = cpu s;
  sb_og : og s' = og s;
  sb_kern : kern s' = kern s;
  sb_host : host s' = host s;
  sb_size : g_size (mem s') = g_size (mem s)
}.
#[local] Instance same_but_bytes_preorder : PreOrder same_but_bytes.
Proof. split; [by split|]. intros s t u [] []. split; by etrans. Qed.

Lemma same_stored off bs s : same_but_bytes s (stored off bs s).
Proof. by split. Qed.

(** Why program header [i] stops the loader: it cannot be read; its segment does not fit in
    guest memory; the file ends before the segment does. *)
Inductive bad_phdr (c : list Z) (e : Elf32_Ehdr) (size i : Z) : Prop :=
  | bad_unreadable :
      Z.of_nat (length c) < u32 (e_phoff e + u32 (i * e_phentsize e)) + SIZEOF_PHDR ->
      bad_phdr c e size i
  | bad_too_big (p := phdr_at c e i) :
      u32 (e_phoff e + u32 (i * e_phentsize e)) + SIZEOF_PHDR <= Z.of_nat (length c) ->
      loadable p -> size < p_vaddr p + p_memsz p -> bad_phdr c e size i
  | bad_truncated (p := phdr_at c e i) :
      u32 (e_phoff e + u32 (i * e_phentsize e)) + SIZEOF_PHDR <= Z.of_nat (length c) ->
      loadable p -> p_vaddr p + p_memsz p <= size -> 0 < p_filesz p <= p_memsz p ->
      Z.of_nat (length c) < p_offset p + p_filesz p -> bad_phdr c e size i.

Lemma runs_bad_segment s e i st : wf s ->
  let c := contents (sg_file st) in Forall is_u8 c -> bad_phdr c e (g_size (mem s)) i ->
  exists s', runs (load_segment e i st) s None s' /\ same_but_bytes s s'.
Proof.
  intros Hs c Hc Hbad. pose proof (wf_size _ (wf_m_mem _ Hs)) as Hz.
  assert (0 <= u32 (e_phoff e + u32 (i * e_phentsize e))) as Hoff by apply u32_range.
  unfold load_segment, fseek at 1. btest (u32 (e_phoff e + u32 (i * e_phentsize e)) <? 0).
  fold c. unfold fread. cbn [pos contents].
  assert (forall p : Elf32_Phdr, loadable p ->
    negb (p_type p =? PT_LOAD) = false /\ (p_memsz p =? 0) = false) as Hload.
  { intros p [-> Hm]. split; [done|]. by apply Z.eqb_neq. }
  destruct Hbad as [Hu|p Hr Hl Hb|p Hr Hl Hm Hf Hb].
  - btest (u32 (e_phoff e + u32 (i * e_phentsize e)) + SIZEOF_PHDR <=? Z.of_nat (length c)).
    exists s. split; [apply runs_ret|reflexivity].
  - btest (u32 (e_phoff e + u32 (i * e_phentsize e)) + SIZEOF_PHDR <=? Z.of_nat (length c)).
    cbv zeta. fold (file_bytes c (u32 (e_phoff e + u32 (i * e_phentsize e))) SIZEOF_PHDR).
    fold (phdr_at c e i) p. destruct (Hload p Hl) as [-> ->]. exists s. split; [|reflexivity].
    eapply runs_bind; [apply runs_mem_size|]. btest (g_size (mem s) <? p_vaddr p + p_memsz p).
    apply runs_ret.
  - btest (u32 (e_phoff e + u32 (i * e_phentsize e)) + SIZEOF_PHDR <=? Z.of_nat (length c)).
    cbv zeta. fold (file_bytes c (u32 (e_phoff e + u32 (i * e_phentsize e))) SIZEOF_PHDR).
    fold (phdr_at c e i) p. destruct (Hload p Hl) as [-> ->].
    destruct (phdr_range c e i Hc) as (Rv & Rm & Rf & Ro). fold p in Rv, Rm, Rf, Ro.
    set (z := stored (p_vaddr p) (replicate (Z.to_nat (p_memsz p)) 0) s).
    destruct (runs_copy_short z c (p_offset p) (p_filesz p) (p_vaddr p)) as (bs & Rc);
      [done|lia|lia|done|done|unfold z; rewrite size_stored; lia..|].
    exists (stored (p_vaddr p) bs z). split; [|by split].
    eapply runs_bind; [apply runs_mem_size|]. btest (g_size (mem s) <? p_vaddr p + p_memsz p).
    eapply runs_bind; [apply runs_zero_segment; lia|]. fold z. btest (0 <? p_filesz p).
    unfold fseek. btest (p_offset p <? 0). eapply runs_bind; [exact Rc|apply runs_ret].
Qed.

(** A header that is loaded or skipped. *)
Lemma runs_good_segment s e i st : wf s ->
  let c := contents (sg_file st) in Forall is_u8 c -> header_ok c e (g_size (mem s)) i ->
  exists st' s', runs (load_segment e i st) s (Some st') s' /\ wf s' /\
    contents (sg_file st') = c /\ same_but_bytes s s'.
Proof.
  intros Hs c Hc [Pe Po]. destruct (decide (loadable (phdr_at c e i))) as [Hl|Hl].
  - specialize (Po Hl). destruct Hl as [Ht Hm].
    destruct (runs_load_segment s e i st Hs Hc Ht Hm Po) as (st' & (Ec & _) & R).
    exists st', (stored (p_vaddr (phdr_at c e i)) (segment_bytes c (phdr_at c e i)) s).
    split; [exact R|]. split; [|split; [exact Ec|apply same_stored]].
    destruct (phdr_range c e i Hc) as (Rv & Rm & Rf & Ro). destruct Po as [_ Pf Pl Pm].
    apply wf_stored; [done|done| |by apply segment_bytes_u8].
    by rewrite segment_bytes_length by done.
  - destruct (runs_skip_segment s e i st Pe Hl) as (f & Ef & R). do 2 eexists.
    split; [exact R|]. split; [done|]. split; [exact Ef|reflexivity].
Qed.

Lemma runs_load_segments_bad n s e i j st : wf s ->
  let c := contents (sg_file st) in Forall is_u8 c -> i <= j < i + Z.of_nat n ->
  (forall k, i <= k < j -> header_ok c e (g_size (mem s)) k) -> bad_phdr c e (g_size (mem s)) j ->
  exists s', runs (load_segments n e i st) s None s' /\ same_but_bytes s s'.
Proof.
  revert s i st. induction n as [|n IH]; intros s i st Hs c Hc Hj Hok Hbad; [lia|].
  cbn [load_segments]. destruct (decide (i = j)) as [->|Hne].
  - destruct (runs_bad_segment s e j st Hs Hc Hbad) as (s' & R & Hs'). exists s'.
    split; [|exact Hs']. eapply runs_bind; [exact R|apply runs_ret].
  - destruct (runs_good_segment s e i st Hs Hc) as (st1 & s1 & R1 & W1 & Ec & Hs1).
    { apply Hok. lia. }
    fold c in Ec. pose proof (sb_size _ _ Hs1) as Ez.
    destruct (IH s1 (i + 1) st1 W1) as (s' & R & Hs').
    + by rewrite Ec.
    + lia.
    + rewrite Ec, Ez. intros k Hk. apply Hok. lia.
    + by rewrite Ec, Ez.
    + exists s'. split; [by eapply runs_bind|]. by etrans.
Qed.

(** What makes the loader refuse a file: there is none; it is shorter than a header; the header
    is not that of a 32-bit little-endian i386 executable; or one of its program headers is
    bad, the ones before it being fine. *)
Inductive bad_file (size : Z) : option (list Z) -> Prop :=
  | bad_missing : bad_file size None
  | bad_short c : Z.of_nat (length c) < SIZEOF_EHDR -> bad_file size (Some c)
  | bad_header c : SIZEOF_EHDR <= Z.of_nat (length c) -> ~ valid_ehdr (file_ehdr c) ->
      bad_file size (Some c)
  | bad_segment c i : SIZEOF_EHDR <= Z.of_nat (length c) -> valid_ehdr (file_ehdr c) ->
      Forall is_u8 c -> 0 <= i < e_phnum (file_ehdr c) ->
      (forall k, 0 <= k < i -> header_ok c (file_ehdr c) size k) ->
      bad_phdr c (file_ehdr c) size i -> bad_file size (Some c).

(** C29: the error paths of the loader.  A missing or truncated file, a file whose header is
    not that of a 32-bit little-endian i386 executable, and a file with a program header that
    cannot be read, whose segment does not fit in guest memory or whose data the file does not
    have, are refused; a refusal may leave bytes in guest memory, but the registers, EIP, the
    kernel's tables and the host are as they were.  These are the checks the loader makes; a
    segment with more bytes in the file than in memory is not refused
    ([Deviations.long_segment_loads]). *)
Theorem load_elf_rejects s file argv : wf s -> bad_file (g_size (mem s)) file ->
  exists s', runs (load_elf file argv) s None s' /\ same_but_bytes s s'.
Proof.
  intros Hs Hb. destruct Hb as [|c Hl|c Hl Hv|c i Hl Hv Hc Hi Hok Hbad].
  - exists s. split; [apply runs_ret|reflexivity].
  - exists s. split; [|reflexivity]. unfold load_elf, fread. cbn [pos contents].
    btest (0 + SIZEOF_EHDR <=? Z.of_nat (length c)). apply runs_ret.
  - exists s. split; [|reflexivity]. apply runs_read_ehdr; [done|].
    destruct (ehdr_ok (file_ehdr c)) eqn:E; [|apply runs_ret].
    apply ehdr_ok_spec in E. contradiction.
  - destruct (runs_load_segments_bad (Z.to_nat (e_phnum (file_ehdr c))) s (file_ehdr c) 0 i
      (mk_seg (mk_file c SIZEOF_EHDR) 0 0 true) Hs Hc) as (s' & R & Hs'); [lia|done|done|].
    exists s'. split; [|exact Hs']. apply runs_read_ehdr; [done|].
    apply ehdr_ok_spec in Hv. rewrite Hv. cbn [negb].
    eapply runs_bind; [exact R|apply runs_ret].
Qed.
End reject.

(** The small executable cut off in its code, and an executable for another machine. *)
Lemma load_elf_rejects_witness :
  let s := toy_machine (replicate 8 7) 0 [] in
  exists s1 s2,
    runs (load_elf (Some (take 100 hello_elf)) hello_argv) s None s1 /\ cpu s1 = cpu s /\
    runs (load_elf (Some (zset hello_elf 18 62)) hello_argv) s None s2 /\ cpu s2 = cpu s.
Proof.
  intros s. assert (wf s) as Hs by (apply wf_toy; vm_compute; reflexivity).
  destruct (load_elf_rejects s (Some (take 100 hello_elf)) hello_argv Hs) as (s1 & R1 & S1).
  { apply (bad_segment _ _ 0).
    - vm_compute. discriminate.
    - apply ehdr_ok_spec. vm_compute. reflexivity.
    - apply (forallb_range 256). vm_compute. reflexivity.
    - split; vm_compute; [discriminate|reflexivity].
    - lia.
    - apply bad_truncated.
      + vm_compute. discriminate.
      + split; vm_compute; [reflexivity|discriminate].
      + vm_compute. discriminate.
      + split; vm_compute; [reflexivity|discriminate].
      + vm_compute. reflexivity. }
  destruct (load_elf_rejects s (Some (zset hello_elf 18 62)) hello_argv Hs) as (s2 & R2 & S2).
  { apply bad_header.
    - vm_compute. discriminate.
    - intros Hv. apply ehdr_ok_spec in Hv. vm_compute in Hv. discriminate. }
  exists s1, s2. split; [exact R1|]. split; [apply S1|]. split; [exact R2|]. apply S2.
Defined.
