(* ===== verification/Deviations.v ===== *)
(** Where the emulator departs from the architecture it emulates, or from what its comments
    and its README say.  Each statement is about the definitions as translated, evaluated on
    concrete machines; the deviations that hold for every input are stated where the
    operation is verified ([Arith.logic32_refines], [Shifts.rotate32_refines],
    [Shifts.div32_refines], [Stack.push_pop_moves], [Arena.mmap2_wraps],
    [Arena.mmap2_allocates], [Files.sys_writev_gathers], [Fpu.fabs_negative_zero]). *)
From S2P Require Import Prelude CInt Machine Logic Loops Mem Flags Backend OpsFpu Toy Syscall.
From S2P Require Import Dispatch Loader Main Exec Alu Load Start.

(** One turn of the loop of [emulate] on the instruction [code] at 0x100. *)
Definition turn (code : list Z) (rs : list Z) (fl : Z) (image : list (Z * list Z))
    : outcome (list Z) (unit + unit) :=
  let s := toy_machine rs 0x100 ((0x100, code) :: image) in
  emulate_body 8 (upd_cpu (upd_eflags (fun _ => fl)) s).
(** What is read off the state after it. *)
Definition after {A} (f : machine (list Z) -> A) (o : outcome (list Z) (unit + unit)) : option A :=
  match o with Ret _ s => Some (f s) | _ => None end.
Definition regs_with (r v : Z) : list Z := zset (replicate 8 0) r v.

(** ** Eight-bit arithmetic takes the sign and the overflow from bit 31 *)

(** CMP AL, 1 with AL = 0 leaves SF = OF = 0 and CF = 1: a signed comparison sees 0 >= 1. *)
Example cmp_al_sign_lost :
  after (fun s => (flag 0 s, flag 7 s, flag 11 s)) (turn [0x3C; 1] (replicate 8 0) 0x2 [])
  = Some (1, 0, 0) /\
  let '(_, f) := alu_sub 8 0 1 0 in (CF f, SF f, OF f) = (true, true, false).
Proof. split; vm_compute; reflexivity. Qed.

(** ** Carries *)

(** ADC EAX, -1 (0x83 /2) with EAX = 5 and CF = 1 adds 2^32: the carry out is lost. *)
Example adc_imm8_drops_carry :
  after (fun s => (rget s REG_EAX, flag 0 s)) (turn [0x83; 0xD0; 0xFF] (regs_with REG_EAX 5) 0x3 [])
  = Some (5, 0) /\
  let '(r, f) := alu_add 32 5 0xFFFFFFFF 1 in (r, CF f) = (5, true).
Proof. split; vm_compute; reflexivity. Qed.

(** SBB EAX, -1 (0x83 /3) with EAX = 5 and CF = 1 loses the borrow. *)
Example sbb_imm8_drops_borrow :
  after (fun s => (rget s REG_EAX, flag 0 s)) (turn [0x83; 0xD8; 0xFF] (regs_with REG_EAX 5) 0x3 [])
  = Some (5, 0) /\
  let '(r, f) := alu_sub 32 5 0xFFFFFFFF 1 in (r, CF f) = (5, true).
Proof. split; vm_compute; reflexivity. Qed.

(** ADC AL, 1 (0x80 /2) ignores CF. *)
Example adc_rm8_ignores_carry :
  after (fun s => rget s REG_EAX) (turn [0x80; 0xD0; 1] (regs_with REG_EAX 5) 0x3 []) = Some 6 /\
  (alu_add 8 5 1 1).1 = 7.
Proof. split; vm_compute; reflexivity. Qed.

(** ADC and SBB with a 32-bit immediate (0x81 /2, /3) halt the processor. *)
Example adc_imm32_halts :
  after (fun s => halted (cpu s)) (turn ([0x81; 0xD0] ++ le_bytes 4 1) (replicate 8 0) 0x2 [])
  = Some 1 /\
  after (fun s => halted (cpu s)) (turn ([0x81; 0xD8] ++ le_bytes 4 1) (replicate 8 0) 0x2 [])
  = Some 1.
Proof. split; vm_compute; reflexivity. Qed.

(** A shift by zero clears CF. *)
Example shift_by_zero_clears_carry :
  after (fun s => flag 0 s) (turn [0xC1; 0xE0; 0] (replicate 8 0) 0x3 []) = Some 0.
Proof. vm_compute. reflexivity. Qed.

(** ** Undefined behaviour of the host program *)

(** NEG of the least integer; ROL of a byte by nine. *)
Example neg_rol_undefined :
  turn [0xF7; 0xD8] (regs_with REG_EAX 0x80000000) 0x2 [] = Undef UB_overflow /\
  turn [0xC0; 0xC0; 9] (replicate 8 0) 0x2 [] = Undef UB_shift.
Proof. split; vm_compute; reflexivity. Qed.

(** ** Thread-local operands *)

(** GS: ADD [EBX], EAX with the GS base at 0x4000 reads the operand there, and writes the sum
    at the address without the base. *)
Example gs_read_modify_write :
  let s := toy_machine [5; 0; 0; 0x200; 0; 0; 0; 0] 0x100
             [(0x100, [0x65; 0x01; 0x03]); (0x4200, [7])] in
  after (fun s => (rd32 (mem s) 0x200, rd32 (mem s) 0x4200))
    (emulate_body 8 (upd_og (upd_gs_base 0x4000) s)) = Some (12, 7).
Proof. vm_compute. reflexivity. Qed.

(** GS: LEA EAX, [EBX] adds the base to the offset. *)
Example gs_lea_adds_base :
  let s := toy_machine [5; 0; 0; 0x200; 0; 0; 0; 0] 0x100 [(0x100, [0x65; 0x8D; 0x03])] in
  after (fun s => rget s REG_EAX)
    (emulate_body 8 (upd_og (upd_gs_base 0x4000) s)) = Some 0x4200.
Proof. vm_compute. reflexivity. Qed.

(** ** The thread block and the end of the image *)

(** An executable of one full page: the last 1016 bytes of the page are lost when the block
    below the thread pointer is cleared, and so is the header of the heap's first chunk. *)
Definition page_elf : list Z :=
  take 84 hello_elf ++ replicate (Z.to_nat (0x1000 - 84)) 0xAA.
Definition page_phdr : list Z :=
  le_bytes 4 1 ++ le_bytes 4 0 ++ le_bytes 4 0x2000 ++ le_bytes 4 0x2000 ++
  le_bytes 4 0x1000 ++ le_bytes 4 0x1000 ++ le_bytes 4 7 ++ le_bytes 4 0x1000.
Example tls_clears_image :
  let file := take 52 page_elf ++ page_phdr ++ drop 84 page_elf in
  match boot 0x20000 (Some file) hello_argv (machine0 (H:=list Z) []) with
  | Ret true s =>
      byte_at (mem s) 0x2C07 = 0xAA /\ byte_at (mem s) 0x2C08 = 0 /\
      byte_at (mem s) 0x2FFF = 0 /\ rd32 (mem s) 0x3004 = 0
  | _ => False
  end.
Proof. vm_compute. repeat split. Qed.

(** ** Segments with more bytes in the file than in memory *)

(** The small executable with the size of its segment in memory cut to one byte: the loader
    accepts it, and copies the whole segment from the file over what lies behind that byte. *)
Example long_segment_loads :
  let file := zset hello_elf 72 1 in
  let p := phdr_at file (file_ehdr file) 0 in
  p_memsz p = 1 /\ 2 <= p_filesz p /\
  match load_elf (Some file) hello_argv (toy_machine (replicate 8 0) 0 []) with
  | Ret (Some _) s =>
      load_bytes (mem s) (p_vaddr p) (Z.to_nat (p_filesz p)) =
      take (Z.to_nat (p_filesz p)) (drop (Z.to_nat (p_offset p)) file)
  | _ => False
  end.
Proof. vm_compute. repeat split; discriminate. Qed.


(** ** Short writes *)

(** [writev(1, {"abc", "d"}, 2)] where the host takes two bytes of a write: "c" is lost between
    the buffers, and the answer is the count 3.  If the host refuses the second buffer, the
    answer is the error, though "ab" was written. *)
Example writev_short_write :
  let s := toy_machine (replicate 8 0) 0x1000
    [(0x2000, [0x61; 0x62; 0x63; 0x64]);
     (0x3000, le_bytes 4 0x2000 ++ le_bytes 4 3 ++ le_bytes 4 0x2003 ++ le_bytes 4 1)] in
  let run bad := match @sys_writev _ (short_host bad) 1 0x3000 2 s with
                 | Ret r s' => Some (r, host s') | _ => None end in
  run 0 = Some (3, [0x61; 0x62; 0x64]) /\ run 0x64 = Some (-5, [0x61; 0x62]).
Proof. split; vm_compute; reflexivity. Qed.
