(* ===== verification/Boot.v ===== *)
(** The start of the emulator: what [main] has set up when it starts the processor.  The
    executable is in memory, the processor is at its entry point with the stack the ABI
    prescribes, the trampoline and the fake thread block are where a C library looks for
    them, and the heap starts above them. *)
From S2P Require Import Prelude CInt Machine Logic Loops Mem Backend OpsFpu Toy Syscall Dispatch.
From S2P Require Import Loader Main Safety Invariant Exec Files Load Start Stack.

(** * Writes to a range of memory *)

(** From [m] to [m'] only bytes from [lo] to [hi] changed. *)
Record wrote (lo hi : Z) (m m' : guest_mem) : Prop := {
  wt_wf : wf_mem m';
  wt_size : g_size m' = g_size m;
  wt_other : forall a, a < lo \/ hi <= a -> byte_at m' a = byte_at m a
}.

Lemma wrote_trans lo hi m m1 m2 : wrote lo hi m m1 -> wrote lo hi m1 m2 -> wrote lo hi m m2.
Proof.
  intros [W1 Z1 O1] [W2 Z2 O2]. split; [done|by rewrite Z2|].
  intros a Ha. by rewrite O2, O1.
Qed.
Lemma wrote_wider lo hi lo' hi' m m' : lo' <= lo -> hi <= hi' ->
  wrote lo hi m m' -> wrote lo' hi' m m'.
Proof. intros Hl Hh [W Z O]. split; [done|done|]. intros a Ha. apply O. lia. Qed.
Lemma wrote_rd32 lo hi m m' a : wrote lo hi m m' -> a + 4 <= lo \/ hi <= a ->
  rd32 m' a = rd32 m a.
Proof. intros [W Z O] Ha. apply rd32_same; [done|]. intros x Hx. apply O. lia. Qed.
Lemma wrote_load lo hi m m' a n : wrote lo hi m m' -> a + Z.of_nat n <= lo \/ hi <= a ->
  load_bytes m' a n = load_bytes m a n.
Proof. intros [W Z O] Ha. apply load_bytes_ext. intros x Hx. apply O. lia. Qed.

Section writes.
Context {H : Type}.
Implicit Types s : machine H.

Definition with_mem (m : guest_mem) s : machine H := upd_mem (fun _ => m) s.

Lemma wrote_wr32 m a v : wf_mem m -> 0 <= a -> wrote a (a + 4) m (wr32 a v m).
Proof.
  intros Hm Ha. split; [by apply wf_mem_wr32|apply wr32_size|]. intros x Hx.
  by apply byte_at_wr32_ne.
Qed.

Lemma runs_put_word s m a v : wf_mem m -> 0 <= a -> a + 4 <= g_size m ->
  runs (mem_write32 a v) (with_mem m s) tt (with_mem (wr32 a v m) s) /\
  wrote a (a + 4) m (wr32 a v m) /\ rd32 (wr32 a v m) a = u32 v.
Proof.
  intros Hm Ha Hr. split; [|split; [by apply wrote_wr32|by apply rd32_wr32]].
  by apply (runs_mem_write32 (with_mem m s)).
Qed.

Lemma runs_write_words n s m a v : wf_mem m -> 0 <= a -> a + 4 * Z.of_nat n <= g_size m ->
  exists m', runs (write_words n a v) (with_mem m s) tt (with_mem m' s) /\
    wrote a (a + 4 * Z.of_nat n) m m' /\
    forall k, 0 <= k < Z.of_nat n -> rd32 m' (a + 4 * k) = u32 v.
Proof.
  revert m a. induction n as [|n IH]; intros m a Hm Ha Hr.
  { exists m. split; [apply runs_ret|]. split; [by split|]. intros k Hk. lia. }
  pose proof (wf_size _ Hm) as Hz.
  destruct (runs_put_word s m a v) as (R1 & W1 & E1); [done|lia..|].
  destruct (IH (wr32 a v m) (a + 4)) as (m' & R & W & E);
    [apply W1|lia|rewrite wr32_size; lia|].
  exists m'. split; [|split].
  - cbn [write_words]. eapply runs_bind; [exact R1|].
    destruct n; [by rewrite <- (u32_small (a + 4)) in R by (unfold is_u32; lia)|].
    by rewrite u32_small by (unfold is_u32; lia).
  - eapply wrote_trans; [by eapply wrote_wider, W1; lia|by eapply wrote_wider, W; lia].
  - intros k Hk. destruct (Z.eq_dec k 0) as [->|Hk0].
    + rewrite Z.mul_0_r, Z.add_0_r, (wrote_rd32 _ _ _ _ _ W) by lia. done.
    + replace (a + 4 * k) with (a + 4 + 4 * (k - 1)) by lia. apply E. lia.
Qed.

Lemma runs_zero_below n s m base i : wf_mem m -> 4 <= i ->
  i + 4 * Z.of_nat n - 4 <= base -> base - i + 4 <= g_size m ->
  exists m', runs (zero_below n base i) (with_mem m s) tt (with_mem m' s) /\
    wrote (base - i - 4 * Z.of_nat n + 4) (base - i + 4) m m'.
Proof.
  revert m i. induction n as [|n IH]; intros m i Hm Hi Hb Hr.
  { exists m. split; [apply runs_ret|by split]. }
  pose proof (wf_size _ Hm) as Hz.
  destruct (runs_put_word s m (base - i) 0) as (R1 & W1 & _); [done|lia..|].
  destruct n as [|n].
  { exists (wr32 (base - i) 0 m). split; [|by eapply wrote_wider, W1; lia].
    cbn [zero_below]. rewrite u32_small by (unfold is_u32; lia).
    eapply runs_bind; [exact R1|apply runs_ret]. }
  destruct (IH (wr32 (base - i) 0 m) (i + 4)) as (m' & R & W);
    [apply W1|lia|lia|rewrite wr32_size; lia|].
  exists m'. split.
  - cbn [zero_below]. rewrite (u32_small (base - i)) by (unfold is_u32; lia).
    by eapply runs_bind.
  - eapply wrote_trans; [by eapply wrote_wider, W1; lia|by eapply wrote_wider, W; lia].
Qed.

(** What the block at the GS base holds. *)
Record tls_block (m : guest_mem) (base : Z) : Prop := {
  tls_self : rd32 m (base + 4) = base /\ rd32 m (base + 8) = base;
  tls_vsyscall : rd32 m (base + 0x10) = STUB_ADDR;
  tls_canary : rd32 m (base + 0x14) = 0xDEADBEEF;
  tls_rest : forall k, 6 <= k < 256 -> rd32 m (base + 4 * k) = STUB_ADDR
}.

Lemma with_mem_same s : with_mem (mem s) s = s.
Proof. by destruct s. Qed.

(** The fields written one by one, last. *)
Lemma runs_tls_fields s m t : wf_mem m -> 0 <= t -> t + 24 <= g_size m ->
  exists m',
    runs (mem_write32 t STUB_ADDR;; mem_write32 (t + 4) t;; mem_write32 (t + 8) t;;
          mem_write32 (t + 20) 0xDEADBEEF;; set_gs_base t) (with_mem m s) tt
      (with_mem m' (upd_og (upd_gs_base t) s)) /\
    wrote t (t + 24) m m' /\ rd32 m' (t + 4) = t /\ rd32 m' (t + 8) = t /\
    rd32 m' (t + 0x10) = rd32 m (t + 0x10) /\ rd32 m' (t + 0x14) = 0xDEADBEEF.
Proof.
  intros Hm Ht Hr. pose proof (wf_size _ Hm) as Hz.
  assert (is_u32 t) as Hu by (unfold is_u32; lia).
  set (m5 := wr32 t STUB_ADDR m). set (m6 := wr32 (t + 4) t m5).
  set (m7 := wr32 (t + 8) t m6). set (m8 := wr32 (t + 20) 0xDEADBEEF m7).
  assert (forall a v n, wf_mem n -> g_size n = g_size m -> t <= a -> a + 4 <= t + 24 ->
    runs (mem_write32 a v) (with_mem n s) tt (with_mem (wr32 a v n) s) /\
    wrote t (t + 24) n (wr32 a v n) /\ g_size (wr32 a v n) = g_size m) as Hput.
  { intros a v n Wn Zn Ha He. rewrite wr32_size. split; [|split; [|done]].
    - apply (runs_mem_write32 (with_mem n s)); [done|lia].
    - eapply wrote_wider, wrote_wr32; [lia|lia|done|lia]. }
  destruct (Hput t STUB_ADDR m) as (R5 & W5 & Z5); [done|done|lia|lia|].
  destruct (Hput (t + 4) t m5) as (R6 & W6 & Z6); [apply W5|done|lia|lia|].
  destruct (Hput (t + 8) t m6) as (R7 & W7 & Z7); [apply W6|done|lia|lia|].
  destruct (Hput (t + 20) 0xDEADBEEF m7) as (R8 & W8 & Z8); [apply W7|done|lia|lia|].
  fold m5 in W5, Z5. fold m6 in W6, Z6. fold m7 in W7, Z7. fold m8 in W8, Z8.
  exists m8. split; [|split; [|split; [|split; [|split]]]].
  - do 4 (eapply runs_bind; [eassumption|]).
    eapply runs_eq; [apply runs_modify|done|]. rewrite (u32_small t) by done. done.
  - eapply wrote_trans; [exact W5|]. eapply wrote_trans; [exact W6|].
    eapply wrote_trans; [exact W7|exact W8].
  - unfold m8, m7. rewrite !rd32_wr32_ne by lia. unfold m6. rewrite rd32_wr32 by lia.
    by apply u32_small.
  - unfold m8. rewrite rd32_wr32_ne by lia. unfold m7. rewrite rd32_wr32 by lia.
    by apply u32_small.
  - unfold m8, m7, m6, m5. by rewrite !rd32_wr32_ne by lia.
  - unfold m8. by rewrite rd32_wr32 by lia.
Qed.

Lemma runs_setup_tls s le : wf_mem (mem s) -> 0x3F8 <= le -> le + 0x408 <= g_size (mem s) ->
  exists m', runs (setup_tls le) s tt
      (with_mem m' (upd_og (upd_gs_base (le + 8)) (upd_kern (upd_brk (le + 0x408)) s))) /\
    wrote (le - 0x3F8) (le + 0x408) (mem s) m' /\ tls_block m' (le + 8).
Proof.
  intros Hm Hl Hr. pose proof (wf_size _ Hm) as Hz. unfold setup_tls.
  change chunk_size with 0x408. cbv zeta.
  rewrite (u32_small (le + 8)), !Z.add_0_r by (unfold is_u32; lia). set (t := le + 8).
  rewrite (u32_small le), (u32_small (le + 4)), (u32_small t), (u32_small (t + 4)),
    (u32_small (t + 8)), (u32_small (t + 20)) by (unfold t, is_u32; lia).
  set (s2 := upd_kern (upd_brk (le + 0x408)) s).
  destruct (runs_put_word s (mem s) le 0) as (R1 & W1 & _); [done|lia..|].
  set (m1 := wr32 le 0 (mem s)) in *. rewrite with_mem_same in R1.
  destruct (runs_put_word s m1 (le + 4) (Z.lor 0x408 1)) as (R2 & W2 & _);
    [apply W1|lia|rewrite (wt_size _ _ _ _ W1); lia|].
  set (m2 := wr32 (le + 4) (Z.lor 0x408 1) m1) in *.
  assert (g_size m2 = g_size (mem s)) as Z2 by (unfold m2, m1; by rewrite !wr32_size).
  destruct (runs_write_words 256 s2 m2 t STUB_ADDR) as (m3 & R3 & W3 & E3);
    [apply W2|unfold t; lia|unfold t; lia|]. pose proof (wt_size _ _ _ _ W3) as Z3.
  destruct (runs_zero_below 256 s2 m3 t 4) as (m4 & R4 & W4); [apply W3|unfold t; lia..|].
  pose proof (wt_size _ _ _ _ W4) as Z4.
  destruct (runs_tls_fields s2 m4 t) as (m5 & R5 & W5 & T4 & T8 & T16 & T20);
    [apply W4|unfold t; lia|unfold t; lia|].
  assert (forall k, 0 <= k < 256 -> rd32 m4 (t + 4 * k) = STUB_ADDR) as Hw.
  { intros k Hk. rewrite (wrote_rd32 _ _ _ _ _ W4) by lia. by rewrite E3. }
  exists m5. split; [|split].
  - eapply runs_bind; [exact R1|]. eapply runs_bind; [exact R2|].
    eapply runs_bind; [apply runs_modify|]. rewrite (u32_small (le + 0x408)) by (unfold is_u32; lia).
    eapply runs_bind; [exact R3|]. eapply runs_bind; [exact R4|]. exact R5.
  - apply (wrote_wider _ _ (le - 0x3F8) (le + 0x408)) in W1, W2, W3, W4, W5; [|unfold t; lia..].
    eapply wrote_trans; [exact W1|]. eapply wrote_trans; [exact W2|].
    eapply wrote_trans; [exact W3|]. eapply wrote_trans; [exact W4|exact W5].
  - constructor.
    + by split.
    + rewrite T16. apply (Hw 4). lia.
    + exact T20.
    + intros k Hk. rewrite (wrote_rd32 _ _ _ _ _ W5) by lia. apply Hw. lia.
Qed.
End writes.

(** * From the command line to the first instruction *)

(** An executable that leaves the low page, the area around its end where the thread block is
    put, and the stack alone. *)
Record bootable (c : list Z) (args : list (list Z)) (size : Z) : Prop := {
  bt_fits : fits_memory c args size;
  bt_header : valid_ehdr (file_ehdr c);
  bt_low : 0x1400 <= page_up (image_end (file_segments c) 0);
  bt_high : page_up (image_end (file_segments c) 0) + 0x408 <= stack_at size args;
  bt_segments : forall p, p ∈ file_segments c ->
    (p_vaddr p + p_memsz p <= 0x1000 \/ 0x1003 <= p_vaddr p) /\
    p_vaddr p + p_memsz p <= page_up (image_end (file_segments c) 0) - 0x3F8
}.

(** The machine that starts to run the executable [c]. *)
Record ready {H} (c : list Z) (args : list (list Z)) (h : H) (size : Z) (s : machine H)
    : Prop := {
  rd_wf : wf s;
  rd_size : g_size (mem s) = size;
  rd_host : host s = h;
  rd_running : halted (cpu s) = 0 /\ cycles (cpu s) = 0;
  rd_entry : eip (cpu s) = e_entry (file_ehdr c);
  rd_regs : forall r, 0 <= r < 8 -> r <> REG_ESP -> rget s r = 0;
  rd_no_prefix : g_seg_override (og s) = 0 /\ g_operand_size_16 (og s) = 0;
  rd_esp : rget s REG_ESP = stack_at size args;
  rd_stack : exists random, abi_stack (mem s) (stack_at size args) args
    (abi_auxv (file_ehdr c) (u32 (image_start (file_segments c) + e_phoff (file_ehdr c))) random);
  rd_image : forall p, p ∈ file_segments c ->
    load_bytes (mem s) (p_vaddr p) (Z.to_nat (p_memsz p)) = segment_bytes c p;
  rd_stub : load_bytes (mem s) STUB_ADDR 3 = stub;
  rd_tls : tls_block (mem s) (g_gs_base (og s));
  rd_heap : g_brk (kern s) = g_gs_base (og s) + 0x400 /\
    forall a, g_brk (kern s) <= a < stack_at size args -> byte_at (mem s) a = 0;
  rd_fds : fd_table (kern s) = [mk_fd 1 0; mk_fd 1 1; mk_fd 1 2] ++ replicate 253 (mk_fd 0 0);
  rd_arena : g_mmap_ptr (kern s) =
    u32 (mmap_arena_start (page_up (image_end (file_segments c) 0)))
}.

Section boot.
Context {H : Type} `{HostOS H} `{FloatOps}.

Definition machine2 (size : Z) (h : H) : machine H := stored STUB_ADDR stub (machine1 size h).

Lemma runs_write_stub size h : 0x1003 <= size < 0x100000000 ->
  runs write_stub (machine1 size h) tt (machine2 size h) /\ wf (machine2 size h).
Proof.
  intros Hz. assert (runs write_stub (machine1 size h) tt (machine2 size h)) as R.
  { unfold machine2. change stub with (le_bytes 1 0xCD ++ le_bytes 1 0x80 ++ le_bytes 1 0xC3).
    rewrite !stored_app. unfold write_stub, STUB_ADDR.
    do 2 (eapply runs_bind; [apply runs_store8; [lia|rewrite ?size_stored; simpl; lia]|]).
    apply runs_store8; [lia|rewrite ?size_stored; simpl; lia]. }
  split; [exact R|]. eapply wf_run; [apply (wf_machine1 size h); lia| |exact R].
  apply resp_write_stub.
Qed.

(** The machine after the thread block was written into [m'] and the arena set up. *)
Definition booted (le : Z) (m' : guest_mem) (L : machine H) : machine H :=
  let start := u32 (mmap_arena_start le) in
  upd_kern (upd_mmap start start)
    (with_mem m' (upd_og (upd_gs_base (le + 8))
      (upd_kern (upd_brk (le + 0x408)) (upd_kern (upd_brk (u32 le)) L)))).

Lemma runs_boot_rest size c argv (h : H) : let args := guest_args argv in
  let le := page_up (image_end (file_segments c) 0) in
  let L := loaded c args (machine2 size h) in
  0x1003 <= size < 0x100000000 -> Forall is_u8 c -> SIZEOF_EHDR <= Z.of_nat (length c) ->
  Forall (Forall is_u8) args -> bootable c args size ->
  exists m', runs (boot_rest (Some c) argv) (machine1 size h) true (booted le m' L) /\
    wrote (le - 0x3F8) (le + 0x408) (mem L) m' /\ tls_block m' (le + 8) /\
    wf (image c (file_segments c) (machine2 size h)) /\
    Forall (full_segment c) (file_segments c).
Proof.
  intros args le L Hz Hc Hl Hb [Hf Hv Hlow Hhigh _]. fold le in Hlow, Hhigh.
  destruct (runs_write_stub size h Hz) as [R1 W1]. set (s1 := machine2 size h) in *.
  destruct (runs_load_elf s1 c argv W1 Hc Hl Hv Hb Hf) as (R2 & Wi & Hfull).
  fold args le L in R2.
  destruct (blocks_placed size args) as (_ & _ & P0 & _ & P1 & P2); [lia|apply Hf|].
  assert (0 <= args_size args) as Pa by (unfold args_size; lia).
  assert (g_size (mem L) = size) as ZL by apply (loaded_frame s1 c args).
  assert (wf L) as WL by (eapply wf_run; [exact W1| |exact R2]; apply resp_load_elf).
  destruct (runs_setup_tls (upd_kern (upd_brk (u32 le)) L) le) as (m' & R3 & W3 & T3);
    [apply WL|lia|change (le + 0x408 <= g_size (mem L)); lia|].
  exists m'. split; [|by split]. unfold boot_rest. eapply runs_bind; [exact R1|].
  eapply runs_bind; [exact R2|]. cbv beta iota. cbn [li_load_end].
  eapply runs_bind; [apply runs_modify|]. eapply runs_bind; [exact R3|].
  eapply runs_bind; [apply runs_modify|]. apply runs_ret.
Qed.

(** The setup succeeds and leaves such a machine. *)
Lemma boot_establishes size c argv (h : H) :
  0x1003 <= size < 0x100000000 -> Forall is_u8 c -> SIZEOF_EHDR <= Z.of_nat (length c) ->
  Forall (Forall is_u8) (guest_args argv) -> bootable c (guest_args argv) size ->
  exists s, runs (boot size (Some c) argv) (machine0 h) true s /\
    ready c (guest_args argv) h size s.
Proof.
  intros Hz Hc Hl Hb Hbt. set (args := guest_args argv) in *. set (ps := file_segments c).
  destruct (runs_boot_rest size c argv h) as (m' & R & W3 & T3 & Wi & Hfull); [done..|].
  fold args ps in R, W3, T3, Hfull. destruct Hbt as [Hf Hv Hlow Hhigh Hseg].
  fold ps in Hlow, Hhigh, Hseg. set (le := page_up (image_end ps 0)) in *.
  destruct (runs_write_stub size h Hz) as [_ W1]. set (s1 := machine2 size h) in *.
  destruct (loaded_spec s1 c args W1 Hc Wi Hfull Hf) as (Ei & Ee & Ab & _ & Hi & Ho).
  destruct (loaded_frame s1 c args) as (Lc & Lo & Lk & Lh & ZL).
  change (g_size (mem s1)) with size in *. set (L := loaded c args s1) in *.
  set (sp := stack_at size args) in *. set (s5 := booted le m' L) in *.
  destruct (blocks_placed size args) as (_ & _ & P0 & _ & P1 & P2); [lia|apply Hf|].
  fold sp in P0, P1. assert (0 <= args_size args) as Pa by (unfold args_size; lia).
  assert (cpu s5 = cpu (rset REG_ESP sp (with_eip (e_entry (file_ehdr c)) s1))) as Ec by exact Lc.
  assert (forall a, sp <= a -> byte_at m' a = byte_at (mem L) a) as Hup
    by (intros a Ha; apply W3; lia).
  exists s5. split; [unfold runs; by rewrite boot_machine1|]. constructor.
  - apply (respects_run _ _ _ _ _ (resp_boot_rest (Some c) argv) R), wf_machine1. lia.
  - change (g_size m' = size). by rewrite (wt_size _ _ _ _ W3).
  - exact Lh.
  - by rewrite Ec.
  - exact Ei.
  - intros r Hr Hne. change (rget s5 r) with (zget (regs (cpu s5)) r). rewrite Ec.
    change (rget (rset REG_ESP sp s1) r = 0). rewrite rget_rset_ne by (unfold REG_ESP in *; lia).
    apply (zget_Forall (fun v => v = 0) (replicate 8 0)); [by apply Forall_replicate|simpl; lia].
  - change (g_seg_override (og L) = 0 /\ g_operand_size_16 (og L) = 0). by rewrite Lo.
  - exact Ee.
  - eexists. eapply abi_stack_above, Ab; [done|apply (wt_size _ _ _ _ W3)|exact Hup].
  - intros p Hp. destruct (Hseg p Hp) as [_ He]. fold le in He.
    assert (full_segment c p) as Hfp
      by (rewrite List.Forall_forall in Hfull; apply Hfull; by apply list_elem_of_In).
    unfold full_segment in Hfp.
    rewrite <- (Hi p Hp). apply (wrote_load _ _ _ _ _ _ W3). left. lia.
  - etrans; [apply (wrote_load _ _ _ _ _ _ W3); left; simpl; unfold STUB_ADDR; lia|].
    etrans; [|apply (load_store_same STUB_ADDR stub (mem (machine1 size h)))].
    apply load_bytes_ext. intros x Hx. simpl length in Hx. unfold STUB_ADDR in Hx.
    apply Ho; [lia|]. intros p Hp. destruct (Hseg p Hp) as [Hs _]. lia.
  - exact T3.
  - split; [change (le + 0x408 = le + 8 + 0x400); lia|].
    intros a Ha. change (g_brk (kern s5)) with (le + 0x408) in Ha.
    etrans; [apply (wt_other _ _ _ _ W3); lia|]. etrans; [apply Ho; [lia|]|].
    + intros p Hp. destruct (Hseg p Hp) as [_ He]. fold le in He. lia.
    + unfold s1, machine2. rewrite byte_stored.
      change (Z.of_nat (length stub)) with 3. unfold STUB_ADDR. bif. done.
  - change (fd_table (kern L) = fd_table (kern (machine1 size h))). by rewrite Lk.
  - done.
Qed.

(** C7: the program up to its first instruction.  Run with the path of an executable which
    leaves the low page, the area around its end and the stack alone, [main] is its loop
    [emulate] followed by the exit status 0, started on a machine that is ready: EIP at the
    entry point, every other register but ESP zero, the ABI's stack at ESP, the segments in
    memory, the trampoline [int 0x80; ret] at 0x1000 with its address at GS:0x10, the thread
    block at the GS base, the heap above it empty, and the standard descriptors open.  Without
    a path the exit status is 1 and nothing is touched.

    ESP is a multiple of 16 ([Start.load_elf_starts] on the comment that says otherwise), and
    the mmap arena starts at 0x0C000000, or above the image, which is the value in the code; the
    comment at main.c:76 says 0x10000000. *)
Theorem main_starts fopen prog path more c fuel pf (h : H) :
  let argv := prog :: path :: more in
  fopen path = Some c -> Forall is_u8 c -> SIZEOF_EHDR <= Z.of_nat (length c) ->
  Forall (Forall is_u8) (guest_args argv) -> bootable c (guest_args argv) GUEST_MEM ->
  main fopen [prog] fuel pf (machine0 h) = Ret EXIT_FAILURE (machine0 h) /\
  exists s, ready c (guest_args argv) h GUEST_MEM s /\
    main fopen argv fuel pf (machine0 h) =
    (emulate fuel pf;; free_mem;; mret EXIT_SUCCESS) s.
Proof.
  intros argv Hf Hc Hl Hb Hbt. split; [reflexivity|].
  destruct (boot_establishes GUEST_MEM c argv h) as (s & R & Hr); try done.
  exists s. split; [exact Hr|]. unfold main, argv. rewrite Hf.
  by rewrite (bind_Ret _ _ _ _ _ R).
Qed.
End boot.

(** The small executable, found under the path "hello". *)
Lemma main_starts_witness :
  let fopen := fun path =>
    if decide (path = [0x68; 0x65; 0x6C; 0x6C; 0x6F]) then Some hello_elf else None in
  exists s, eip (cpu s) = 0x2000 /\ rget s REG_ESP = 0x1FFFFF40 /\
    rd32 (mem s) 0x1FFFFF40 = 2 /\ load_bytes (mem s) 0x1000 3 = [0xCD; 0x80; 0xC3] /\
    main fopen hello_argv 100 8 (machine0 (H:=list Z) []) =
    (emulate 100 8;; free_mem;; mret EXIT_SUCCESS) s.
Proof.
  intros fopen.
  assert (stack_at GUEST_MEM (guest_args hello_argv) = 0x1FFFFF40) as Esp
    by (vm_compute; reflexivity).
  destruct (main_starts fopen [0x66; 0x6B] [0x68; 0x65; 0x6C; 0x6C; 0x6F] [[0x61]] hello_elf
    100 8 (@nil Z)) as (_ & s & Hr & Em).
  - vm_compute. reflexivity.
  - exact hello_bytes.
  - vm_compute. discriminate.
  - exact hello_args.
  - constructor; [apply (hello_fits GUEST_MEM); by right|exact hello_header|..];
      rewrite ?hello_segments.
    + vm_compute. discriminate.
    + vm_compute. discriminate.
    + intros p Hp. apply list_elem_of_singleton in Hp as ->.
      split; [right|]; vm_compute; discriminate.
  - change (guest_args _) with (guest_args hello_argv) in Hr.
    destruct Hr. rewrite Esp in *. destruct rd_stack0 as [random Hst].
    exists s. split; [exact rd_entry0|]. split; [exact rd_esp0|].
    split; [apply Hst|]. split; [exact rd_stub0|exact Em].
Defined.
