(* ===== verification/Run.v ===== *)
(** A program from start to end: straight-line code that loads registers, system calls, and
    the small executable that prints a message and exits. *)
From S2P Require Import Prelude CInt Machine Logic Loops Mem OpsMove OpsFpu Backend Toy Syscall Dispatch.
From S2P Require Import Loader Main Safety Invariant Exec Decode Alu Branch Files Calls Load.
From S2P Require Import Start Stack Arith Boot.

Section straight_line.
Context {H : Type} `{HostOS H} `{FloatOps}.
Implicit Types s : machine H.

(** MOV r32, imm32. *)
Definition mov_code (p : Z * Z) : list Z := (0xB8 + p.1) :: le_bytes 4 p.2.
Definition movs_code (ps : list (Z * Z)) : list Z := concat (mov_code <$> ps).
(** What a register holds after a sequence of them. *)
Definition movs_reg (ps : list (Z * Z)) (v : Z) (r : Z) : Z :=
  foldl (fun v p => if r =? p.1 then p.2 else v) v ps.
Definition mov_ok (p : Z * Z) : Prop := 0 <= p.1 < 8 /\ is_u32 p.2.

(** Nothing but the registers, EIP and the cycle count differ. *)
Record same_world s s' : Prop := {
  sw_bytes : g_mem (mem s') = g_mem (mem s);
  sw_size : g_size (mem s') = g_size (mem s);
  sw_kern : kern s' = kern s;
  sw_host : host s' = host s;
  sw_halted : halted (cpu s') = halted (cpu s)
}.
#[local] Instance same_world_preorder : PreOrder same_world.
Proof. split; [by split|]. intros s t u [] []. split; by etrans. Qed.

Definition moved (p : Z * Z) s : machine H :=
  retire 1 (rset p.1 p.2 (advance 4 (advance 1 (note_eip s)))).

Lemma mov_turn pf s p rest : wf s -> halted (cpu s) = 0 -> cycles_ok 1 s -> mov_ok p ->
  code_at s (mov_code p ++ rest) ->
  estep pf s (moved p s) /\ wf (moved p s) /\ same_world s (moved p s) /\
  code_at (moved p s) rest.
Proof.
  intros Hs Hh Hk [Hr Hv] Hc. destruct p as [r v]. cbn [fst snd] in *.
  pose proof (wf_note_eip _ Hs) as W0. set (t := note_eip s) in *.
  pose proof (code_at_app s [0xB8 + r] (le_bytes 4 v ++ rest) Hs Hc) as [C1 _].
  assert (code_at t ([0xB8 + r] ++ le_bytes 4 v ++ rest)) as Ct by by apply (code_at_same s).
  apply code_at_app in Ct as [_ C2]; [|done]. cbn [length] in C2.
  apply (code_at_app (advance 1 t) (le_bytes 4 v) rest) in C2 as [C2 C3]; [|by apply wf_advance].
  rewrite le_bytes_length in C3.
  assert (wf (rset r v (advance 4 (advance 1 t)))) as W by by apply wf_rset, wf_advance, wf_advance.
  split; [|split; [|split]].
  - eapply runs_emulate_body; [done|done|exact C1|]. fold t. unfold runs.
    rewrite (execute_reg_form pf 0xB8 H_mov_r32_imm32)
      by (first [done|apply table_row; by repeat constructor]).
    cbn [call_plain]. unfold op_mov_r32_imm32. rewrite (reg_of_opcode 0xB8) by done. cbv zeta.
    eapply runs_bind; [apply code_at_fetch32; [by apply wf_advance|done|exact C2]|].
    eapply runs_bind; [apply runs_set_reg|].
    apply runs_retire; [done|lia|exact Hk].
  - apply wf_retire; [done|lia|exact Hk].
  - by split.
  - exact C3.
Qed.

(** A run of them. *)
Lemma movs_run pf ps : forall s rest, wf s -> halted (cpu s) = 0 ->
  cycles_ok (Z.of_nat (length ps)) s -> Forall mov_ok ps -> code_at s (movs_code ps ++ rest) ->
  exists s', nsteps (estep pf) (length ps) s s' /\ wf s' /\ same_world s s' /\
    code_at s' rest /\ cycles (cpu s') = cycles (cpu s) + Z.of_nat (length ps) /\
    forall r, 0 <= r < 8 -> rget s' r = movs_reg ps (rget s r) r.
Proof.
  induction ps as [|p ps IH]; intros s rest Hs Hh Hk Hok Hc.
  { exists s. split; [constructor|]. split; [done|]. split; [reflexivity|]. split; [done|].
    split; [simpl; lia|done]. }
  apply Forall_cons_1 in Hok as [Hp Hok]. cbn [length] in *.
  change (movs_code (p :: ps)) with (mov_code p ++ movs_code ps) in Hc.
  rewrite <- app_assoc in Hc.
  destruct (mov_turn pf s p _ Hs Hh ltac:(unfold cycles_ok in *; lia) Hp Hc) as (E1 & W1 & S1 & C1).
  destruct (IH (moved p s) rest) as (s' & E & W & S & C & K & R); try done.
  - unfold cycles_ok in *. simpl. lia.
  - exists s'. split; [by eapply nsteps_l|]. split; [done|]. split; [by etrans|].
    split; [done|]. split; [rewrite K; simpl; lia|].
    intros r Hr. rewrite R by done. unfold movs_reg. cbn [foldl]. f_equal.
    change (rget (moved p s) r) with (rget (rset p.1 p.2 s) r). destruct Hp as [Hp1 Hp2].
    destruct (Z.eqb_spec r p.1) as [->|Hne].
    + rewrite rget_rset_eq by done. by apply u32_small.
    + by apply rget_rset_ne; lia.
Qed.
End straight_line.

Section calls.
Context {H : Type} `{HostOS H} `{FloatOps}.
Implicit Types s : machine H.

Lemma dispatch_write s hfd : rget s REG_EAX = 4 -> rget s REG_EBX = 1 ->
  0 <= rget s REG_ECX -> 0 < rget s REG_EDX ->
  rget s REG_ECX + rget s REG_EDX <= g_size (mem s) -> fd_host (kern s) 1 = Some hfd ->
  let r := os_write hfd (load_bytes (mem s) (rget s REG_ECX) (Z.to_nat (rget s REG_EDX)))
             (host s) in
  runs dispatch_syscall s tt (rset REG_EAX (int_result r.1) (upd_host (fun _ => r.2) s)).
Proof.
  intros Ea Eb Hc Hd Hr Hf r. unfold dispatch_syscall.
  do 7 (eapply runs_bind; [apply runs_reg|]). rewrite Ea, Eb.
  change (switch 4 _ _) with (ret_eax (sys_write 1 (rget s REG_ECX) (rget s REG_EDX))).
  unfold ret_eax. eapply runs_bind; [by apply (runs_sys_write s 1 _ _ hfd)|]. apply runs_set_reg.
Qed.

(** A system call that ends the process. *)
Lemma int80_exits pf s st t : wf s -> halted (cpu s) = 0 -> code_at s [0xCD; 0x80] ->
  dispatch_syscall (entering_kernel s) = Exited st t -> emulate_body pf s = Exited st t.
Proof.
  intros Hs Hh Hc Hd. pose proof (code_at_app s [0xCD] [0x80] Hs Hc) as [C1 _].
  assert (code_at (note_eip s) ([0xCD] ++ [0x80])) as Ct by by apply (code_at_same s).
  apply code_at_app in Ct as [_ C2]; [|by apply wf_note_eip]. cbn [length] in C2.
  rewrite (emulate_body_execute pf s 0xCD) by done. unfold mbind at 1, M_bind at 1.
  rewrite execute_int. unfold op_int.
  rewrite (bind_Ret _ _ _ 0x80 (entering_kernel s))
    by (apply code_at_fetch8; [by apply wf_advance, wf_note_eip|exact C2]).
  cbn [Z.eqb Pos.eqb]. unfold mbind, M_bind. by rewrite Hd.
Qed.

Lemma emulate_exits pf n s s' st t : nsteps (estep pf) n s s' ->
  emulate_body pf s' = Exited st t -> forall fuel, (n < fuel)%nat ->
  emulate fuel pf s = Exited st t.
Proof.
  intros Hn. induction Hn as [s|n s1 s2 s3 E _ IH]; intros Hx fuel Hf;
    (destruct fuel as [|fuel]; [lia|]); cbn [emulate].
  - unfold mbind, M_bind. by rewrite Hx.
  - rewrite (bind_Ret _ _ _ _ _ E). apply IH; [done|lia].
Qed.
End calls.

(** * Hello, world *)

(** [write(1, msg, sizeof msg); exit(status);] as an executable of one segment at 0x2000. *)
Definition write_args (msg : list Z) : list (Z * Z) :=
  [(REG_EAX, 4); (REG_EBX, 1); (REG_ECX, 0x2022); (REG_EDX, Z.of_nat (length msg))].
Definition exit_args (status : Z) : list (Z * Z) := [(REG_EAX, 1); (REG_EBX, status)].
Definition say_code (msg : list Z) (status : Z) : list Z :=
  movs_code (write_args msg) ++ [0xCD; 0x80] ++ movs_code (exit_args status) ++ [0xCD; 0x80] ++
  msg.
Definition say_phdr (n : Z) : list Z :=
  le_bytes 4 1 ++ le_bytes 4 84 ++ le_bytes 4 0x2000 ++ le_bytes 4 0x2000 ++
  le_bytes 4 n ++ le_bytes 4 n ++ le_bytes 4 5 ++ le_bytes 4 0x1000.
Definition say_elf (msg : list Z) (status : Z) : list Z :=
  take 52 hello_elf ++ say_phdr (34 + Z.of_nat (length msg)) ++ say_code msg status.

Lemma say_code_length msg status : length (say_code msg status) = (34 + length msg)%nat.
Proof. reflexivity. Qed.

Lemma say_elf_length msg status : length (say_elf msg status) = (118 + length msg)%nat.
Proof. reflexivity. Qed.

Lemma say_ehdr msg status : file_ehdr (say_elf msg status) = file_ehdr hello_elf.
Proof. reflexivity. Qed.

Lemma le_field n : is_u32 n -> le_value (le_bytes 4 n) = n.
Proof. intros Hn. rewrite le_value_bytes. by apply u32_small. Qed.

Lemma say_phdr_at msg status : Z.of_nat (length msg) <= 3000 ->
  let n := 34 + Z.of_nat (length msg) in
  phdr_at (say_elf msg status) (file_ehdr hello_elf) 0 = mk_phdr 1 84 0x2000 0x2000 n n 5 0x1000.
Proof.
  intros Hl n. assert (is_u32 n) as Hn by (unfold n, is_u32; lia).
  change (phdr_at _ _ 0) with (mk_phdr 1 84 0x2000 0x2000 (le_value (le_bytes 4 n))
    (le_value (le_bytes 4 n)) 5 0x1000). by rewrite le_field.
Qed.

Section say.
Context (msg : list Z) (status : Z).
Hypothesis (Hmsg : Forall is_u8 msg) (Hlen : (0 < length msg)%nat /\ Z.of_nat (length msg) <= 3000).
Hypothesis (Hst : 0 <= status < 0x80000000).
#[local] Abbreviation elf := (say_elf msg status).
#[local] Abbreviation n := (34 + Z.of_nat (length msg)).
#[local] Abbreviation ph := (mk_phdr 1 84 0x2000 0x2000 n n 5 0x1000).

Lemma say_code_u8 : Forall is_u8 (say_code msg status).
Proof.
  assert (forall r v, is_u8 (0xB8 + r) -> Forall is_u8 (mov_code (r, v))) as Hmov
    by (intros r v Hr; constructor; [exact Hr|apply le_bytes_u8]).
  unfold say_code, movs_code, write_args, exit_args. cbn [fmap list_fmap concat].
  repeat (apply Forall_app_2); try (apply Hmov; done); try apply Forall_nil_2; try exact Hmsg;
    repeat (apply Forall_cons_2; [done|]); apply Forall_nil_2.
Qed.

Lemma say_bytes : Forall is_u8 elf.
Proof.
  apply Forall_app_2; [apply Forall_take, hello_bytes|].
  apply Forall_app_2; [|exact say_code_u8]. unfold say_phdr.
  repeat (apply Forall_app_2; [apply le_bytes_u8|]). apply le_bytes_u8.
Qed.

Lemma say_segments : file_segments elf = [ph].
Proof.
  unfold file_segments. rewrite say_ehdr. change (Z.to_nat (e_phnum (file_ehdr hello_elf))) with 1%nat.
  cbn [segments]. rewrite say_phdr_at by apply Hlen. rewrite decide_True; [done|].
  split; [done|]. cbn [p_memsz]. lia.
Qed.

Lemma say_segment_bytes : segment_bytes elf ph = say_code msg status.
Proof.
  unfold segment_bytes. cbn [p_offset p_filesz p_memsz]. rewrite Z.sub_diag. cbn [Z.to_nat replicate].
  rewrite app_nil_r. unfold file_bytes. change (drop (Z.to_nat 84) elf) with (say_code msg status).
  apply take_ge. rewrite say_code_length. lia.
Qed.

Lemma say_page_up : page_up (image_end [ph] 0) = 0x3000.
Proof.
  change (image_end [ph] 0) with (Z.max 0 (0x2000 + n)). unfold page_up.
  rewrite (u32_small (_ + 0xFFF)) by (unfold is_u32; lia).
  rewrite (land_clear 12) by (unfold is_u32; lia). change (2 ^ 12) with 0x1000.
  Z.div_mod_to_equations. lia.
Qed.

Lemma say_bootable args : args_size args + 4 * Z.of_nat (length args) <= 0x1000000 ->
  bootable elf args GUEST_MEM.
Proof.
  intros Ha. assert (0 <= args_size args) as H0 by (unfold args_size; lia).
  assert (stack_fits GUEST_MEM args) as Hf by (unfold stack_fits, GUEST_MEM; lia).
  assert (0x3408 <= stack_at GUEST_MEM args) as Hsp
    by (unfold stack_at, strings_at, GUEST_MEM; cbv zeta; Z.div_mod_to_equations; lia).
  constructor; rewrite ?say_segments, ?say_page_up.
  - constructor; rewrite ?say_segments, ?say_ehdr.
    + change (e_phnum (file_ehdr hello_elf)) with 1. intros i Hi. replace i with 0 by lia.
      assert (u32 (e_phoff (file_ehdr hello_elf) + u32 (0 * e_phentsize (file_ehdr hello_elf)))
        + SIZEOF_PHDR <= Z.of_nat (length elf)) as Hr
        by (rewrite say_elf_length; change (84 <= Z.of_nat (118 + length msg)); lia).
      split; [exact Hr|]. intros _. split; [exact Hr|..]; rewrite say_phdr_at by apply Hlen;
        rewrite ?say_elf_length; cbn [p_filesz p_memsz p_offset p_vaddr]; unfold GUEST_MEM; lia.
    + repeat constructor.
    + exact Hf.
    + intros p Hp. apply list_elem_of_singleton in Hp as ->. cbn [p_vaddr p_memsz]. lia.
  - rewrite say_ehdr. exact hello_header.
  - lia.
  - lia.
  - intros p Hp. apply list_elem_of_singleton in Hp as ->. cbn [p_vaddr p_memsz]. lia.
Qed.
End say.

Section hello.
Context {H : Type} `{HostOS H} `{FloatOps}.
Implicit Types s : machine H.

(** [int 0x80] with the registers of a write to a descriptor that is open. *)
Lemma write_turn pf s p m hfd rest r (h' : H) :
  wf s -> halted (cpu s) = 0 -> cycles_ok 50 s -> code_at s ([0xCD; 0x80] ++ rest) ->
  rget s REG_EAX = 4 -> rget s REG_EBX = 1 -> rget s REG_ECX = p ->
  rget s REG_EDX = Z.of_nat (length m) -> 0 <= p -> (0 < length m)%nat ->
  p + Z.of_nat (length m) <= g_size (mem s) -> load_bytes (mem s) p (length m) = m ->
  fd_host (kern s) 1 = Some hfd -> os_write hfd m (host s) = (r, h') ->
  exists s', estep pf s s' /\ wf s' /\ code_at s' rest /\ halted (cpu s') = 0 /\
    cycles (cpu s') = cycles (cpu s) + 50 /\ host s' = h'.
Proof.
  intros Hs Hh Hk Hc Ra Rb Rc Rd Hp Hm Hr Hl Hf Hw.
  pose proof (code_at_app s [0xCD; 0x80] rest Hs Hc) as [C1 C2].
  set (t := entering_kernel s). pose proof (dispatch_write t hfd Ra Rb) as R.
  change (rget t REG_ECX) with (rget s REG_ECX) in R.
  change (rget t REG_EDX) with (rget s REG_EDX) in R. rewrite Rc, Rd, Nat2Z.id in R.
  rewrite (load_bytes_same (mem t) (mem s)), Hl in R by done.
  change (host t) with (host s) in R. rewrite Hw in R.
  specialize (R Hp ltac:(lia) Hr Hf). cbv zeta in R. cbn [fst snd] in R.
  set (s2 := rset REG_EAX (int_result r) (upd_host (fun _ => h') t)) in R.
  assert (wf s2) as W2.
  { apply wf_rset. destruct (wf_advance 1 _ (wf_advance 1 _ (wf_note_eip _ Hs))).
    by constructor. }
  exists (retire 50 s2). split; [by apply int80_turn|].
  split; [apply wf_retire; [done|lia|exact Hk]|]. split; [|by split].
  apply (code_at_same (advance 2 s)); [done|done| |exact C2].
  change (u32 (u32 (eip (cpu s) + 1) + 1) = u32 (eip (cpu s) + 2)).
  rewrite u32_add_l. f_equal. lia.
Qed.

(** The code that [say_elf] puts at 0x2000, run from there. *)
Lemma say_code_exits pf s0 msg status r (h' : H) :
  wf s0 -> halted (cpu s0) = 0 -> cycles (cpu s0) = 0 -> eip (cpu s0) = 0x2000 ->
  0x3000 <= g_size (mem s0) -> fd_host (kern s0) 1 = Some 1 ->
  (0 < length msg)%nat /\ Z.of_nat (length msg) <= 3000 -> 0 <= status < 0x80000000 ->
  load_bytes (mem s0) 0x2000 (length (say_code msg status)) = say_code msg status ->
  os_write 1 msg (host s0) = (r, h') ->
  exists s4 t, nsteps (estep pf) 7 s0 s4 /\ emulate_body pf s4 = Exited status t /\ host t = h'.
Proof.
  intros W0 Hh Hk Hip Hsz Hfd Hl Hst Hcode Hw.
  assert (load_bytes (mem s0) 0x2022 (length msg) = msg) as Hmsg.
  { rewrite say_code_length, load_bytes_app in Hcode. unfold say_code in Hcode.
    rewrite !app_assoc in Hcode. by apply app_inj_1 in Hcode as [_ Hm]. }
  assert (code_at s0 (say_code msg status)) as C0.
  { split; rewrite Hip; [done|]. rewrite say_code_length. lia. }
  assert (Forall mov_ok (write_args msg) /\ Forall mov_ok (exit_args status)) as [M1 M2].
  { split; repeat (apply Forall_cons_2; [by split; cbn [fst snd]; unfold is_u32,
      REG_EAX, REG_EBX, REG_ECX, REG_EDX; lia|]); apply Forall_nil_2. }
  destruct (movs_run pf (write_args msg) s0 _ W0 Hh
    ltac:(unfold cycles_ok, INT_MAX; cbn [write_args length]; lia) M1 C0)
    as (s1 & E1 & W1 & [B1 Z1 N1 O1 X1] & C1 & K1 & R1).
  rewrite Hh in X1. rewrite Hk in K1. cbn [write_args length] in K1.
  pose proof (R1 REG_EAX ltac:(done)) as Ra. pose proof (R1 REG_EBX ltac:(done)) as Rb.
  pose proof (R1 REG_ECX ltac:(done)) as Rc. pose proof (R1 REG_EDX ltac:(done)) as Rd.
  cbn in Ra, Rb, Rc, Rd.
  destruct (write_turn pf s1 0x2022 msg 1 _ r h' W1 X1
    ltac:(unfold cycles_ok, INT_MAX; lia) C1 Ra Rb Rc Rd) as (s2 & E2 & W2 & C2 & X2 & K2 & O2);
    [lia|lia|lia|by rewrite (load_bytes_same _ (mem s0))|by rewrite N1|by rewrite O1|].
  destruct (movs_run pf (exit_args status) s2 _ W2 X2
    ltac:(unfold cycles_ok, INT_MAX; cbn [exit_args length]; lia) M2 C2)
    as (s3 & E3 & W3 & [_ _ _ O3 X3] & C3 & _ & R3).
  pose proof (R3 REG_EAX ltac:(done)) as Qa. pose proof (R3 REG_EBX ltac:(done)) as Qb.
  cbn in Qa, Qb. apply (code_at_app s3 [0xCD; 0x80] msg) in C3 as [C3 _]; [|done].
  exists s3, (upd_cpu (upd_halted (fun _ => 1)) (entering_kernel s3)).
  split; [|split; [|by rewrite <- O2, <- O3]].
  - change 7%nat with (4 + (1 + 2))%nat. eapply nsteps_trans; [exact E1|].
    eapply nsteps_l; [exact E2|exact E3].
  - apply int80_exits; [done|by rewrite X3|done|].
    rewrite dispatch_exit by (left; exact Qa). f_equal.
    change (rget (entering_kernel s3) REG_EBX) with (rget s3 REG_EBX). rewrite Qb.
    apply s32_small. lia.
Qed.

(** C6: a program from start to end.  For every message of at most 3000 bytes, status and
    host, the emulator run on the executable [write(1, msg, sizeof msg); exit(status);], with
    any arguments that fit in 16 MiB, terminates: it hands the message to the host's
    descriptor 1, once, and ends with the status, within eight instructions, whatever
    the host answers. *)
Theorem say_terminates fopen prog path more msg status (h h' : H) r fuel pf :
  let argv := prog :: path :: more in let args := guest_args argv in
  fopen path = Some (say_elf msg status) -> Forall is_u8 msg ->
  (0 < length msg)%nat /\ Z.of_nat (length msg) <= 3000 -> 0 <= status < 0x80000000 ->
  Forall (Forall is_u8) args -> args_size args + 4 * Z.of_nat (length args) <= 0x1000000 ->
  os_write 1 msg h = (r, h') -> (8 <= fuel)%nat ->
  exists s, main fopen argv fuel pf (machine0 h) = Exited status s /\ host s = h'.
Proof.
  intros argv args Hf Hm Hl Hst Ha Hfit Hw Hfuel.
  destruct (boot_establishes GUEST_MEM (say_elf msg status) argv h) as (s0 & R & Hr).
  - unfold GUEST_MEM. lia.
  - by apply say_bytes.
  - rewrite say_elf_length. change (52 <= Z.of_nat (118 + length msg)). lia.
  - exact Ha.
  - by apply say_bootable.
  - destruct (say_code_exits pf s0 msg status r h') as (s4 & t & E & Ex & Ht).
    + apply (rd_wf _ _ _ _ _ Hr).
    + apply (rd_running _ _ _ _ _ Hr).
    + apply (rd_running _ _ _ _ _ Hr).
    + apply (rd_entry _ _ _ _ _ Hr).
    + rewrite (rd_size _ _ _ _ _ Hr). unfold GUEST_MEM. lia.
    + unfold fd_host. by rewrite (rd_fds _ _ _ _ _ Hr).
    + done.
    + done.
    + pose proof (rd_image _ _ _ _ _ Hr) as Hi. rewrite say_segments in Hi by done.
      specialize (Hi _ ltac:(apply elem_of_cons; by left)). cbn [p_vaddr p_memsz] in Hi.
      rewrite say_segment_bytes in Hi by done. rewrite say_code_length.
      by replace (34 + length msg)%nat with (Z.to_nat (34 + Z.of_nat (length msg))) by lia.
    + by rewrite (rd_host _ _ _ _ _ Hr).
    + exists t. split; [|exact Ht]. unfold main, argv. rewrite Hf.
      rewrite (bind_Ret _ _ _ _ _ R). cbn [negb]. unfold mbind at 1, M_bind at 1.
      by rewrite (emulate_exits pf 7 s0 s4 status t E Ex) by lia.
Qed.
End hello.

(** "Hi" to a host that collects what is written. *)
Lemma say_terminates_witness :
  exists s, main (fun _ => Some (say_elf [0x48; 0x69; 0x0A] 7)) hello_argv 10 8
              (machine0 (H:=list Z) []) = Exited 7 s /\ host s = [0x48; 0x69; 0x0A].
Proof.
  apply (say_terminates (fun _ => Some (say_elf [0x48; 0x69; 0x0A] 7)) [0x66; 0x6B]
    [0x68; 0x65; 0x6C; 0x6C; 0x6F] [[0x61]] [0x48; 0x69; 0x0A] 7 (@nil Z) [0x48; 0x69; 0x0A] (inr 3)).
  - reflexivity.
  - repeat constructor; unfold is_u8; lia.
  - cbn [length]. lia.
  - lia.
  - exact hello_args.
  - vm_compute. discriminate.
  - reflexivity.
  - lia.
Defined.
