(* ===== verification/Move.v ===== *)
(** Data movement against the architecture: MOV, XCHG, LEA, the conditional and the extending
    moves, each as a whole turn of the emulator's loop - fetch, decode, execute. *)
From S2P Require Import Prelude CInt Machine Logic Mem Flags ModRM OpsAlu OpsMove OpsFpu.
From S2P Require Import Backend Toy Dispatch Safety Invariant Exec Decode Alu Branch.

(** The instructions, by what they do. *)
Inductive move :=
  | MOV_TO | MOV_FROM | XCHG | LEA
  | CMOV (c : Z) | MOVZX8 | MOVZX16 | MOVSX8 | MOVSX16.

Definition move_opcode (k : move) : list Z :=
  match k with
  | MOV_TO => [0x89] | MOV_FROM => [0x8B] | XCHG => [0x87] | LEA => [0x8D]
  | CMOV c => [0x0F; 0x40 + c]
  | MOVZX8 => [0x0F; 0xB6] | MOVZX16 => [0x0F; 0xB7]
  | MOVSX8 => [0x0F; 0xBE] | MOVSX16 => [0x0F; 0xBF]
  end.

(** Sixteen condition codes; LEA takes an address. *)
Definition move_ok (k : move) (o : operand) : Prop :=
  match k with
  | CMOV c => 0 <= c < 16
  | LEA => match o with OMem _ _ _ => True | OReg _ => False end
  | _ => True
  end.

Section move.
Context {H : Type} `{HostOS H} `{FloatOps}.
Implicit Types s : machine H.

(** Narrow operands. *)
Definition rd_opd8 s (o : operand) : Z :=
  match o with
  | OReg r => rget8 s r
  | OMem b ix d => rd8 (mem s) (opd_addr s b ix d)
  end.
Definition rd_opd16 s (o : operand) : Z :=
  match o with
  | OReg r => u16 (rget s r)
  | OMem b ix d => rd16 (mem s) (opd_addr s b ix d)
  end.

(** The effect of the instruction on decoded operands. *)
Definition move_step (k : move) (rg : Z) (o : operand) s : machine H :=
  match k with
  | MOV_TO => retire 2 (wr_opd o (rget s rg) s)
  | MOV_FROM => retire 2 (rset rg (rd_opd s o) s)
  | XCHG => retire 2 (rset rg (rd_opd s o) (wr_opd o (rget s rg) s))
  | LEA => retire 1 (rset rg (match o with OMem b ix d => ea s b ix d | OReg _ => 0 end) s)
  | CMOV c =>
      retire 2 (if cond c (status_of (eflags (cpu s))) then rset rg (rd_opd s o) s else s)
  | MOVZX8 => retire 2 (rset rg (rd_opd8 s o) s)
  | MOVZX16 => retire 2 (rset rg (rd_opd16 s o) s)
  | MOVSX8 => retire 2 (rset rg (signed 8 (rd_opd8 s o)) s)
  | MOVSX16 => retire 2 (rset rg (signed 16 (rd_opd16 s o)) s)
  end.

Section with_decoded.
Context (m : ModRM) (rg : Z) (o : operand) s (D : decoded m rg o s).

Lemma dc_read8 : runs (read_rm8 m) s (rd_opd8 s o) s.
Proof.
  destruct D as [Hs Hg _ Ho _ Hm]. unfold read_rm8. destruct o as [r|b ix d].
  - destruct Hm as [-> ->]. apply runs_get_reg8.
  - pose proof Hm as [H3 _]. btest (mrm_mod m =? 3).
    eapply runs_bind; [by eapply runs_resolve, operand_ok_index|].
    rewrite with_seg_same by done. apply runs_mem_read8, u32_range.
Qed.
Lemma dc_read16 : runs (read_rm16 m) s (rd_opd16 s o) s.
Proof.
  destruct D as [Hs Hg _ Ho _ Hm]. unfold read_rm16. destruct o as [r|b ix d].
  - destruct Hm as [-> ->]. eapply runs_bind; [apply runs_reg|apply runs_ret].
  - pose proof Hm as [H3 _]. btest (mrm_mod m =? 3).
    eapply runs_bind; [by eapply runs_resolve, operand_ok_index|].
    rewrite with_seg_same by done. apply runs_mem_read16; [apply Hs|apply u32_range].
Qed.
End with_decoded.

(** ** Fetching the opcode and decoding the operands *)

Lemma decode_after (Q : machine H -> Prop) pf s n t rg o body h op :
  wf t -> seg t = 0 -> 0 <= rg < 8 -> operand_ok o -> code_at t (encode rg o) ->
  t = advance n (note_eip s) ->
  (forall s', runs (call_plain h op) t tt s' -> estep pf s s') ->
  call_plain (H:=H) h op = (m ← parse_modrm; body m) ->
  (forall m, decoded m rg o (advance (n + length (encode rg o)) (note_eip s)) ->
     exists s', Q s' /\ runs (body m) (advance (n + length (encode rg o)) (note_eip s)) tt s') ->
  exists s', Q s' /\ estep pf s s'.
Proof.
  intros Ht Hg Hrg Ho Hc -> Hturn Eb Hbody.
  destruct (decode_instruction _ rg o Ht Hg Hrg Ho Hc) as (m & D & Hp).
  rewrite advance_advance in D, Hp. destruct (Hbody m D) as (s' & HQ & Hr).
  exists s'. split; [done|]. apply Hturn. rewrite Eb. by eapply runs_bind.
Qed.

Lemma one_byte_turn_ex (Q : machine H -> Prop) pf s opc h rg o body :
  wf s -> halted (cpu s) = 0 -> seg s = 0 -> 0 <= rg < 8 -> operand_ok o ->
  code_at s ([opc] ++ encode rg o) -> zget opcode_table opc = h ->
  (forall exec, call_handler exec call_0f h opc = call_plain (H:=H) h opc) ->
  call_plain (H:=H) h opc = (m ← parse_modrm; body m) ->
  (forall m, decoded m rg o (advance (length ([opc] ++ encode rg o)) (note_eip s)) ->
     exists s', Q s' /\
       runs (body m) (advance (length ([opc] ++ encode rg o)) (note_eip s)) tt s') ->
  exists s', Q s' /\ estep pf s s'.
Proof.
  intros Hs Hh Hg Hrg Ho Hc Ht Hpl Eb Hbody.
  pose proof (code_at_app s [opc] _ Hs Hc) as [C1 _].
  assert (code_at (note_eip s) ([opc] ++ encode rg o)) as Cn by by apply (code_at_same s).
  apply code_at_app in Cn as [_ C2]; [|by apply wf_note_eip].
  eapply (decode_after Q pf s 1 (advance 1 (note_eip s)) rg o body h opc);
    [by apply wf_advance, wf_note_eip|done|done|done|exact C2|done| |exact Eb|exact Hbody].
  intros t Hr. eapply runs_emulate_body; [done|done|exact C1|].
  unfold runs. by rewrite (execute_plain pf opc h).
Qed.

Lemma one_byte_turn pf s opc h rg o body s' :
  wf s -> halted (cpu s) = 0 -> seg s = 0 -> 0 <= rg < 8 -> operand_ok o ->
  code_at s ([opc] ++ encode rg o) -> zget opcode_table opc = h ->
  (forall exec, call_handler exec call_0f h opc = call_plain (H:=H) h opc) ->
  call_plain (H:=H) h opc = (m ← parse_modrm; body m) ->
  (forall m, decoded m rg o (advance (length ([opc] ++ encode rg o)) (note_eip s)) ->
     runs (body m) (advance (length ([opc] ++ encode rg o)) (note_eip s)) tt s') ->
  estep pf s s'.
Proof.
  intros. edestruct (one_byte_turn_ex (eq s') pf s opc h rg o body) as (? & <- & E); eauto.
Qed.

Lemma two_byte_turn pf s op2 h rg o body s' :
  wf s -> halted (cpu s) = 0 -> seg s = 0 -> 0 <= rg < 8 -> operand_ok o ->
  code_at s ([0x0F; op2] ++ encode rg o) -> zget opcode_table_0f op2 = h ->
  call_plain (H:=H) h op2 = (m ← parse_modrm; body m) ->
  (forall m, decoded m rg o (advance (length ([0x0F; op2] ++ encode rg o)) (note_eip s)) ->
     runs (body m) (advance (length ([0x0F; op2] ++ encode rg o)) (note_eip s)) tt s') ->
  estep pf s s'.
Proof.
  intros Hs Hh Hg Hrg Ho Hc Ht Eb Hbody.
  pose proof (code_at_app s [0x0F] (op2 :: encode rg o) Hs Hc) as [C1 _].
  assert (code_at (note_eip s) ([0x0F] ++ [op2] ++ encode rg o)) as Cn by by apply (code_at_same s).
  assert (wf (note_eip s)) as Wn by by apply wf_note_eip.
  apply code_at_app in Cn as [_ C2]; [|done].
  apply code_at_app in C2 as [C2 C3]; [|by apply wf_advance].
  rewrite advance_advance in C3.
  edestruct (decode_after (eq s') pf s 2 (advance 2 (note_eip s)) rg o body h op2)
    as (? & <- & E);
    [by apply wf_advance|done|done|done|exact C3|done| |exact Eb| |exact E];
    [|intros m D; exists s'; split; [done|exact (Hbody m D)]].
  intros t Hr. eapply runs_emulate_body; [done|done|exact C1|].
  assert (execute_opcode (H:=H) pf 0x0F = op_prefix_0f call_0f 0x0F) as -> by by destruct pf.
  unfold op_prefix_0f. eapply runs_bind; [apply code_at_fetch8; [by apply wf_advance|exact C2]|].
  rewrite advance_advance. unfold call_0f. by rewrite Ht.
Qed.

(** ** The instructions *)

Lemma cmov_row c : 0 <= c < 16 -> zget opcode_table_0f (0x40 + c) = H_cmovcc.
Proof.
  intros Hc. assert (Forall (fun c => zget opcode_table_0f (0x40 + c) = H_cmovcc)
    [0; 1; 2; 3; 4; 5; 6; 7; 8; 9; 10; 11; 12; 13; 14; 15]) as Hall by by repeat constructor.
  rewrite List.Forall_forall in Hall. apply Hall. cbn [In]. lia.
Qed.

Lemma rd_opd8_u8 s o : wf s -> is_u8 (rd_opd8 s o).
Proof.
  intros Hs. destruct o; simpl; [|apply rd8_range, Hs].
  unfold rget8. destruct (_ <? _); apply u8_range.
Qed.
Lemma rd_opd16_u16 s o : wf s -> is_u16 (rd_opd16 s o).
Proof. intros Hs. destruct o; simpl; [apply u16_range|apply rd16_range, Hs]. Qed.

(** The handlers end with a register or memory write and the cycle count. *)
Lemma runs_set_done k rg v s : wf s -> 0 <= k -> cycles_ok k s ->
  runs (set_reg rg v;; add_cycles k) s tt (retire k (rset rg v s)).
Proof.
  intros Hs Hk Hc. eapply runs_bind; [apply runs_set_reg|].
  apply runs_retire; [by apply wf_rset|done|exact Hc].
Qed.

(** A write of the register field's register, and of the r/m operand, with the cycles. *)
Lemma dc_set_done k m rg o v s : decoded m rg o s -> 0 <= k -> cycles_ok k s ->
  runs (set_reg (mrm_reg m) v;; add_cycles k) s tt (retire k (rset rg v s)).
Proof.
  intros D Hk Hc. rewrite (dc_reg _ _ _ _ D). apply runs_set_done; [apply D|done|done].
Qed.

#[local] Ltac one_byte_by pf s h rg o :=
  eapply (one_byte_turn pf s _ h rg o);
    [eassumption..|reflexivity|done|reflexivity|]; intros m D; cbv beta.
#[local] Ltac two_byte_by pf s h rg o row :=
  eapply (two_byte_turn pf s _ h rg o);
    [eassumption..|exact row|reflexivity|]; intros m D; cbv beta.

(** C18: the moves.  A turn of the emulator on MOV, XCHG, LEA, CMOVcc, MOVZX or MOVSX with any
    legal operand does what the architecture says: the destination gets the source, exchanged
    with it, its address, the source when the condition holds, or the source extended with
    zeros or with its sign; EIP is past the instruction, the cycles are counted, and no flag
    and nothing else changes. *)
Theorem move_turn pf k rg o s :
  move_ok k o -> wf s -> halted (cpu s) = 0 -> seg s = 0 -> g_operand_size_16 (og s) = 0 ->
  cycles_ok 2 s -> 0 <= rg < 8 -> operand_ok o -> code_at s (move_opcode k ++ encode rg o) ->
  estep pf s
    (move_step k rg o (advance (length (move_opcode k ++ encode rg o)) (note_eip s))).
Proof.
  intros Hk Hs Hh Hg Hsz Hc Hrg Ho Hcode.
  set (s1 := advance _ (note_eip s)).
  assert (cycles_ok 2 s1) as Hc1 by exact Hc.
  assert (cycles_ok 1 s1) as Hc0 by (unfold cycles_ok in *; lia).
  assert (g_operand_size_16 (og s1) = 0) as Hsz1 by exact Hsz.
  destruct k as [| | | |c| | | |]; cbn [move_step]; cbn [move_opcode] in s1, Hcode.
  - one_byte_by pf s H_mov_rm32_r32 rg o. fold s1 in D |- *. clearbody s1.
    eapply runs_bind; [apply runs_get_og|]. rewrite Hsz1. cbn [Z.eqb negb].
    eapply runs_bind; [eapply runs_bind; [exact (dc_get_reg _ _ _ _ D)|exact (dc_write _ _ _ _ D _)]|].
    apply runs_retire; [by apply wf_wr_opd, D|lia|by apply cycles_ok_wr_opd].
  - one_byte_by pf s H_mov_r32_rm32 rg o. fold s1 in D |- *. clearbody s1.
    eapply runs_bind; [apply runs_get_og|]. rewrite Hsz1. cbn [Z.eqb negb].
    eapply runs_bind; [eapply runs_bind; [exact (dc_read _ _ _ _ D)|exact (dc_set_reg _ _ _ _ D _)]|].
    apply runs_retire; [by apply wf_rset, D|lia|exact Hc1].
  - one_byte_by pf s H_xchg_rm32_r32 rg o. fold s1 in D |- *. clearbody s1.
    do 3 dc_step D. rewrite (dc_reg _ _ _ _ D).
    apply runs_set_done; [by apply wf_wr_opd, D|lia|by apply cycles_ok_wr_opd].
  - one_byte_by pf s H_lea_r32_m rg o. fold s1 in D |- *. clearbody s1.
    destruct o as [r|b ix d]; [done|].
    eapply runs_bind; [eapply runs_resolve, operand_ok_index; [apply D|exact Ho]|].
    rewrite (dc_seg _ _ _ _ D), Z.add_0_r, with_seg_same by apply D.
    rewrite (u32_small (ea s1 b ix d)) by apply u32_range. by apply (dc_set_done 1 m rg (OMem b ix d)).
  - two_byte_by pf s H_cmovcc rg o (cmov_row c Hk). fold s1 in D |- *. clearbody s1.
    dc_step D. replace (0x40 + c - 0x40) with c by lia.
    eapply runs_bind; [by apply runs_condition|]. cbv beta iota. rewrite b2z_neq0.
    eapply (runs_bind _ _ _ tt (if cond c (status_of (eflags (cpu s1))) then rset rg (rd_opd s1 o) s1 else s1)).
    + destruct (cond _ _); [exact (dc_set_reg _ _ _ _ D _)|apply runs_ret].
    + destruct (cond _ _); (apply runs_retire; [|lia|exact Hc1]); [apply wf_rset|]; apply D.
  - two_byte_by pf s H_movzx_r32_rm8 rg o (eq_refl H_movzx_r32_rm8). fold s1 in D |- *. clearbody s1.
    eapply runs_bind; [exact (dc_read8 _ _ _ _ D)|]. by apply (dc_set_done 2 m rg o).
  - two_byte_by pf s H_movzx_r32_rm16 rg o (eq_refl H_movzx_r32_rm16). fold s1 in D |- *. clearbody s1.
    eapply runs_bind; [exact (dc_read16 _ _ _ _ D)|]. by apply (dc_set_done 2 m rg o).
  - two_byte_by pf s H_movsx_r32_rm8 rg o (eq_refl H_movsx_r32_rm8). fold s1 in D |- *. clearbody s1.
    eapply runs_bind; [exact (dc_read8 _ _ _ _ D)|].
    rewrite (s8_spec (rd_opd8 s1 o)) by apply rd_opd8_u8, D. by apply (dc_set_done 2 m rg o).
  - two_byte_by pf s H_movsx_r32_rm16 rg o (eq_refl H_movsx_r32_rm16). fold s1 in D |- *. clearbody s1.
    eapply runs_bind; [exact (dc_read16 _ _ _ _ D)|].
    rewrite (s16_spec (rd_opd16 s1 o)) by apply rd_opd16_u16, D. by apply (dc_set_done 2 m rg o).
Qed.
End move.

(** MOVSX ECX, byte [EBX + 4], and CMOVE EAX, EDX with ZF clear. *)
Lemma move_turn_witness :
  let o := OMem (Some REG_EBX) None 4 in
  let s code := toy_machine [1; 0; 2; 0x2000; 0; 0; 0; 0] 0x1000
                  [(0x1000, code); (0x2004, [0x80])] in
  let s1 := s ([0x0F; 0xBE] ++ encode REG_ECX o) in
  let s2 := s ([0x0F; 0x44] ++ encode REG_EAX (OReg REG_EDX)) in
  (exists t, estep 8 s1 t /\ rget t REG_ECX = 0xFFFFFF80) /\
  (exists t, estep 8 s2 t /\ rget t REG_EAX = 1).
Proof.
  intros o s s1 s2. split; eexists.
  - split; [apply (move_turn 8 MOVSX8 REG_ECX o s1)|vm_compute; reflexivity].
    + exact I.
    + by apply wf_toy.
    + done.
    + done.
    + done.
    + done.
    + unfold REG_ECX. lia.
    + split; [|split]; [by intros r [= <-]|done|done].
    + by split.
  - split; [apply (move_turn 8 (CMOV 4) REG_EAX (OReg REG_EDX) s2)|vm_compute; reflexivity].
    + cbn. lia.
    + by apply wf_toy.
    + done.
    + done.
    + done.
    + done.
    + unfold REG_EAX. lia.
    + cbn. unfold REG_EDX. lia.
    + by split.
Defined.
