(* ===== verification/Simd.v ===== *)
(** MMX and SSE: 64-bit guest accesses, the byte lanes of the MMX operations, and 16-byte
    copies through an XMM register. *)
From S2P Require Import Prelude CInt Machine Logic Mem Flags ModRM OpsMove OpsSimd OpsFpu.
From S2P Require Import Backend Toy Dispatch Safety Invariant Exec Decode Alu Branch.
From S2P Require Import Load Start Move.

(** * 64-bit accesses *)

Section wide.
Context {H : Type}.
Implicit Types s : machine H.

Definition rd64 (m : guest_mem) (a : Z) : Z := le_value (load_bytes m a 8).

Lemma rd64_u64 m a : wf_mem m -> is_u64 (rd64 m a).
Proof.
  intros Hm. pose proof (le_value_range _ (load_bytes_u8 m a 8 Hm)) as Hr.
  rewrite load_bytes_length in Hr. exact Hr.
Qed.

(** Two halves make a word. *)
Lemma le_value_app bs cs :
  le_value (bs ++ cs) = Z.lor (le_value bs) (Z.shiftl (le_value cs) (8 * Z.of_nat (length bs))).
Proof.
  induction bs as [|b bs IH]; [by rewrite Z.shiftl_0_r|]. cbn [app le_value length].
  rewrite IH, Z.shiftl_lor, Z.shiftl_shiftl, Z.lor_assoc by lia. do 2 f_equal. lia.
Qed.
Lemma le_value_halves bs cs : length bs = 4%nat -> Forall is_u8 cs -> length cs = 4%nat ->
  Z.lor (le_value bs) (u64 (Z.shiftl (le_value cs) 32)) = le_value (bs ++ cs).
Proof.
  intros Lb Hc Lc. pose proof (le_value_range _ Hc) as Rc. rewrite Lc in Rc.
  change (2 ^ (8 * Z.of_nat 4)) with 0x100000000 in Rc.
  rewrite le_value_app, Lb. change (8 * Z.of_nat 4) with 32. f_equal. apply u64_small.
  rewrite Z.shiftl_mul_pow2 by done. change (2 ^ 32) with 0x100000000. unfold is_u64. lia.
Qed.

Lemma runs_mem_read64 s a : wf_mem (mem s) -> 0 <= a -> a + 8 <= g_size (mem s) ->
  runs (mem_read64 a) s (rd64 (mem s) a) s.
Proof.
  intros Hm Ha Hr. pose proof (wf_size _ Hm) as Hz. unfold mem_read64.
  eapply runs_bind; [by apply runs_mem_read32|].
  rewrite u32_small by (unfold is_u32; lia).
  eapply runs_bind; [apply runs_mem_read32; [done|lia]|].
  eapply runs_eq; [apply runs_ret| |done]. unfold rd32, rd64, in_range.
  btest (a + 4 <=? g_size (mem s)). btest (a + 4 + 4 <=? g_size (mem s)).
  change 8%nat with (4 + 4)%nat. rewrite load_bytes_app.
  apply le_value_halves; [apply load_bytes_length|by apply load_bytes_u8|apply load_bytes_length].
Qed.

Lemma le_bytes_halves v : le_bytes 4 (u32 v) ++ le_bytes 4 (u32 (Z.shiftr v 32)) = le_bytes 8 v.
Proof.
  cbn [le_bytes app]. rewrite !Z.shiftr_shiftr by done. cbn [Z.add Pos.add Pos.succ].
  assert (forall x k, 0 <= k <= 24 -> u8 (Z.shiftr (u32 x) k) = u8 (Z.shiftr x k)) as E.
  { intros x k Hk. apply Z.bits_inj'. intros i Hi. rewrite !testbit_u8 by done.
    destruct (Z.ltb_spec i 8); [|done]. rewrite !Z.shiftr_spec, testbit_u32 by lia.
    by btest (i + k <? 32). }
  assert (forall x, u8 (u32 x) = u8 x) as E0 by apply u8_u32.
  rewrite !E0, !E by lia. by rewrite !Z.shiftr_shiftr by done.
Qed.

Lemma runs_mem_write64 s a v : wf s -> 0 <= a -> a + 8 <= g_size (mem s) ->
  runs (mem_write64 a v) s tt (stored a (le_bytes 8 v) s).
Proof.
  intros Hs Ha Hr. pose proof (wf_size _ (wf_m_mem _ Hs)) as Hz. unfold mem_write64.
  rewrite (u32_small (a + 4)) by (unfold is_u32; lia). rewrite <- le_bytes_halves, stored_app.
  eapply runs_bind; [apply runs_store32; [apply Hs|done|lia]|].
  rewrite le_bytes_length. apply runs_store32; [|lia|rewrite size_stored; lia].
  apply (wf_stored a (le_bytes 4 (u32 v)) s); [done|done|rewrite le_bytes_length; lia|].
  apply le_bytes_u8.
Qed.
End wide.

(** * Byte lanes *)

(** Byte [k] of a 64-bit register. *)
Definition lane8 (x k : Z) : Z := u8 (Z.shiftr x (8 * k)).

Inductive mmx_op := MOVQ | PXOR | PCMPEQB | PUNPCKLBW | PUNPCKLWD | PUNPCKLDQ.

(** Byte [k] of the result from the bytes of the destination and of the source. *)
Definition mmx_lane (op : mmx_op) (d x : Z) (k : Z) : Z :=
  match op with
  | MOVQ => lane8 x k
  | PXOR => Z.lxor (lane8 d k) (lane8 x k)
  | PCMPEQB => if lane8 d k =? lane8 x k then 0xFF else 0
  | PUNPCKLBW => lane8 (if Z.even k then d else x) (k / 2)
  | PUNPCKLWD => lane8 (if Z.even (k / 2) then d else x) (2 * (k / 4) + k mod 2)
  | PUNPCKLDQ => lane8 (if k <? 4 then d else x) (k mod 4)
  end.

(** What the handlers compute. *)
Definition mmx_result (op : mmx_op) (d x : Z) : Z :=
  match op with
  | MOVQ => x
  | PXOR => Z.lxor d x
  | PCMPEQB => pcmpeqb_loop 8 0 d x 0
  | PUNPCKLBW =>
      Z.lor (Z.lor (Z.lor (Z.lor (Z.lor (Z.lor (Z.lor
        (lane d 0 0xFF 0) (lane x 0 0xFF 8)) (lane d 8 0xFF 16))
        (lane x 8 0xFF 24)) (lane d 16 0xFF 32)) (lane x 16 0xFF 40))
        (lane d 24 0xFF 48)) (lane x 24 0xFF 56)
  | PUNPCKLWD =>
      Z.lor (Z.lor (Z.lor (lane d 0 0xFFFF 0) (lane x 0 0xFFFF 16))
        (lane d 16 0xFFFF 32)) (lane x 16 0xFFFF 48)
  | PUNPCKLDQ => Z.lor (Z.land d 0xFFFFFFFF) (lane x 0 0xFFFFFFFF 32)
  end.

Lemma lane8_bits x k j : 0 <= k -> 0 <= j < 8 ->
  Z.testbit (lane8 x k) j = Z.testbit x (8 * k + j).
Proof.
  intros Hk Hj. unfold lane8. rewrite testbit_u8, Z.shiftr_spec by lia. btest (j <? 8).
  by rewrite Z.add_comm.
Qed.

Lemma lane8_eq x y k l : 0 <= k -> 0 <= l ->
  (forall j, 0 <= j < 8 -> Z.testbit x (8 * k + j) = Z.testbit y (8 * l + j)) ->
  lane8 x k = lane8 y l.
Proof.
  intros Hk Hl Hb. apply Z.bits_inj'. intros j Hj.
  destruct (Z.ltb_spec j 8); [by rewrite !lane8_bits by lia; apply Hb|].
  unfold lane8. rewrite !testbit_u8 by done. by btest (j <? 8).
Qed.

(** A field of [w] bits moved from bit [n] to bit [k]. *)
Lemma testbit_lane x n w k b : 0 <= n -> 0 <= w -> 0 <= k -> 0 <= b < 64 ->
  Z.testbit (lane x n (Z.ones w) k) b
  = (k <=? b) && (b <? k + w) && Z.testbit x (b - k + n).
Proof.
  intros Hn Hw Hk Hb. unfold lane. rewrite testbit_u64, Z.shiftl_spec by lia. btest (b <? 64).
  destruct (Z.leb_spec k b); [|by rewrite Z.testbit_neg_r by lia]. cbn [andb].
  rewrite Z.land_spec, Z.shiftr_spec, Z.testbit_ones by lia.
  destruct (Z.ltb_spec b (k + w)); [btest (b - k <? w)|btest (b - k <? w)];
    replace (0 <=? b - k) with true by lia; cbn [andb]; [by rewrite andb_true_r|apply andb_false_r].
Qed.

(** The loop of PCMPEQB sets bit [b] of lane [q] when the lane is one of those left and the
    bytes there agree. *)
Lemma testbit_pcmpeqb n i d x acc b q : 0 <= i -> 0 <= b < 64 -> 8 * q <= b < 8 * q + 8 ->
  Z.testbit (pcmpeqb_loop n i d x acc) b
  = Z.testbit acc b || ((i <=? q) && (q <? i + Z.of_nat n) && (lane8 d q =? lane8 x q)).
Proof.
  revert i acc. induction n as [|n IH]; intros i acc Hi Hb Hq; cbn [pcmpeqb_loop].
  { destruct (Z.leb_spec i q), (Z.ltb_spec q (i + Z.of_nat 0)); cbn [andb];
      rewrite ?orb_false_r; (done || lia). }
  rewrite IH, Z.lor_spec, <- orb_assoc by lia. f_equal.
  rewrite (Z.mul_comm i 8). fold (lane8 d i) (lane8 x i).
  assert (Z.testbit (u64 (Z.shiftl (if lane8 d i =? lane8 x i then 255 else 0) (8 * i))) b
    = (i =? q) && (lane8 d i =? lane8 x i)) as ->.
  { rewrite testbit_u64, Z.shiftl_spec by lia. btest (b <? 64).
    destruct (lane8 d i =? lane8 x i); [|by rewrite Z.bits_0, andb_false_r].
    rewrite andb_true_r. change 255 with (Z.ones 8).
    destruct (Z.ltb_spec b (8 * i)).
    - rewrite Z.testbit_neg_r by lia. symmetry. apply Z.eqb_neq. lia.
    - rewrite Z.testbit_ones_nonneg by lia.
      destruct (Z.eqb_spec i q), (Z.ltb_spec (b - 8 * i) 8); (done || lia). }
  destruct (Z.eqb_spec i q) as [->|Hne]; cbn [andb].
  - replace (q + 1 <=? q) with false by lia. cbn [andb]. rewrite orb_false_r.
    btest (q <=? q). btest (q <? q + Z.of_nat (S n)). done.
  - replace (i + 1 <=? q) with (i <=? q) by lia.
    by replace (i + 1 + Z.of_nat n) with (i + Z.of_nat (S n)) by lia.
Qed.

(** Decide the comparisons of bit positions, and compare the bits that are left. *)
#[local] Ltac change_div :=
  repeat match goal with
  | |- context [?a / ?b] => let v := eval cbv in (a / b) in progress change (a / b) with v
  | |- context [?a mod ?b] => let v := eval cbv in (a mod b) in progress change (a mod b) with v
  end; cbn [Z.even Z.mul Z.add Pos.mul Pos.add Pos.succ].
#[local] Ltac lane_bits :=
  repeat match goal with
  | |- context [?a <=? ?b] =>
      first [replace (a <=? b) with true by lia|replace (a <=? b) with false by lia]
  | |- context [?a <? ?b] =>
      first [replace (a <? b) with true by lia|replace (a <? b) with false by lia]
  end;
  cbn [andb orb]; rewrite ?andb_true_r, ?andb_false_r, ?orb_false_r; cbn [orb];
  rewrite ?lane8_bits by lia; f_equal; lia.

(** Every byte of the result is the one of the specification. *)
Lemma mmx_result_lane op d x k : 0 <= k < 8 ->
  lane8 (mmx_result op d x) k = mmx_lane op d x k.
Proof.
  intros Hk. apply Z.bits_inj'. intros j Hj.
  destruct (Z.ltb_spec j 8) as [Hj8|Hj8].
  2:{ assert (forall y, is_u8 y -> Z.testbit y j = false) as Hz
        by (intros y Hy; apply (is_u8_bits y); [done|lia]).
      rewrite !Hz; [done| |apply u8_range]. destruct op; cbn [mmx_lane]; try apply u8_range.
      - apply lxor_u8; apply u8_range.
      - by destruct (_ =? _). }
  rewrite lane8_bits by lia.
  assert (k = 0 \/ k = 1 \/ k = 2 \/ k = 3 \/ k = 4 \/ k = 5 \/ k = 6 \/ k = 7) as Hks by lia.
  destruct op; cbn [mmx_result mmx_lane].
  - by rewrite lane8_bits by lia.
  - by rewrite !Z.lxor_spec, !lane8_bits by lia.
  - rewrite (testbit_pcmpeqb 8 0 d x 0 _ k), Z.bits_0 by lia.
    btest (0 <=? k). btest (k <? 0 + Z.of_nat 8).
    destruct (lane8 d k =? lane8 x k); [|by rewrite Z.bits_0].
    change 255 with (Z.ones 8). rewrite Z.testbit_ones_nonneg by lia. lia.
  - change 0xFF with (Z.ones 8). rewrite !Z.lor_spec, !testbit_lane by lia.
    repeat destruct Hks as [-> | Hks]; try subst k;
      cbn [Z.even]; change_div; lane_bits.
  - change 0xFFFF with (Z.ones 16). rewrite !Z.lor_spec, !testbit_lane by lia.
    repeat destruct Hks as [-> | Hks]; try subst k; change_div; lane_bits.
  - change 0xFFFFFFFF with (Z.ones 32).
    rewrite Z.lor_spec, Z.land_spec, testbit_lane, Z.testbit_ones_nonneg by lia.
    repeat destruct Hks as [-> | Hks]; try subst k; change_div; lane_bits.
Qed.

(** * MMX instructions *)

Definition mmx_opcode (k : mmx_op) : Z :=
  match k with
  | MOVQ => 0x6F | PXOR => 0xEF | PCMPEQB => 0x74
  | PUNPCKLBW => 0x60 | PUNPCKLWD => 0x61 | PUNPCKLDQ => 0x62
  end.

Section mmx.
Context {H : Type} `{HostOS H} `{FloatOps}.
Implicit Types s : machine H.

Definition rmmx s (i : Z) : Z := zget (mmx_regs (og s)) i.
Definition set_mmx_st (i v : Z) s : machine H :=
  upd_og (upd_mmx (fun l => zset l i (u64 v))) s.

Lemma wf_set_mmx i v s : wf s -> wf (set_mmx_st i v s).
Proof.
  intros Hs. eapply (wf_run (set_mmx i v)); [done| |]; [eauto with resp|].
  apply runs_modify.
Qed.

(** A 64-bit source: an MMX register, or eight bytes inside guest memory. *)
Definition rd_mm s (o : operand) : Z :=
  match o with
  | OReg r => rmmx s r
  | OMem b ix d => rd64 (mem s) (opd_addr s b ix d)
  end.
Definition opd_fits (n : Z) s (o : operand) : Prop :=
  match o with OReg _ => True | OMem b ix d => opd_addr s b ix d + n <= g_size (mem s) end.

Lemma dc_read_mmx m rg o s : decoded m rg o s -> opd_fits 8 s o ->
  runs (read_mmx_src m) s (rd_mm s o) s.
Proof.
  intros [Hs Hg _ Ho _ Hm] Hf. unfold read_mmx_src. destruct o as [r|b ix d].
  - destruct Hm as [-> ->]. eapply runs_eq; [apply runs_gets|done|done].
  - pose proof Hm as [H3 _]. btest (mrm_mod m =? 3).
    eapply runs_bind; [by eapply runs_resolve, operand_ok_index|].
    rewrite with_seg_same by done. apply runs_mem_read64; [apply Hs|apply u32_range|exact Hf].
Qed.

Lemma dc_mmx m rg o s : decoded m rg o s -> runs (mmx (mrm_reg m)) s (rmmx s rg) s.
Proof. intros D. rewrite (dc_reg _ _ _ _ D). by eapply runs_eq; [apply runs_gets|..]. Qed.

Lemma dc_set_mmx_done m rg o v s : decoded m rg o s -> cycles_ok 3 s ->
  runs (set_mmx (mrm_reg m) v;; add_cycles 3) s tt (retire 3 (set_mmx_st rg v s)).
Proof.
  intros D Hc. rewrite (dc_reg _ _ _ _ D). eapply runs_bind; [apply runs_modify|].
  apply runs_retire; [apply wf_set_mmx, D|lia|exact Hc].
Qed.

#[local] Ltac mmx_by pf s h rg o Hc1 Hf1 :=
  eapply (two_byte_turn pf s _ h rg o);
    [eassumption..|exact (eq_refl h)|reflexivity|]; intros m D; cbv beta;
  eapply runs_bind; [apply (dc_read_mmx _ _ _ _ D Hf1)|];
  try (eapply runs_bind; [apply (dc_mmx _ _ _ _ D)|]);
  exact (dc_set_mmx_done _ _ _ _ _ D Hc1).

(** C21: the MMX instructions.  A turn of the emulator on MOVQ, PXOR, PCMPEQB, PUNPCKLBW,
    PUNPCKLWD or PUNPCKLDQ leaves the destination register with the bytes of the architecture:
    copied, combined, compared for equality, or interleaved with those of the source; EIP is
    past the instruction and nothing else changes. *)
Theorem mmx_turn pf k rg o s :
  wf s -> halted (cpu s) = 0 -> seg s = 0 -> cycles_ok 3 s -> 0 <= rg < 8 -> operand_ok o ->
  opd_fits 8 s o -> code_at s ([0x0F; mmx_opcode k] ++ encode rg o) ->
  exists r, is_u64 r /\
    (forall i, 0 <= i < 8 -> lane8 r i = mmx_lane k (rmmx s rg) (rd_mm s o) i) /\
    estep pf s
      (retire 3 (set_mmx_st rg r (advance (2 + length (encode rg o)) (note_eip s)))).
Proof.
  intros Hs Hh Hg Hc Hrg Ho Hf Hcode.
  set (r := mmx_result k (rmmx s rg) (rd_mm s o)).
  exists (u64 r). split; [apply u64_range|]. split.
  { intros i Hi. rewrite <- mmx_result_lane by done. fold r. apply lane8_eq; [lia..|].
    intros j Hj. rewrite testbit_u64 by lia. by btest (8 * i + j <? 64). }
  set (s1 := advance _ (note_eip s)).
  assert (cycles_ok 3 s1) as Hc1 by exact Hc.
  assert (opd_fits 8 s1 o) as Hf1 by by destruct o.
  assert (rd_mm s o = rd_mm s1 o) as Erd by by destruct o.
  assert (set_mmx_st rg (u64 r) s1 = set_mmx_st rg r s1) as ->
    by (unfold set_mmx_st; by rewrite u64_idem).
  unfold r. rewrite Erd. change (rmmx s rg) with (rmmx s1 rg).
  destruct k; cbn [mmx_opcode] in Hcode.
  - mmx_by pf s H_movq_mm_rm64 rg o Hc1 Hf1.
  - mmx_by pf s H_pxor_mm_mm rg o Hc1 Hf1.
  - mmx_by pf s H_pcmpeqb rg o Hc1 Hf1.
  - mmx_by pf s H_punpcklbw rg o Hc1 Hf1.
  - mmx_by pf s H_punpcklwd rg o Hc1 Hf1.
  - mmx_by pf s H_punpckldq rg o Hc1 Hf1.
Qed.
(** ** Sixteen bytes through an XMM register *)

Definition rxmm s (i : Z) : XMMReg := zget (xmm_regs (og s)) i.
Definition set_xmm_st (i : Z) (v : XMMReg) s : machine H :=
  upd_og (upd_xmm (fun l => zset l i (mk_xmm (u64 (lo v)) (u64 (hi v))))) s.

Lemma wf_set_xmm i v s : wf s -> wf (set_xmm_st i v s).
Proof.
  intros Hs. eapply (wf_run (set_xmm i v)); [done| |]; [eauto with resp|].
  apply runs_modify.
Qed.
Lemma rxmm_set i v s : wf s -> 0 <= i < 8 ->
  rxmm (set_xmm_st i v s) i = mk_xmm (u64 (lo v)) (u64 (hi v)).
Proof.
  intros Hs Hi. apply zget_zset_eq. pose proof (wf_xmm_length _ (wf_m_og _ Hs)). lia.
Qed.

(** The value of sixteen bytes, and the bytes of the value. *)
Definition rd128 (m : guest_mem) (a : Z) : XMMReg := mk_xmm (rd64 m a) (rd64 m (a + 8)).
Definition xmm_bytes (v : XMMReg) : list Z := le_bytes 8 (lo v) ++ le_bytes 8 (hi v).

Lemma rd64_bytes m a : wf_mem m -> le_bytes 8 (u64 (rd64 m a)) = load_bytes m a 8.
Proof.
  intros Hm. rewrite u64_small by by apply rd64_u64. unfold rd64.
  rewrite <- (load_bytes_length m a 8) at 1. apply le_bytes_value. by apply load_bytes_u8.
Qed.

Lemma dc_read_xmm m rg b ix d s : decoded m rg (OMem b ix d) s -> opd_fits 16 s (OMem b ix d) ->
  runs (read_xmm_src m) s (rd128 (mem s) (opd_addr s b ix d)) s.
Proof.
  intros [Hs Hg _ Ho _ Hm] Hf. unfold read_xmm_src. pose proof Hm as [H3 _].
  btest (mrm_mod m =? 3). cbn [opd_fits] in Hf. pose proof (wf_size _ (wf_m_mem _ Hs)) as Hz.
  assert (0 <= opd_addr s b ix d) as Ha by apply u32_range.
  eapply runs_bind; [by eapply runs_resolve, operand_ok_index|].
  rewrite with_seg_same by done. fold (opd_addr s b ix d).
  eapply runs_bind; [apply runs_mem_read64; [apply Hs|done|lia]|].
  rewrite u32_small by (unfold is_u32; lia).
  eapply runs_bind; [apply runs_mem_read64; [apply Hs|lia|lia]|apply runs_ret].
Qed.

Lemma dc_write_xmm m rg b ix d v s : decoded m rg (OMem b ix d) s ->
  opd_fits 16 s (OMem b ix d) ->
  runs (write_xmm_dst m v) s tt (stored (opd_addr s b ix d) (xmm_bytes v) s).
Proof.
  intros [Hs Hg _ Ho _ Hm] Hf. unfold write_xmm_dst. pose proof Hm as [H3 _].
  btest (mrm_mod m =? 3). cbn [opd_fits] in Hf. pose proof (wf_size _ (wf_m_mem _ Hs)) as Hz.
  assert (0 <= opd_addr s b ix d) as Ha by apply u32_range.
  eapply runs_bind; [by eapply runs_resolve, operand_ok_index|].
  rewrite with_seg_same by done. fold (opd_addr s b ix d).
  unfold xmm_bytes. rewrite stored_app, le_bytes_length.
  rewrite u32_small by (unfold is_u32; lia).
  eapply runs_bind; [apply runs_mem_write64; [done|done|lia]|].
  apply runs_mem_write64; [|lia|rewrite size_stored; lia].
  apply wf_stored; [done|done|rewrite le_bytes_length; lia|apply le_bytes_u8].
Qed.

Lemma movups_load_turn pf rg b ix d s : let o := OMem b ix d in
  wf s -> halted (cpu s) = 0 -> seg s = 0 -> cycles_ok 3 s -> 0 <= rg < 8 -> operand_ok o ->
  opd_fits 16 s o -> code_at s ([0x0F; 0x10] ++ encode rg o) ->
  estep pf s (retire 3 (set_xmm_st rg (rd128 (mem s) (opd_addr s b ix d))
    (advance (2 + length (encode rg o)) (note_eip s)))).
Proof.
  intros o Hs Hh Hg Hc Hrg Ho Hf Hcode.
  eapply (two_byte_turn pf s _ H_movups_xmm_rm128 rg o);
    [done..|exact (eq_refl H_movups_xmm_rm128)|reflexivity|]; intros m D; cbv beta.
  eapply runs_bind; [exact (dc_read_xmm _ _ _ _ _ _ D Hf)|].
  rewrite (dc_reg _ _ _ _ D). eapply runs_bind; [apply runs_modify|].
  apply runs_retire; [apply wf_set_xmm, D|lia|exact Hc].
Qed.

Lemma movups_store_turn pf rg b ix d s : let o := OMem b ix d in
  wf s -> halted (cpu s) = 0 -> seg s = 0 -> cycles_ok 3 s -> 0 <= rg < 8 -> operand_ok o ->
  opd_fits 16 s o -> code_at s ([0x0F; 0x11] ++ encode rg o) ->
  estep pf s (retire 3 (stored (opd_addr s b ix d) (xmm_bytes (rxmm s rg))
    (advance (2 + length (encode rg o)) (note_eip s)))).
Proof.
  intros o Hs Hh Hg Hc Hrg Ho Hf Hcode.
  eapply (two_byte_turn pf s _ H_movups_rm128_xmm rg o);
    [done..|exact (eq_refl H_movups_rm128_xmm)|reflexivity|]; intros m D; cbv beta.
  rewrite (dc_reg _ _ _ _ D).
  eapply runs_bind; [apply runs_gets|].
  eapply runs_bind; [exact (dc_write_xmm _ _ _ _ _ _ _ D Hf)|].
  apply runs_retire; [|lia|exact Hc].
  apply wf_stored; [apply D|apply u32_range| |].
  - unfold xmm_bytes. rewrite length_app, !le_bytes_length. exact Hf.
  - apply Forall_app_2; apply le_bytes_u8.
Qed.

(** C22: a 16-byte copy.  MOVUPS xmm, m128 followed by MOVUPS m128, xmm, at any two places of
    guest memory, aligned or not, overlapping or not, takes two turns after which the
    destination holds the sixteen bytes the source held, and every other byte of memory, the
    general registers and the flags are as they were. *)
Theorem movups_copies pf rg b ix d b' ix' d' s :
  let src := OMem b ix d in let dst := OMem b' ix' d' in
  let sa := opd_addr s b ix d in let da := opd_addr s b' ix' d' in
  let code1 := [0x0F; 0x10] ++ encode rg src in let code2 := [0x0F; 0x11] ++ encode rg dst in
  wf s -> halted (cpu s) = 0 -> seg s = 0 -> cycles_ok 6 s -> 0 <= rg < 8 ->
  operand_ok src -> operand_ok dst -> opd_fits 16 s src -> opd_fits 16 s dst ->
  code_at s (code1 ++ code2) ->
  exists s2, nsteps (estep pf) 2 s s2 /\
    load_bytes (mem s2) da 16 = load_bytes (mem s) sa 16 /\
    (forall a, ~ da <= a < da + 16 -> byte_at (mem s2) a = byte_at (mem s) a) /\
    regs (cpu s2) = regs (cpu s) /\ eflags (cpu s2) = eflags (cpu s) /\
    eip (cpu s2) = u32 (eip (cpu s) + Z.of_nat (length (code1 ++ code2))).
Proof.
  intros src dst sa da code1 code2 Hs Hh Hg Hc Hrg Hso Hdo Hsf Hdf Hcode.
  assert (cycles_ok 3 s) as Hc3 by (unfold cycles_ok in *; lia).
  assert (code_at (note_eip s) (code1 ++ code2)) as Hn by by apply (code_at_same s).
  pose proof (code_at_app _ _ _ Hs Hcode) as [Hc1 _].
  apply code_at_app in Hn as [_ Hc2]; [|by apply wf_note_eip].
  pose proof (movups_load_turn pf rg b ix d s Hs Hh Hg Hc3 Hrg Hso Hsf Hc1) as T1.
  set (t := advance _ (note_eip s)) in T1.
  assert (wf t) as Ht by by apply wf_advance, wf_note_eip.
  set (v := rd128 (mem s) (opd_addr s b ix d)) in T1.
  set (s1 := retire 3 (set_xmm_st rg v t)) in T1.
  assert (wf s1) as Hs1 by by apply wf_retire; [apply wf_set_xmm|..].
  assert (code_at s1 code2) as Hc2' by by apply (code_at_same t).
  assert (cycles_ok 3 s1) as Hcs1 by (unfold cycles_ok in *; cbn; lia).
  pose proof (movups_store_turn pf rg b' ix' d' s1 Hs1 Hh Hg Hcs1 Hrg Hdo Hdf Hc2') as T2.
  change (opd_addr s1 b' ix' d') with da in T2.
  assert (xmm_bytes (rxmm s1 rg) = load_bytes (mem s) sa 16) as Ev.
  { change (rxmm s1 rg) with (rxmm (set_xmm_st rg v t) rg). rewrite rxmm_set by done.
    unfold xmm_bytes. cbn [lo hi v rd128]. rewrite !rd64_bytes by apply Hs.
    change 16%nat with (8 + 8)%nat. by rewrite load_bytes_app. }
  rewrite Ev in T2. eexists. split; [eapply nsteps_l; [exact T1|by apply nsteps_once]|].
  split; [|split; [|split; [done|split; [done|]]]].
  - pose proof (load_store_same da (load_bytes (mem s) sa 16) (mem s)) as E.
    rewrite load_bytes_length in E. exact E.
  - intros a Ha. change (byte_at (mem (stored da (load_bytes (mem s) sa 16) s)) a
      = byte_at (mem s) a). rewrite byte_stored, load_bytes_length.
    by destruct (Z.leb_spec da a), (Z.ltb_spec a (da + Z.of_nat 16)); cbn [andb]; try lia.
  - change (u32 (u32 (eip (cpu s) + Z.of_nat (length code1)) + Z.of_nat (length code2))
      = u32 (eip (cpu s) + Z.of_nat (length (code1 ++ code2)))).
    rewrite u32_add_l, length_app. f_equal. lia.
Qed.
End mmx.

(** PUNPCKLBW MM0, [EBX + 4] with MM0 zero spreads the four low bytes. *)
Lemma mmx_turn_witness :
  let o := OMem (Some REG_EBX) None 4 in
  let s := toy_machine [0; 0; 0; 0x2000; 0; 0; 0; 0] 0x1000
             [(0x1000, [0x0F; 0x60] ++ encode 0 o); (0x2004, [0x11; 0x22; 0x33; 0x44; 0x55])] in
  exists r, (lane8 r 0, lane8 r 1, lane8 r 2, lane8 r 3) = (0, 0x11, 0, 0x22) /\
    estep 8 s (retire 3 (set_mmx_st 0 r (advance (2 + length (encode 0 o)) (note_eip s)))).
Proof.
  intros o s. destruct (mmx_turn 8 PUNPCKLBW 0 o s) as (r & _ & Hl & Ht).
  - by apply wf_toy.
  - done.
  - done.
  - done.
  - lia.
  - split; [|split]; [by intros r [= <-]|done|done].
  - by vm_compute.
  - by split.
  - exists r. split; [|exact Ht]. rewrite !Hl by lia. by vm_compute.
Defined.

(** An overlapping copy: sixteen bytes from [EBX] to [EBX + 4]. *)
Lemma movups_copies_witness :
  let src := OMem (Some REG_EBX) None 0 in let dst := OMem (Some REG_EBX) None 4 in
  let bs := [1; 2; 3; 4; 5; 6; 7; 8; 9; 10; 11; 12; 13; 14; 15; 16] in
  let s := toy_machine [0; 0; 0; 0x2001; 0; 0; 0; 0] 0x1000
             [(0x1000, ([0x0F; 0x10] ++ encode 5 src) ++ [0x0F; 0x11] ++ encode 5 dst);
              (0x2001, bs)] in
  exists s2, nsteps (estep 8) 2 s s2 /\ load_bytes (mem s2) 0x2005 16 = bs.
Proof.
  intros src dst bs s.
  destruct (movups_copies 8 5 (Some REG_EBX) None 0 (Some REG_EBX) None 4 s)
    as (s2 & Hn & Hl & _).
  - by apply wf_toy.
  - done.
  - done.
  - done.
  - lia.
  - split; [|split]; [by intros r [= <-]|done|done].
  - split; [|split]; [by intros r [= <-]|done|done].
  - by vm_compute.
  - by vm_compute.
  - by split.
  - exists s2. split; [exact Hn|]. transitivity (load_bytes (mem s) 0x2001 16); [exact Hl|].
    by vm_compute.
Defined.
