(* ===== verification/Fpu.v ===== *)
(** The x87 register stack: the circular buffer of ops.c against the architecture's stack,
    through whole turns of the emulator.

    [fview] reads the buffer from the top, ST(0) first; [x87_view] is what each handler does to
    that list, with the host's arithmetic where it computes a value.  [x87_arch] is the
    architecture's stack of registers in use, for the instructions that move values and FCHS;
    [x87_stack_refines] relates the two.  The handlers keep no tags, FABS misses negative zero
    ([fabs_negative_zero]), and FRNDINT is the host's [round]. *)
From S2P Require Import Prelude CInt Machine Logic Mem Flags ModRM OpsMove OpsFpu.
From S2P Require Import Backend Toy Dispatch Safety Invariant Exec Decode Alu Branch.
From S2P Require Import Load Move Simd.

(** * Instructions *)

Inductive x87_op :=
  | FLD_ST (i : Z) | FXCH (i : Z) | FCHS | FABS | FCONST (i : Z) | FINCSTP
  | FSQRT | FRNDINT | FPREM | FYL2X
  | FLD64 (b : option Z) (ix : option (Z * Z)) (d : Z)
  | FST64 (b : option Z) (ix : option (Z * Z)) (d : Z)
  | FSTP64 (b : option Z) (ix : option (Z * Z)) (d : Z)
  | FSTP_ST (i : Z).

(** The escape opcode, the digit of its ModRM byte and the operand. *)
Definition x87_opcode (k : x87_op) : Z :=
  match k with
  | FLD64 _ _ _ | FST64 _ _ _ | FSTP64 _ _ _ | FSTP_ST _ => 0xDD
  | _ => 0xD9
  end.
Definition x87_digit (k : x87_op) : Z :=
  match k with
  | FLD_ST _ | FLD64 _ _ _ => 0 | FXCH _ => 1 | FST64 _ _ _ => 2
  | FSTP64 _ _ _ | FSTP_ST _ => 3 | FCHS | FABS => 4 | FCONST _ => 5
  | FYL2X | FINCSTP => 6 | FPREM | FSQRT | FRNDINT => 7
  end.
Definition x87_operand (k : x87_op) : operand :=
  match k with
  | FLD_ST i | FXCH i | FCONST i | FSTP_ST i => OReg i
  | FCHS | FPREM => OReg 0 | FABS | FYL2X => OReg 1 | FSQRT => OReg 4 | FRNDINT => OReg 6
  | FINCSTP => OReg 7
  | FLD64 b ix d | FST64 b ix d | FSTP64 b ix d => OMem b ix d
  end.

(** The seven constants of FLD1 ... FLDZ. *)
Definition x87_consts : list Z :=
  [F64_ONE; F64_L2T; F64_L2E; F64_PI; F64_LG2; F64_LN2; F64_ZERO].

Definition x87_code (k : x87_op) : list Z :=
  [x87_opcode k] ++ encode (x87_digit k) (x87_operand k).

(** Operands the instruction has. *)
Definition x87_ok (k : x87_op) : Prop :=
  match k with FCONST i => 0 <= i < 7 | _ => operand_ok (x87_operand k) end.

Section x87.
Context {H : Type} `{HostOS H} `{FloatOps}.
Implicit Types s : machine H.

(** ** The stack, top first *)

Definition fview s : list Z :=
  map (fun i => zget (fpu_stack (og s)) (Z.land (fpu_top (og s) + i) 7))
    [0; 1; 2; 3; 4; 5; 6; 7].
Definition with_fpu (l : list Z) (t : Z) s : machine H :=
  upd_og (upd_fpu (fun _ => l) (fun _ => t)) s.

(** [s'] is [s] with the register stack [vs], and nothing else changed. *)
Definition fpu_to s (vs : list Z) s' : Prop :=
  wf s' /\ fview s' = vs /\ exists l t, s' = with_fpu l t s.

(** Pushing into a full circle discards the deepest register, popping leaves the old top
    there. *)
Definition rot_down (vs : list Z) : list Z := zget vs 7 :: take 7 vs.
Definition rot_up (vs : list Z) : list Z := drop 1 vs ++ [zget vs 0].
Definition fpush (v : Z) (vs : list Z) : list Z := u64 v :: take 7 vs.

(** What the handler does to the buffer; [x] is the 64-bit memory operand. *)
Definition x87_view (k : x87_op) (x : Z) (vs : list Z) : list Z :=
  let top := zget vs 0 in
  match k with
  | FLD_ST i => fpush (zget vs i) vs
  | FXCH i => zset (zset vs 0 (zget vs i)) i top
  | FCHS => zset vs 0 (u64 (f64_neg top))
  | FABS => zset vs 0 (if f64_neg_test top then u64 (f64_neg top) else top)
  | FCONST i => fpush (zget x87_consts i) vs
  | FINCSTP => rot_up vs
  | FSQRT => zset vs 0 (u64 (f64_sqrt top))
  | FRNDINT => zset vs 0 (u64 (f64_round top))
  | FPREM => zset vs 0 (u64 (f64_fmod top (zget vs 1)))
  | FYL2X => rot_up (zset vs 1 (u64 (f64_mul (zget vs 1) (f64_log2 top))))
  | FLD64 _ _ _ => fpush x vs
  | FST64 _ _ _ => vs
  | FSTP64 _ _ _ => rot_up vs
  | FSTP_ST i => rot_up (zset vs i top)
  end.

Lemma fview_length s : length (fview s) = 8%nat.
Proof. done. Qed.
Lemma fview_get s i : 0 <= i < 8 ->
  zget (fview s) i = zget (fpu_stack (og s)) (Z.land (fpu_top (og s) + i) 7).
Proof.
  intros Hi. assert (i = 0 \/ i = 1 \/ i = 2 \/ i = 3 \/ i = 4 \/ i = 5 \/ i = 6 \/ i = 7)
    as Hs by lia. by repeat destruct Hs as [-> | Hs]; try subst i.
Qed.
Lemma fview_u64 s i : wf s -> 0 <= i < 8 -> is_u64 (zget (fview s) i).
Proof.
  intros Hs Hi. rewrite fview_get by done.
  apply zget_Forall_default; [apply wf_fpu, Hs|done].
Qed.
Lemma u64_fview s i : wf s -> 0 <= i < 8 -> u64 (zget (fview s) i) = zget (fview s) i.
Proof. intros. apply u64_small. by apply fview_u64. Qed.

Lemma fview_ext s vs : length vs = 8%nat ->
  (forall i, 0 <= i < 8 -> zget (fpu_stack (og s)) (Z.land (fpu_top (og s) + i) 7) = zget vs i) ->
  fview s = vs.
Proof.
  intros Hl Hi. do 8 (destruct vs as [|? vs]; [done|]). destruct vs; [|done].
  unfold fview. cbn [map]. rewrite !Hi by lia. done.
Qed.

Lemma land7 n : Z.land n 7 = n mod 8.
Proof. exact (Z.land_ones n 3 ltac:(lia)). Qed.

(** ** The primitives *)

Lemma fpu_to_refl s : wf s -> fpu_to s (fview s) s.
Proof.
  intros Hs. split; [done|split; [done|]]. exists (fpu_stack (og s)), (fpu_top (og s)).
  by destruct s as [c m [] k h].
Qed.
Lemma fpu_to_trans s s1 s2 vs ws : fpu_to s vs s1 -> fpu_to s1 ws s2 -> fpu_to s ws s2.
Proof.
  intros (_ & _ & l & t & ->) (Hw & Hv & l' & t' & ->). split; [done|split; [done|]].
  by exists l', t'.
Qed.

(** A computation that returns, having changed the register stack alone; with the cycles of
    an instruction counted at its end. *)
Definition fruns (m : M H unit) s (vs : list Z) : Prop :=
  exists s', fpu_to s vs s' /\ runs m s tt s'.
Definition fdone (m : M H unit) s (vs : list Z) : Prop :=
  exists s', fpu_to s vs s' /\ runs m s tt (retire 3 s').

(** Indices wrap around. *)
Lemma runs_st_wrap s i : runs (st i) s (zget (fview s) (i mod 8)) s.
Proof.
  rewrite fview_get by (apply Z.mod_pos_bound; lia).
  replace (Z.land (fpu_top (og s) + i mod 8) 7) with (Z.land (fpu_top (og s) + i) 7)
    by by rewrite !land7, Z.add_mod_idemp_r.
  eapply runs_bind; [apply runs_gets|]. by eapply runs_eq; [apply runs_gets|..].
Qed.
Lemma runs_st s i : 0 <= i < 8 -> runs (st i) s (zget (fview s) i) s.
Proof. intros Hi. rewrite <- (Z.mod_small i 8) at 2 by done. apply runs_st_wrap. Qed.
Lemma st0_st s i : wf s -> 0 <= i < 8 -> i = 0 -> Z.land (fpu_top (og s) + i) 7 = fpu_top (og s).
Proof.
  intros Hs _ ->. pose proof (wf_fpu_top _ (wf_m_og _ Hs)). rewrite land7, Z.add_0_r.
  by apply Z.mod_small.
Qed.
Lemma runs_st0 s : wf s -> runs st0 s (zget (fview s) 0) s.
Proof.
  intros Hs. rewrite fview_get, st0_st by (done || lia). eapply runs_bind; [apply runs_gets|].
  by eapply runs_eq; [apply runs_gets|..].
Qed.

Lemma fruns_set s i v : wf s -> 0 <= i < 8 ->
  fruns (set_fpu (Z.land (fpu_top (og s) + i) 7) v) s (zset (fview s) i (u64 v)).
Proof.
  intros Hs Hi. pose proof (wf_fpu_top _ (wf_m_og _ Hs)) as Ht.
  pose proof (wf_fpu_length _ (wf_m_og _ Hs)) as Hl.
  eexists. split; [|apply runs_modify]. split; [|split].
  - eapply (wf_run (set_fpu _ v)); [done| |apply runs_modify]. eauto with resp.
  - apply fview_ext; [by rewrite zset_length|]. intros j Hj.
    cbn [og upd_og upd_fpu fpu_stack fpu_top id]. rewrite !land7.
    destruct (Z.eq_dec i j) as [<-|Hne].
    + rewrite !zget_zset_eq; [done|rewrite fview_length; lia|].
      pose proof (Z.mod_pos_bound (fpu_top (og s) + i) 8). lia.
    + rewrite !zget_zset_ne; [by rewrite fview_get, land7|lia|lia|done|..];
        pose proof (Z.mod_pos_bound (fpu_top (og s) + i) 8);
        pose proof (Z.mod_pos_bound (fpu_top (og s) + j) 8);
        Z.to_euclidean_division_equations; lia.
  - eexists _, _. reflexivity.
Qed.

Lemma fruns_set_st s i v : wf s -> 0 <= i < 8 ->
  fruns (set_st i v) s (zset (fview s) i (u64 v)).
Proof.
  intros Hs Hi. destruct (fruns_set s i v Hs Hi) as (s' & Hf & Hr). exists s'.
  split; [done|]. eapply runs_bind; [apply runs_gets|exact Hr].
Qed.
Lemma fruns_set_st0 s v : wf s -> fruns (set_st0 v) s (zset (fview s) 0 (u64 v)).
Proof.
  intros Hs. destruct (fruns_set s 0 v Hs) as (s' & Hf & Hr); [lia|]. exists s'.
  split; [done|]. eapply runs_bind; [apply runs_gets|]. by rewrite st0_st in Hr.
Qed.

Lemma fruns_move s k vs : wf s -> length vs = 8%nat ->
  (forall i, 0 <= i < 8 -> zget vs i = zget (fview s) ((k + i) mod 8)) ->
  fruns (move_top k) s vs.
Proof.
  intros Hs Hl Hv. eexists. split; [|apply runs_modify]. split; [|split].
  - eapply (wf_run (move_top k)); [done| |apply runs_modify]. eauto with resp.
  - apply fview_ext; [done|]. intros i Hi. cbn [og upd_og upd_fpu fpu_stack fpu_top id].
    rewrite Hv, fview_get by (try apply Z.mod_pos_bound; lia). f_equal. rewrite !land7.
    rewrite Z.add_mod_idemp_l, Z.add_mod_idemp_r by done. f_equal. lia.
  - eexists _, _. reflexivity.
Qed.
Lemma fruns_up s : wf s -> fruns (move_top 1) s (rot_up (fview s)).
Proof.
  intros Hs. apply fruns_move; [done|done|]. intros i Hi.
  assert (i = 0 \/ i = 1 \/ i = 2 \/ i = 3 \/ i = 4 \/ i = 5 \/ i = 6 \/ i = 7) as Hc by lia.
  by repeat destruct Hc as [-> | Hc]; try subst i.
Qed.
Lemma fruns_down s : wf s -> fruns (move_top (-1)) s (rot_down (fview s)).
Proof.
  intros Hs. apply fruns_move; [done|done|]. intros i Hi.
  assert (i = 0 \/ i = 1 \/ i = 2 \/ i = 3 \/ i = 4 \/ i = 5 \/ i = 6 \/ i = 7) as Hc by lia.
  by repeat destruct Hc as [-> | Hc]; try subst i.
Qed.

(** ** Composing them *)

Lemma fruns_bind m m' s vs ws : fruns m s vs ->
  (forall s1, wf s1 -> fview s1 = vs -> fruns m' s1 ws) -> fruns (m;; m') s ws.
Proof.
  intros (s1 & Hf & Hr) Hk. pose proof Hf as (Hw & Hv & _).
  destruct (Hk s1 Hw Hv) as (s2 & Hf2 & Hr2). exists s2.
  split; [by eapply fpu_to_trans|by eapply runs_bind].
Qed.
Lemma fdone_bind m m' s vs ws : fruns m s vs -> cycles_ok 3 s ->
  (forall s1, wf s1 -> cycles_ok 3 s1 -> fview s1 = vs -> fdone m' s1 ws) ->
  fdone (m;; m') s ws.
Proof.
  intros (s1 & Hf & Hr) Hc Hk. pose proof Hf as (Hw & Hv & l & t & E).
  assert (cycles_ok 3 s1) as Hc1 by by rewrite E.
  destruct (Hk s1 Hw Hc1 Hv) as (s2 & Hf2 & Hr2). exists s2.
  split; [by eapply fpu_to_trans|by eapply runs_bind].
Qed.
Lemma fruns_read {A} (m : M H A) k s a vs :
  runs m s a s -> fruns (k a) s vs -> fruns (m ≫= k) s vs.
Proof. intros Hr (s' & Hf & Hk). exists s'. split; [done|by eapply runs_bind]. Qed.
Lemma fdone_read {A} (m : M H A) k s a vs :
  runs m s a s -> fdone (k a) s vs -> fdone (m ≫= k) s vs.
Proof. intros Hr (s' & Hf & Hk). exists s'. split; [done|by eapply runs_bind]. Qed.
Lemma fdone_cycles s vs : wf s -> cycles_ok 3 s -> fview s = vs -> fdone (add_cycles 3) s vs.
Proof.
  intros Hs Hc <-. exists s. split; [by apply fpu_to_refl|]. by apply runs_retire.
Qed.
Lemma fruns_push s v : wf s -> fruns (fpu_push v) s (fpush v (fview s)).
Proof.
  intros Hs. unfold fpu_push. eapply fruns_bind; [by apply fruns_down|].
  intros s1 Hs1 E. pose proof (fruns_set_st0 s1 v Hs1) as Hr. by rewrite E in Hr.
Qed.

(** ** The instructions *)

Definition x87_x s (k : x87_op) : Z :=
  match k with FLD64 b ix d => rd64 (mem s) (opd_addr s b ix d) | _ => 0 end.
(** The memory the instruction leaves. *)
Definition x87_mem (k : x87_op) s : machine H :=
  match k with
  | FST64 b ix d | FSTP64 b ix d =>
      stored (opd_addr s b ix d) (le_bytes 8 (zget (fview s) 0)) s
  | _ => s
  end.
Definition x87_fits s (k : x87_op) : Prop := opd_fits 8 s (x87_operand k).

(** The handlers of the two escapes on decoded operands. *)
Definition x87_body (k : x87_op) (m : ModRM) : M H unit :=
  if x87_opcode k =? 0xDD then
    (let is_reg := mrm_mod m =? 3 in
     match mrm_reg m with
     | 0 => if is_reg then add_cycles 3
            else addr ← resolve_rm_addr m; bits ← mem_read64 addr; fpu_push bits;; add_cycles 3
     | 2 => if is_reg then add_cycles 3
            else addr ← resolve_rm_addr m; bits ← st0; mem_write64 addr bits;; add_cycles 3
     | 3 => if is_reg then v ← st0; set_st (mrm_rm m) v;; move_top 1;; add_cycles 3
            else addr ← resolve_rm_addr m; bits ← st0; mem_write64 addr bits;; move_top 1;;
                 add_cycles 3
     | _ => halt
     end)
  else if mrm_mod m =? 3 then op_d9_reg m else op_d9_mem m.

Lemma rot_down_get s i : 0 <= i < 8 ->
  zget (rot_down (fview s)) ((1 + i) mod 8) = zget (fview s) i.
Proof.
  intros Hi. assert (i = 0 \/ i = 1 \/ i = 2 \/ i = 3 \/ i = 4 \/ i = 5 \/ i = 6 \/ i = 7)
    as Hc by lia. by repeat destruct Hc as [-> | Hc]; try subst i.
Qed.

Lemma fdone_of m s vs : fruns m s vs -> cycles_ok 3 s -> fdone (m;; add_cycles 3) s vs.
Proof.
  intros Hm Hc. eapply fdone_bind; [done|done|]. intros s1 Hs1 Hc1 E. by apply fdone_cycles.
Qed.

(** ST(0) replaced by a function of itself. *)
Lemma fruns_map_st0 (g : Z -> Z) s vs : wf s ->
  zset (fview s) 0 (u64 (g (zget (fview s) 0))) = vs ->
  fruns (v ← st0; set_st0 (g v)) s vs.
Proof.
  intros Hs <-. eapply fruns_read; [by apply runs_st0|by apply fruns_set_st0].
Qed.

Lemma fdone_fld_st s i : wf s -> cycles_ok 3 s -> 0 <= i < 8 ->
  fdone (move_top (-1);; v ← st (1 + i); set_st0 v;; add_cycles 3) s
    (fpush (zget (fview s) i) (fview s)).
Proof.
  intros Hs Hc Hi. eapply fdone_bind; [by apply fruns_down|done|]. intros s1 Hs1 Hc1 E.
  eapply fdone_read; [apply runs_st_wrap|]. rewrite E, rot_down_get by done.
  eapply fdone_bind; [by apply fruns_set_st0|done|]. intros s2 Hs2 Hc2 E2.
  apply fdone_cycles; [done..|]. by rewrite E2, E.
Qed.
Lemma fdone_fxch s i : wf s -> cycles_ok 3 s -> 0 <= i < 8 ->
  fdone (t ← st0; v ← st i; set_st0 v;; set_st i t;; add_cycles 3) s
    (zset (zset (fview s) 0 (zget (fview s) i)) i (zget (fview s) 0)).
Proof.
  intros Hs Hc Hi. eapply fdone_read; [by apply runs_st0|].
  eapply fdone_read; [by apply runs_st|].
  eapply fdone_bind; [by apply fruns_set_st0|done|]. intros s1 Hs1 Hc1 E.
  eapply fdone_bind; [by apply fruns_set_st|done|]. intros s2 Hs2 Hc2 E2.
  apply fdone_cycles; [done..|]. by rewrite E2, E, !u64_fview by (done || lia).
Qed.
Lemma fdone_fstp_st s i : wf s -> cycles_ok 3 s -> 0 <= i < 8 ->
  fdone (v ← st0; set_st i v;; move_top 1;; add_cycles 3) s
    (rot_up (zset (fview s) i (zget (fview s) 0))).
Proof.
  intros Hs Hc Hi. eapply fdone_read; [by apply runs_st0|].
  eapply fdone_bind; [by apply fruns_set_st|done|]. intros s1 Hs1 Hc1 E.
  rewrite u64_fview in E by (done || lia). rewrite <- E. by apply fdone_of; [apply fruns_up|].
Qed.
Lemma fdone_fyl2x s : wf s -> cycles_ok 3 s ->
  let vs := fview s in
  fdone ((y ← st 1; x ← st0; set_st 1 (f64_mul y (f64_log2 x));; move_top 1);; add_cycles 3) s
    (rot_up (zset vs 1 (u64 (f64_mul (zget vs 1) (f64_log2 (zget vs 0)))))).
Proof.
  intros Hs Hc vs. apply fdone_of; [|done].
  eapply fruns_read; [by apply runs_st|]. eapply fruns_read; [by apply runs_st0|].
  eapply fruns_bind; [by apply fruns_set_st|]. intros s1 Hs1 E.
  pose proof (fruns_up s1 Hs1) as Hr. by rewrite E in Hr.
Qed.

Lemma x87_reg_done k m i s : decoded m (x87_digit k) (OReg i) s -> x87_operand k = OReg i ->
  x87_ok k -> cycles_ok 3 s -> fdone (x87_body k m) s (x87_view k (x87_x s k) (fview s)).
Proof.
  intros [Hs _ _ Hi Hrg [H3 Hrm]] Eo Hok Hc. cbn [operand_ok] in Hi.
  destruct k; try discriminate Eo; injection Eo as <-; unfold x87_body, op_d9_reg;
    cbn [x87_opcode x87_digit Z.eqb Pos.eqb] in *; rewrite H3, Hrg, ?Hrm;
    cbn [Z.eqb Pos.eqb x87_view].
  - by apply fdone_fld_st.
  - by apply fdone_fxch.
  - by apply fdone_of; [apply (fruns_map_st0 f64_neg)|].
  - apply fdone_of; [|done].
    apply (fruns_map_st0 (fun v => if f64_neg_test v then f64_neg v else v)); [done|].
    destruct (f64_neg_test _); [done|by rewrite u64_fview by (done || lia)].
  - assert (i0 = 0 \/ i0 = 1 \/ i0 = 2 \/ i0 = 3 \/ i0 = 4 \/ i0 = 5 \/ i0 = 6) as Hcs
      by (cbn [x87_ok] in Hok; lia).
    clear Hrm. by repeat destruct Hcs as [-> | Hcs]; try subst i0;
      (apply fdone_of; [exact (fruns_push s _ Hs)|done]).
  - by apply fdone_of; [apply fruns_up|].
  - by apply fdone_of; [apply (fruns_map_st0 f64_sqrt)|].
  - by apply fdone_of; [apply (fruns_map_st0 f64_round)|].
  - apply fdone_of; [|done]. eapply fruns_read; [by apply runs_st0|].
    eapply fruns_read; [by apply runs_st|by apply fruns_set_st0].
  - by apply fdone_fyl2x.
  - by apply fdone_fstp_st.
Qed.

(** The memory forms. *)
Lemma dc_resolve m rg b ix d s : decoded m rg (OMem b ix d) s ->
  runs (resolve_rm_addr m) s (opd_addr s b ix d) s.
Proof.
  intros [Hs Hg _ Ho _ Hm].
  pose proof (runs_resolve s m b ix d Hm (operand_ok_index _ _ _ Ho)) as Hr.
  by rewrite with_seg_same in Hr.
Qed.

Lemma x87_mem_done k m b ix d s : decoded m (x87_digit k) (OMem b ix d) s ->
  x87_operand k = OMem b ix d -> x87_fits s k -> cycles_ok 3 s ->
  exists s', fpu_to (x87_mem k s) (x87_view k (x87_x s k) (fview s)) s' /\
    runs (x87_body k m) s tt (retire 3 s').
Proof.
  intros D Eo Hf Hc. pose proof D as [Hs _ _ _ Hrg [H3 _]].
  pose proof (dc_resolve _ _ _ _ _ _ D) as Hra. unfold x87_fits in Hf. rewrite Eo in Hf.
  cbn [opd_fits] in Hf.
  destruct k; try discriminate Eo; injection Eo as -> -> ->; unfold x87_body;
    cbn [x87_opcode x87_digit Z.eqb Pos.eqb x87_mem x87_x x87_view] in *; rewrite Hrg;
    btest (mrm_mod m =? 3).
  - eapply fdone_read; [exact Hra|].
    eapply fdone_read; [apply runs_mem_read64; [apply Hs|apply u32_range|done]|].
    by apply fdone_of; [apply fruns_push|].
  - set (v := zget (fview s) 0). set (s1 := stored _ _ s).
    assert (wf s1) as Hs1.
    { apply wf_stored; [done|apply u32_range|by rewrite le_bytes_length|apply le_bytes_u8]. }
    destruct (fdone_cycles s1 (fview s) Hs1) as (s' & Hv & Hr); [done|done|].
    exists s'. split; [done|]. eapply runs_bind; [exact Hra|].
    eapply runs_bind; [by apply runs_st0|].
    eapply runs_bind; [apply runs_mem_write64; [done|apply u32_range|done]|exact Hr].
  - set (v := zget (fview s) 0). set (s1 := stored _ _ s).
    assert (wf s1) as Hs1.
    { apply wf_stored; [done|apply u32_range|by rewrite le_bytes_length|apply le_bytes_u8]. }
    destruct (fdone_of (move_top 1) s1 _ (fruns_up s1 Hs1) Hc) as (s' & Hv & Hr).
    exists s'. split; [done|]. eapply runs_bind; [exact Hra|].
    eapply runs_bind; [by apply runs_st0|].
    eapply runs_bind; [apply runs_mem_write64; [done|apply u32_range|done]|exact Hr].
Qed.

Lemma x87_done k m s : decoded m (x87_digit k) (x87_operand k) s -> x87_ok k ->
  x87_fits s k -> cycles_ok 3 s ->
  exists s', fpu_to (x87_mem k s) (x87_view k (x87_x s k) (fview s)) s' /\
    runs (x87_body k m) s tt (retire 3 s').
Proof.
  intros D Hok Hf Hc. destruct (x87_operand k) as [i|b ix d] eqn:Eo.
  - pose proof (x87_reg_done k m i s D Eo Hok Hc) as Hd. by destruct k.
  - by eapply x87_mem_done.
Qed.

(** A turn of the emulator on one of the instructions, by what its handler does to the buffer. *)
Lemma x87_view_turn pf k s :
  wf s -> halted (cpu s) = 0 -> seg s = 0 -> cycles_ok 3 s -> x87_ok k -> x87_fits s k ->
  code_at s (x87_code k) ->
  let s1 := advance (length (x87_code k)) (note_eip s) in
  exists s', estep pf s (retire 3 s') /\
    fpu_to (x87_mem k s1) (x87_view k (x87_x s k) (fview s)) s'.
Proof.
  intros Hs Hh Hg Hc Hok Hf Hcode s1.
  assert (operand_ok (x87_operand k)) as Ho by (destruct k; cbn in *; done || lia).
  assert (0 <= x87_digit k < 8) as Hd by (destruct k; cbn; lia).
  assert (exists s'', (exists s', s'' = retire 3 s' /\
    fpu_to (x87_mem k s1) (x87_view k (x87_x s k) (fview s)) s') /\ estep pf s s'')
    as (_ & (s' & -> & Hs') & Ht); [|by exists s'].
  assert (forall m, decoded m (x87_digit k) (x87_operand k) s1 -> exists s'', (exists s',
    s'' = retire 3 s' /\ fpu_to (x87_mem k s1) (x87_view k (x87_x s k) (fview s)) s') /\
    runs (x87_body k m) s1 tt s'') as Hbody.
  { intros m D. destruct (x87_done k m s1 D Hok) as (s' & Hs' & Hr); [by destruct k|done|].
    exists (retire 3 s'). split; [|done]. exists s'. split; [done|]. by destruct k. }
  assert (x87_opcode k = 0xD9 \/ x87_opcode k = 0xDD) as [Eop|Eop]
    by (destruct k; cbn; lia); unfold x87_code, x87_body in *; rewrite Eop in *;
    cbn [Z.eqb Pos.eqb] in Hbody.
  - eapply (one_byte_turn_ex _ pf s _ H_d9 _ _ (fun m => _));
      [done..|reflexivity|done|reflexivity|exact Hbody].
  - eapply (one_byte_turn_ex _ pf s _ H_dd _ _ (fun m => _));
      [done..|reflexivity|done|reflexivity|]. intros m D.
    destruct (Hbody m D) as (s'' & HQ & Hr). exists s''. split; [done|].
    rewrite (dc_reg _ _ _ _ D) in Hr |- *. by destruct k.
Qed.

(** ** The architecture's stack *)

(** The effect of an instruction on the stack of the registers in use, ST(0) first, after the
    architecture: at most eight registers, a push needs a free one, and an instruction only
    refers to registers in use; [None] is a stack fault.  FCHS inverts the sign bit.  The
    instructions whose value libm or the host computes are not specified. *)
Definition x87_arch (k : x87_op) (x : Z) (vs : list Z) : option (list Z) :=
  let push v := if (length vs <? 8)%nat then Some (v :: vs) else None in
  match k, vs with
  | FLD_ST i, _ => match vs !! Z.to_nat i with Some v => push v | None => None end
  | FCONST i, _ => push (zget x87_consts i)
  | FLD64 _ _ _, _ => push x
  | FXCH i, top :: _ =>
      match vs !! Z.to_nat i with
      | Some v => Some (<[Z.to_nat i := top]> (<[0%nat := v]> vs))
      | None => None
      end
  | FCHS, top :: rest => Some (Z.lxor top (2 ^ 63) :: rest)
  | FST64 _ _ _, _ :: _ => Some vs
  | FSTP64 _ _ _, _ :: rest => Some rest
  | FSTP_ST i, top :: _ =>
      if (Z.to_nat i <? length vs)%nat then Some (drop 1 (<[Z.to_nat i := top]> vs)) else None
  | _, _ => None
  end.

(** The buffer holds the stack [vs]: the registers from the top on are those in use; the others
    hold anything. *)
Definition stack_of s (vs : list Z) : Prop := exists free, fview s = vs ++ free.

(** The store of FST and FSTP. *)
Definition x87_store (k : x87_op) (vs : list Z) s : machine H :=
  match k with
  | FST64 b ix d | FSTP64 b ix d => stored (opd_addr s b ix d) (le_bytes 8 (zget vs 0)) s
  | _ => s
  end.

Lemma stack_of_length s vs free : fview s = vs ++ free -> (length vs + length free = 8)%nat.
Proof. intros E. rewrite <- length_app, <- E. done. Qed.

Lemma zget_app_l (vs free : list Z) i v : vs !! Z.to_nat i = Some v -> zget (vs ++ free) i = v.
Proof.
  intros E. unfold zget. apply list_lookup_total_correct. by apply lookup_app_l_Some.
Qed.

Lemma stack_of_u64 s vs i v : wf s -> stack_of s vs -> vs !! i = Some v -> is_u64 v.
Proof.
  intros Hs [free E] Hv. pose proof (stack_of_length _ _ _ E) as Hl.
  pose proof (lookup_lt_Some _ _ _ Hv) as Hi.
  rewrite <- (zget_app_l vs free (Z.of_nat i) v), <- E by by rewrite Nat2Z.id.
  apply fview_u64; [done|lia].
Qed.

Lemma x87_consts_u64 i : 0 <= i < 7 -> is_u64 (zget x87_consts i).
Proof.
  intros Hi. apply zget_Forall; [|cbn; lia]. repeat (constructor; [done|]). constructor.
Qed.

(** FST and FSTP store ST(0). *)
Lemma x87_mem_store k vs vs' s x : stack_of s vs -> x87_arch k x vs = Some vs' ->
  let s1 := advance (length (x87_code k)) (note_eip s) in x87_mem k s1 = x87_store k vs s1.
Proof.
  intros [free E] Hk s1. change (fview s) with (fview s1) in E.
  destruct k; try done; cbn [x87_mem x87_store x87_arch] in *;
    (destruct vs as [|top vs]; [done|by rewrite E]).
Qed.

(** FABS is [x < 0 ? -x : x]: where the host's comparison follows IEEE 754, negative zero keeps
    its sign, which the architecture clears. *)
Lemma fabs_negative_zero s vs : fview s = 2 ^ 63 :: vs ->
  f64_neg_test (2 ^ 63) = false -> x87_view FABS 0 (fview s) = fview s.
Proof.
  intros E Ht. rewrite E. cbn [x87_view].
  change (zget (2 ^ 63 :: vs) 0) with (2 ^ 63). by rewrite Ht.
Qed.

(** The three ways the stack moves. *)
Lemma fpush_app v vs free : is_u64 v -> (length vs < 8)%nat ->
  fpush v (vs ++ free) = (v :: vs) ++ take (7 - length vs) free.
Proof.
  intros Hv Hl. unfold fpush. rewrite u64_small by done. cbn [app]. f_equal.
  rewrite take_app, take_ge by lia. done.
Qed.
Lemma zset_app (vs free : list Z) i v : (Z.to_nat i < length vs)%nat ->
  zset (vs ++ free) i v = <[Z.to_nat i := v]> vs ++ free.
Proof. intros Hi. unfold zset. by apply insert_app_l. Qed.
Lemma rot_up_app (v : Z) (vs free : list Z) : rot_up ((v :: vs) ++ free) = vs ++ free ++ [v].
Proof. change (rot_up ((v :: vs) ++ free)) with ((vs ++ free) ++ [v]). by rewrite <- app_assoc. Qed.
Lemma flip_sign_u64 v : is_u64 v -> u64 (Z.lxor v (2 ^ 63)) = Z.lxor v (2 ^ 63).
Proof.
  intros Hv. rewrite <- (u64_small v) by done. apply Z.bits_inj'. intros i Hi.
  rewrite testbit_u64, Z.lxor_spec, testbit_u64, Z.pow2_bits_eqb by lia.
  destruct (Z.ltb_spec i 64), (Z.eqb_spec 63 i); cbn; (done || lia).
Qed.

Lemma x87_view_arch k x s vs vs' : wf s -> x87_ok k -> is_u64 x ->
  (forall v, is_u64 v -> f64_neg v = Z.lxor v (2 ^ 63)) ->
  stack_of s vs -> x87_arch k x vs = Some vs' ->
  exists free, x87_view k x (fview s) = vs' ++ free.
Proof.
  intros Hs Hok Hx Hneg Hst Hk. pose proof (stack_of_u64 s vs) as Hu.
  destruct Hst as [free E]. pose proof (stack_of_length _ _ _ E) as Hl. rewrite E in *.
  assert (forall i v, vs !! i = Some v -> is_u64 v) as Hv.
  { intros i v. apply Hu; [done|by exists free]. }
  clear Hu. destruct k; cbn [x87_arch x87_view x87_ok x87_operand operand_ok] in *.
  - destruct (vs !! Z.to_nat i) as [v|] eqn:Ei; [|done]. rewrite (zget_app_l _ _ _ _ Ei).
    destruct (Nat.ltb_spec (length vs) 8); [|done]. injection Hk as <-.
    eexists. apply fpush_app; [by eapply Hv|done].
  - destruct vs as [|top vs]; [done|].
    destruct ((top :: vs) !! Z.to_nat i) as [v|] eqn:Ei; [|done]. injection Hk as <-.
    rewrite (zget_app_l _ _ _ _ Ei). pose proof (lookup_lt_Some _ _ _ Ei) as Hi.
    rewrite (zset_app _ _ 0) by (cbn; lia). rewrite zset_app by (rewrite length_insert; done).
    by exists free.
  - destruct vs as [|top vs]; [done|]. injection Hk as <-. exists free.
    change (zget ((top :: vs) ++ free) 0) with top. rewrite Hneg by by apply (Hv 0%nat).
    rewrite flip_sign_u64 by by apply (Hv 0%nat). done.
  - destruct vs; discriminate.
  - destruct (Nat.ltb_spec (length vs) 8); [|done]. injection Hk as <-.
    eexists. apply fpush_app; [by apply x87_consts_u64|done].
  - destruct vs; discriminate.
  - destruct vs; discriminate.
  - destruct vs; discriminate.
  - destruct vs; discriminate.
  - destruct vs; discriminate.
  - destruct (Nat.ltb_spec (length vs) 8); [|done]. injection Hk as <-.
    eexists. by apply fpush_app.
  - destruct vs; [done|]. injection Hk as <-. by exists free.
  - destruct vs as [|top vs]; [done|]. injection Hk as <-. eexists. apply rot_up_app.
  - destruct vs as [|top vs]; [done|].
    destruct (Nat.ltb_spec (Z.to_nat i) (length (top :: vs))); [|done]. injection Hk as <-.
    change (zget ((top :: vs) ++ free) 0) with top. rewrite zset_app by done.
    destruct (<[Z.to_nat i := top]> (top :: vs)) as [|v ws] eqn:Ei.
    + apply (f_equal length) in Ei. rewrite length_insert in Ei. done.
    + eexists. apply rot_up_app.
Qed.

(** C20: the x87 register stack.  The circular buffer [fpu_stack], [fpu_top] implements the
    architecture's stack of at most eight registers: when the buffer holds the stack [vs], a
    turn of the emulator on FLD ST(i), FLD m64, a load of a constant, FST and FSTP m64, FSTP
    ST(i), FXCH or FCHS that is not a stack fault on [vs] leaves the buffer with the stack
    [x87_arch] says - wherever the top is in the buffer - writes the eight bytes of ST(0) to
    the operand of a store and no other byte, and leaves every other part of the machine alone
    but EIP and the cycle count.  The host's negation is assumed to invert the sign bit.  There
    are no tags: a push onto a full stack, a fault in the architecture, is outside the claim. *)
Theorem x87_stack_refines pf k vs vs' s :
  wf s -> halted (cpu s) = 0 -> seg s = 0 -> cycles_ok 3 s -> x87_ok k -> x87_fits s k ->
  code_at s (x87_code k) -> (forall v, is_u64 v -> f64_neg v = Z.lxor v (2 ^ 63)) ->
  stack_of s vs -> x87_arch k (x87_x s k) vs = Some vs' ->
  exists l t, let s1 := advance (length (x87_code k)) (note_eip s) in
    let s' := with_fpu l t (x87_store k vs s1) in
    estep pf s (retire 3 s') /\ wf s' /\ stack_of s' vs'.
Proof.
  intros Hs Hh Hg Hc Hok Hf Hcode Hneg Hst Hk.
  destruct (x87_view_turn pf k s Hs Hh Hg Hc Hok Hf Hcode) as (s' & Ht & Hw & Hv & l & t & E).
  assert (is_u64 (x87_x s k)) as Hx by (destruct k; cbn; try done; by apply rd64_u64, Hs).
  destruct (x87_view_arch k (x87_x s k) s vs vs' Hs Hok Hx Hneg Hst Hk) as [free Ef].
  exists l, t. cbv zeta. rewrite <- (x87_mem_store k vs vs' s (x87_x s k) Hst Hk).
  rewrite <- E. split; [done|]. split; [done|]. exists free. by rewrite Hv.
Qed.
End x87.

(** FLD qword [EBX + 8] onto a stack of one, from the initial top 0, which wraps to 7. *)
Lemma x87_stack_refines_witness :
  let k := FLD64 (Some REG_EBX) None 8 in
  let s := toy_machine [0; 0; 0; 0x2000; 0; 0; 0; 0] 0x1000
             [(0x1000, x87_code k); (0x2008, [1; 2; 3; 4; 5; 6; 7; 8])] in
  exists s', estep 8 s (retire 3 s') /\ stack_of s' [0x0807060504030201; 0].
Proof.
  intros k s.
  destruct (x87_stack_refines 8 k [0] [0x0807060504030201; 0] s) as (l & t & Ht & _ & Hst).
  - by apply wf_toy.
  - done.
  - done.
  - done.
  - split; [|split]; [by intros r [= <-]|done|done].
  - by vm_compute.
  - by split.
  - done.
  - by exists (replicate 7 0).
  - by vm_compute.
  - eexists. split; [exact Ht|exact Hst].
Defined.
