(* ===== verification/Byte.v ===== *)
(** The 8-bit instructions with a ModR/M byte against the architecture, as whole turns of the
    emulator.  Results, CF, PF and ZF are the architectural ones; the helpers for SF and OF
    test bit 31 of the 8-bit result, so those two flags are not. *)
From S2P Require Import Prelude CInt Machine Logic Mem Flags ModRM OpsAlu OpsMove OpsFpu.
From S2P Require Import Backend Toy Dispatch Safety Invariant Exec Decode Alu Arith Branch.
From S2P Require Import Move.

Inductive byte_op := ADD8 | ADC8 | CMP8 | AND8 | XOR8 | TEST8 | MOV8.

(** The opcodes: operation, and whether the register field is the destination. *)
Definition byte_forms : list (Z * (byte_op * bool)) :=
  [ (0x00, (ADD8, false)); (0x02, (ADD8, true)); (0x10, (ADC8, false)); (0x12, (ADC8, true));
    (0x20, (AND8, false)); (0x22, (AND8, true)); (0x30, (XOR8, false));
    (0x38, (CMP8, false)); (0x3A, (CMP8, true)); (0x84, (TEST8, false));
    (0x88, (MOV8, false)); (0x8A, (MOV8, true)) ].

(** Result and status flags of the architecture (Intel SDM vol. 2); MOV has no flags. *)
Definition byte_eval (op : byte_op) (a b : Z) (cf : bool) : Z * status :=
  match op with
  | ADD8 => alu_add 8 a b 0
  | ADC8 => alu_add 8 a b (Z.b2z cf)
  | CMP8 => alu_sub 8 a b 0
  | AND8 | TEST8 => alu_logic 8 (Z.land a b)
  | XOR8 => alu_logic 8 (Z.lxor a b)
  | MOV8 => alu_logic 8 b
  end.

Section byte.
Context {H : Type} `{HostOS H} `{FloatOps}.
Implicit Types s : machine H.

Definition wr_opd8 (o : operand) (v : Z) s : machine H :=
  match o with
  | OReg r => rset8 r v s
  | OMem b ix d => upd_mem (wr8 (opd_addr s b ix d) v) s
  end.

(** The flags the handlers leave: CF, PF and ZF of the architecture, SF clear; OF clear after
    arithmetic, kept by the logical instructions. *)
Definition byte_status (op : byte_op) (e : status) s : status :=
  match op with
  | ADD8 | ADC8 | CMP8 => mk_status (CF e) (PF e) (ZF e) false false
  | AND8 | XOR8 | TEST8 => mk_status (CF e) (PF e) (ZF e) false (OF (old_status s))
  | MOV8 => old_status s
  end.

Definition byte_step (op : byte_op) (to_reg : bool) (rg : Z) (o : operand) s : machine H :=
  let dst := if to_reg then OReg rg else o in
  let src := if to_reg then o else OReg rg in
  let e := byte_eval op (rd_opd8 s dst) (rd_opd8 s src) (carry s) in
  retire 2 (match op with MOV8 => id | _ => set_status (byte_status op e.2 s) end
             (match op with CMP8 | TEST8 => s | _ => wr_opd8 dst e.1 s end)).

(** ** Flags *)

Lemma u8_bit31 r : is_u8 r -> Z.testbit r 31 = false.
Proof. intros Hr. apply (is_u8_bits r); [done|lia]. Qed.

Lemma carry8 a b c : is_u8 a -> is_u8 b -> 0 <= c <= 1 ->
  (u8 (a + b + c) <? a) || (negb (c =? 0) && (u8 (a + b + c) =? a)) = (2 ^ 8 <=? a + b + c).
Proof.
  intros. change (2 ^ 8) with 256. assert (c = 0 \/ c = 1) as [-> | ->] by lia;
    destruct (Z.leb_spec 256 (a + b + 0)), (Z.leb_spec 256 (a + b + 1)); cint.
Qed.

Lemma runs_byte_add s a b r cf c : wf s -> cycles_ok 2 s -> is_u8 a -> is_u8 b -> is_u8 r ->
  negb (cf =? 0) = c ->
  runs (set_cf cf;; set_zf r;; set_sf r;; set_pf r;; set_of_add a b r;; add_cycles 2) s tt
    (retire 2 (set_status (mk_status c (parity8 r) (r =? 0) false false) s)).
Proof.
  intros Hs Hc Ha Hb Hr <-. do 5 (eapply runs_bind; [solve [eauto with run]|]).
  eapply runs_eq; [apply runs_retire; [|done..]|done|].
  - do 5 (apply wf_put_flag; [lia|lia|done|]). done.
  - by rewrite !u8_bit31 by done.
Qed.
Lemma runs_byte_sub s a b r cf c : wf s -> cycles_ok 2 s -> is_u8 a -> is_u8 b -> is_u8 r ->
  negb (cf =? 0) = c ->
  runs (set_cf cf;; set_zf r;; set_sf r;; set_pf r;; set_of_sub a b r;; add_cycles 2) s tt
    (retire 2 (set_status (mk_status c (parity8 r) (r =? 0) false false) s)).
Proof.
  intros Hs Hc Ha Hb Hr <-. do 4 (eapply runs_bind; [solve [eauto with run]|]).
  eapply runs_bind; [apply runs_set_of_sub; unfold is_u8, is_u32 in *; lia|].
  eapply runs_eq; [apply runs_retire; [|done..]|done|].
  - do 5 (apply wf_put_flag; [lia|lia|done|]). done.
  - by rewrite !u8_bit31 by done.
Qed.
Lemma runs_byte_logic r s s' : wf s' -> cycles_ok 2 s' -> is_u8 r ->
  old_status s' = old_status s ->
  runs (set_zf r;; set_sf r;; set_pf r;; set_cf 0;; add_cycles 2) s' tt
    (retire 2 (set_status (mk_status false (parity8 r) (r =? 0) false (OF (old_status s))) s')).
Proof.
  intros Hs Hc Hr E. pose proof (runs_logic_tail 2 r s s' Hs ltac:(done) Hc E) as Ht.
  unfold logic_status in Ht. by rewrite u8_bit31 in Ht.
Qed.

(** The tails of the handlers leave the specified flags. *)
Lemma byte_res_add a b c : (alu_add 8 a b c).1 = u8 (a + b + c).
Proof. done. Qed.
Lemma runs_tail_add s s0 s' a b : wf s' -> cycles_ok 2 s' -> is_u8 a -> is_u8 b ->
  s = s' -> let r := u8 (a + b) in
  runs (set_cf (Z.b2z (r <? a));; set_zf r;; set_sf r;; set_pf r;; set_of_add a b r;;
        add_cycles 2) s tt (retire 2 (set_status (byte_status ADD8 (alu_add 8 a b 0).2 s0) s')).
Proof.
  intros Hs Hc Ha Hb -> r. subst r. pose proof (carry8 a b 0 Ha Hb ltac:(lia)) as E.
  cbn [Z.eqb negb andb] in E. rewrite orb_false_r, Z.add_0_r in E.
  cbn [byte_status alu_add snd CF PF ZF]. rewrite Z.add_0_r.
  apply (runs_byte_add s' a b (u8 (a + b))); auto with zrange. by rewrite b2z_neq0.
Qed.
Lemma runs_tail_adc s s0 s' a b cf : wf s' -> cycles_ok 2 s' -> is_u8 a -> is_u8 b ->
  s = s' -> let c := Z.b2z cf in let r := u8 (a + b + c) in
  runs (set_cf (Z.b2z ((r <? a) || (negb (c =? 0) && (r =? a))));; set_zf r;; set_sf r;;
        set_pf r;; set_of_add a b r;; add_cycles 2) s tt
    (retire 2 (set_status (byte_status ADC8 (alu_add 8 a b c).2 s0) s')).
Proof.
  intros Hs Hc Ha Hb -> c r. subst r.
  assert (0 <= c <= 1) as Hc1 by (destruct cf; cbn; lia).
  apply (runs_byte_add s' a b (u8 (a + b + c))); auto with zrange.
  rewrite b2z_neq0. by apply carry8.
Qed.
Lemma runs_tail_cmp s s0 a b : wf s -> cycles_ok 2 s -> is_u8 a -> is_u8 b ->
  let r := u8 (a - b) in
  runs (set_cf (Z.b2z (a <? b));; set_zf r;; set_sf r;; set_pf r;; set_of_sub a b r;;
        add_cycles 2) s tt (retire 2 (set_status (byte_status CMP8 (alu_sub 8 a b 0).2 s0) s)).
Proof.
  intros Hs Hc Ha Hb r. subst r. cbn [byte_status alu_sub snd CF PF ZF].
  rewrite Z.add_0_r, Z.sub_0_r. 
  apply (runs_byte_sub s a b (u8 (a - b))); auto with zrange. apply b2z_neq0.
Qed.

(** ** Operands *)

Lemma wf_wr_opd8 o v s : wf s -> wf (wr_opd8 o v s).
Proof. intros Hs. destruct o; cbn; [by apply wf_rset|apply wf_wr8; [done|apply u32_range]]. Qed.
Lemma old_status_wr_opd8 o v s : old_status (wr_opd8 o v s) = old_status s.
Proof. by destruct o. Qed.
Lemma cycles_ok_wr_opd8 k o v s : cycles_ok k s -> cycles_ok k (wr_opd8 o v s).
Proof. by destruct o. Qed.

Section with_decoded.
Context (m : ModRM) (rg : Z) (o : operand) s (D : decoded m rg o s).

Lemma dc_get_reg8 : runs (get_reg8 (mrm_reg m)) s (rd_opd8 s (OReg rg)) s.
Proof. destruct D as [_ _ _ _ -> _]. apply runs_get_reg8. Qed.
Lemma dc_set_reg8 v : runs (set_reg8 (mrm_reg m) v) s tt (wr_opd8 (OReg rg) v s).
Proof. destruct D as [_ _ _ _ -> _]. apply runs_set_reg8. Qed.
Lemma dc_write8 v : runs (write_rm8 m v) s tt (wr_opd8 o v s).
Proof.
  destruct D as [Hs Hg _ Ho _ Hm]. unfold write_rm8. destruct o as [r|b ix d].
  - destruct Hm as [-> ->]. apply runs_set_reg8.
  - pose proof Hm as [H3 _]. btest (mrm_mod m =? 3).
    eapply runs_bind; [by eapply runs_resolve, operand_ok_index|].
    rewrite with_seg_same by done. apply runs_mem_write8, u32_range.
Qed.
End with_decoded.

(** One read or write of the decoded operands. *)
#[local] Ltac byte_dc D :=
  eapply runs_bind; [first [exact (dc_read8 _ _ _ _ D)|exact (dc_get_reg8 _ _ _ _ D)
    |exact (dc_get_cf _)|exact (dc_write8 _ _ _ _ D _)|exact (dc_set_reg8 _ _ _ _ D _)]|];
  cbv beta zeta.
#[local] Ltac byte_case pf s s1 h rg o tail :=
  let m := fresh "m" in let D := fresh "D" in
  eapply (one_byte_turn pf s _ h rg o);
    [eassumption..|reflexivity|done|reflexivity|]; intros m D; cbv beta;
  change (decoded m rg o s1) in D;
  match goal with |- runs ?b _ tt ?r => change (runs b s1 tt r) end; clearbody s1;
  repeat byte_dc D; unfold byte_step; cbv zeta iota; cbn [byte_eval];
  pose proof (rd_opd8_u8 s1 o (dc_wf _ _ _ _ D));
  pose proof (rd_opd8_u8 s1 (OReg rg) (dc_wf _ _ _ _ D));
  pose proof (dc_wf _ _ _ _ D); tail.

#[local] Ltac by_tail tail :=
  eapply tail; try lia; try first [by apply wf_wr_opd8|by apply cycles_ok_wr_opd8
    |by apply old_status_wr_opd8|by auto with zrange].
#[local] Ltac by_tail_add := rewrite byte_res_add, Z.add_0_r; by_tail runs_tail_add.

(** C19: the 8-bit instructions.  A turn of the emulator on ADD, ADC, CMP, AND, XOR, TEST or MOV
    of byte operands, any byte register or memory cell, in both directions, stores the result
    of the architecture in the byte destination alone and sets CF, PF and ZF as it says; the
    sign of the result is lost - SF is always cleared - and OF is cleared by the arithmetic
    instructions and left alone by the logical ones. *)
Theorem byte_turn pf opc op to_reg rg o s :
  (opc, (op, to_reg)) ∈ byte_forms ->
  wf s -> halted (cpu s) = 0 -> seg s = 0 -> cycles_ok 2 s -> 0 <= rg < 8 -> operand_ok o ->
  code_at s ([opc] ++ encode rg o) ->
  estep pf s (byte_step op to_reg rg o (advance (1 + length (encode rg o)) (note_eip s))).
Proof.
  intros Hin Hs Hh Hg Hc Hrg Ho Hcode.
  set (s1 := advance _ _).
  assert (cycles_ok 2 s1) as Hc1 by exact Hc.
  unfold byte_forms in Hin. rewrite !elem_of_cons in Hin.
  destruct Hin as [E|[E|[E|[E|[E|[E|[E|[E|[E|[E|[E|[E|E]]]]]]]]]]]];
    [..|by apply elem_of_nil in E]; injection E as -> -> ->.
  - byte_case pf s s1 H_add_rm8_r8 rg o ltac:(by_tail_add).
  - byte_case pf s s1 H_add_r8_rm8 rg o ltac:(by_tail_add).
  - byte_case pf s s1 H_adc_rm8_r8 rg o ltac:(by_tail runs_tail_adc).
  - byte_case pf s s1 H_adc_r8_rm8 rg o ltac:(by_tail runs_tail_adc).
  - byte_case pf s s1 H_and_rm8_r8 rg o ltac:(by_tail runs_byte_logic).
  - byte_case pf s s1 H_and_r8_rm8 rg o ltac:(by_tail runs_byte_logic).
  - byte_case pf s s1 H_xor_rm8_r8 rg o ltac:(by_tail runs_byte_logic).
  - byte_case pf s s1 H_cmp_rm8_r8 rg o ltac:(by_tail runs_tail_cmp).
  - byte_case pf s s1 H_cmp_r8_rm8 rg o ltac:(by_tail runs_tail_cmp).
  - byte_case pf s s1 H_test_rm8_r8 rg o ltac:(by_tail runs_byte_logic).
  - byte_case pf s s1 H_mov_rm8_r8 rg o ltac:(by_tail (@runs_retire H)).
  - byte_case pf s s1 H_mov_r8_rm8 rg o ltac:(by_tail (@runs_retire H)).
Qed.
End byte.

(** ADD AH, [EBX + 1] wraps around with a carry and keeps AL; CMP DL, CL of equal bytes. *)
Lemma byte_turn_witness :
  let o := OMem (Some REG_EBX) None 1 in
  let s code := toy_machine [0xFF34; 5; 5; 0x2000; 0; 0; 0; 0] 0x1000
                  [(0x1000, code); (0x2001, [2])] in
  let s1 := s ([0x02] ++ encode 4 o) in
  let s2 := s ([0x38] ++ encode 1 (OReg 2)) in
  (exists t, estep 8 s1 t /\ rget t REG_EAX = 0x0134 /\ carry t = true) /\
  (exists t, estep 8 s2 t /\ ZF (old_status t) = true).
Proof.
  intros o s s1 s2. split; eexists.
  - split; [apply (byte_turn 8 0x02 ADD8 true 4 o s1)|vm_compute; by split].
    + right. left.
    + by apply wf_toy.
    + done.
    + done.
    + done.
    + lia.
    + split; [|split]; [by intros r [= <-]|done|done].
    + by split.
  - split; [apply (byte_turn 8 0x38 CMP8 false 1 (OReg 2) s2)|vm_compute; reflexivity].
    + do 7 right. left.
    + by apply wf_toy.
    + done.
    + done.
    + done.
    + lia.
    + cbn. lia.
    + by split.
Defined.
